(* ===== verification/_CoqProject ===== *)
-Q . S2P
Prelude.v
GoStrings.v
GoSlices.v
GoTime.v
Envelope.v
DotReader.v
Aliases.v
Store.v
DomainInfo.v
Auth.v
Haproxy.v
Conn.v
TlsCiphers.v
ConnText.v
ConnProps.v
ConnQueue.v
Queue.v
QueueProps.v
QueueConc.v
QueueConcProps.v
QueueOrigin.v
Integration.v
Sts.v
StsCache.v
SmtpClient.v
Courier.v
CourierProps.v
Relay.v
Dkim.v
DkimProps.v
DkimSign.v
DkimConn.v
Nettrace.v
NettraceProps.v
NettraceInv.v
Logs.v
Dovecot.v
DovecotProps.v
LocalRpc.v
LocalRpcProps.v
Config.v
Server.v
Serving.v
System.v
Main.v
MainProps.v
Util.v
UtilProps.v
UtilDkim.v
Lmtp.v
Expvarom.v
Tools.v
