(* ===== verification/Prelude.v ===== *)
(** * Verification library of chasquid

    chasquid is an SMTP server: it takes mail from the network, resolves the
    recipients, keeps the mail in a queue on disk and delivers it, to local
    users through a mail delivery agent and to other servers by SMTP.  This
    library is a model of the Go code under src/ with proofs of what makes it
    correct.  A Go function is a Rocq function of the same name; a method
    takes its receiver as an argument and returns it changed; [(T, error)]
    is [res E T] where the value is of no use on an error, a pair otherwise;
    what a mutex protects is one argument that is passed through.

    ** The parts, and the files that model them

    - Prelude.v: byte strings and their literals, results, 64-bit integers,
      generic lemmas and tactics.
    - GoStrings.v: what the code uses of the standard library's [strings],
      [unicode/utf8], [strconv] and [fmt]: strings are lists of bytes, runes
      are decoded as Go decodes them, invalid sequences included.
    - GoSlices.v, GoTime.v: indices, remainders and sorting of slices as Go
      has them, and the times, durations and their rounding.
    - Envelope.v: internal/set (Module StringSet), internal/envelope (Module
      Envelope) and internal/normalize (Module Normalize).
    - DotReader.v: [readUntilDot] of internal/smtpsrv/dotreader.go, the state
      machine that reads the message after DATA, and the line format of
      RFC 5321 that it is shown to implement.
    - Aliases.v: internal/aliases: the files and their parser, the resolver
      with hook, suffixes, drop characters, catch-all and recursion limit.
    - Store.v: internal/safeio (Module Safeio: files replaced atomically, on a
      disk that is a map from names to contents, with all the states that a
      crash can leave behind) and internal/protoio (Module Protoio: the store
      of messages).
    - DomainInfo.v: internal/domaininfo, the security level of each domain.
    - Auth.v: internal/auth (Module Auth, with base64 in Module Base64) and
      internal/userdb (Module UserDB).
    - Haproxy.v: internal/haproxy.
    - Conn.v: internal/smtpsrv/conn.go, all of it: the state of a connection
      is the record [Conn], each command a function from it to the new state
      and the reply, and [Handle] the loop that reads commands from the bytes
      that the client sends.  internal/tlsconst is Module TlsConst, and its
      table of cipher suites TlsCiphers.v.
    - ConnText.v, ConnProps.v: what is proved of Conn.v.  ConnQueue.v: a turn of
      the command loop touches the queue only through one [Put], of DATA.
    - Queue.v: internal/queue (queue.go and dsn.go): the items in memory and on
      disk, [Put], [Load], the send loop and the notifications.
    - QueueProps.v: what is proved of Queue.v.
    - QueueConc.v, QueueConcProps.v: the queue with everything that runs at the
      same time: a step relation over the goroutines of the clients and of the
      items, with writes that are interrupted, crashes and restarts; its
      invariant, and what follows from it.  QueueOrigin.v: where the envelopes in
      the queue, on the disk and with the couriers come from.
    - Integration.v: the connection handler over the queue: the queue is an
      instance of the interface [MailQueue] that Conn.v is written against.
    - Sts.v: internal/sts: MTA-STS policies, fetching and the cache.  StsCache.v:
      the cache over time, with the background refresh.
    - SmtpClient.v: internal/smtp, over the parts of net/smtp and
      net/textproto that it uses, which are written out: the client reads the
      bytes that the server sends and records what it sends and on which
      channel.
    - Courier.v, CourierProps.v: internal/courier: remote delivery by SMTP and
      local delivery by an external program, and what is proved of them.
    - Relay.v: the client of the courier and the connection handler as the two
      ends of a connection.
    - Dkim.v, DkimProps.v: internal/dkim: messages, canonicalization, tag lists,
      keys, verification and signing, and what is proved of them.
    - DkimSign.v: the round trip of signing and verifying.
    - DkimConn.v: DKIM as the instance of the interface [Dkim] of Conn.v, and
      what one connection signs at another one.
    - Nettrace.v, NettraceProps.v, NettraceInv.v: internal/nettrace: the traces
      are a store whose locations stand for the pointers between them; the ring
      of events, the families with their buckets and histograms, the lookups and
      the data of the pages; what is proved of them, and the states that the
      operations lead to.
    - Logs.v: internal/trace (Module Trace) and internal/maillog (Module
      Maillog), with the text that they write.
    - Dovecot.v, DovecotProps.v: internal/dovecot, the other instance of the
      interface [Backend] of Auth.v, and what is proved of it.
    - LocalRpc.v, LocalRpcProps.v: internal/localrpc, both ends, with the
      query strings of net/url.
    - Config.v: internal/config.
    - Server.v: internal/smtpsrv/server.go: the server that is set up, reloaded
      and listens, and its RPC handlers (package path is Module Path).
    - Serving.v: the server at work: a step relation over the connections that
      run at the same time, with what they share and its reloads.
    - System.v: the whole server: the steps of Serving.v and of QueueConc.v
      together, in which a connection waits for its [Put] while the rest goes on.
    - Main.v, MainProps.v: chasquid.go: from the files to the server that runs,
      its signals, and what is proved of them.
    - Util.v, UtilProps.v, UtilDkim.v: cmd/chasquid-util, in a monad of output,
      files and fatal errors, and what is proved of its commands.
    - Lmtp.v: cmd/mda-lmtp.
    - Expvarom.v: internal/expvarom, the page of metrics.
    - Tools.v: cmd/smtp-check (Module SmtpCheck), cmd/dovecot-auth-cli (Module
      DovecotCli) and monitoring.go, its handlers and the server that calls them
      (Module Monitoring).

    ** How they interact

    [Conn.Smtpsrv.RCPT] resolves users with Aliases.v and Auth.v, [MAIL] checks
    the security level with DomainInfo.v, [DATA] reads with DotReader.v, adds
    headers with Envelope.v, and puts the message in the queue.  The queue
    resolves the recipients with Aliases.v, writes the item with Store.v, and
    its send loop calls the couriers; it queues a notification with its own
    [Put].  The SMTP courier asks Sts.v for a policy and DomainInfo.v for the
    level.  [Main.main] loads Config.v, sets up the Server.v with users,
    aliases, keys, Dovecot, domain information and queue, and listens; the
    signals reload it.  chasquid-util writes the files that the server loads,
    and asks the server through LocalRpc.v; mda-lmtp is what the local courier
    runs.  Client and implementation meet at classes: [MailQueue] and [Dkim]
    (what the connection needs of the queue and of DKIM), [Backend] (what
    authentication needs of users), [ProtoText] (the text encoding of
    messages).

    ** What is outside

    Third-party code is a parameter, a class: [Precis] (golang.org/x's PRECIS,
    IDNA and NFC), [Unicode] (the tables of package unicode beyond ASCII),
    [NetMail] (net/mail), [NetIP], [X509], [ProtoText] (prototext, with
    [ProtoTextOk]: what was marshalled is unmarshalled to the same message),
    [ProtoWire] (its binary encoding),
    [PolicyJSON], [Dkim.Crypto], [KeyFiles] and [KeyTools] (the keys of
    the standard library's crypto, as the server and chasquid-util use them),
    [SortSlice] (a sort that need not be stable), scrypt and bcrypt.  Module
    [AsciiOnly] and the [Example] modules have concrete instances, on which the models run.  The operating
    system and the network answer through records ([syscalls], [env],
    [round_env], [netconn]...) over which the theorems quantify: files that
    cannot be read, disks that fail at any step, connections that break,
    handshakes that fail, deliveries that complete in any order.

    ** What is proved

    - Receiving: [readUntilDot] accepts exactly the payloads of RFC 5321, so
      there is no SMTP smuggling, and stays in step on oversized ones; no
      connection, whatever the clients send and however connections and reloads
      interleave, makes the server a relay for clients that did not authenticate:
      what the couriers are given comes from a client that could send it
      over that same connection (System.v); a message that was acknowledged is
      not lost, wherever the process stops afterwards (System.v);
      authentication needs TLS; STARTTLS drops the envelope and the input that
      came before it, and keeps the greeting; DATA says 250 exactly when the
      queue took the message, with the payload unchanged, and then the message is on the
      disk, so that it survives a crash (Integration.v); every connection
      ends.
    - Queue: mail that was accepted is never lost, whatever runs at the same
      time and wherever the process stops: it is on the disk until every
      recipient got it or what failed was reported to the sender, unless that
      is <> or the queue refused the report; nobody is sent a message again
      once the result is on the disk; how far concurrent [Put]s can go over the
      limit, or over what a restart loaded; the operations of Queue.v are runs
      of the steps of QueueConc.v ([Put_simulated]...).  The send loop of an item ends, with each
      recipient tried until settled or time is up, in whatever order the
      parallel attempts complete; failures are reported to the sender.
    - Policies: what the MTA-STS cache gives is valid, and is what the domain
      published within its maximum age, whatever happened to the cache before.
    - Delivering: mail travels only on channels that are as secure as before
      and that the MTA-STS policy of the domain allows; five servers of a domain
      are dialled at most, in order and twice each at most; errors are permanent
      for 5xx replies and for domains that have no server, but not for temporary
      errors of the resolver; a delivery that counts as done at one server is in
      the queue of the other one, unchanged (Relay.v).
    - DKIM: what a valid signature vouches for, up to collisions of the hash and
      signatures that fit two texts; what a server signs another one finds
      valid, whatever headers were added on the way; the relaxed body, computed
      with regular expressions, is line by line the one of RFC 6376, but for a
      last line without CRLF and bodies of blank lines; how verification ends,
      and that it is the only thing that can keep DATA from answering.
    - Aliases: resolutions are final, loops are errors, the limit does not
      change any answer; the last line wins; reloads are all or nothing.
    - State: files are replaced atomically; stores, the user database, domain
      information and policies are read back as written; levels never go
      down.
    - Logins: what is accepted was vouched for by the domain's database or by
      Dovecot; no user name or password can add anything to what Dovecot is
      sent.
    - Set-up: a configuration that loads is valid and is the defaults under the
      file under the command line; the server that runs has the domains, users,
      limits and sockets that were configured, now and after any signals and
      periodic reloads.
    - Programs: a user that chasquid-util adds can log in, to the server too; a
      DKIM key that it makes is the one that the server signs with and that
      others verify with; what it asks of the server is what the server does,
      as a call over the local socket is a call of the handler; the exit status
      of mda-lmtp makes the courier keep what was not accepted.
    - Observability: in every state of the tracer nothing dangles, sizes are
      bounded and no operation fails; a trace keeps its first and last events;
      its page ends, whatever the links are, and shows every event once; every
      page can be rendered; the page of metrics is read back as the values, with each key as a label.
    - Text: CRLF conversion, headers that cannot be split, safe hook output
      and arguments, response format, PLAIN responses, the PROXY line.

    Each property is a [Theorem] with a comment that starts with its number;
    those with hypotheses have a [_witness] that applies them to a concrete
    case.  Theorems without a number are of the same kind, and others build on
    some of them.  Some further lemmas show behaviour that looks unintended, among
    them [Deliver_outcomes] (a slash in a domain), [mustIDNAToASCII_unused],
    [catch_all_takes_suffixed_user], [stale_dkim_results],
    [writeResponse_drops_unterminated], [max_age_overflow],
    [auth_sleep_panics], [long_l_panics], [repeated_header_fails],
    [forbidden_and_allowed] and [truncated_message].

    ** Bounds and fuel

    [Smtpsrv.Handle] takes a number of iterations; [Handle_terminates] shows
    that one more than the bytes of input is enough for any connection.
    [SendLoop] takes a number of rounds; [SendLoop_outcome] shows that one
    per minute of [GiveUpAfter] is enough, as the delay between rounds is at
    least a minute ([nextDelay_range]).  [Aliases.resolve_left] recurses on
    the levels that are left of [recursionLimit].  [Split] and the reading of
    replies use the length of their input ([split_fuel_enough],
    [read_more_enough]).  The walk over the references of a trace goes one
    level deeper than there are traces ([allEvents_correct]).  Integers are kept
    at their width where they can overflow ([wrap64]); lengths and counters that
    are bounded by memory are unbounded.

    ** What is not modelled

    Timeouts of connections are the end of their streams.  The calls that other
    components make to traces, metrics and logs have no effect on them and are
    left out; those components are modelled by themselves.  Concurrency is
    modelled where the code relies on it (the queue, the connections and the
    reloads, the signals); elsewhere, an operation under a lock is one step.
    The identifiers that are drawn at random for queue items do not repeat
    ([QueueConc.fresh]); the code makes it unlikely only.  Crashes are those of the
    process, not of the machine: [fsync] can fail but has no effect on the disk.
    Hooks and alias files answer the same throughout a run ([AliasWorld]).  A write to Dovecot is whole or fails.  The
    connections of the local RPC server are handled one after another.
    The HTML templates of the monitoring pages are not modelled, nor are
    timers, dnsoverride.go (a build for tests) and generated code
    (the protocol buffers, whose messages are records here). *)

From Stdlib Require Export Ascii.
From stdpp Require Export base gmap strings list.

(** ** Byte strings

    A Go [string] and a Go [[]byte] are both finite sequences of bytes.  We
    model both as [bytes], a list of 8-bit [ascii] characters; string
    literals in [go_scope] denote such lists. *)

Abbreviation bytes := (list ascii).

(** The auxiliary type through which string literals of [go_scope] are read
    and printed. *)
Inductive blit :=
| blit_nil
| blit_cons (c : ascii) (l : blit).

Fixpoint blit_parse (l : list Byte.byte) : blit :=
  match l with
  | [] => blit_nil
  | c :: l => blit_cons (ascii_of_byte c) (blit_parse l)
  end.

Fixpoint blit_print (b : blit) : list Byte.byte :=
  match b with
  | blit_nil => []
  | blit_cons c l => byte_of_ascii c :: blit_print l
  end.

Declare Scope go_scope.
Delimit Scope go_scope with go.

#[warnings="-via-type-mismatch"]
String Notation list blit_parse blit_print
  (via blit mapping [[nil] => blit_nil, [cons] => blit_cons]) : go_scope.

Definition CR : ascii := "013"%char.
Definition LF : ascii := "010"%char.
Definition TAB : ascii := "009"%char.
Definition SP : ascii := " "%char.
Definition DOT : ascii := "."%char.
Definition NUL : ascii := "000"%char.
Definition DQUOTE : ascii := "034"%char.

Definition CRLF : bytes := [CR; LF].

(** ** Results

    A Go function that returns [(T, error)] and whose first component is only
    meaningful when the error is nil is modelled by [res E T]. *)

Inductive res (E A : Type) :=
| Ok (a : A)
| Err (e : E).

Arguments Ok {E A} a.
Arguments Err {E A} e.

#[export] Instance res_ret E : MRet (res E) := λ A a, Ok a.

#[export] Instance res_bind E : MBind (res E) := λ A B f m,
  match m with
  | Ok a => f a
  | Err e => Err e
  end.

#[export] Instance res_fmap E : FMap (res E) := λ A B f m,
  match m with
  | Ok a => Ok (f a)
  | Err e => Err e
  end.

#[export] Instance res_eq_dec {E A} `{EqDecision E, EqDecision A} :
  EqDecision (res E A).
Proof. solve_decision. Defined.

Definition is_ok {E A} (m : res E A) : bool :=
  match m with Ok _ => true | Err _ => false end.

(** [x == y] is Go's [==] on comparable values. *)
Notation "x == y" := (bool_decide (x = y))
  (at level 70, no associativity) : go_scope.
Notation "x != y" := (negb (bool_decide (x = y)))
  (at level 70, no associativity) : go_scope.

(** ** Machine integers *)

(** Two's complement wrap-around to [int64], which is also Go's [int] and
    [time.Duration] on the supported platforms. *)
Definition wrap64 (z : Z) : Z := (z + 2 ^ 63) mod 2 ^ 64 - 2 ^ 63.

Lemma wrap64_id z : (- 2 ^ 63 ≤ z < 2 ^ 63)%Z → wrap64 z = z.
Proof. intros H. unfold wrap64. rewrite Z.mod_small; lia. Qed.

Lemma wrap64_range z : (- 2 ^ 63 ≤ wrap64 z < 2 ^ 63)%Z.
Proof.
  unfold wrap64.
  pose proof (Z.mod_pos_bound (z + 2 ^ 63) (2 ^ 64) ltac:(lia)). lia.
Qed.

(** ** Automation *)

Create HintDb go.

(** Reduce [bind]s of [res] and case on what blocks them. *)
Ltac res_inv :=
  repeat match goal with
  | H : Ok _ = Ok _ |- _ => injection H as H
  | H : Err _ = Err _ |- _ => injection H as H
  | H : Ok _ = Err _ |- _ => discriminate H
  | H : Err _ = Ok _ |- _ => discriminate H
  | H : mbind _ ?m = Ok _ |- _ =>
      let E := fresh "E" in destruct m eqn:E; simpl in H; [|discriminate H]
  end; simplify_eq.

(** ** Lists *)

Lemma Forall_In_bool {A} (f : A → bool) l :
  forallb f l = true ↔ Forall (λ x, f x = true) l.
Proof.
  induction l as [|x l IH]; simpl; [by split|].
  rewrite andb_true_iff, Forall_cons, IH. done.
Qed.

Lemma concat_snoc {A} (ls : list (list A)) l :
  concat (ls ++ [l]) = concat ls ++ l.
Proof. by rewrite concat_app, concat_cons, concat_nil, (right_id_L [] (++)). Qed.

(** ** Pairs *)

Lemma pair_snd {A B} (p : A * B) (b : B) : p.2 = b → p = (p.1, b).
Proof. destruct p. by intros <-. Qed.
