(* ===== verification/GoStrings.v ===== *)
(** The part of Go's string semantics and of its [strings], [utf8],
    [unicode] and [strconv] packages that chasquid relies on.

    Strings are byte sequences; [range] loops and the rune-based functions
    decode them as UTF-8 the way Go does, an invalid byte counting as one
    [RuneError].  The case tables of [unicode] outside ASCII are a parameter,
    the class [Unicode]. *)

From Stdlib Require Import DecimalString DecimalZ.
From Stdlib Require DecimalN.
From Stdlib Require String.
From S2P Require Import Prelude.
#[local] Open Scope go_scope.

(** ** UTF-8 *)
Module Utf8.

Definition RuneError : N := 65533.

Definition bval (c : ascii) : N := N_of_ascii c.

(** Length of the sequence a leading byte announces; 0 for a byte that
    cannot start one. *)
Definition seq_len (b0 : N) : nat :=
  if N.ltb b0 128 then 1
  else if N.ltb b0 194 then 0
  else if N.ltb b0 224 then 2
  else if N.ltb b0 240 then 3
  else if N.ltb b0 245 then 4
  else 0.

(** Continuation bytes; the second byte of some sequences has a narrower
    range, which excludes overlong forms, surrogates and runes above
    U+10FFFF. *)
Definition is_cont (c : ascii) : bool :=
  N.leb 128 (bval c) && N.leb (bval c) 191.

Definition is_second (b0 : N) (c : ascii) : bool :=
  let b := bval c in
  if N.eqb b0 224 then N.leb 160 b && N.leb b 191
  else if N.eqb b0 237 then N.leb 128 b && N.leb b 159
  else if N.eqb b0 240 then N.leb 144 b && N.leb b 191
  else if N.eqb b0 244 then N.leb 128 b && N.leb b 143
  else is_cont c.

Definition low6 (c : ascii) : N := N.land (bval c) 63.

Definition rune2 (a b : ascii) : N :=
  N.lor (N.shiftl (N.land (bval a) 31) 6) (low6 b).

Definition rune3 (a b c : ascii) : N :=
  N.lor (N.shiftl (N.land (bval a) 15) 12)
    (N.lor (N.shiftl (low6 b) 6) (low6 c)).

Definition rune4 (a b c d : ascii) : N :=
  N.lor (N.shiftl (N.land (bval a) 7) 18)
    (N.lor (N.shiftl (low6 b) 12) (N.lor (N.shiftl (low6 c) 6) (low6 d))).

(** The successive runes of a string, each with the bytes it was decoded
    from: what [for _, r := range s] visits. *)
Fixpoint chunks (s : bytes) : list (N * bytes) :=
  match s with
  | [] => []
  | a :: s1 =>
    let bad (_ : unit) := (RuneError, [a]) :: chunks s1 in
    match seq_len (bval a) with
    | 1 => (bval a, [a]) :: chunks s1
    | 2 =>
      match s1 with
      | b :: s2 =>
        if is_second (bval a) b then (rune2 a b, [a; b]) :: chunks s2 else bad tt
      | _ => bad tt
      end
    | 3 =>
      match s1 with
      | b :: c :: s3 =>
        if is_second (bval a) b && is_cont c
        then (rune3 a b c, [a; b; c]) :: chunks s3 else bad tt
      | _ => bad tt
      end
    | 4 =>
      match s1 with
      | b :: c :: d :: s4 =>
        if is_second (bval a) b && is_cont c && is_cont d
        then (rune4 a b c d, [a; b; c; d]) :: chunks s4 else bad tt
      | _ => bad tt
      end
    | _ => bad tt
    end
  end.

Definition runes (s : bytes) : list N := fst <$> chunks s.

(** [string(r)]: the UTF-8 encoding of a rune; surrogates and values out of
    range encode as [RuneError]. *)
Definition encode (r : N) : bytes :=
  let mk n := ascii_of_N n in
  let enc3 r :=
    [mk (N.lor 224 (N.shiftr r 12));
     mk (N.lor 128 (N.land (N.shiftr r 6) 63));
     mk (N.lor 128 (N.land r 63))] in
  if N.ltb r 128 then [mk r]
  else if N.ltb r 2048 then
    [mk (N.lor 192 (N.shiftr r 6)); mk (N.lor 128 (N.land r 63))]
  else if (N.leb 55296 r && N.leb r 57343) || N.ltb 1114111 r
  then enc3 RuneError
  else if N.ltb r 65536 then enc3 r
  else
    [mk (N.lor 240 (N.shiftr r 18));
     mk (N.lor 128 (N.land (N.shiftr r 12) 63));
     mk (N.lor 128 (N.land (N.shiftr r 6) 63));
     mk (N.lor 128 (N.land r 63))].

Definition is_ascii (c : ascii) : bool := N.ltb (bval c) 128.

End Utf8.

(** ** unicode *)

(** The case tables of package [unicode], for runes above U+007F:
    [unicode.ToLower], [unicode.ToUpper], whether the second rune is in the
    [unicode.SimpleFold] orbit of the first, and [strconv.IsPrint]. *)
Class Unicode := {
  uni_lower : N → N;
  uni_upper : N → N;
  uni_fold : N → N → bool;
  uni_print : N → bool;
}.

Definition in_range (lo hi r : N) : bool := N.leb lo r && N.leb r hi.

(** [unicode.IsSpace]: the White_Space property. *)
Definition IsSpace (r : N) : bool :=
  in_range 9 13 r || N.eqb r 32 || N.eqb r 133 || N.eqb r 160
  || N.eqb r 5760 || in_range 8192 8202 r || N.eqb r 8232 || N.eqb r 8233
  || N.eqb r 8239 || N.eqb r 8287 || N.eqb r 12288.

(** [unicode.IsControl]: the category Cc. *)
Definition IsControl (r : N) : bool := N.ltb r 32 || in_range 127 159 r.

Definition rune_lower `{Unicode} (r : N) : N :=
  if N.ltb r 128 then (if in_range 65 90 r then r + 32 else r)%N
  else uni_lower r.

Definition rune_upper `{Unicode} (r : N) : N :=
  if N.ltb r 128 then (if in_range 97 122 r then r - 32 else r)%N
  else uni_upper r.

(** ** strings *)

Fixpoint strip_prefix (p s : bytes) : option bytes :=
  match p, s with
  | [], _ => Some s
  | a :: p, b :: s => if a == b then strip_prefix p s else None
  | _ :: _, [] => None
  end.

Definition HasPrefix (s p : bytes) : bool :=
  match strip_prefix p s with Some _ => true | None => false end.

Definition HasSuffix (s p : bytes) : bool :=
  HasPrefix (reverse s) (reverse p).

Definition TrimPrefix (s p : bytes) : bytes :=
  match strip_prefix p s with Some r => r | None => s end.

Definition TrimSuffix (s p : bytes) : bytes :=
  if HasSuffix s p then take (length s - length p) s else s.

(** [strings.Cut], with the arguments in the order of the code: what comes
    before and after the first occurrence of [sep]. *)
Fixpoint Cut (s sep : bytes) : option (bytes * bytes) :=
  match strip_prefix sep s with
  | Some rest => Some ([], rest)
  | None =>
    match s with
    | [] => None
    | c :: s' =>
      match Cut s' sep with
      | Some (a, b) => Some (c :: a, b)
      | None => None
      end
    end
  end.

Definition Contains (s sub : bytes) : bool :=
  match Cut s sub with Some _ => true | None => false end.

(** [strings.SplitN(s, sep, 2)]. *)
Definition SplitN2 (s sep : bytes) : list bytes :=
  match Cut s sep with
  | Some (a, b) => [a; b]
  | None => [s]
  end.

(** [strings.Split] for a non-empty separator.  Each cut removes the
    separator, so the length of the string bounds the number of pieces. *)
Fixpoint split_fuel (n : nat) (s sep : bytes) : list bytes :=
  match n with
  | 0 => [s]
  | S n =>
    match Cut s sep with
    | Some (a, b) => a :: split_fuel n b sep
    | None => [s]
    end
  end.

Definition Split (s sep : bytes) : list bytes := split_fuel (length s) s sep.

Fixpoint Join (ls : list bytes) (sep : bytes) : bytes :=
  match ls with
  | [] => []
  | [l] => l
  | l :: ls => l ++ sep ++ Join ls sep
  end.

(** [strings.Replace(s, old, new, -1)] for a non-empty [old]. *)
Definition ReplaceAll (s old new : bytes) : bytes := Join (Split s old) new.

(** [strings.SplitAfter] for a non-empty separator. *)
Fixpoint add_sep (ls : list bytes) (sep : bytes) : list bytes :=
  match ls with
  | [] => []
  | [l] => [l]
  | l :: ls => (l ++ sep) :: add_sep ls sep
  end.

Definition SplitAfter (s sep : bytes) : list bytes := add_sep (Split s sep) sep.

(** [strings.Split(s, "")]: one string per rune. *)
Definition explode (s : bytes) : list bytes := snd <$> Utf8.chunks s.

Fixpoint drop_while {A} (f : A → bool) (l : list A) : list A :=
  match l with
  | [] => []
  | x :: l' => if f x then drop_while f l' else l
  end.

Definition drop_while_end {A} (f : A → bool) (l : list A) : list A :=
  reverse (drop_while f (reverse l)).

(** [strings.TrimSpace].  UTF-8 is self-synchronising, so decoding from the
    end of the string gives the same runes as decoding from its start. *)
Definition TrimSpace (s : bytes) : bytes :=
  concat (snd <$> drop_while_end (λ c, IsSpace (fst c))
                   (drop_while (λ c, IsSpace (fst c)) (Utf8.chunks s))).

(** [strings.TrimLeft] and [TrimRight] for a cutset of ASCII characters,
    which work byte by byte. *)
Definition TrimLeft (s cutset : bytes) : bytes :=
  drop_while (λ c, bool_decide (c ∈ cutset)) s.

Definition TrimRight (s cutset : bytes) : bytes :=
  drop_while_end (λ c, bool_decide (c ∈ cutset)) s.

(** [strings.Fields]: the maximal runs of non-space runes. *)
Fixpoint fields_aux (cs : list (N * bytes)) (cur : bytes) : list bytes :=
  let emit rest := match cur with [] => rest | _ => cur :: rest end in
  match cs with
  | [] => emit []
  | (r, b) :: cs =>
    if IsSpace r then emit (fields_aux cs []) else fields_aux cs (cur ++ b)
  end.

Definition Fields (s : bytes) : list bytes := fields_aux (Utf8.chunks s) [].

(** [strings.Map]: a mapping of runes, [None] to drop one. *)
Definition Map (f : N → option N) (s : bytes) : bytes :=
  concat ((λ c, match f (fst c) with
                | Some r => Utf8.encode r
                | None => []
                end) <$> Utf8.chunks s).

Definition ContainsRune (s : bytes) (r : N) : bool :=
  existsb (N.eqb r) (Utf8.runes s).

(** [strings.IndexAny]: the byte position of the first rune of [s] that is a
    rune of [chars]. *)
Fixpoint index_any_aux (pos : nat) (cs : list (N * bytes)) (chars : bytes) :
  option nat :=
  match cs with
  | [] => None
  | (r, b) :: cs =>
    if ContainsRune chars r then Some pos
    else index_any_aux (pos + length b) cs chars
  end.

Definition IndexAny (s chars : bytes) : option nat :=
  index_any_aux 0 (Utf8.chunks s) chars.

Definition lower_byte (c : ascii) : ascii :=
  if in_range 65 90 (Utf8.bval c) then ascii_of_N (Utf8.bval c + 32) else c.

Definition upper_byte (c : ascii) : ascii :=
  if in_range 97 122 (Utf8.bval c) then ascii_of_N (Utf8.bval c - 32) else c.

Definition ToLower `{Unicode} (s : bytes) : bytes :=
  if forallb Utf8.is_ascii s then lower_byte <$> s
  else Map (λ r, Some (rune_lower r)) s.

Definition ToUpper `{Unicode} (s : bytes) : bytes :=
  if forallb Utf8.is_ascii s then upper_byte <$> s
  else Map (λ r, Some (rune_upper r)) s.

(** [strings.EqualFold], rune by rune: equal, or ASCII letters that differ in
    case only, or in the same folding orbit. *)
Definition rune_fold_eq `{Unicode} (a b : N) : bool :=
  let sr := N.min a b in
  let tr := N.max a b in
  N.eqb a b
  || (if N.ltb tr 128 then in_range 65 90 sr && N.eqb tr (sr + 32)
      else uni_fold sr tr).

Fixpoint fold_eq `{Unicode} (s t : list N) : bool :=
  match s, t with
  | [], [] => true
  | a :: s, b :: t => rune_fold_eq a b && fold_eq s t
  | _, _ => false
  end.

Definition EqualFold `{Unicode} (s t : bytes) : bool :=
  fold_eq (Utf8.runes s) (Utf8.runes t).

(** ** strconv *)

Inductive num_error := ErrSyntax | ErrRange.

#[export] Instance num_error_eq_dec : EqDecision num_error.
Proof. solve_decision. Defined.

Definition digit (c : ascii) : option N :=
  if in_range 48 57 (Utf8.bval c) then Some (Utf8.bval c - 48)%N else None.

Fixpoint parse_digits (max n : N) (s : bytes) : res num_error N :=
  match s with
  | [] => Ok n
  | c :: s =>
    match digit c with
    | None => Err ErrSyntax
    | Some d =>
      let n1 := (n * 10 + d)%N in
      if N.ltb max n1 then Err ErrRange else parse_digits max n1 s
    end
  end.

(** [strconv.ParseUint(s, 10, bits)]. *)
Definition ParseUint (s : bytes) (bits : N) : res num_error N :=
  match s with
  | [] => Err ErrSyntax
  | _ => parse_digits (2 ^ bits - 1) 0 s
  end.

(** [strconv.ParseInt(s, 10, 64)], and [strconv.Atoi]: the value is returned
    with the error, clamped when out of range and 0 on a syntax error. *)
Definition parse_signed (neg : bool) (s : bytes) : Z * option num_error :=
  match ParseUint s 64 with
  | Err ErrSyntax => (0%Z, Some ErrSyntax)
  | Err ErrRange =>
    (if neg then - 2 ^ 63 else 2 ^ 63 - 1, Some ErrRange)%Z
  | Ok un =>
    let z := Z.of_N un in
    if neg then
      if (z >? 2 ^ 63)%Z then ((- 2 ^ 63)%Z, Some ErrRange)
      else ((- z)%Z, None)
    else
      if (z >=? 2 ^ 63)%Z then ((2 ^ 63 - 1)%Z, Some ErrRange)
      else (z, None)
  end.

Definition ParseInt (s : bytes) : Z * option num_error :=
  match s with
  | [] => (0%Z, Some ErrSyntax)
  | c :: s' =>
    if c == "+"%char then parse_signed false s'
    else if c == "-"%char then parse_signed true s'
    else parse_signed false s
  end.

Definition Atoi (s : bytes) : Z * option num_error := ParseInt s.

(** [strconv.Itoa] and the [%d] verb. *)
Definition Itoa (z : Z) : bytes :=
  String.list_ascii_of_string (NilZero.string_of_int (Z.to_int z)).

(** The hexadecimal digits of [n], [k] of them. *)
Definition hex_digit (n : N) : ascii :=
  ascii_of_N (if N.ltb n 10 then 48 + n else 87 + n).

Fixpoint hex_digits (k : nat) (n : N) : bytes :=
  match k with
  | 0 => []
  | S k => hex_digits k (N.shiftr n 4) ++ [hex_digit (N.land n 15)]
  end.

(** [strconv.Quote] and the [%q] verb on strings. *)
Definition is_print `{Unicode} (r : N) : bool :=
  if N.ltb r 128 then in_range 32 126 r else uni_print r.

Definition quote_rune `{Unicode} (c : N * bytes) : bytes :=
  let '(r, b) := c in
  if N.eqb r Utf8.RuneError && (length b == 1) then
    ["\"%char; "x"%char] ++ hex_digits 2 (Utf8.bval (default NUL (head b)))
  else if N.eqb r 34 || N.eqb r 92 then "\"%char :: b
  else if is_print r then b
  else if N.eqb r 7 then "\a"
  else if N.eqb r 8 then "\b"
  else if N.eqb r 12 then "\f"
  else if N.eqb r 10 then "\n"
  else if N.eqb r 13 then "\r"
  else if N.eqb r 9 then "\t"
  else if N.eqb r 11 then "\v"
  else if N.ltb r 32 || N.eqb r 127 then "\x" ++ hex_digits 2 r
  else if N.ltb r 65536 then "\u" ++ hex_digits 4 r
  else "\U" ++ hex_digits 8 r.

Definition Quote `{Unicode} (s : bytes) : bytes :=
  [DQUOTE] ++ concat (quote_rune <$> Utf8.chunks s) ++ [DQUOTE].

(** ** fmt *)

(** [fmt.Sscanf(s, "%s ", &word)]: the first word.  A newline before the
    word, or right after it, is an error. *)
Inductive scan_error := ScanUnexpectedNewline | ScanEOF | ScanNewlineMismatch.

Fixpoint scan_skip (cs : list (N * bytes)) : res scan_error (list (N * bytes)) :=
  match cs with
  | [] => Ok []
  | (r, b) :: cs' =>
    if N.eqb r 10 then Err ScanUnexpectedNewline
    else if IsSpace r then scan_skip cs' else Ok cs
  end.

Fixpoint scan_token (cs : list (N * bytes)) : bytes * list (N * bytes) :=
  match cs with
  | [] => ([], [])
  | (r, b) :: cs' =>
    if IsSpace r then ([], cs)
    else let '(t, rest) := scan_token cs' in (b ++ t, rest)
  end.

Definition Sscanf_word (s : bytes) : res scan_error bytes :=
  cs ← scan_skip (Utf8.chunks s);
  match cs with
  | [] => Err ScanEOF
  | _ =>
    let '(t, rest) := scan_token cs in
    match rest with
    | (10%N, _) :: _ => Err ScanNewlineMismatch
    | _ => Ok t
    end
  end.

(** ** net/mail *)

(** The parsers of package [net/mail]: the [Address] of a parsed address, and
    the header fields of a message, by canonical name. *)
Class NetMail := {
  mail_ParseAddress : bytes → option bytes;
  mail_ReadMessage : bytes → res bytes (gmap bytes (list bytes));
}.

(** ** Lemmas *)

Lemma HasPrefix_app p s : HasPrefix (p ++ s) p = true.
Proof.
  unfold HasPrefix. induction p as [|a p IH]; simpl; [by destruct s|].
  by rewrite bool_decide_eq_true_2.
Qed.

Lemma strip_prefix_Some p s r : strip_prefix p s = Some r ↔ s = p ++ r.
Proof.
  revert s. induction p as [|a p IH]; intros s; simpl; [split; congruence|].
  destruct s as [|b s]; simpl; [split; [discriminate|congruence]|].
  case_bool_decide as Hab; [|split; congruence].
  rewrite IH. split; congruence.
Qed.

Lemma HasPrefix_spec s p : HasPrefix s p = true ↔ ∃ r, s = p ++ r.
Proof.
  split.
  - unfold HasPrefix. destruct (strip_prefix p s) as [r|] eqn:E; [|done].
    intros _. exists r. by apply strip_prefix_Some.
  - intros [r ->]. apply HasPrefix_app.
Qed.

Lemma HasSuffix_spec s p : HasSuffix s p = true ↔ ∃ r, s = r ++ p.
Proof.
  unfold HasSuffix. rewrite HasPrefix_spec. split.
  - intros [r Hr]. exists (reverse r).
    by rewrite <- (reverse_involutive s), Hr, reverse_app, reverse_involutive.
  - intros [r ->]. exists (reverse r). by rewrite reverse_app.
Qed.

(** *** Cut *)

Lemma Cut_Some s sep a b : Cut s sep = Some (a, b) → s = a ++ sep ++ b.
Proof.
  revert a. induction s as [|c s IH]; intros a; simpl.
  - destruct (strip_prefix sep []) as [r|] eqn:E; [|done].
    intros [= <- <-]. by apply strip_prefix_Some in E.
  - destruct (strip_prefix sep (c :: s)) as [r|] eqn:E.
    + intros [= <- <-]. by apply strip_prefix_Some in E.
    + destruct (Cut s sep) as [[a' b']|]; [|done].
      intros [= <- <-]. by rewrite (IH a').
Qed.

Lemma Cut_length s sep a b :
  sep ≠ [] → Cut s sep = Some (a, b) → length b < length s.
Proof.
  intros Hsep ->%Cut_Some. rewrite !length_app.
  destruct sep; [done|]. simpl. lia.
Qed.

Lemma strip_prefix_singleton c s :
  strip_prefix [c] s = match s with
                       | d :: s' => if c == d then Some s' else None
                       | [] => None
                       end.
Proof. destruct s as [|d s]; simpl; [done|]. by destruct s. Qed.

(** A one-byte separator is cut at its first occurrence. *)
Lemma Cut_byte_app a b c : c ∉ a → Cut (a ++ c :: b) [c] = Some (a, b).
Proof.
  intros Hc. induction a as [|x a IH].
  - simpl. by rewrite bool_decide_eq_true_2.
  - simpl app. unfold Cut; fold Cut. rewrite strip_prefix_singleton.
    rewrite bool_decide_eq_false_2 by set_solver.
    rewrite IH by set_solver. done.
Qed.

Lemma Cut_byte_Some s c a b :
  Cut s [c] = Some (a, b) ↔ s = a ++ c :: b ∧ c ∉ a.
Proof.
  split; [|intros [-> H]; by apply Cut_byte_app].
  revert a. induction s as [|d s IH]; intros a; [done|].
  unfold Cut; fold Cut. rewrite strip_prefix_singleton.
  case_bool_decide as Hcd.
  - subst d. intros [= <- <-]. split; [done|]. apply not_elem_of_nil.
  - destruct (Cut s [c]) as [[a' b']|]; [|done].
    intros [= <- ->]. specialize (IH a' eq_refl) as [-> Ha'].
    split; [done|]. by rewrite not_elem_of_cons.
Qed.

Lemma Cut_byte_None s c : Cut s [c] = None ↔ c ∉ s.
Proof.
  split.
  - intros H Hin. apply list_elem_of_split in Hin as (l1 & l2 & Hs).
    destruct (decide (c ∈ l1)) as [Hc|Hc].
    + apply (list_elem_of_split_l _ c) in Hc as (k1 & k2 & Hk1 & Hk2).
      assert (Cut s [c] = Some (k1, k2 ++ c :: l2)) as Heq.
      { apply Cut_byte_Some. split; [|done]. by rewrite Hs, Hk1, <- app_assoc. }
      congruence.
    + assert (Cut s [c] = Some (l1, l2)) as Heq by by apply Cut_byte_Some.
      congruence.
  - intros Hc. destruct (Cut s [c]) as [[a b]|] eqn:E; [|done].
    apply Cut_byte_Some in E as [-> _]. set_solver.
Qed.

Lemma Contains_byte s c : Contains s [c] = bool_decide (c ∈ s).
Proof.
  unfold Contains. destruct (Cut s [c]) as [[a b]|] eqn:E.
  - apply Cut_byte_Some in E as [-> _]. symmetry.
    apply bool_decide_eq_true_2. set_solver.
  - apply Cut_byte_None in E. symmetry. by apply bool_decide_eq_false_2.
Qed.

(** *** Split and Join *)

Lemma split_fuel_enough n m s sep :
  sep ≠ [] → length s ≤ n → length s ≤ m →
  split_fuel n s sep = split_fuel m s sep.
Proof.
  intros Hsep. revert m s. induction n as [|n IH]; intros m s Hn Hm.
  - destruct s; [|simpl in *; lia]. destruct m; [done|].
    simpl. destruct sep; done.
  - destruct m as [|m].
    + destruct s; [|simpl in *; lia]. simpl. destruct sep; done.
    + simpl. destruct (Cut s sep) as [[a b]|] eqn:E; [|done].
      pose proof (Cut_length _ _ _ _ Hsep E).
      f_equal. apply IH; lia.
Qed.

(** The defining equation of [Split]. *)
Lemma Split_eq s sep :
  sep ≠ [] →
  Split s sep = match Cut s sep with
                | Some (a, b) => a :: Split b sep
                | None => [s]
                end.
Proof.
  intros Hsep. unfold Split.
  rewrite (split_fuel_enough _ (S (length s))) by (done || lia). simpl.
  destruct (Cut s sep) as [[a b]|] eqn:E; [|done].
  pose proof (Cut_length _ _ _ _ Hsep E).
  f_equal. apply split_fuel_enough; done || lia.
Qed.

(** Induction along the pieces of a split string. *)
Lemma Split_ind (sep : bytes) (P : bytes → Prop) :
  sep ≠ [] →
  (∀ s, Cut s sep = None → P s) →
  (∀ s a b, Cut s sep = Some (a, b) → P b → P s) →
  ∀ s, P s.
Proof.
  intros Hsep Hnone Hsome s.
  remember (length s) as n eqn:Hn. revert s Hn.
  induction (lt_wf n) as [n _ IH]. intros s ->.
  destruct (Cut s sep) as [[a b]|] eqn:E; [|by apply Hnone].
  apply (Hsome s a b E). eapply IH; [|done]. by eapply Cut_length.
Qed.

Lemma Split_not_nil s sep : sep ≠ [] → Split s sep ≠ [].
Proof.
  intros Hsep. rewrite Split_eq by done. by destruct (Cut s sep) as [[??]|].
Qed.

Lemma Join_cons l ls sep :
  ls ≠ [] → Join (l :: ls) sep = l ++ sep ++ Join ls sep.
Proof. by destruct ls. Qed.

(** Joining with the separator undoes the split. *)
Lemma Join_Split s sep : sep ≠ [] → Join (Split s sep) sep = s.
Proof.
  intros Hsep. pattern s. apply (Split_ind sep); [done|..]; clear s.
  - intros s E. rewrite Split_eq, E by done. done.
  - intros s a b E IH. rewrite Split_eq, E by done.
    rewrite Join_cons by by apply Split_not_nil.
    rewrite IH. symmetry. by apply Cut_Some.
Qed.

(** The pieces of a split at a byte do not contain it. *)
Lemma Split_byte_Forall s c : Forall (λ l, c ∉ l) (Split s [c]).
Proof.
  pattern s. apply (Split_ind [c]); [done|..]; clear s.
  - intros s E. rewrite Split_eq, E by done.
    apply Cut_byte_None in E. by repeat constructor.
  - intros s a b E IH. rewrite Split_eq, E by done.
    apply Cut_byte_Some in E as [_ Ha]. by constructor.
Qed.

(** ... and splitting undoes the join of such pieces. *)
Lemma Split_Join_byte ls c :
  ls ≠ [] → Forall (λ l, c ∉ l) ls → Split (Join ls [c]) [c] = ls.
Proof.
  intros Hne Hls. induction Hls as [|l ls Hl Hls IH]; [done|].
  destruct ls as [|l' ls].
  - simpl. rewrite Split_eq by done.
    by rewrite (proj2 (Cut_byte_None l c) Hl).
  - rewrite Join_cons by done. rewrite Split_eq by done.
    simpl app at 2. rewrite Cut_byte_app by done. f_equal. by apply IH.
Qed.

(** Splitting at a byte, one byte of the string at a time. *)
(** A text made of lines, each with its terminator. *)
Lemma Join_terminated (ls : list bytes) sep :
  Join (ls ++ [[]]) sep = concat ((λ l, l ++ sep) <$> ls).
Proof.
  induction ls as [|l ls IH]; [done|]. rewrite fmap_cons, concat_cons, <- IH.
  simpl app at 1. rewrite Join_cons by (by destruct ls).
  by rewrite <- app_assoc.
Qed.

Lemma Split_terminated (ls : list bytes) c :
  Forall (λ l, c ∉ l) ls →
  Split (concat ((λ l, l ++ [c]) <$> ls)) [c] = ls ++ [[]].
Proof.
  intros Hls. rewrite <- Join_terminated. apply Split_Join_byte.
  - by destruct ls.
  - apply Forall_app. split; [done|]. apply Forall_singleton. set_solver.
Qed.

Lemma Split_byte_cons c d s :
  Split (d :: s) [c] =
    if d == c then [] :: Split s [c]
    else match Split s [c] with
         | l :: ls => (d :: l) :: ls
         | [] => [[d]]
         end.
Proof.
  rewrite Split_eq by done. unfold Cut; fold Cut.
  rewrite strip_prefix_singleton.
  repeat case_bool_decide; subst; try done.
  rewrite (Split_eq s) by done. by destruct (Cut s [c]) as [[a b]|].
Qed.

Lemma Split_byte_nil c : Split [] [c] = [[]].
Proof. done. Qed.

(** *** UTF-8 decoding *)

(** Induction along the runes of a string. *)
Lemma chunks_ind (P : bytes → Prop) :
  P [] →
  (∀ s r b s', b ≠ [] → s = b ++ s' →
     Utf8.chunks s = (r, b) :: Utf8.chunks s' → P s' → P s) →
  ∀ s, P s.
Proof.
  intros Hnil Hcons s. remember (length s) as n eqn:Hn. revert s Hn.
  induction (lt_wf n) as [n _ IH]. intros [|a s1] ->; [done|].
  assert (∀ r b s', b ≠ [] → a :: s1 = b ++ s' →
    Utf8.chunks (a :: s1) = (r, b) :: Utf8.chunks s' → P (a :: s1)) as Hstep.
  { intros r b s' Hb Hs Hc. eapply Hcons; [done..|].
    eapply IH; [|done]. rewrite Hs, length_app. destruct b; [done|simpl; lia]. }
  pose proof (λ r, Hstep r [a] s1 ltac:(done) eq_refl) as Hone.
  simpl in *. destruct (Utf8.seq_len (Utf8.bval a)) as [|[|[|[|[|n]]]]];
    eauto; repeat (case_match; simplify_eq; eauto);
    match goal with
    | |- _ (?x :: ?y :: ?z :: ?t :: ?l) => by eapply (Hstep _ [x; y; z; t] l)
    | |- _ (?x :: ?y :: ?z :: ?l) => by eapply (Hstep _ [x; y; z] l)
    | |- _ (?x :: ?y :: ?l) => by eapply (Hstep _ [x; y] l)
    end.
Qed.

(** The first rune of a string: bytes from 128 up, or one ASCII character. *)
Lemma chunks_first a s1 :
  ∃ r b s', Utf8.chunks (a :: s1) = (r, b) :: Utf8.chunks s' ∧ a :: s1 = b ++ s' ∧
    b ≠ [] ∧ (Forall (λ c, Utf8.is_ascii c = false) b ∨ b = [a] ∧ r = Utf8.bval a).
Proof.
  assert (Hsec : ∀ n c, Utf8.is_second n c = true → Utf8.is_ascii c = false).
  { intros n c. unfold Utf8.is_second, Utf8.is_cont, Utf8.is_ascii.
    intros Hs. apply N.ltb_ge. repeat case_match; unfold in_range in Hs;
      repeat rewrite ?andb_true_iff, ?N.leb_le in Hs; lia. }
  assert (Hcont : ∀ c, Utf8.is_cont c = true → Utf8.is_ascii c = false).
  { intros c. unfold Utf8.is_cont, Utf8.is_ascii.
    rewrite andb_true_iff, !N.leb_le, N.ltb_ge. lia. }
  destruct (Utf8.is_ascii a) eqn:Ea.
  { exists (Utf8.bval a), [a], s1. split; [|by auto]. simpl.
    unfold Utf8.is_ascii in Ea. unfold Utf8.seq_len. by rewrite Ea. }
  assert (Hbad : ∃ r b s', (Utf8.RuneError, [a]) :: Utf8.chunks s1 = (r, b) :: Utf8.chunks s' ∧
      a :: s1 = b ++ s' ∧ b ≠ [] ∧
      (Forall (λ c, Utf8.is_ascii c = false) b ∨ b = [a] ∧ r = Utf8.bval a)).
  { eexists _, [a], s1. split; [done|]. split; [done|]. split; [done|]. left. by constructor. }
  cbn [Utf8.chunks]. destruct (Utf8.seq_len (Utf8.bval a)) as [|[|[|[|[|n]]]]] eqn:El; try done.
  - unfold Utf8.seq_len in El. unfold Utf8.is_ascii in Ea. rewrite Ea in El.
    repeat case_match; done.
  - destruct s1 as [|b s2]; [done|]. destruct (Utf8.is_second _ b) eqn:E2; [|done].
    eexists _, [a; b], s2. split_and!; [done..|]. left. eauto using Forall_cons, Forall_nil.
  - destruct s1 as [|b [|c s2]]; [done..|]. destruct (_ && _) eqn:E2; [|done].
    apply andb_true_iff in E2 as [? ?].
    eexists _, [a; b; c], s2. split_and!; [done..|]. left.
    repeat apply Forall_cons_2; eauto.
  - destruct s1 as [|b [|c [|d s2]]]; [done..|]. destruct (_ && _) eqn:E2; [|done].
    apply andb_true_iff in E2 as [E2 ?]. apply andb_true_iff in E2 as [? ?].
    eexists _, [a; b; c; d], s2. split_and!; [done..|]. left.
    repeat apply Forall_cons_2; eauto.
Qed.

(** An ASCII character is a rune wherever it is. *)
Lemma runes_ascii s c : c ∈ s → Utf8.is_ascii c = true → Utf8.bval c ∈ Utf8.runes s.
Proof.
  remember (length s) as n eqn:Hn. revert s Hn.
  induction (lt_wf n) as [n _ IH]. intros [|a s1] -> Hin Hc; [by apply elem_of_nil in Hin|].
  destruct (chunks_first a s1) as (r & b & s' & Hch & Hs & Hb & Hr).
  unfold Utf8.runes. rewrite Hch. simpl. rewrite Hs in Hin.
  apply elem_of_app in Hin as [Hin|Hin].
  - destruct Hr as [Hall|[-> ->]].
    + rewrite Forall_forall in Hall. rewrite (Hall c Hin) in Hc. done.
    + apply list_elem_of_singleton in Hin as ->. by left.
  - right. eapply IH; [|done..]. rewrite Hs, length_app. destruct b; [done|simpl; lia].
Qed.

(** The chunks of a string make up the string. *)
Lemma chunks_concat s : concat (snd <$> Utf8.chunks s) = s.
Proof.
  pattern s. apply chunks_ind; [done|]. clear s.
  intros s r b s' _ Hs Hc IH. by rewrite Hc, fmap_cons, concat_cons, IH.
Qed.

Lemma chunks_not_nil s : Forall (λ c, snd c ≠ []) (Utf8.chunks s).
Proof.
  pattern s. apply chunks_ind; [constructor|]. clear s.
  intros s r b s' Hb _ Hc IH. rewrite Hc. by constructor.
Qed.

Lemma is_ascii_seq_len c :
  Utf8.is_ascii c = true → Utf8.seq_len (Utf8.bval c) = 1.
Proof. unfold Utf8.is_ascii, Utf8.seq_len. by intros ->. Qed.

Lemma chunks_ascii_cons c s :
  Utf8.is_ascii c = true →
  Utf8.chunks (c :: s) = (Utf8.bval c, [c]) :: Utf8.chunks s.
Proof. intros H. simpl. by rewrite is_ascii_seq_len. Qed.

(** An ASCII string has one rune per byte. *)
Lemma chunks_ascii s :
  forallb Utf8.is_ascii s = true →
  Utf8.chunks s = (λ c, (Utf8.bval c, [c])) <$> s.
Proof.
  induction s as [|c s IH]; [done|]. intros [Hc Hs]%andb_true_iff.
  rewrite chunks_ascii_cons, IH by done. done.
Qed.

Lemma ascii_of_N_high n :
  N.testbit n 7 = true → Utf8.is_ascii (ascii_of_N n) = false.
Proof.
  destruct n as [|p]; [done|].
  do 7 (destruct p as [p|p|]; [| |done]); by destruct p.
Qed.

(** The encoding of a rune beyond ASCII has no ASCII byte. *)
Lemma encode_high r :
  (128 <= r)%N → Forall (λ c, Utf8.is_ascii c = false) (Utf8.encode r).
Proof.
  intros Hr. unfold Utf8.encode. destruct (N.ltb_spec r 128); [lia|].
  repeat case_match; repeat constructor; apply ascii_of_N_high;
    by rewrite N.lor_spec.
Qed.

Lemma encode_low r :
  (r < 128)%N →
  Utf8.encode r = [ascii_of_N r] ∧ Utf8.bval (ascii_of_N r) = r.
Proof.
  intros Hr. unfold Utf8.encode. rewrite (proj2 (N.ltb_lt _ _) Hr).
  split; [done|]. unfold Utf8.bval. apply N_ascii_embedding. lia.
Qed.

Lemma explode_concat s : concat (explode s) = s.
Proof. apply chunks_concat. Qed.

(** *** Trimming *)

Lemma drop_while_suffix {A} (f : A → bool) l :
  ∃ k, l = k ++ drop_while f l ∧ Forall (λ x, f x = true) k.
Proof.
  induction l as [|x l [k [Hk Hf]]]; [by exists []|]. simpl.
  destruct (f x) eqn:E; [|by exists []].
  exists (x :: k). split; [by rewrite Hk at 1|by constructor].
Qed.

Lemma drop_while_head {A} (f : A → bool) l x l' :
  drop_while f l = x :: l' → f x = false.
Proof.
  induction l as [|y l IH]; [done|]. simpl.
  destruct (f y) eqn:E; [done|]. by intros [= <- _].
Qed.

Lemma drop_while_id {A} (f : A → bool) l :
  (∀ x l', l = x :: l' → f x = false) → drop_while f l = l.
Proof. destruct l as [|x l]; [done|]. intros H. simpl. by rewrite (H x l). Qed.

Lemma drop_while_end_prefix {A} (f : A → bool) l :
  ∃ k, l = drop_while_end f l ++ k ∧ Forall (λ x, f x = true) k.
Proof.
  destruct (drop_while_suffix f (reverse l)) as [k [Hk Hf]].
  exists (reverse k). split.
  - unfold drop_while_end.
    by rewrite <- (reverse_involutive l), Hk, reverse_app at 1.
  - by apply Forall_reverse.
Qed.

Lemma drop_while_end_last {A} (f : A → bool) l x l' :
  drop_while_end f l = l' ++ [x] → f x = false.
Proof.
  unfold drop_while_end. intros H.
  apply (drop_while_head f (reverse l) x (reverse l')).
  by rewrite <- (reverse_involutive (drop_while f (reverse l))), H, reverse_snoc.
Qed.

Lemma drop_while_end_id {A} (f : A → bool) l :
  (∀ x l', l = l' ++ [x] → f x = false) → drop_while_end f l = l.
Proof.
  intros H. unfold drop_while_end. rewrite drop_while_id.
  - apply reverse_involutive.
  - intros x l' E. apply (H x (reverse l')).
    by rewrite <- (reverse_involutive l), E, reverse_cons.
Qed.

Lemma TrimRight_snoc_id s c cutset :
  c ∉ cutset → TrimRight (s ++ [c]) cutset = s ++ [c].
Proof.
  intros Hc. apply drop_while_end_id. intros x l' [_ ->]%app_inj_tail.
  by apply bool_decide_eq_false_2.
Qed.

(** *** Decimal numbers *)

Lemma parse_digits_bound max n s m :
  parse_digits max n s = Ok m → (n ≤ max → m ≤ max)%N.
Proof.
  revert n. induction s as [|c s IH]; intros n; simpl; [by intros [= ->]|].
  destruct (digit c) as [d|]; [|done].
  destruct (N.ltb_spec max (n * 10 + d)) as [|Hle]; [done|].
  intros H _. by apply (IH _ H).
Qed.

Lemma ParseUint_bound s bits n :
  ParseUint s bits = Ok n → (n < 2 ^ bits)%N.
Proof.
  unfold ParseUint. destruct s as [|c s]; [done|]. intros H.
  assert (2 ^ bits ≠ 0)%N by by apply N.pow_nonzero.
  apply parse_digits_bound in H; lia.
Qed.

Lemma ParseInt_range s :
  (- 2 ^ 63 ≤ fst (ParseInt s) < 2 ^ 63)%Z.
Proof.
  assert (∀ neg t, (- 2 ^ 63 ≤ fst (parse_signed neg t) < 2 ^ 63)%Z) as Hs.
  { intros neg t. unfold parse_signed.
    destruct (ParseUint t 64) as [n|[]]; [|simpl; lia|destruct neg; simpl; lia].
    destruct neg; case_match; simpl; lia. }
  unfold ParseInt. destruct s as [|c s]; [simpl; lia|].
  repeat case_match; apply Hs.
Qed.

(** The value of decimal digits, after those of [n]. *)
Fixpoint digits_value (n : N) (u : Decimal.uint) : N :=
  match u with
  | Decimal.Nil => n
  | Decimal.D0 u => digits_value (n * 10) u
  | Decimal.D1 u => digits_value (n * 10 + 1) u
  | Decimal.D2 u => digits_value (n * 10 + 2) u
  | Decimal.D3 u => digits_value (n * 10 + 3) u
  | Decimal.D4 u => digits_value (n * 10 + 4) u
  | Decimal.D5 u => digits_value (n * 10 + 5) u
  | Decimal.D6 u => digits_value (n * 10 + 6) u
  | Decimal.D7 u => digits_value (n * 10 + 7) u
  | Decimal.D8 u => digits_value (n * 10 + 8) u
  | Decimal.D9 u => digits_value (n * 10 + 9) u
  end.

Definition uint_text (u : Decimal.uint) : bytes :=
  String.list_ascii_of_string (NilEmpty.string_of_uint u).

Lemma digits_value_le u n : (n ≤ digits_value n u)%N.
Proof.
  revert n. induction u as [|u IH|u IH|u IH|u IH|u IH|u IH|u IH|u IH|u IH|u IH]; intros n;
    cbn [digits_value]; [lia|..];
    match goal with |- (_ ≤ digits_value ?m _)%N => specialize (IH m); lia end.
Qed.

Lemma parse_digits_text max n u :
  (digits_value n u ≤ max)%N → parse_digits max n (uint_text u) = Ok (digits_value n u).
Proof.
  revert n. induction u as [|u IH|u IH|u IH|u IH|u IH|u IH|u IH|u IH|u IH|u IH]; intros n Hm;
    [done|..];
    cbn [digits_value] in *;
    match goal with
    | |- parse_digits _ _ _ = Ok (digits_value ?m _) =>
      pose proof (digits_value_le u m); rewrite <- (IH m Hm)
    end;
    unfold uint_text; cbn [NilEmpty.string_of_uint String.list_ascii_of_string parse_digits];
    match goal with |- context [digit ?c] => let v := eval vm_compute in (digit c) in
      change (digit c) with v end; cbv iota zeta;
    rewrite ?N.add_0_r; rewrite (proj2 (N.ltb_ge _ _)) by lia; done.
Qed.

Lemma of_uint_acc_value u p : Npos (Pos.of_uint_acc u p) = digits_value (Npos p) u.
Proof.
  revert p. induction u as [|u IH|u IH|u IH|u IH|u IH|u IH|u IH|u IH|u IH|u IH]; intros p;
    cbn [Pos.of_uint_acc digits_value]; [done|..]; rewrite IH; f_equal; lia.
Qed.

Lemma of_uint_value u : N.of_uint u = digits_value 0 u.
Proof.
  unfold N.of_uint. induction u; cbn [Pos.of_uint digits_value]; try done;
    rewrite of_uint_acc_value; done.
Qed.

Lemma Itoa_nonneg z :
  (0 ≤ z)%Z → ∃ u, u ≠ Decimal.Nil ∧ Itoa z = uint_text u ∧ N.of_uint u = Z.to_N z.
Proof.
  intros Hz. exists (N.to_uint (Z.to_N z)).
  assert (Hv : N.of_uint (N.to_uint (Z.to_N z)) = Z.to_N z) by apply DecimalN.Unsigned.of_to.
  assert (Hn : N.to_uint (Z.to_N z) ≠ Decimal.Nil).
  { destruct z as [|p|p]; [done| |done]. intros E. rewrite E in Hv. done. }
  split_and!; [done| |done]. unfold Itoa, uint_text. f_equal.
  destruct z as [|p|p]; [done| |done]. simpl in *. by destruct (Pos.to_uint p).
Qed.

Lemma ParseInt_Itoa z : (0 ≤ z < 2 ^ 63)%Z → ParseInt (Itoa z) = (z, None).
Proof.
  intros Hz. destruct (Itoa_nonneg z) as (u & Hu & -> & Hv); [lia|].
  rewrite of_uint_value in Hv.
  assert (Hp : parse_signed false (uint_text u) = (z, None)).
  { unfold parse_signed, ParseUint.
    assert (uint_text u ≠ []) by (by destruct u).
    destruct (uint_text u) as [|c x] eqn:E; [done|]. rewrite <- E.
    rewrite parse_digits_text by (rewrite Hv; lia). rewrite Hv, Z2N.id by lia.
    rewrite Z.geb_leb, (proj2 (Z.leb_gt _ _)) by lia. done. }
  unfold ParseInt. destruct u; try done; exact Hp.
Qed.

Lemma Itoa_chars z c : c ∈ Itoa z → c ∈ ("-0123456789" : bytes).
Proof.
  assert (Hu : ∀ d, c ∈ String.list_ascii_of_string (NilEmpty.string_of_uint d) →
    c ∈ ("0123456789" : bytes)).
  { induction d; cbn [DecimalString.NilEmpty.string_of_uint String.list_ascii_of_string];
      rewrite ?elem_of_cons; intros Hin; set_solver. }
  unfold Itoa. assert (Hz : ∀ d,
    c ∈ String.list_ascii_of_string (DecimalString.NilZero.string_of_uint d) →
    c ∈ ("0123456789" : bytes)).
  { intros d. destruct d; [cbn; set_solver|..]; apply Hu. }
  destruct (Z.to_int z) as [d|d].
  - intros Hin%Hz. set_solver.
  - cbn [DecimalString.NilZero.string_of_int String.list_ascii_of_string].
    rewrite elem_of_cons. intros [->|Hin%Hz]; set_solver.
Qed.
