(* ===== verification/GoSlices.v ===== *)
(** What the code uses of Go's slices: indexing, which panics out of range,
    and [sort.Slice]. *)

From stdpp Require Import sorting.
From S2P Require Import Prelude.
#[local] Open Scope go_scope.

Definition len {A} (l : list A) : Z := Z.of_nat (length l).

(** [l[i]] of a slice: [None] is the panic of an index out of range. *)
Definition index {A} (l : list A) (i : Z) : option A :=
  if Z.leb 0 i then l !! Z.to_nat i else None.

(** [x % n], the remainder of the division that truncates; [None] is the panic
    for [n = 0]. *)
Definition go_rem (x n : Z) : option Z := if n == 0%Z then None else Some (Z.rem x n).

Lemma len_nonneg {A} (l : list A) : (0 ≤ len l)%Z.
Proof. unfold len. lia. Qed.

Lemma len_app {A} (l k : list A) : len (l ++ k) = (len l + len k)%Z.
Proof. unfold len. rewrite length_app. lia. Qed.

Lemma len_cons {A} (x : A) l : len (x :: l) = (len l + 1)%Z.
Proof. unfold len. simpl. lia. Qed.

Lemma index_nat {A} (l : list A) (n : nat) : index l (Z.of_nat n) = l !! n.
Proof.
  unfold index. rewrite (proj2 (Z.leb_le _ _)) by lia. by rewrite Nat2Z.id.
Qed.

Lemma index_Some {A} (l : list A) i : (0 ≤ i < len l)%Z → ∃ x, index l i = Some x.
Proof.
  unfold len. intros Hi. rewrite <- (Z2Nat.id i), index_nat by lia.
  apply lookup_lt_is_Some. lia.
Qed.

Lemma index_Some_1 {A} (l : list A) i x : index l i = Some x → (0 ≤ i < len l)%Z.
Proof.
  unfold index, len. destruct (Z.leb_spec 0 i); [|done].
  intros Hx%lookup_lt_Some. lia.
Qed.

Lemma go_rem_pos x n : (0 ≤ x)%Z → (0 < n)%Z → go_rem x n = Some (x mod n)%Z.
Proof.
  intros Hx Hn. unfold go_rem. rewrite bool_decide_eq_false_2 by lia.
  by rewrite Z.rem_mod_nonneg.
Qed.

(** [sort.Slice] with a function that tells which of two elements goes first.
    It permutes the slice and puts it in order; nothing is said of the order of
    equal elements. *)
Class SortSlice := sort_slice : ∀ {A : Type}, (A → A → bool) → list A → list A.

Class SortSliceOk `{SortSlice} : Prop := {
  sort_slice_perm {A} (less : A → A → bool) l : sort_slice less l ≡ₚ l;
  (** For a strict weak order, no element is less than one before it. *)
  sort_slice_sorted {A} (less : A → A → bool) (key : A → Z) l :
    (∀ x y, less x y = Z.ltb (key x) (key y)) →
    StronglySorted (λ x y, key x ≤ key y)%Z (sort_slice less l);
}.

(** A sort that is correct. *)
Module MergeSort.

Definition not_less {A} (less : A → A → bool) (x y : A) : Prop := less y x = false.

#[export] Instance not_less_dec {A} (less : A → A → bool) :
  RelDecision (not_less less).
Proof. intros x y. unfold not_less. apply _. Defined.

#[export] Instance sort : SortSlice := λ A less l, merge_sort (not_less less) l.

#[export] Instance sort_ok : SortSliceOk.
Proof.
  split.
  - intros A less l. apply merge_sort_Permutation.
  - intros A less key l Hless.
    assert (Hiff : ∀ x y, not_less less x y ↔ (key x ≤ key y)%Z).
    { intros x y. unfold not_less. rewrite Hless, Z.ltb_ge. done. }
    assert (Hs : StronglySorted (not_less less) (merge_sort (not_less less) l)).
    { apply StronglySorted_merge_sort.
      - intros x y z. rewrite !Hiff. lia.
      - intros x y. rewrite !Hiff. lia. }
    unfold sort_slice, sort. clear -Hs Hiff.
    induction Hs as [|x k Hs IH Hx]; constructor; [done|].
    eapply Forall_impl; [exact Hx|]. intros y. by rewrite Hiff.
Qed.

End MergeSort.
