(* ===== verification/GoTime.v ===== *)
(** What the code uses of package [time]: instants, durations, their printed
    form and the parser of durations.  A [time.Time] is the number of
    nanoseconds since the zero time, a [time.Duration] a number of nanoseconds
    in 64 bits. *)

From Stdlib Require Import SpecFloat.
From S2P Require Import Prelude GoStrings.
#[local] Open Scope go_scope.

Module Time.

Definition IsZero (t : Z) : bool := t == 0%Z.

(** [Time.Sub] saturates. *)
Definition Sub (t u : Z) : Z := Z.max (- 2 ^ 63) (Z.min (2 ^ 63 - 1) (t - u)).

Definition UnixNano (t : Z) : Z := wrap64 (t - 62135596800000000000).

Definition Microsecond : Z := 1000.
Definition Millisecond : Z := 1000 * Microsecond.
Definition Second : Z := 1000 * Millisecond.
Definition Minute : Z := 60 * Second.
Definition Hour : Z := 60 * Minute.

(** ** [Duration.Round] *)

Definition lessThanHalf (x y : Z) : bool := (x + x <? y)%Z.

Definition Round (d m : Z) : Z :=
  if (m <=? 0)%Z then d
  else
    let r := Z.rem d m in
    if (d <? 0)%Z then
      let r := (- r)%Z in
      if lessThanHalf r m then (d + r)%Z
      else
        let d1 := wrap64 (wrap64 (d - m) + r) in
        if (d1 <? d)%Z then d1 else (- 2 ^ 63)%Z
    else if lessThanHalf r m then (d - r)%Z
    else
      let d1 := wrap64 (wrap64 (d + m) - r) in
      if (d <? d1)%Z then d1 else (2 ^ 63 - 1)%Z.

(** Rounding is to the nearest multiple, or saturates. *)
Lemma Round_near d m :
  (0 < m)%Z → (- 2 ^ 62 <= d < 2 ^ 62)%Z → (m < 2 ^ 62)%Z →
  (Round d m mod m = 0)%Z ∧ (2 * Z.abs (Round d m - d) <= m)%Z.
Proof.
  intros Hm Hd Hm'. unfold Round, lessThanHalf.
  rewrite (proj2 (Z.leb_gt _ _)) by lia.
  pose proof (Z.rem_bound_abs d m ltac:(lia)) as Hb. rewrite (Z.abs_eq m) in Hb by lia.
  pose proof (Z.quot_rem' d m) as Hq.
  pose proof (Z.rem_nonpos d m ltac:(lia)) as Hn. pose proof (Z.rem_nonneg d m ltac:(lia)) as Hp.
  remember (Z.quot d m) as q eqn:Eq. remember (Z.rem d m) as r eqn:Er. clear Eq Er.
  assert (Hmul : ∀ k, ((m * k) mod m = 0)%Z) by (intros; rewrite Z.mul_comm; apply Z.mod_mul; lia).
  destruct (Z.ltb_spec d 0) as [Hneg|Hpos].
  - specialize (Hn ltac:(lia)).
    destruct (Z.ltb_spec (- r + - r) m).
    + replace (d + - r)%Z with (m * q)%Z by lia. split; [apply Hmul|lia].
    + rewrite (wrap64_id (d - m)), wrap64_id by lia.
      replace (d - m + - r)%Z with (m * (q - 1))%Z by lia.
      rewrite (proj2 (Z.ltb_lt _ _)) by nia. split; [apply Hmul|lia].
  - specialize (Hp ltac:(lia)).
    destruct (Z.ltb_spec (r + r) m).
    + replace (d - r)%Z with (m * q)%Z by lia. split; [apply Hmul|lia].
    + rewrite (wrap64_id (d + m)), wrap64_id by lia.
      replace (d + m - r)%Z with (m * (q + 1))%Z by lia.
      rewrite (proj2 (Z.ltb_lt _ _)) by nia. split; [apply Hmul|lia].
Qed.

(** ** [Duration.String] *)

(** [fmtFrac]: the digits of the fraction, without trailing zeros, and what is
    left of the number. *)
Fixpoint fmt_frac (prec : nat) (v : Z) (print : bool) (acc : bytes) : bytes * Z :=
  match prec with
  | 0 => (if print then "."%char :: acc else acc, v)
  | S prec =>
    let digit := (v mod 10)%Z in
    let print := print || (digit != 0%Z) in
    fmt_frac prec (v / 10) print
      (if print then ascii_of_N (Z.to_N digit + 48) :: acc else acc)
  end.

Definition fmt_part (v : Z) (prec : nat) : bytes * Z := fmt_frac prec v false [].

Definition MICRO : bytes := ["194"%char; "181"%char].

Definition String_pos (u : Z) : bytes :=
  if Z.ltb u Second then
    if u == 0%Z then "0s"
    else if Z.ltb u Microsecond then Itoa u ++ "ns"
    else if Z.ltb u Millisecond then
      let '(frac, v) := fmt_part u 3 in Itoa v ++ frac ++ MICRO ++ "s"
    else
      let '(frac, v) := fmt_part u 6 in Itoa v ++ frac ++ "ms"
  else
    let '(frac, v) := fmt_part u 9 in
    let secs := Itoa (v mod 60) ++ frac ++ "s" in
    let v := (v / 60)%Z in
    if Z.ltb 0 v then
      let mins := Itoa (v mod 60) ++ "m" ++ secs in
      let v := (v / 60)%Z in
      if Z.ltb 0 v then Itoa v ++ "h" ++ mins else mins
    else secs.

Definition String (d : Z) : bytes :=
  if Z.ltb d 0 then "-" ++ String_pos (- d) else String_pos d.

(** ** [time.ParseDuration] *)

Inductive duration_error := InvalidDuration | MissingUnit | UnknownUnit.

#[export] Instance duration_error_eq_dec : EqDecision duration_error.
Proof. solve_decision. Defined.

(** [leadingInt]: [None] is the overflow. *)
Fixpoint leading_int (x : N) (s : bytes) : option (N * bytes) :=
  match s with
  | [] => Some (x, [])
  | c :: s' =>
    match digit c with
    | None => Some (x, s)
    | Some d =>
      if N.ltb (2 ^ 63 / 10) x then None
      else
        let x := (x * 10 + d)%N in
        if N.ltb (2 ^ 63) x then None else leading_int x s'
    end
  end.

(** The scale is a [float64] that is multiplied by ten for every digit. *)
Definition f64 (n : N) : spec_float := binary_normalize 53 1024 (Z.of_N n) 0 false.

Fixpoint leading_fraction (x : N) (scale : spec_float) (overflow : bool) (s : bytes) :
    N * spec_float * bytes :=
  match s with
  | [] => (x, scale, [])
  | c :: s' =>
    match digit c with
    | None => (x, scale, s)
    | Some d =>
      if overflow || N.ltb ((2 ^ 63 - 1) / 10) x then leading_fraction x scale true s'
      else
        let y := (x * 10 + d)%N in
        if N.ltb (2 ^ 63) y then leading_fraction x scale true s'
        else leading_fraction y (SFmul 53 1024 scale (f64 10)) false s'
    end
  end.

(** [uint64(x)] of a [float64] that is not negative. *)
Definition trunc (x : spec_float) : N :=
  match x with
  | S754_finite false m e => Z.to_N (Z.shiftl (Zpos m) e)
  | _ => 0
  end.

(** The unit is what comes before the next digit or dot. *)
Fixpoint take_unit (s : bytes) : bytes * bytes :=
  match s with
  | [] => ([], [])
  | c :: s' =>
    if (c == "."%char) || bool_decide (is_Some (digit c)) then ([], s)
    else let '(u, r) := take_unit s' in (c :: u, r)
  end.

Definition unitMap (u : bytes) : option N :=
  if u == "ns" then Some 1%N
  else if (u == "us") || (u == MICRO ++ "s") || (u == ["206"%char; "188"%char] ++ "s")
  then Some 1000%N
  else if u == "ms" then Some 1000000%N
  else if u == "s" then Some 1000000000%N
  else if u == "m" then Some 60000000000%N
  else if u == "h" then Some 3600000000000%N
  else None.

(** A dot and digits, if they are there. *)
Definition parse_fraction (s : bytes) : N * spec_float * bytes * bool :=
  match s with
  | [] => (0%N, f64 1, s, false)
  | c :: s' =>
    if c == "."%char then
      let '(f, scale, r) := leading_fraction 0 (f64 1) false s' in
      (f, scale, r, length s' != length r)
    else (0%N, f64 1, s, false)
  end.

(** One number with its unit: the nanoseconds and the rest. *)
Definition parse_one (s : bytes) : res duration_error (N * bytes) :=
  match s with
  | [] => Err InvalidDuration
  | c :: _ =>
    if negb ((c == "."%char) || bool_decide (is_Some (digit c))) then Err InvalidDuration
    else
      match leading_int 0 s with
      | None => Err InvalidDuration
      | Some (v, s1) =>
        let pre := length s != length s1 in
        let '(f, scale, s2, post) := parse_fraction s1 in
        if negb pre && negb post then Err InvalidDuration
        else
          let '(u, s3) := take_unit s2 in
          if u == [] then Err MissingUnit
          else
            match unitMap u with
            | None => Err UnknownUnit
            | Some unit =>
              if N.ltb (2 ^ 63 / unit) v then Err InvalidDuration
              else
                let v := (v * unit)%N in
                let v :=
                  if N.ltb 0 f then
                    (v + trunc (SFmul 53 1024 (f64 f) (SFdiv 53 1024 (f64 unit) scale)))%N
                  else v in
                if N.ltb (2 ^ 63) v then Err InvalidDuration else Ok (v, s3)
            end
      end
  end.

(** Every part takes at least one byte, so the length of the text is enough. *)
Fixpoint parse_parts (fuel : nat) (d : N) (s : bytes) : res duration_error N :=
  match s with
  | [] => Ok d
  | _ =>
    match fuel with
    | 0 => Err InvalidDuration
    | S fuel =>
      '(v, s') ← parse_one s;
      let d := (d + v)%N in
      if N.ltb (2 ^ 63) d then Err InvalidDuration else parse_parts fuel d s'
    end
  end.

Definition ParseDuration (s : bytes) : res duration_error Z :=
  let '(neg, s) :=
    match s with
    | "-"%char :: s' => (true, s')
    | "+"%char :: s' => (false, s')
    | _ => (false, s)
    end in
  if s == "0" then Ok 0%Z
  else if s == [] then Err InvalidDuration
  else
    d ← parse_parts (length s) 0 s;
    if neg then Ok (- Z.of_N d)%Z
    else if N.ltb (2 ^ 63 - 1) d then Err InvalidDuration
    else Ok (Z.of_N d).

(** ** Lemmas *)

Lemma Sub_nonneg t u : (u ≤ t)%Z → (0 ≤ Sub t u)%Z.
Proof. unfold Sub. lia. Qed.

Lemma Sub_range t u : (- 2 ^ 63 ≤ Sub t u < 2 ^ 63)%Z.
Proof. unfold Sub. lia. Qed.

Lemma leading_int_length s x v r :
  leading_int x s = Some (v, r) → length r ≤ length s.
Proof.
  revert x. induction s as [|c s IH]; intros x Hl; simpl in *; [by simplify_eq|].
  destruct (digit c); [|by simplify_eq].
  repeat (case_match; [done|]). apply IH in Hl. lia.
Qed.

Lemma leading_fraction_length s x sc o v sc' r :
  leading_fraction x sc o s = (v, sc', r) → length r ≤ length s.
Proof.
  revert x sc o. induction s as [|c s IH]; intros x sc o Hl; simpl in *; [by simplify_eq|].
  destruct (digit c); [|by simplify_eq].
  repeat case_match; apply IH in Hl; lia.
Qed.

Lemma parse_fraction_length s f sc r b :
  parse_fraction s = (f, sc, r, b) → length r ≤ length s.
Proof.
  destruct s as [|c s]; simpl; [intros; by simplify_eq|].
  destruct (bool_decide _); [|intros; by simplify_eq].
  destruct (leading_fraction _ _ _ _) as [[f' sc'] r'] eqn:El.
  apply leading_fraction_length in El. intros. simplify_eq. lia.
Qed.

Lemma take_unit_length s u r : take_unit s = (u, r) → length s = length u + length r.
Proof.
  revert u. induction s as [|c s IH]; intros u Hl; simpl in *; [by simplify_eq|].
  destruct (_ || _); [by simplify_eq|].
  destruct (take_unit s) as [u' r'] eqn:E. simplify_eq. simpl. by rewrite (IH u').
Qed.

Lemma parse_one_shorter s v r : parse_one s = Ok (v, r) → length r < length s.
Proof.
  unfold parse_one. destruct s as [|c s0]; [done|].
  set (s := c :: s0). intros Hp. destruct (negb _); [done|].
  destruct (leading_int 0 s) as [[v1 s1]|] eqn:E1; [|done].
  apply leading_int_length in E1.
  destruct (parse_fraction s1) as [[[f sc] s2] post] eqn:Ef.
  apply parse_fraction_length in Ef.
  destruct (_ && _); [done|]. destruct (take_unit s2) as [u s3] eqn:Eu.
  apply take_unit_length in Eu.
  destruct (bool_decide (u = [])) eqn:Enil; [done|].
  apply bool_decide_eq_false in Enil.
  repeat case_match; simplify_eq; (destruct u; [done|]); simpl in *; lia.
Qed.

(** More fuel than the length of the text changes nothing. *)
Lemma parse_parts_enough n m d s :
  length s ≤ n → length s ≤ m → parse_parts n d s = parse_parts m d s.
Proof.
  revert m d s. induction n as [|n IH]; intros [|m] d [|c s] Hn Hm;
    try done; simpl in Hn, Hm; try lia.
  cbn [parse_parts]. destruct (parse_one (c :: s)) as [[v r]|] eqn:Ep; [|done].
  apply parse_one_shorter in Ep. simpl in *.
  destruct (N.ltb _ _); [done|]. apply IH; lia.
Qed.

Lemma parse_parts_bound n d s v :
  parse_parts n d s = Ok v → (d ≤ 2 ^ 63)%N → (v ≤ 2 ^ 63)%N.
Proof.
  revert d s. induction n as [|n IH]; intros d [|c s] Hp Hd;
    cbn [parse_parts] in Hp; try by simplify_eq.
  destruct (parse_one (c :: s)) as [[w r]|]; [|done]. simpl in Hp.
  destruct (N.ltb_spec (2 ^ 63) (d + w)); [done|]. by eapply IH.
Qed.

(** The result is always a [Duration]: no value is out of its range. *)
Lemma ParseDuration_range s d : ParseDuration s = Ok d → (- 2 ^ 63 ≤ d < 2 ^ 63)%Z.
Proof.
  unfold ParseDuration. destruct (match s with [] => _ | _ => _ end) as [neg s'].
  destruct (bool_decide (s' = _)); [intros; by simplify_eq|].
  destruct (bool_decide (s' = _)); [done|]. intros Hp. res_inv.
  apply parse_parts_bound in E; [|done].
  destruct neg; [simplify_eq; lia|].
  destruct (N.ltb_spec (2 ^ 63 - 1) a); [done|]. simplify_eq. lia.
Qed.

Example parse_20h : ParseDuration "20h" = Ok 72000000000000%Z.
Proof. vm_compute. reflexivity. Qed.
Example parse_fractions : ParseDuration "1h15m30.918s" = Ok 4530918000000%Z.
Proof. vm_compute. reflexivity. Qed.
Example string_20h : String (20 * Hour) = "20h0m0s".
Proof. vm_compute. reflexivity. Qed.
Example string_fraction : String 4530918000000 = "1h15m30.918s".
Proof. vm_compute. reflexivity. Qed.

End Time.
