(* ===== verification/Envelope.v ===== *)
(** String sets, envelopes and address normalization: packages
    [internal/set], [internal/envelope] and [internal/normalize]. *)

From S2P Require Import Prelude GoStrings.
#[local] Open Scope go_scope.

(** ** internal/set *)
Module StringSet.

(** [set.String]: the map is nil until the first [Add]. *)
Record String := mkString { m : option (gset bytes) }.

Definition empty : String := mkString None.

Definition Add (s : String) (values : list bytes) : String :=
  let m0 := default ∅ (m s) in
  mkString (Some (foldl (λ acc v, {[v]} ∪ acc) m0 values)).

Definition NewString (values : list bytes) : String := Add empty values.

(** The receiver may be nil. *)
Definition Has (s : option String) (value : bytes) : bool :=
  match s with
  | None => false
  | Some s =>
    match m s with
    | None => false
    | Some m => bool_decide (value ∈ m)
    end
  end.

Lemma foldl_add_elem (values : list bytes) (acc : gset bytes) v :
  v ∈ foldl (λ acc v, {[v]} ∪ acc) acc values ↔ v ∈ acc ∨ v ∈ values.
Proof.
  revert acc. induction values as [|x values IH]; intros acc; simpl;
    [set_solver|]. rewrite IH. set_solver.
Qed.

Lemma Has_Add s values v :
  Has (Some (Add s values)) v = Has (Some s) v || bool_decide (v ∈ values).
Proof.
  unfold Has, Add; simpl.
  apply eq_true_iff_eq.
  rewrite orb_true_iff, !bool_decide_eq_true, foldl_add_elem.
  destruct (m s) as [m0|]; simpl; rewrite ?bool_decide_eq_true; set_solver.
Qed.

End StringSet.

(** ** internal/envelope *)
Module Envelope.

(** [user@domain] is split at the first ["@"]; without one the domain is
    empty. *)
Definition Split (addr : bytes) : bytes * bytes :=
  match SplitN2 addr "@" with
  | [user; domain] => (user, domain)
  | _ => (addr, [])
  end.

Definition UserOf (addr : bytes) : bytes := fst (Split addr).

Definition DomainOf (addr : bytes) : bytes := snd (Split addr).

(** The empty domain counts as local. *)
Definition DomainIn (addr : bytes) (locals : option StringSet.String) : bool :=
  let domain := DomainOf addr in
  if domain == "" then true else StringSet.Has locals domain.

(** [AddHeader] prepends a header; the newlines inside the value become
    folded continuation lines. *)
Definition fold_value (v : bytes) : bytes :=
  match last v with
  | None => v
  | Some c =>
    let v := if c == LF then take (length v - 1) v else v in
    ReplaceAll v [LF] [LF; TAB]
  end.

Definition AddHeader (data k v : bytes) : bytes :=
  k ++ ": " ++ fold_value v ++ [LF] ++ data.

Lemma Split_at user domain :
  "@"%char ∉ user → Split (user ++ "@" ++ domain) = (user, domain).
Proof. intros H. unfold Split, SplitN2. simpl. by rewrite Cut_byte_app. Qed.

Lemma Split_no_at addr : "@"%char ∉ addr → Split addr = (addr, []).
Proof.
  intros H. unfold Split, SplitN2. by rewrite (proj2 (Cut_byte_None _ _) H).
Qed.

(** An address either has no ["@"], or is made up of its two parts. *)
Lemma Split_cases addr :
  (Split addr = (addr, []) ∧ "@"%char ∉ addr) ∨
  (∃ u d, Split addr = (u, d) ∧ addr = u ++ "@" ++ d ∧ "@"%char ∉ u).
Proof.
  unfold Split, SplitN2. destruct (Cut addr "@") as [[u d]|] eqn:E.
  - apply Cut_byte_Some in E as [-> Hu]. right. by exists u, d.
  - apply Cut_byte_None in E. by left.
Qed.

Lemma UserOf_no_at addr : "@"%char ∉ UserOf addr.
Proof.
  unfold UserOf. destruct (Split_cases addr) as [[-> ?]|(u & d & -> & _ & ?)];
    done.
Qed.

Lemma DomainOf_at user domain :
  "@"%char ∉ user → DomainOf (user ++ "@" ++ domain) = domain.
Proof. intros H. unfold DomainOf. by rewrite Split_at. Qed.

(** The lines of a folded value: what was a newline starts a line with a
    tab. *)
Lemma ReplaceAll_fold v :
  ReplaceAll v [LF] [LF; TAB] =
    match GoStrings.Split v [LF] with
    | l :: ls => Join (l :: ((λ k, TAB :: k) <$> ls)) [LF]
    | [] => []
    end.
Proof.
  unfold ReplaceAll. destruct (GoStrings.Split v [LF]) as [|l ls]; [done|].
  revert l. induction ls as [|l' ls IH]; intros l; [done|].
  rewrite Join_cons by done. rewrite IH.
  rewrite fmap_cons, (Join_cons l) by done.
  simpl app. f_equal. by destruct ls.
Qed.

End Envelope.

(** ** internal/normalize *)

(** The string preparation chasquid takes from golang.org/x/text (PRECIS
    UsernameCaseMapped, Unicode NFC) and golang.org/x/net (IDNA). *)
Class Precis := {
  precis_UsernameCaseMapped : bytes → option bytes;
  idna_ToUnicode : bytes → option bytes;
  (** [idna.ToASCII] returns a string also when it fails; the boolean tells
      whether there was an error. *)
  idna_ToASCII : bytes → bytes * bool;
  norm_NFC : bytes → bytes;
}.

(** A concrete instance for the examples: names are ASCII without spaces, and
    are lowered; no domain is internationalized. *)
Module AsciiOnly.

#[export] Instance unicode : Unicode :=
  {| uni_lower r := r; uni_upper r := r; uni_fold _ _ := false;
     uni_print _ := false |}.

Definition name_ok (c : ascii) : bool :=
  N.ltb 32 (Utf8.bval c) && N.ltb (Utf8.bval c) 127.

#[export] Instance precis : Precis :=
  {| precis_UsernameCaseMapped u :=
       if forallb name_ok u then Some (lower_byte <$> u) else None;
     idna_ToUnicode d := if forallb name_ok d then Some d else None;
     idna_ToASCII d := (d, negb (forallb name_ok d));
     norm_NFC d := d |}.

End AsciiOnly.

Module Normalize.

Inductive error := ErrUser | ErrDomain.

#[export] Instance normalize_error_eq_dec : EqDecision error.
Proof. solve_decision. Defined.

Section Normalize.
Context `{Unicode, Precis}.

(** On error the original string is returned with it. *)
Definition User (user : bytes) : bytes * option error :=
  match precis_UsernameCaseMapped user with
  | None => (user, Some ErrUser)
  | Some norm => (norm, None)
  end.

Definition Domain (domain : bytes) : bytes * option error :=
  match idna_ToUnicode domain with
  | None => (domain, Some ErrDomain)
  | Some d =>
    let d := norm_NFC d in
    let d := ToLower d in
    (d, None)
  end.

Definition Addr (addr : bytes) : bytes * option error :=
  let '(user, domain) := Envelope.Split addr in
  match User user with
  | (_, Some err) => (addr, Some err)
  | (user, None) =>
    match Domain domain with
    | (_, Some err) => (addr, Some err)
    | (domain, None) => (user ++ "@" ++ domain, None)
    end
  end.

Definition DomainToUnicode (addr : bytes) : bytes * option error :=
  if addr == "<>" then (addr, None)
  else
    let '(user, domain) := Envelope.Split addr in
    let '(domain, err) := Domain domain in
    (user ++ "@" ++ domain, err).

Lemma Addr_error addr addr' err :
  Addr addr = (addr', Some err) → addr' = addr.
Proof.
  unfold Addr. destruct (Envelope.Split addr) as [u d].
  repeat case_match; congruence.
Qed.

Lemma Addr_domain addr addr' :
  Addr addr = (addr', None) →
  ∃ user, addr' = user ++ "@" ++ fst (Domain (Envelope.DomainOf addr)).
Proof.
  unfold Addr, Envelope.DomainOf. destruct (Envelope.Split addr) as [u d].
  destruct (User u) as [u' [e|]]; [done|]. simpl.
  destruct (Domain d) as [d' [e|]]; [done|]. intros [= <-]. by exists u'.
Qed.

End Normalize.

(** [ToCRLF] goes line by line through a buffer; the last piece of the split
    has no newline after it. *)
Fixpoint to_crlf_loop (b : bytes) (lines : list bytes) : bytes :=
  match lines with
  | [] => b
  | [line] => b ++ line
  | line :: lines =>
    let b := b ++ line in
    let b := if HasSuffix line [CR] then b else b ++ [CR] in
    to_crlf_loop (b ++ [LF]) lines
  end.

Definition ToCRLF (inp : bytes) : bytes := to_crlf_loop [] (Split inp [LF]).

(** The string version is the same program over strings. *)
Definition StringToCRLF (inp : bytes) : bytes :=
  to_crlf_loop [] (Split inp [LF]).

(** A line as it is written, its carriage return added when missing. *)
Definition crlf_line (l : bytes) : bytes :=
  if HasSuffix l [CR] then l else l ++ [CR].

(** The lines of the output. *)
Fixpoint crlf_lines (ls : list bytes) : list bytes :=
  match ls with
  | [] => []
  | [l] => [l]
  | l :: ls => crlf_line l :: crlf_lines ls
  end.

Lemma to_crlf_loop_join b ls :
  to_crlf_loop b ls = b ++ Join (crlf_lines ls) [LF].
Proof.
  revert b. induction ls as [|l ls IH]; intros b; simpl.
  - by rewrite (right_id_L [] (++)).
  - destruct ls as [|l' ls]; [done|].
    rewrite IH. unfold crlf_line.
    rewrite (Join_cons _ (crlf_lines (l' :: ls))) by by destruct ls.
    destruct (HasSuffix l [CR]); by rewrite <- !app_assoc.
Qed.

Lemma ToCRLF_join s : ToCRLF s = Join (crlf_lines (Split s [LF])) [LF].
Proof. unfold ToCRLF. by rewrite to_crlf_loop_join. Qed.

Lemma crlf_line_no_lf l : LF ∉ l → LF ∉ crlf_line l.
Proof.
  unfold crlf_line. destruct (HasSuffix l [CR]); [done|].
  rewrite elem_of_app, list_elem_of_singleton. by intros ? [?|?].
Qed.

Lemma crlf_lines_no_lf ls :
  Forall (λ l, LF ∉ l) ls → Forall (λ l, LF ∉ l) (crlf_lines ls).
Proof.
  induction 1 as [|l ls Hl Hls IH]; [constructor|].
  destruct ls; simpl; repeat constructor; auto using crlf_line_no_lf.
Qed.

Lemma crlf_line_suffix l : HasSuffix (crlf_line l) [CR] = true.
Proof.
  unfold crlf_line. destruct (HasSuffix l [CR]) eqn:E; [done|].
  apply HasSuffix_spec. by exists l.
Qed.

Lemma crlf_lines_idem ls : crlf_lines (crlf_lines ls) = crlf_lines ls.
Proof.
  induction ls as [|l ls IH]; [done|]. destruct ls as [|l' ls]; [done|].
  change (crlf_lines (l :: l' :: ls))
    with (crlf_line l :: crlf_lines (l' :: ls)).
  destruct (crlf_lines (l' :: ls)) as [|k ks] eqn:E; [by destruct ls|].
  change (crlf_lines (crlf_line l :: k :: ks))
    with (crlf_line (crlf_line l) :: crlf_lines (k :: ks)).
  rewrite IH. f_equal. unfold crlf_line at 1. by rewrite crlf_line_suffix.
Qed.

Lemma Split_ToCRLF s :
  Split (ToCRLF s) [LF] = crlf_lines (Split s [LF]).
Proof.
  rewrite ToCRLF_join. apply Split_Join_byte.
  - pose proof (Split_not_nil s [LF] ltac:(done)).
    by destruct (Split s [LF]) as [|? []].
  - apply crlf_lines_no_lf, Split_byte_Forall.
Qed.

(** Every newline that a join of such lines contains follows a CR. *)
Lemma crlf_lines_no_bare_lf ls a b :
  Forall (λ l, LF ∉ l) ls →
  Join (crlf_lines ls) [LF] = a ++ LF :: b → ∃ a', a = a' ++ [CR].
Proof.
  intros Hls. revert a. induction Hls as [|l ls Hl Hls IH]; intros a.
  { by destruct a. }
  destruct ls as [|l' ls].
  { simpl. intros ->. exfalso. apply Hl. rewrite elem_of_app, elem_of_cons. tauto. }
  change (crlf_lines (l :: l' :: ls))
    with (crlf_line l :: crlf_lines (l' :: ls)).
  rewrite Join_cons by by destruct ls. intros H.
  pose proof (crlf_line_no_lf l Hl) as Hl'.
  pose proof (crlf_line_suffix l) as Hsuf.
  apply HasSuffix_spec in Hsuf as [r Hr].
  apply app_eq_inv in H as [[k [Ha Hb]]|[k [Ha Hb]]].
  - destruct k as [|c k]; simpl in Hb.
    + exists r. by rewrite <- Hr, Ha, (right_id_L [] (++)).
    + injection Hb as <- Hb. rewrite Ha in Hl'. exfalso. apply Hl'.
      rewrite elem_of_app, elem_of_cons. tauto.
  - destruct k as [|c k]; simpl in Hb.
    + exists r. by rewrite Ha, (right_id_L [] (++)).
    + injection Hb as <- Hb. destruct (IH k) as [a' ->]; [done|].
      exists (crlf_line l ++ LF :: a'). by rewrite Ha, <- app_assoc.
Qed.

Lemma filter_Join_crlf ls :
  filter (λ c, c ≠ CR) (Join (crlf_lines ls) [LF]) =
  filter (λ c, c ≠ CR) (Join ls [LF]).
Proof.
  induction ls as [|l ls IH]; [done|]. destruct ls as [|l' ls]; [done|].
  change (crlf_lines (l :: l' :: ls))
    with (crlf_line l :: crlf_lines (l' :: ls)).
  rewrite !Join_cons by by destruct ls.
  rewrite !filter_app, IH. f_equal.
  unfold crlf_line. destruct (HasSuffix l [CR]); [done|].
  rewrite filter_app, (filter_cons_False _ CR []) by tauto.
  by rewrite filter_nil, (right_id_L [] (++)).
Qed.

(** ** Properties *)

(** The conversion to CRLF line endings is idempotent, changes nothing
    but the carriage returns, and leaves no LF without a CR before it; the
    string version computes the same function. *)
Theorem ToCRLF_correct s :
  ToCRLF (ToCRLF s) = ToCRLF s ∧
  filter (λ c, c ≠ CR) (ToCRLF s) = filter (λ c, c ≠ CR) s ∧
  (∀ a b, ToCRLF s = a ++ LF :: b → ∃ a', a = a' ++ [CR]) ∧
  StringToCRLF s = ToCRLF s.
Proof.
  split_and!; [| | |done].
  - rewrite (ToCRLF_join (ToCRLF s)), Split_ToCRLF, crlf_lines_idem.
    by rewrite ToCRLF_join.
  - rewrite ToCRLF_join, filter_Join_crlf. by rewrite Join_Split.
  - intros a b. rewrite ToCRLF_join.
    apply crlf_lines_no_bare_lf, Split_byte_Forall.
Qed.

End Normalize.

Module EnvelopeProps.
Import Envelope.

(** A header added to a message is one header: its value is the given
    one (less a final newline), and every line of it after the first starts
    with a tab, so a newline in the value cannot start another header; the
    message follows unchanged. *)
Theorem AddHeader_one_header data k v :
  ∃ l ls,
    AddHeader data k v =
      Join ((k ++ ": " ++ l) :: ((λ x, TAB :: x) <$> ls)) [LF]
        ++ [LF] ++ data ∧
    Forall (λ x, LF ∉ x) (l :: ls) ∧
    (v = Join (l :: ls) [LF] ∨ v = Join (l :: ls) [LF] ++ [LF]).
Proof.
  assert (∃ w, fold_value v = ReplaceAll w [LF] [LF; TAB] ∧
               (v = w ∨ v = w ++ [LF])) as (w & Hw & Hv).
  { unfold fold_value. destruct v as [|c v _] using rev_ind.
    - exists []. by split; [|left].
    - rewrite last_snoc. case_bool_decide as Hc.
      + subst c. exists v. split; [|by right].
        rewrite length_app. simpl. by rewrite Nat.add_sub, take_app_length.
      + exists (v ++ [c]). by split; [|left]. }
  pose proof (Join_Split w [LF] ltac:(done)) as Hjoin.
  pose proof (Split_byte_Forall w LF) as Hall.
  rewrite ReplaceAll_fold in Hw.
  destruct (GoStrings.Split w [LF]) as [|l ls] eqn:E.
  { by destruct (Split_not_nil w [LF]). }
  exists l, ls. split_and!; [|done|by rewrite Hjoin].
  unfold AddHeader. rewrite Hw, !app_assoc. do 2 f_equal.
  by destruct ls; simpl; rewrite <- ?app_assoc.
Qed.

End EnvelopeProps.
