(* ===== verification/DotReader.v ===== *)
(** Reading the DATA payload: [internal/smtpsrv/dotreader.go].

    [readUntilDot] is a byte-at-a-time state machine.  The first half of the
    file is its translation; the second half relates it to the line-based
    format of RFC 5321: a payload is a sequence of CRLF-terminated lines, none
    of which is a lone dot, followed by the line that is a lone dot. *)

From S2P Require Import Prelude GoStrings Envelope.
#[local] Open Scope go_scope.

Module DotReader.

(** ** The reader *)

(** What a [bufio.Reader] over the connection will deliver: the bytes, and
    how the stream ends when they are exhausted. *)
Inductive stream_end :=
| EndEOF
| EndError (msg : bytes).

Record reader := mkReader { pending : bytes; ending : stream_end }.

Inductive error :=
| errMessageTooLarge
| errInvalidLineEnding
| ErrUnexpectedEOF
| ReadError (msg : bytes).

#[export] Instance dot_error_eq_dec : EqDecision error.
Proof. solve_decision. Defined.

(** ** The state machine *)

Inductive prev_state := prevOther | prevCR | prevCRLF.

#[export] Instance prev_state_eq_dec : EqDecision prev_state.
Proof. solve_decision. Defined.

Record state := mkState {
  buf : bytes;
  n : Z;
  prev : prev_state;
  last4 : bytes;
  skip : bool;
}.

Definition init : state := mkState [] 0 prevCRLF [NUL; NUL; NUL; NUL] false.

Inductive step_result :=
| SContinue (s : state)
| SBreak (s : state)
| SReturn (b : bytes) (err : option error).

(** The end of the loop body, after the switch. *)
Definition push (max : Z) (s : state) (n' : Z) (b : ascii)
    (prev' : prev_state) (skip' : bool) : step_result :=
  SContinue {|
    buf := if (Z.of_nat (length (buf s)) <? max)%Z && negb skip'
           then buf s ++ [b] else buf s;
    n := n';
    prev := prev';
    last4 := drop 1 (last4 s) ++ [b];
    skip := false |}.

Definition step (max : Z) (s : state) (b : ascii) : step_result :=
  let n' := (n s + 1)%Z in
  if b == CR then
    if prev s == prevCR then SReturn (buf s) (Some errInvalidLineEnding)
    else push max s n' b prevCR true
  else if b == LF then
    if prev s != prevCR then SReturn (buf s) (Some errInvalidLineEnding)
    else if last4 s == [CR; LF; DOT; CR] then
      SBreak (mkState (buf s) n' (prev s) (last4 s) (skip s))
    else if ((n' =? 3)%Z && (last4 s == [NUL; NUL; DOT; CR]))%bool then
      SReturn [] None
    else push max s n' b prevCRLF (skip s)
  else
    if prev s == prevCR then SReturn (buf s) (Some errInvalidLineEnding)
    else
      let skip' := if (b == DOT) && (prev s == prevCRLF) then true
                   else skip s in
      push max s n' b prevOther skip'.

(** The loop and what follows it.  The result is the returned buffer and
    error, and the bytes left in the reader. *)
Fixpoint loop (max : Z) (s : state) (data : bytes) (fin : stream_end) :
  bytes * option error * bytes :=
  match data with
  | [] =>
    (buf s, Some match fin with
                 | EndEOF => ErrUnexpectedEOF
                 | EndError e => ReadError e
                 end, [])
  | b :: data =>
    match step max s b with
    | SContinue s => loop max s data fin
    | SReturn b err => (b, err, data)
    | SBreak s =>
      if (n s >? max)%Z then (buf s, Some errMessageTooLarge, data)
      else (buf s, None, data)
    end
  end.

Definition readUntilDot (r : reader) (max : Z) :
  bytes * option error * reader :=
  let '(b, err, rest) := loop max init (pending r) (ending r) in
  (b, err, mkReader rest (ending r)).

(** ** The wire format *)

Definition clean (l : bytes) : Prop := (CR ∉ l) ∧ (LF ∉ l).

(** A payload line as it travels: clean, and not the terminator. *)
Definition wire_line (w : bytes) : Prop := clean w ∧ w ≠ [DOT].

Definition enc_lines (ws : list bytes) : bytes :=
  concat ((λ w, w ++ CRLF) <$> ws).

Definition wire (ws : list bytes) : bytes := enc_lines ws ++ DOT :: CRLF.

(** Dot-stuffing, by the sender and by the receiver. *)
Definition stuff (l : bytes) : bytes :=
  match l with
  | c :: _ => if c == DOT then DOT :: l else l
  | [] => l
  end.

Definition unstuff (w : bytes) : bytes :=
  match w with
  | c :: w' => if c == DOT then w' else w
  | [] => w
  end.

Definition dec_lines (ws : list bytes) : bytes :=
  concat ((λ w, unstuff w ++ [LF]) <$> ws).

Lemma unstuff_stuff l : unstuff (stuff l) = l.
Proof.
  destruct l as [|c l]; [done|]. simpl.
  case_bool_decide; simpl; [done|]. by rewrite bool_decide_eq_false_2.
Qed.

Lemma stuff_wire_line l : clean l → wire_line (stuff l).
Proof.
  intros [Hcr Hlf]. destruct l as [|c l]; [by repeat split|]. simpl.
  case_bool_decide as Hc; subst; split; unfold clean;
    rewrite ?not_elem_of_cons in *; naive_solver.
Qed.

(** ** The invariant of the loop

    After [p] has been read, at the start of a line, [out] being what the
    payload decodes to so far: the buffer is [out] cut at [max] bytes. *)

Definition last4_of (p : bytes) : bytes :=
  drop (length p) ([NUL; NUL; NUL; NUL] ++ p).

Definition at_line (p : bytes) : Prop := p = [] ∨ ∃ p', p = p' ++ CRLF.

Definition mid (max : Z) (p out : bytes) (pr : prev_state) : state :=
  mkState (take (Z.to_nat max) out) (Z.of_nat (length p)) pr (last4_of p) false.

Lemma last4_of_snoc p b : drop 1 (last4_of p) ++ [b] = last4_of (p ++ [b]).
Proof.
  unfold last4_of. rewrite drop_drop, length_app, app_assoc.
  rewrite (drop_app_le _ [b]); [done|]. rewrite length_app. simpl. lia.
Qed.

Lemma take_snoc_lt (m : nat) (out : bytes) b :
  length (take m out) < m → take m out ++ [b] = take m (out ++ [b]).
Proof.
  rewrite length_take. intros Hlt. rewrite (take_ge out) by lia.
  rewrite take_ge; [done|]. rewrite length_app. simpl. lia.
Qed.

Lemma take_snoc_ge (m : nat) (out : bytes) b :
  m ≤ length (take m out) → take m out = take m (out ++ [b]).
Proof. rewrite length_take. intros H. by rewrite take_app_le by lia. Qed.

#[local] Instance CRLF_prefix_dec (tl : bytes) :
  Decision (∃ tl', tl = CRLF ++ tl').
Proof.
  destruct (strip_prefix CRLF tl) as [tl'|] eqn:E.
  - left. exists tl'. by apply strip_prefix_Some.
  - right. intros [tl' H]. apply strip_prefix_Some in H. congruence.
Defined.

Section Loop.
Variable max : Z.
Hypothesis max_nonneg : (0 ≤ max)%Z.

Lemma push_mid p out pr b pr' sk :
  push max (mid max p out pr) (Z.of_nat (length p) + 1) b pr' sk =
    SContinue (mid max (p ++ [b]) (if sk then out else out ++ [b]) pr').
Proof.
  unfold push, mid; simpl. rewrite last4_of_snoc, length_app. simpl.
  do 2 f_equal; [|lia].
  destruct sk; simpl; [by rewrite andb_false_r|]. rewrite andb_true_r.
  destruct (Z.ltb_spec (Z.of_nat (length (take (Z.to_nat max) out))) max).
  - apply take_snoc_lt. lia.
  - apply take_snoc_ge. lia.
Qed.

(** One clean byte in the middle of a line. *)
Lemma step_other p out b :
  b ≠ CR → b ≠ LF →
  step max (mid max p out prevOther) b =
    SContinue (mid max (p ++ [b]) (out ++ [b]) prevOther).
Proof.
  intros Hcr Hlf. unfold step; simpl.
  rewrite !bool_decide_eq_false_2 by done. simpl.
  rewrite andb_false_r. apply push_mid.
Qed.

(** The first byte of a line is dropped when it is a dot. *)
Lemma step_first p out b :
  b ≠ CR → b ≠ LF →
  step max (mid max p out prevCRLF) b =
    SContinue (mid max (p ++ [b]) (out ++ unstuff [b]) prevOther).
Proof.
  intros Hcr Hlf. unfold step; simpl.
  rewrite (bool_decide_eq_false_2 (b = CR)) by done.
  rewrite (bool_decide_eq_false_2 (b = LF)) by done. simpl.
  rewrite andb_true_r. rewrite push_mid.
  case_bool_decide; simpl; [by rewrite (right_id_L [] (++))|done].
Qed.

Lemma step_CR p out pr :
  pr ≠ prevCR →
  step max (mid max p out pr) CR = SContinue (mid max (p ++ [CR]) out prevCR).
Proof.
  intros Hpr. unfold step; simpl.
  rewrite bool_decide_eq_false_2 by done. apply push_mid.
Qed.

Lemma loop_other p out raw data fin :
  clean raw →
  loop max (mid max p out prevOther) (raw ++ data) fin =
    loop max (mid max (p ++ raw) (out ++ raw) prevOther) data fin.
Proof.
  revert p out. induction raw as [|b raw IH]; intros p out Hraw; simpl.
  - by rewrite !(right_id_L [] (++)).
  - destruct Hraw as [Hcr Hlf].
    rewrite not_elem_of_cons in Hcr, Hlf.
    destruct Hcr as [? ?], Hlf as [? ?].
    rewrite step_other by done.
    rewrite IH by done. by rewrite <- !app_assoc.
Qed.

Definition after_raw (raw : bytes) : prev_state :=
  match raw with [] => prevCRLF | _ => prevOther end.

(** All the clean bytes at the start of a line. *)
Lemma loop_raw p out raw data fin :
  clean raw →
  loop max (mid max p out prevCRLF) (raw ++ data) fin =
    loop max (mid max (p ++ raw) (out ++ unstuff raw) (after_raw raw)) data fin.
Proof.
  intros Hraw. destruct raw as [|b raw]; simpl.
  - by rewrite !(right_id_L [] (++)).
  - destruct Hraw as [Hcr Hlf].
    rewrite not_elem_of_cons in Hcr, Hlf.
    destruct Hcr as [? ?], Hlf as [? ?].
    rewrite step_first by done. rewrite loop_other by done.
    rewrite <- !app_assoc. simpl. by case_bool_decide.
Qed.

Lemma after_raw_not_CR raw : after_raw raw ≠ prevCR.
Proof. by destruct raw. Qed.

Lemma last4_of_suffix q t :
  length t = 4 →
  last4_of q = t ↔ ∃ k, [NUL; NUL; NUL; NUL] ++ q = k ++ t.
Proof.
  intros Ht. unfold last4_of. split.
  - intros <-. exists (take (length q) ([NUL; NUL; NUL; NUL] ++ q)).
    by rewrite take_drop.
  - intros [k Hk]. rewrite Hk.
    apply (f_equal length) in Hk. rewrite !length_app, Ht in Hk. simpl in Hk.
    replace (length q) with (length k) by lia. by rewrite drop_app_length.
Qed.

(** A line read up to its CR is the terminator exactly when the last four
    bytes say so. *)
Lemma last4_terminator p raw :
  at_line p → clean raw →
  last4_of ((p ++ raw) ++ [CR]) = [CR; LF; DOT; CR] ↔ p ≠ [] ∧ raw = [DOT].
Proof.
  intros Hp [_ Hlf]. rewrite last4_of_suffix by done.
  change [CR; LF; DOT; CR] with ([CR; LF] ++ [DOT] ++ [CR]). split.
  - intros [k Hk]. rewrite !app_assoc in Hk.
    apply app_inj_tail in Hk as [Hk _].
    destruct raw as [|x raw _] using rev_ind.
    { rewrite (right_id_L [] (++)) in Hk. destruct Hp as [->|[p' ->]].
      - by apply (app_inj_tail [NUL; NUL; NUL] _ NUL DOT) in Hk as [_ ?].
      - rewrite app_assoc in Hk. change CRLF with ([CR] ++ [LF]) in Hk.
        rewrite app_assoc in Hk. by apply app_inj_tail in Hk as [_ ?]. }
    rewrite app_assoc in Hk. apply app_inj_tail in Hk as [Hk ->].
    destruct raw as [|y raw _] using rev_ind.
    { split; [|done]. intros ->.
      change (k ++ [CR; LF]) with (k ++ [CR] ++ [LF]) in Hk.
      rewrite app_assoc in Hk.
      by apply (app_inj_tail [NUL; NUL; NUL] _ NUL LF) in Hk as [_ ?]. }
    change [CR; LF] with ([CR] ++ [LF]) in Hk. rewrite !app_assoc in Hk.
    apply app_inj_tail in Hk as [_ ->]. set_solver.
  - intros [Hne ->]. destruct Hp as [->|[p' ->]]; [done|].
    exists ([NUL; NUL; NUL; NUL] ++ p'). by rewrite <- !app_assoc.
Qed.

Lemma last4_empty p raw :
  at_line p → clean raw →
  (Z.of_nat (length ((p ++ raw) ++ [CR])) + 1 = 3)%Z ∧
    last4_of ((p ++ raw) ++ [CR]) = [NUL; NUL; DOT; CR] ↔
  p = [] ∧ raw = [DOT].
Proof.
  intros Hp _. rewrite !length_app. simpl. split.
  - intros [Hlen H4]. destruct Hp as [->|[p' ->]].
    + split; [done|]. destruct raw as [|a [|]]; simpl in *; try lia.
      unfold last4_of in H4. simpl in H4. congruence.
    + rewrite length_app in Hlen. simpl in Hlen.
      destruct p', raw; simpl in *; lia.
  - by intros [-> ->].
Qed.

(** ** One line *)

Lemma loop_line p out raw data fin :
  at_line p → clean raw →
  loop max (mid max p out prevCRLF) (raw ++ CRLF ++ data) fin =
    if raw == [DOT] then
      if p == [] then ([], None, data)
      else if (Z.of_nat (length (p ++ DOT :: CRLF)) >? max)%Z
      then (take (Z.to_nat max) out, Some errMessageTooLarge, data)
      else (take (Z.to_nat max) out, None, data)
    else loop max (mid max (p ++ raw ++ CRLF) (out ++ unstuff raw ++ [LF])
                     prevCRLF) data fin.
Proof.
  intros Hp Hraw. rewrite loop_raw by done. simpl app.
  cbn [loop]. rewrite step_CR by apply after_raw_not_CR.
  cbn [loop]. unfold step at 1.
  rewrite (bool_decide_eq_false_2 (LF = CR)) by done.
  rewrite (bool_decide_eq_true_2 (LF = LF)) by done.
  cbn [prev mid last4 n skip buf].
  rewrite (bool_decide_eq_true_2 (prevCR = prevCR)) by done. cbn [negb].
  pose proof (last4_terminator p raw Hp Hraw) as Hterm.
  pose proof (last4_empty p raw Hp Hraw) as Hempty.
  case_bool_decide as H4.
  - apply Hterm in H4 as [Hne ->].
    rewrite (bool_decide_eq_true_2 ([DOT] = [DOT])) by done.
    rewrite (bool_decide_eq_false_2 (p = [])) by done. cbn [n buf].
    rewrite !length_app. simpl. rewrite (right_id_L [] (++)).
    replace (Z.of_nat (length p + 1 + 1) + 1)%Z
      with (Z.of_nat (length p + 3)) by lia. done.
  - destruct (decide (p = [] ∧ raw = [DOT])) as [Hpr|Hpr].
    + pose proof Hpr as [-> ->]. apply Hempty in Hpr as [Hn Hl].
      rewrite (bool_decide_eq_true_2 _ Hl). by rewrite Hn.
    + rewrite (bool_decide_eq_false_2 (raw = [DOT])) by tauto.
      replace (_ && _) with false.
      2: { symmetry. apply andb_false_iff.
           destruct (Z.eqb_spec (Z.of_nat (length ((p ++ raw) ++ [CR])) + 1) 3);
             [right|by left]. apply bool_decide_eq_false_2. tauto. }
      rewrite push_mid. do 2 f_equal; by rewrite <- !app_assoc.
Qed.

(** A line that does not end well. *)
Lemma loop_bad p out raw data fin b err rest :
  clean raw → (∀ data', data ≠ CRLF ++ data') →
  (∀ b data', data = b :: data' → b = CR ∨ b = LF) →
  loop max (mid max p out prevCRLF) (raw ++ data) fin = (b, err, rest) →
  err ≠ None ∧ err ≠ Some errMessageTooLarge.
Proof.
  intros Hraw Hnot Hdata. rewrite loop_raw by done.
  destruct data as [|c data]; [by destruct fin; simpl; naive_solver|].
  destruct (Hdata c data eq_refl) as [->| ->]; cbn [loop].
  - rewrite step_CR by apply after_raw_not_CR. cbn [loop].
    destruct data as [|c data]; [by destruct fin; simpl; naive_solver|].
    cbn [loop]. unfold step at 1.
    destruct (decide (c = CR)) as [->|Hcr]; [simpl; naive_solver|].
    destruct (decide (c = LF)) as [->|Hlf]; [by destruct (Hnot data)|].
    rewrite (bool_decide_eq_false_2 (c = CR)) by done.
    rewrite (bool_decide_eq_false_2 (c = LF)) by done. simpl. naive_solver.
  - unfold step at 1. simpl. destruct raw; simpl; naive_solver.
Qed.

(** ** Many lines *)

Lemma at_line_snoc p raw : at_line (p ++ raw ++ CRLF).
Proof. right. exists (p ++ raw). by rewrite app_assoc. Qed.

Lemma loop_lines p out ws data fin :
  at_line p → Forall wire_line ws →
  loop max (mid max p out prevCRLF) (enc_lines ws ++ data) fin =
    loop max (mid max (p ++ enc_lines ws) (out ++ dec_lines ws) prevCRLF)
      data fin.
Proof.
  intros Hp Hws. revert p out Hp.
  induction Hws as [|w ws [Hw Hdot] Hws IH]; intros p out Hp.
  - unfold enc_lines, dec_lines; simpl. by rewrite !(right_id_L [] (++)).
  - unfold enc_lines, dec_lines. rewrite !fmap_cons, !concat_cons.
    fold (enc_lines ws) (dec_lines ws). rewrite <- !app_assoc.
    rewrite loop_line by done. rewrite bool_decide_eq_false_2 by done.
    rewrite IH by apply at_line_snoc. by rewrite <- !app_assoc.
Qed.

(** Every input starts with a clean run. *)
Lemma clean_run data :
  ∃ raw rest, data = raw ++ rest ∧ clean raw ∧
    (∀ b rest', rest = b :: rest' → b = CR ∨ b = LF).
Proof.
  induction data as [|c data (raw & rest & -> & [Hcr Hlf] & Hrest)].
  - exists [], []. repeat split; [set_solver..|done].
  - destruct (decide (c = CR ∨ c = LF)) as [Hc|Hc].
    + exists [], (c :: raw ++ rest). repeat split; [set_solver..|].
      by intros b rest' [= -> _].
    + exists (c :: raw), rest. repeat split; [set_solver..|done].
Qed.

(** A payload that is accepted, or found too large, is a sequence of lines
    followed by the terminator. *)
Lemma loop_sound p out data fin b err rest :
  at_line p →
  loop max (mid max p out prevCRLF) data fin = (b, err, rest) →
  err = None ∨ err = Some errMessageTooLarge →
  ∃ ws, Forall wire_line ws ∧ data = wire ws ++ rest.
Proof.
  remember (length data) as k eqn:Hk. revert data Hk p out.
  induction (lt_wf k) as [k _ IH]. intros data -> p out Hp Hloop Herr.
  destruct (clean_run data) as (raw & tl & -> & Hraw & Htl).
  destruct (decide (∃ tl', tl = CRLF ++ tl')) as [[tl' ->]|Hno].
  2: { eapply loop_bad in Hloop; [naive_solver|done| |done].
       intros tl' ->. apply Hno. eauto. }
  rewrite loop_line in Hloop by done. case_bool_decide as Hdot.
  - subst raw. exists []. split; [done|].
    unfold wire, enc_lines. simpl. repeat case_match; simplify_eq/=; done.
  - apply (IH (length tl')) in Hloop as (ws & Hws & ->);
      [|rewrite !length_app; simpl; lia|done|apply at_line_snoc|done].
    exists (raw :: ws). split; [by constructor|].
    unfold wire, enc_lines. rewrite fmap_cons, concat_cons.
    by simplify_list_eq.
Qed.

End Loop.

(** ** The reader *)

Lemma readUntilDot_lines ws rest fin max :
  (0 ≤ max)%Z → Forall wire_line ws →
  readUntilDot (mkReader (wire ws ++ rest) fin) max =
    (if ws == [] then []
     else take (Z.to_nat max) (dec_lines ws),
     if (ws != []) && (Z.of_nat (length (wire ws)) >? max)%Z
     then Some errMessageTooLarge else None,
     mkReader rest fin).
Proof.
  intros Hmax Hws. unfold readUntilDot; simpl.
  replace init with (mid max [] [] prevCRLF)
    by (unfold mid, init, last4_of; by rewrite take_nil).
  unfold wire. rewrite <- app_assoc.
  rewrite loop_lines by (done || by left).
  change ((DOT :: CRLF) ++ rest) with ([DOT] ++ CRLF ++ rest).
  rewrite loop_line; [|done| |by split; set_solver].
  2: { destruct ws as [|w ws _] using rev_ind; [by left|]. right.
       exists (enc_lines ws ++ w). unfold enc_lines.
       by rewrite fmap_app, concat_app; simpl;
          rewrite (right_id_L [] (++)), app_assoc. }
  simpl. destruct ws as [|w ws]; [done|].
  rewrite (bool_decide_eq_false_2 (enc_lines (w :: ws) = [])) by
    (unfold enc_lines; simpl; by destruct w).
  simpl. by destruct (Z.of_nat _ >? max)%Z.
Qed.

Lemma readUntilDot_sound r max b err r' :
  (0 ≤ max)%Z → readUntilDot r max = (b, err, r') →
  err = None ∨ err = Some errMessageTooLarge →
  ∃ ws, Forall wire_line ws ∧
    r = mkReader (wire ws ++ pending r') (ending r').
Proof.
  intros Hmax. unfold readUntilDot.
  destruct (loop max init (pending r) (ending r)) as [[b0 err0] rest] eqn:E.
  intros [= -> -> <-] Herr.
  replace init with (mid max [] [] prevCRLF) in E
    by (unfold mid, init, last4_of; by rewrite take_nil).
  eapply loop_sound in E as (ws & Hws & Hr); [|done|by left|done].
  exists ws. split; [done|]. simpl. rewrite <- Hr. by destruct r.
Qed.

Lemma dec_lines_length ws : length (dec_lines ws) ≤ length (wire ws).
Proof.
  unfold wire. rewrite length_app.
  assert (length (dec_lines ws) ≤ length (enc_lines ws)); [|lia].
  unfold dec_lines, enc_lines.
  induction ws as [|w ws IH]; [done|].
  rewrite !fmap_cons, !concat_cons, !length_app. simpl length.
  assert (length (unstuff w) ≤ length w)
    by (destruct w; simpl; [done|case_bool_decide; simpl; lia]).
  lia.
Qed.

(** The decoded lines of properly stuffed text. *)
Lemma dec_lines_stuff ls :
  dec_lines (stuff <$> ls) = concat ((λ l, l ++ [LF]) <$> ls).
Proof.
  unfold dec_lines. rewrite <- list_fmap_compose. f_equal.
  apply list_fmap_ext. intros i l _. simpl. by rewrite unstuff_stuff.
Qed.

Lemma Split_text ls :
  Forall clean ls →
  Split (concat ((λ l, l ++ [LF]) <$> ls)) [LF] = ls ++ [[]].
Proof.
  induction 1 as [|l ls [_ Hlf] Hls IH]; [done|].
  rewrite fmap_cons, concat_cons, <- app_assoc. simpl app at 2.
  rewrite Split_eq by done. rewrite Cut_byte_app by done. by rewrite IH.
Qed.

Lemma clean_no_suffix l : clean l → HasSuffix l [CR] = false.
Proof.
  intros [Hcr _]. apply not_true_iff_false.
  rewrite HasSuffix_spec. intros [r ->]. set_solver.
Qed.

Lemma ToCRLF_text ls :
  Forall clean ls →
  Normalize.ToCRLF (concat ((λ l, l ++ [LF]) <$> ls)) = enc_lines ls.
Proof.
  intros Hls. rewrite Normalize.ToCRLF_join, Split_text by done.
  induction Hls as [|l ls Hl Hls IH]; [done|].
  unfold enc_lines. rewrite fmap_cons, concat_cons. fold (enc_lines ls).
  rewrite <- IH. simpl app.
  destruct (ls ++ [[]]) as [|k ks] eqn:E; [by destruct ls|].
  change (Normalize.crlf_lines (l :: k :: ks))
    with (Normalize.crlf_line l :: Normalize.crlf_lines (k :: ks)).
  rewrite Join_cons by by destruct ks.
  unfold Normalize.crlf_line. rewrite clean_no_suffix by done.
  by rewrite <- !app_assoc.
Qed.

(** The reader undoes dot-stuffing. *)
Lemma readUntilDot_stuffed ls rest fin max :
  Forall clean ls →
  (Z.of_nat (length (wire (stuff <$> ls))) ≤ max)%Z →
  readUntilDot (mkReader (wire (stuff <$> ls) ++ rest) fin) max =
    (concat ((λ l, l ++ [LF]) <$> ls), None, mkReader rest fin).
Proof.
  intros Hls Hlen.
  assert (Forall wire_line (stuff <$> ls)) as Hws.
  { apply Forall_fmap. eapply Forall_impl; [done|]. apply stuff_wire_line. }
  rewrite readUntilDot_lines by (done || lia).
  rewrite <- dec_lines_stuff.
  rewrite take_ge by (pose proof (dec_lines_length (stuff <$> ls)); lia).
  replace (_ && _) with false by (symmetry; apply andb_false_iff; right; lia).
  by case_bool_decide as E; [rewrite E|].
Qed.

(** ** Properties *)

(** C5: the state machine accepts a message exactly when the stream starts
    with CRLF-terminated lines, free of lone CR and LF and none of them a
    single dot, followed by the terminating line [.CRLF], the whole being
    within the size limit (an empty message always is); it then returns the
    dot-unstuffed lines, each ended by LF, and leaves the stream right after
    the terminator.  In particular no other byte sequence can end a message,
    which is what SMTP smuggling needs. *)
Theorem readUntilDot_accepts_iff r max b r' :
  (0 ≤ max)%Z →
  readUntilDot r max = (b, None, r') ↔
  ∃ ws, Forall wire_line ws ∧
    r = mkReader (wire ws ++ pending r') (ending r') ∧
    b = dec_lines ws ∧
    (ws = [] ∨ (Z.of_nat (length (wire ws)) ≤ max)%Z).
Proof.
  intros Hmax. split.
  - intros H. pose proof (readUntilDot_sound _ _ _ _ _ Hmax H ltac:(by left))
      as (ws & Hws & Hr).
    exists ws. split; [done|]. split; [done|].
    rewrite Hr, readUntilDot_lines in H by done. injection H as Hb Herr _.
    destruct ws as [|w ws]; [by split; [|left]|]. simpl in Hb, Herr.
    case_match eqn:E; [done|].
    assert (Z.of_nat (length (wire (w :: ws))) ≤ max)%Z by lia.
    split; [|by right]. rewrite <- Hb, take_ge; [done|].
    pose proof (dec_lines_length (w :: ws)). lia.
  - intros (ws & Hws & -> & -> & Hlen). rewrite readUntilDot_lines by done.
    destruct r' as [rest fin]. destruct ws as [|w ws]; [done|]. simpl.
    destruct Hlen as [|Hlen]; [done|].
    pose proof (dec_lines_length (w :: ws)).
    rewrite take_ge by lia. case_match; [lia|done].
Qed.

Theorem readUntilDot_accepts_iff_witness :
  readUntilDot (mkReader ("..hi" ++ CRLF ++ "." ++ CRLF ++ "QUIT") EndEOF) 100
    = (".hi" ++ [LF], None, mkReader "QUIT" EndEOF).
Proof.
  apply (readUntilDot_accepts_iff _ 100 _ _ ltac:(lia)).
  exists ["..hi"]. split_and!; [|done|done|by right].
  by repeat constructor; apply (bool_decide_unpack _); vm_compute.
Defined.

(** C21: a message over the limit is reported as such only once its
    terminator has been consumed, so the dialog stays in step: what is left
    in the stream is what follows the terminator, and the buffer holds at most
    the limit. *)
Theorem readUntilDot_too_large_iff r max b r' :
  (0 ≤ max)%Z →
  readUntilDot r max = (b, Some errMessageTooLarge, r') ↔
  ∃ ws, ws ≠ [] ∧ Forall wire_line ws ∧
    r = mkReader (wire ws ++ pending r') (ending r') ∧
    b = take (Z.to_nat max) (dec_lines ws) ∧
    (max < Z.of_nat (length (wire ws)))%Z.
Proof.
  intros Hmax. split.
  - intros H. pose proof (readUntilDot_sound _ _ _ _ _ Hmax H ltac:(by right))
      as (ws & Hws & Hr).
    rewrite Hr, readUntilDot_lines in H by done. injection H as Hb Herr _.
    destruct ws as [|w ws]; [done|]. simpl in Hb, Herr.
    case_match eqn:E; [|done]. exists (w :: ws). repeat split; [done..|lia].
  - intros (ws & Hne & Hws & -> & -> & Hlen).
    rewrite readUntilDot_lines by done.
    destruct r' as [rest fin]. destruct ws as [|w ws]; [done|]. simpl.
    case_match; [done|lia].
Qed.

Theorem readUntilDot_too_large_iff_witness :
  readUntilDot (mkReader ("abcd" ++ CRLF ++ "." ++ CRLF ++ "QUIT") EndEOF) 3
    = ("abc", Some errMessageTooLarge, mkReader "QUIT" EndEOF).
Proof.
  apply (readUntilDot_too_large_iff _ 3 _ _ ltac:(lia)).
  exists ["abcd"]. split_and!; [done| |done|done|done].
  by repeat constructor; apply (bool_decide_unpack _); vm_compute.
Defined.



End DotReader.
