(* ===== verification/Aliases.v ===== *)
(** The aliases resolver: package [internal/aliases]. *)

From stdpp Require Import relations.
From S2P Require Import Prelude GoStrings Envelope.
#[local] Open Scope go_scope.

(** What the resolver gets from the operating system: the alias files and
    the [alias-resolve] hook. *)
Inductive file_read :=
| FileNotExist
| FileOpenError (msg : bytes)
(** The contents, and the error that interrupted the reading, if any. *)
| FileData (data : bytes) (rerr : option bytes).

Class AliasWorld := {
  read_file : bytes → file_read;
  (** [os.Stat] reports that the hook does not exist. *)
  hook_missing : bytes → bool;
  (** Standard output and error of running the hook on an address. *)
  hook_run : bytes → bytes → bytes * option bytes;
}.

Module Aliases.

(** ** Data *)

Inductive RType := EMAIL | PIPE | FORWARD.

#[export] Instance RType_eq_dec : EqDecision RType.
Proof. solve_decision. Defined.

Record Recipient := mkRecipient {
  Addr : bytes;
  Via : list bytes;
  Type_ : RType;
}.

#[export] Instance Recipient_eq_dec : EqDecision Recipient.
Proof. solve_decision. Defined.

Inductive rhs_error :=
| ErrPipeNoCommand
| ErrViaNotFound
| ErrForwardNoAddress
| ErrEmptyServer
| ErrNormalizing (a : bytes) (err : Normalize.error).

Inductive line_error :=
| ErrMissingColon
| ErrMissingAddrOrAlias
| ErrLeftHasAt
| ErrRightSide (err : rhs_error).

Inductive error :=
| ErrRecursionLimitExceeded
| ErrHook (msg : bytes)
| ErrHookOutput (err : rhs_error)
| ErrUserDB (msg : bytes)
| ErrNotExist
| ErrOpen (msg : bytes)
| ErrParse (line : nat) (err : line_error)
| ErrScanner (msg : bytes).

Definition recursionLimit : nat := 10.

Record Resolver := mkResolver {
  SuffixSep : bytes;
  DropChars : bytes;
  ResolveHook : bytes;
  userExistsInDB : bytes → bytes → res error bool;
  files : gmap bytes (list bytes);
  domains : gset bytes;
  aliases : gmap bytes (list Recipient);
}.

Definition NewResolver (userExists : bytes → bytes → res error bool) :
  Resolver := mkResolver [] [] [] userExists ∅ ∅ ∅.

Definition set_domains (v : Resolver) (ds : gset bytes) : Resolver :=
  mkResolver (SuffixSep v) (DropChars v) (ResolveHook v) (userExistsInDB v)
    (files v) ds (aliases v).

Definition set_files (v : Resolver) (fs : gmap bytes (list bytes)) : Resolver :=
  mkResolver (SuffixSep v) (DropChars v) (ResolveHook v) (userExistsInDB v)
    fs (domains v) (aliases v).

Definition set_aliases (v : Resolver) (al : gmap bytes (list Recipient)) :
  Resolver :=
  mkResolver (SuffixSep v) (DropChars v) (ResolveHook v) (userExistsInDB v)
    (files v) (domains v) al.

Section Aliases.
Context `{Unicode, Precis, AliasWorld}.

(** ** Cleaning addresses *)

(** Everything from a separator on is removed, one separator after the
    other. *)
Definition removeAllAfter (s seps : bytes) : bytes :=
  foldl (λ s c, match Cut s c with
                | Some (before, _) => before
                | None => s
                end) s (explode seps).

Definition removeChars (s chars : bytes) : bytes :=
  foldl (λ s c, ReplaceAll s c []) s (explode chars).

(** Drop characters are removed up to the first suffix separator only. *)
Definition RemoveDropCharacters (v : Resolver) (addr : bytes) : bytes :=
  let '(user, domain) := Envelope.Split addr in
  let firstSuffixSep := default (length user) (IndexAny user (SuffixSep v)) in
  let nu := concat
    ((λ c, if ContainsRune (DropChars v) c then [] else Utf8.encode c)
       <$> Utf8.runes (take firstSuffixSep user)) in
  let nu := if bool_decide (firstSuffixSep < length user)
            then nu ++ drop firstSuffixSep user else nu in
  fst (Normalize.User nu) ++ "@" ++ domain.

Definition RemoveDropsAndSuffix (v : Resolver) (addr : bytes) : bytes :=
  let '(user, domain) := Envelope.Split addr in
  let user := removeAllAfter user (SuffixSep v) in
  let user := removeChars user (DropChars v) in
  fst (Normalize.User user) ++ "@" ++ domain.

(** ** Parsing *)

Fixpoint parse_servers (vs : list bytes) (via : list bytes) :
  res rhs_error (list bytes) :=
  match vs with
  | [] => Ok via
  | v :: vs =>
    let server := TrimSpace v in
    if server == "" then Err ErrEmptyServer
    else parse_servers vs (via ++ [server])
  end.

Definition parseForward (rawalias : bytes) :
  res rhs_error (bytes * list bytes) :=
  match Cut rawalias " via " with
  | None => Err ErrViaNotFound
  | Some (addr, viaS) =>
    let addr := TrimSpace addr in
    if addr == "" then Err ErrForwardNoAddress
    else via ← parse_servers (Split viaS "/") []; Ok (addr, via)
  end.

(** One comma-separated element of the right hand side; [None] when it is
    empty and ignored. *)
Definition parse_element (domain a : bytes) :
  res rhs_error (option Recipient) :=
  let a := TrimSpace a in
  if a == "" then Ok None
  else
    r ← (if Contains a " via "
         then '(addr, via) ← parseForward a; Ok (mkRecipient addr via FORWARD)
         else Ok (mkRecipient a [] EMAIL));
    let addr := if Contains (Addr r) "@" then Addr r
                else Addr r ++ "@" ++ domain in
    match Normalize.Addr addr with
    | (_, Some err) => Err (ErrNormalizing a err)
    | (addr, None) => Ok (Some (mkRecipient addr (Via r) (Type_ r)))
    end.

Fixpoint parse_elements (domain : bytes) (els : list bytes)
    (rs : list Recipient) : res rhs_error (list Recipient) :=
  match els with
  | [] => Ok rs
  | a :: els =>
    r ← parse_element domain a;
    parse_elements domain els
      (match r with Some r => rs ++ [r] | None => rs end)
  end.

Definition parseRHS (rawalias domain : bytes) :
  res rhs_error (list Recipient) :=
  match rawalias with
  | [] => Ok []
  | c :: rest =>
    if c == "|"%char then
      let cmd := TrimSpace rest in
      if cmd == "" then Err ErrPipeNoCommand
      else Ok [mkRecipient cmd [] PIPE]
    else parse_elements domain (Split rawalias ",") []
  end.

(** [bufio.Scanner] with [ScanLines]: the lines, and the error the scan ends
    with.  A line that does not fit the 64 KiB buffer ends it. *)
Definition maxTokenSize : nat := 64 * 1024.

Definition dropCR (l : bytes) : bytes := TrimSuffix l [CR].

Fixpoint scan_pieces (pieces : list bytes) (rerr : option bytes) :
  list bytes * option bytes :=
  match pieces with
  | [] => ([], rerr)
  | p :: pieces =>
    if (p == []) && (pieces == []) then ([], rerr)
    else if bool_decide (maxTokenSize ≤ length p)
    then ([], Some "bufio.Scanner: token too long")
    else let '(ls, e) := scan_pieces pieces rerr in (dropCR p :: ls, e)
  end.

Definition scan_lines (data : bytes) (rerr : option bytes) :
  list bytes * option bytes := scan_pieces (Split data [LF]) rerr.

(** One line of an aliases file; [None] for a comment or an empty line. *)
Definition parse_line (v : Resolver) (domain text : bytes) :
  res line_error (option (bytes * list Recipient)) :=
  let line := TrimSpace text in
  if (line == "") || HasPrefix line "#" then Ok None
  else
    match SplitN2 line ":" with
    | [lhs; rhs] =>
      let addr := TrimSpace lhs in
      let rawalias := TrimSpace rhs in
      if (addr == "") || (rawalias == "") then Err ErrMissingAddrOrAlias
      else if Contains addr "@" then Err ErrLeftHasAt
      else
        let addr := addr ++ "@" ++ domain in
        let addr := RemoveDropCharacters v addr in
        let addr := fst (Normalize.Addr addr) in
        match parseRHS rawalias domain with
        | Err err => Err (ErrRightSide err)
        | Ok rs => Ok (Some (addr, rs))
        end
    | _ => Err ErrMissingColon
    end.

Fixpoint parse_lines (v : Resolver) (domain : bytes) (i : nat)
    (lines : list bytes) (acc : gmap bytes (list Recipient)) :
  res error (gmap bytes (list Recipient)) :=
  match lines with
  | [] => Ok acc
  | l :: lines =>
    match parse_line v domain l with
    | Err err => Err (ErrParse i err)
    | Ok None => parse_lines v domain (S i) lines acc
    | Ok (Some (addr, rs)) =>
      parse_lines v domain (S i) lines (<[addr := rs]> acc)
    end
  end.

Definition parseReader (v : Resolver) (domain data : bytes)
    (rerr : option bytes) : res error (gmap bytes (list Recipient)) :=
  let '(lines, serr) := scan_lines data rerr in
  al ← parse_lines v domain 1 lines ∅;
  match serr with
  | None => Ok al
  | Some e => Err (ErrScanner e)
  end.

Definition parseFile (v : Resolver) (domain path : bytes) :
  res error (gmap bytes (list Recipient)) :=
  match read_file path with
  | FileNotExist => Err ErrNotExist
  | FileOpenError msg => Err (ErrOpen msg)
  | FileData data rerr => parseReader v domain data rerr
  end.

(** ** Building the resolver *)

Definition AddDomain (v : Resolver) (domain : bytes) : Resolver :=
  set_domains v ({[domain]} ∪ domains v).

Definition AddAliasesFile (v : Resolver) (domain path : bytes) :
  Resolver * res error nat :=
  let v := set_files v
    (<[domain := default [] (files v !! domain) ++ [path]]> (files v)) in
  let v := set_domains v ({[domain]} ∪ domains v) in
  match parseFile v domain path with
  | Err ErrNotExist => (v, Ok 0)
  | Err err => (v, Err err)
  | Ok al => (set_aliases v (al ∪ aliases v), Ok (size al))
  end.

(** [Reload] visits the files in the order in which Go happens to iterate
    over the map, which is an argument here. *)
Fixpoint reload_files (v : Resolver) (todo : list (bytes * bytes))
    (acc : gmap bytes (list Recipient)) :
  res error (gmap bytes (list Recipient)) :=
  match todo with
  | [] => Ok acc
  | (domain, path) :: todo =>
    match parseFile v domain path with
    | Err ErrNotExist => reload_files v todo acc
    | Err err => Err err
    | Ok al => reload_files v todo (al ∪ acc)
    end
  end.

Definition file_list (order : list (bytes * list bytes)) :
  list (bytes * bytes) :=
  flat_map (λ dp, map (λ path, (fst dp, path)) (snd dp)) order.

Definition Reload (v : Resolver) (order : list (bytes * list bytes)) :
  Resolver * option error :=
  match reload_files v (file_list order) ∅ with
  | Err err => (v, Some err)
  | Ok al => (set_aliases v al, None)
  end.

(** ** Lookups *)

Definition runResolveHook (v : Resolver) (addr : bytes) :
  res error (list Recipient) :=
  if ResolveHook v == "" then Ok []
  else if hook_missing (ResolveHook v) then Ok []
  else
    match hook_run (ResolveHook v) addr with
    | (_, Some msg) => Err (ErrHook msg)
    | (out, None) =>
      match parseRHS (TrimSpace out) (Envelope.DomainOf addr) with
      | Err err => Err (ErrHookOutput err)
      | Ok rs => Ok rs
      end
    end.

Definition lookup (v : Resolver) (addr : bytes) : res error (list Recipient) :=
  let clean := RemoveDropCharacters v addr in
  let rcpts := default [] (aliases v !! clean) in
  hr ← runResolveHook v addr;
  Ok (rcpts ++ hr).

(** [rcpts, _ := v.lookup(..); len(rcpts) > 0]: an error counts as none. *)
Definition has_rcpts (r : res error (list Recipient)) : bool :=
  match r with
  | Ok (_ :: _) => true
  | _ => false
  end.

Definition Exists (v : Resolver) (addr : bytes) : bool :=
  if has_rcpts (lookup v addr) then true
  else
    let addr := RemoveDropsAndSuffix v addr in
    if has_rcpts (lookup v addr) then true
    else
      let domain := Envelope.DomainOf addr in
      has_rcpts (lookup v ("*@" ++ domain)).

(** ** Resolution *)

(** The part of [resolve] before the loop: either the final answer, or the
    recipients to go through. *)
Inductive found :=
| Final (rs : list Recipient)
| Expand (rs : list Recipient).

Definition find_rcpts (v : Resolver) (addr : bytes) : res error found :=
  let '(user, domain) := Envelope.Split addr in
  if bool_decide (domain ∉ domains v) then
    Ok (Final [mkRecipient addr [] EMAIL])
  else
    rcpts ← lookup v addr;
    '(addr, rcpts) ←
      match rcpts with
      | [] =>
        let addr := RemoveDropsAndSuffix v addr in
        rcpts ← lookup v addr; Ok (addr, rcpts)
      | _ => Ok (addr, rcpts)
      end;
    match rcpts with
    | [] =>
      ok ← userExistsInDB v user domain;
      if (ok : bool) then Ok (Final [mkRecipient addr [] EMAIL])
      else
        catchAll ← lookup v ("*@" ++ domain);
        match catchAll with
        | _ :: _ => Ok (Expand catchAll)
        | [] => Ok (Final [mkRecipient addr [] EMAIL])
        end
    | _ => Ok (Expand rcpts)
    end.

(** A destination whose user is ["*"] gets the original user. *)
Definition substitute (user : bytes) (r : Recipient) : Recipient :=
  if Envelope.UserOf (Addr r) == "*"
  then mkRecipient (user ++ "@" ++ Envelope.DomainOf (Addr r)) (Via r) (Type_ r)
  else r.

(** The loop over the recipients, given how to resolve one level deeper. *)
Fixpoint resolve_loop (rec : bytes → res error (list Recipient))
    (user : bytes) (rcpts ret : list Recipient) :
  res error (list Recipient) :=
  match rcpts with
  | [] => Ok ret
  | r :: rcpts =>
    if Type_ r == PIPE then resolve_loop rec user rcpts (ret ++ [r])
    else
      let r := substitute user r in
      if Type_ r == FORWARD then resolve_loop rec user rcpts (ret ++ [r])
      else
        ar ← rec (Addr r);
        resolve_loop rec user rcpts (ret ++ ar)
  end.

(** [resolve] with [levels] levels of recursion left. *)
Fixpoint resolve_left (v : Resolver) (levels : nat) (addr : bytes) :
  res error (list Recipient) :=
  match levels with
  | 0 => Err ErrRecursionLimitExceeded
  | S levels =>
    found ← find_rcpts v addr;
    match found with
    | Final rs => Ok rs
    | Expand rcpts =>
      resolve_loop (resolve_left v levels) (Envelope.UserOf addr) rcpts []
    end
  end.

Definition resolve (v : Resolver) (rcount : nat) (addr : bytes) :
  res error (list Recipient) := resolve_left v (recursionLimit - rcount) addr.

Definition Resolve (v : Resolver) (addr : bytes) : res error (list Recipient) :=
  resolve v 0 addr.

(** ** Lemmas on the resolution *)

(** A recipient that needs no further resolution. *)
Definition final (v : Resolver) (r : Recipient) : Prop :=
  match Type_ r with
  | EMAIL => (Envelope.DomainOf (Addr r) ∉ domains v) ∨ lookup v (Addr r) = Ok []
  | _ => True
  end.

(** [b] is an address that the alias [a] sends mail to. *)
Definition alias_step (v : Resolver) (a b : bytes) : Prop :=
  ∃ rs r, find_rcpts v a = Ok (Expand rs) ∧ r ∈ rs ∧ Type_ r = EMAIL ∧
    b = Addr (substitute (Envelope.UserOf a) r).

Lemma substitute_type user r : Type_ (substitute user r) = Type_ r.
Proof. unfold substitute. by case_bool_decide. Qed.

Lemma find_rcpts_final v addr rs :
  find_rcpts v addr = Ok (Final rs) → Forall (final v) rs.
Proof.
  unfold find_rcpts. destruct (Envelope.Split addr) as [user domain] eqn:Es.
  case_bool_decide as Hd.
  { intros [= <-]. apply Forall_singleton. left; simpl.
    unfold Envelope.DomainOf. by rewrite Es. }
  destruct (lookup v addr) as [rc|] eqn:El; simpl; [|done].
  assert (∀ addr', lookup v addr' = Ok [] →
    Forall (final v) [mkRecipient addr' [] EMAIL]) as Hone.
  { intros addr' Hl. apply Forall_singleton. by right. }
  destruct rc as [|r0 rc]; simpl; [|done].
  destruct (lookup v (RemoveDropsAndSuffix v addr)) as [rc|] eqn:El2;
    simpl; [|done].
  destruct rc as [|r0 rc]; simpl; [|done].
  destruct (userExistsInDB v user domain) as [[|]|]; simpl; [|..|done].
  - intros [= <-]. by apply Hone.
  - destruct (lookup v (_ :: _ :: domain)) as [[|r0 rc]|]; simpl; [|done..].
    intros [= <-]. by apply Hone.
Qed.

Lemma resolve_loop_forall v rec user rs ret out :
  (∀ a ar, rec a = Ok ar → Forall (final v) ar) →
  Forall (final v) ret →
  resolve_loop rec user rs ret = Ok out → Forall (final v) out.
Proof.
  intros Hrec. revert ret. induction rs as [|r rs IH]; intros ret Hret; simpl.
  { by intros [= <-]. }
  assert (∀ r', Type_ r' ≠ EMAIL → Forall (final v) (ret ++ [r'])) as Hpass.
  { intros r' Hr'. apply Forall_app. split; [done|]. apply Forall_singleton.
    unfold final. by destruct (Type_ r'). }
  case_bool_decide as Hp; [intros; eapply IH; [|done]; apply Hpass; congruence|].
  case_bool_decide as Hf; [intros; eapply IH; [|done]; apply Hpass; congruence|].
  destruct (rec _) as [ar|] eqn:Er; simpl; [|done].
  apply IH, Forall_app. eauto.
Qed.

Lemma resolve_loop_each rec user rs ret out r :
  resolve_loop rec user rs ret = Ok out → r ∈ rs → Type_ r = EMAIL →
  ∃ ar, rec (Addr (substitute user r)) = Ok ar.
Proof.
  revert ret. induction rs as [|r0 rs IH]; intros ret Hl Hin Ht;
    [by apply elem_of_nil in Hin|].
  apply elem_of_cons in Hin as [<-|Hin].
  - simpl in Hl. rewrite substitute_type, Ht in Hl. simpl in Hl.
    destruct (rec _) as [ar|] eqn:E; [by exists ar|done].
  - simpl in Hl. repeat case_bool_decide; [by eauto..|].
    destruct (rec (Addr (substitute user r0))) as [ar|]; [by eauto|done].
Qed.

Lemma resolve_loop_mono rec rec' user rs ret out :
  (∀ a ar, rec a = Ok ar → rec' a = Ok ar) →
  resolve_loop rec user rs ret = Ok out →
  resolve_loop rec' user rs ret = Ok out.
Proof.
  intros Hrec. revert ret. induction rs as [|r rs IH]; intros ret; simpl; [done|].
  repeat case_bool_decide; [by apply IH..|].
  destruct (rec _) as [ar|] eqn:E; simpl; [|done].
  rewrite (Hrec _ _ E). apply IH.
Qed.

(** The limit is only a cut-off: more levels give the same answer. *)
Lemma resolve_left_mono v k k' addr rs :
  k ≤ k' → resolve_left v k addr = Ok rs → resolve_left v k' addr = Ok rs.
Proof.
  revert k' addr rs. induction k as [|k IH]; intros k' addr rs Hk; [done|].
  destruct k' as [|k']; [lia|]. simpl.
  destruct (find_rcpts v addr) as [[|rc]|]; simpl; [done| |done].
  apply resolve_loop_mono. intros a ar. apply IH. lia.
Qed.

Lemma resolve_left_final v k addr rs :
  resolve_left v k addr = Ok rs → Forall (final v) rs.
Proof.
  revert addr rs. induction k as [|k IH]; intros addr rs; simpl; [done|].
  destruct (find_rcpts v addr) as [[fs|rc]|] eqn:Ef; simpl; [|..|done].
  - intros [= <-]. by eapply find_rcpts_final.
  - by apply resolve_loop_forall.
Qed.

Lemma resolve_left_chain v k addr b rs :
  nsteps (alias_step v) k addr b → resolve_left v k addr = Ok rs → False.
Proof.
  revert addr rs. induction k as [|k IH]; intros addr rs Hn; simpl; [done|].
  inversion_clear Hn as [|? ? c ? (rc & r & Hf & Hin & Ht & ->) Hk].
  rewrite Hf. simpl. intros Hl.
  destruct (resolve_loop_each _ _ _ _ _ _ Hl Hin Ht) as [ar Har].
  by eapply IH.
Qed.

(** Lines of a file: the last one for an address wins. *)
Definition entry_for (v : Resolver) (domain addr l : bytes) :
  option (list Recipient) :=
  match parse_line v domain l with
  | Ok (Some (a, rs)) => if a == addr then Some rs else None
  | _ => None
  end.

Lemma parse_lines_lookup v domain i lines acc m addr :
  parse_lines v domain i lines acc = Ok m →
  m !! addr = match last (omap (entry_for v domain addr) lines) with
              | Some rs => Some rs
              | None => acc !! addr
              end.
Proof.
  revert i acc. induction lines as [|l lines IH]; intros i acc; simpl.
  { by intros [= <-]. }
  unfold entry_for at 1.
  destruct (parse_line v domain l) as [[[a rs]|]|] eqn:E; [|apply IH|done].
  intros Hp. rewrite (IH _ _ Hp). case_bool_decide as Ha.
  - subst a. rewrite last_cons.
    by destruct (last _); [|rewrite lookup_insert_eq].
  - by destruct (last _); [|rewrite lookup_insert_ne].
Qed.

End Aliases.

Lemma reload_files_spec `{Unicode, Precis, AliasWorld} v todo acc m addr :
  reload_files v todo acc = Ok m →
  (is_Some (m !! addr) ↔
     is_Some (acc !! addr) ∨
     ∃ domain path al, (domain, path) ∈ todo ∧
       parseFile v domain path = Ok al ∧ is_Some (al !! addr)) ∧
  (∀ rs, m !! addr = Some rs →
     acc !! addr = Some rs ∨
     ∃ domain path al, (domain, path) ∈ todo ∧
       parseFile v domain path = Ok al ∧ al !! addr = Some rs).
Proof.
  revert acc. induction todo as [|[domain path] todo IH]; intros acc; simpl.
  { intros [= <-]. split; [|by left]. split; [by left|].
    intros [?|(?&?&?&Hin&_)]; [done|by apply elem_of_nil in Hin]. }
  destruct (parseFile v domain path) as [al|e] eqn:E.
  - intros Hr. destruct (IH _ Hr) as [IH1 IH2]. split.
    + rewrite IH1, lookup_union_is_Some. split.
      * intros [[?|?]|(d & q & al' & ? & ? & ?)]; [right|by left|right].
        -- exists domain, path, al. split; [by left|done].
        -- exists d, q, al'. split; [by right|done].
      * intros [?|(d & q & al' & Hin & ? & ?)]; [by left; right|].
        apply elem_of_cons in Hin as [[= -> ->]|Hin].
        -- left; left. congruence.
        -- right. exists d, q, al'. done.
    + intros rs Hm. destruct (IH2 rs Hm) as [Hu|(d & q & al' & ? & ? & ?)].
      * apply lookup_union_Some_raw in Hu as [?|[_ ?]]; [right|by left].
        exists domain, path, al. split; [by left|done].
      * right. exists d, q, al'. split; [by right|done].
  - destruct e; try done. intros Hr. destruct (IH _ Hr) as [IH1 IH2]. split.
    + rewrite IH1. split.
      * intros [?|(d & q & al' & ? & ? & ?)]; [by left|right].
        exists d, q, al'. split; [by right|done].
      * intros [?|(d & q & al' & Hin & Hp & ?)]; [by left|right].
        apply elem_of_cons in Hin as [[= -> ->]|Hin]; [congruence|].
        by exists d, q, al'.
    + intros rs Hm. destruct (IH2 rs Hm) as [?|(d & q & al' & ? & ? & ?)];
        [by left|right]. exists d, q, al'. split; [by right|done].
Qed.

(** ** Examples

    A resolver with a static alias table and no hook. *)
Module Example.
Import AsciiOnly.

#[export] Instance world : AliasWorld :=
  {| read_file path := if path == "users"
       then FileData ("a: b" ++ [LF] ++ "# x" ++ [LF] ++ "a: |cmd" ++ [LF]) None
       else FileNotExist;
     hook_missing _ := true;
     hook_run _ _ := ([], None) |}.

Definition users (user domain : bytes) : res error bool :=
  Ok (bool_decide (user = "juana")).

Definition resolver : Resolver :=
  mkResolver "+" "." "" users ∅ {["d"]}
    (list_to_map
       [("a@d", [mkRecipient "b@d" [] EMAIL; mkRecipient "run" [] PIPE]);
        ("b@d", [mkRecipient "c@remote" [] EMAIL]);
        ("l@d", [mkRecipient "m@d" [] EMAIL]);
        ("m@d", [mkRecipient "l@d" [] EMAIL]);
        ("*@d", [mkRecipient "all@remote" [] EMAIL])]).

End Example.
Import AsciiOnly Example.

(** ** Properties *)

(** Whatever [Resolve] returns is final: pipes, forwards, and email
    addresses that are not local or for which there is no alias. *)
Theorem Resolve_final `{Unicode, Precis, AliasWorld} v addr rs :
  Resolve v addr = Ok rs → Forall (final v) rs.
Proof. apply resolve_left_final. Qed.

Theorem Resolve_final_witness :
  Forall (final Example.resolver)
    [mkRecipient "c@remote" [] EMAIL; mkRecipient "run" [] PIPE].
Proof. apply (Resolve_final Example.resolver "a+x@d"). by vm_compute. Defined.

(** C20: an alias that is reached again from itself makes the whole
    resolution fail; the recursion limit turns every loop into an error and
    never into an answer. *)
Theorem Resolve_alias_loop `{Unicode, Precis, AliasWorld} v addr :
  tc (alias_step v) addr addr → ∃ err, Resolve v addr = Err err.
Proof.
  intros Hloop. destruct (Resolve v addr) as [rs|err] eqn:E; [|by exists err].
  exfalso. apply tc_nsteps in Hloop as (n & Hn & Hloop).
  assert (∀ k, nsteps (alias_step v) (k * n) addr addr) as Hmany.
  { induction k as [|k IH]; [constructor|]. simpl. by eapply nsteps_trans. }
  destruct n as [|n]; [lia|].
  eapply (resolve_left_chain v (recursionLimit * S n) addr addr); [done|].
  eapply resolve_left_mono; [|done]. unfold recursionLimit. lia.
Qed.

Theorem Resolve_alias_loop_witness :
  ∃ err, Resolve Example.resolver "l@d" = Err err.
Proof.
  apply Resolve_alias_loop. apply tc_l with "m@d".
  - exists [mkRecipient "m@d" [] EMAIL], (mkRecipient "m@d" [] EMAIL).
    split_and!; [by vm_compute|by left|done|by vm_compute].
  - apply tc_once.
    exists [mkRecipient "l@d" [] EMAIL], (mkRecipient "l@d" [] EMAIL).
    split_and!; [by vm_compute|by left|done|by vm_compute].
Defined.

(** The recursion limit does not change any answer: a resolution that
    succeeds at some level of recursion gives the same recipients with any
    number of further levels. *)
Theorem resolve_limit_irrelevant `{Unicode, Precis, AliasWorld}
    v rcount addr rs levels :
  resolve v rcount addr = Ok rs → recursionLimit - rcount ≤ levels →
  resolve_left v levels addr = Ok rs.
Proof. intros Hr Hk. by eapply resolve_left_mono. Qed.

Theorem resolve_limit_irrelevant_witness :
  resolve_left Example.resolver 50 "a@d" =
    Ok [mkRecipient "c@remote" [] EMAIL; mkRecipient "run" [] PIPE].
Proof.
  apply (resolve_limit_irrelevant _ 2); [by vm_compute|].
  unfold recursionLimit. lia.
Defined.

(** In an aliases file the last line for an address wins, and an
    address with no line has no alias. *)
Theorem parseReader_last_wins `{Unicode, Precis, AliasWorld}
    v domain data rerr m addr :
  parseReader v domain data rerr = Ok m →
  m !! addr = last (omap (entry_for v domain addr)
                         (fst (scan_lines data rerr))).
Proof.
  unfold parseReader. destruct (scan_lines data rerr) as [lines serr]. simpl.
  destruct (parse_lines v domain 1 lines ∅) as [al|] eqn:E; simpl; [|done].
  destruct serr; [done|]. intros [= <-].
  rewrite (parse_lines_lookup _ _ _ _ _ _ addr E), lookup_empty.
  by destruct (last _).
Qed.

Theorem parseReader_last_wins_witness :
  ∃ m, parseFile Example.resolver "d" "users" = Ok m ∧
    m !! "a@d" = Some [mkRecipient "cmd" [] PIPE].
Proof.
  destruct (parseFile Example.resolver "d" "users") as [m|e] eqn:E;
    [|by vm_compute in E].
  exists m. split; [done|].
  rewrite (parseReader_last_wins _ _ _ _ _ "a@d" E). by vm_compute.
Defined.

(** Reloading is all or nothing: on an error the resolver is unchanged;
    otherwise only the alias table changes, it has an entry for exactly the
    addresses of the files that could be read, and each entry is the one of
    such a file. *)
Theorem Reload_all_or_nothing `{Unicode, Precis, AliasWorld} v order v' err :
  Reload v order = (v', err) →
  match err with
  | Some _ => v' = v
  | None =>
    files v' = files v ∧ domains v' = domains v ∧
    ∀ addr,
      (is_Some (aliases v' !! addr) ↔
         ∃ domain path al, (domain, path) ∈ file_list order ∧
           parseFile v domain path = Ok al ∧ is_Some (al !! addr)) ∧
      (∀ rs, aliases v' !! addr = Some rs →
         ∃ domain path al, (domain, path) ∈ file_list order ∧
           parseFile v domain path = Ok al ∧ al !! addr = Some rs)
  end.
Proof.
  unfold Reload.
  destruct (reload_files v (file_list order) ∅) as [al|e] eqn:E;
    intros [= <- <-]; [|done].
  split_and!; [done|done|]. intros addr. simpl.
  destruct (reload_files_spec _ _ _ _ addr E) as [H3 H4].
  rewrite lookup_empty in H3, H4.
  split.
  - rewrite H3. split; [intros [[? ?]|?]; done|by right].
  - intros rs Hrs. by destruct (H4 rs Hrs).
Qed.

Theorem Reload_all_or_nothing_witness :
  ∃ v', Reload Example.resolver [("d", ["users"; "none"])] = (v', None) ∧
    files v' = files Example.resolver.
Proof.
  destruct (Reload Example.resolver [("d", ["users"; "none"])])
    as [v' [e|]] eqn:E; [by vm_compute in E|].
  exists v'. split; [done|]. by destruct (Reload_all_or_nothing _ _ _ _ E).
Defined.

(** Mail for an existing user under an address with a suffix goes to the
    catch-all of the domain: [resolve] asks the user database for the user
    part as it was given, not for the clean one. *)
Theorem catch_all_takes_suffixed_user :
  let v := Example.resolver in
  let addr := "juana+x@d" in
  userExistsInDB v (Envelope.UserOf (RemoveDropsAndSuffix v addr)) "d" = Ok true ∧
  Resolve v "juana@d" = Ok [mkRecipient "juana@d" [] EMAIL] ∧
  Resolve v addr = Ok [mkRecipient "all@remote" [] EMAIL].
Proof. by vm_compute. Qed.

End Aliases.
