(* ===== verification/Store.v ===== *)
(** Persistence: packages [internal/safeio] (atomic file replacement) and
    [internal/protoio] (protocol buffer messages in files, and the store of
    messages by id). *)

From stdpp Require Import sorting.
From S2P Require Import Prelude GoStrings.
#[local] Open Scope go_scope.

(** ** internal/safeio *)
Module Safeio.

(** The file system, as far as it matters here: the contents of each file. *)
Abbreviation FS := (gmap bytes bytes).

(** What the operating system answers during one [WriteFile]. *)
Record syscalls := mkSyscalls {
  (** The name [createTemp] chose, or its error. *)
  create_temp : res bytes bytes;
  chmod_err : option bytes;
  (** Owner of the target file, when [os.Stat] can tell. *)
  stat_owner : option (Z * Z);
  chown_err : option bytes;
  (** How many bytes [Write] got to the file, and its error. *)
  written : nat;
  write_err : option bytes;
  close_err : option bytes;
  rename_err : option bytes;
}.

(** [FileOp]: gets the name of the file and may change it. *)
Definition FileOp : Type := bytes → FS → FS * option bytes.

Definition getOwner (sc : syscalls) : Z * Z :=
  match stat_owner sc with
  | Some (uid, gid) => (uid, gid)
  | None => (-1, -1)%Z
  end.

(** A failed [Write] leaves part of the data in the file. *)
Definition write_data (sc : syscalls) (data : bytes) : bytes :=
  match write_err sc with
  | None => data
  | Some _ => take (written sc) data
  end.

(** The operations run in order until one fails. *)
Fixpoint run_ops (ops : list FileOp) (tmp : bytes) (fs : FS) :
  list FS * FS * option bytes :=
  match ops with
  | [] => ([], fs, None)
  | op :: ops =>
    let '(fs, err) := op tmp fs in
    match err with
    | Some e => ([fs], fs, Some e)
    | None => let '(tr, fs', err) := run_ops ops tmp fs in (fs :: tr, fs', err)
    end
  end.

(** [WriteFile] with all the states the file system goes through: one per
    system call that changes it.  A crash leaves the disk in one of them. *)
Definition WriteFile (sc : syscalls) (fs : FS) (filename data : bytes)
    (ops : list FileOp) : list FS * FS * option bytes :=
  match create_temp sc with
  | Err e => ([], fs, Some e)
  | Ok tmp =>
    let fs1 : FS := <[tmp := []]> fs in
    match chmod_err sc with
    | Some e => let fs' : FS := delete tmp fs1 in ([fs1; fs'], fs', Some e)
    | None =>
      match (if (0 <=? (getOwner sc).1)%Z then chown_err sc else None) with
      | Some e => let fs' : FS := delete tmp fs1 in ([fs1; fs'], fs', Some e)
      | None =>
        let fs2 : FS := <[tmp := write_data sc data]> fs1 in
        match write_err sc with
        | Some e =>
          let fs' : FS := delete tmp fs2 in ([fs1; fs2; fs'], fs', Some e)
        | None =>
          match close_err sc with
          | Some e =>
            let fs' : FS := delete tmp fs2 in ([fs1; fs2; fs'], fs', Some e)
          | None =>
            let '(tr, fs3, err) := run_ops ops tmp fs2 in
            match err with
            | Some e =>
              let fs' : FS := delete tmp fs3 in
              ([fs1; fs2] ++ tr ++ [fs'], fs', Some e)
            | None =>
              match rename_err sc with
              | Some e => ([fs1; fs2] ++ tr, fs3, Some e)
              | None =>
                let fs' : FS :=
                  <[filename := default [] (fs3 !! tmp)]> (delete tmp fs3) in
                ([fs1; fs2] ++ tr ++ [fs'], fs', None)
              end
            end
          end
        end
      end
    end
  end.

(** [FsyncFileOp] opens, syncs and closes the file; the arguments are the
    errors of the three calls. *)
Definition FsyncFileOp (open_err sync_err close_err : option bytes) : FileOp :=
  λ fname fs,
    match open_err with
    | Some e => (fs, Some e)
    | None =>
      match sync_err with
      | Some e => (fs, Some e)
      | None => (fs, close_err)
      end
    end.

(** An operation that leaves all files as they are. *)
Definition preserves (op : FileOp) : Prop := ∀ tmp fs, (op tmp fs).1 = fs.

Lemma FsyncFileOp_preserves e1 e2 e3 : preserves (FsyncFileOp e1 e2 e3).
Proof. intros tmp fs. unfold FsyncFileOp. by repeat case_match. Qed.

(** What [createTemp] promises: a new file, whose name is not the target's
    (it starts with a dot followed by the target's name). *)
Definition temp_ok (sc : syscalls) (fs : FS) (filename : bytes) : Prop :=
  match create_temp sc with
  | Ok tmp => fs !! tmp = None ∧ tmp ≠ filename
  | Err _ => True
  end.

Lemma run_ops_preserves ops tmp fs tr fs' err :
  Forall preserves ops → run_ops ops tmp fs = (tr, fs', err) →
  fs' = fs ∧ Forall (λ s, s = fs) tr.
Proof.
  intros Hops. revert tr fs' err. induction Hops as [|op ops Hop _ IH];
    intros tr fs' err; simpl.
  - by intros [= <- <- _].
  - specialize (Hop tmp fs). destruct (op tmp fs) as [fs1 e]; simpl in Hop.
    subst fs1. destruct e as [e|].
    + intros [= <- <- _]. split; [done|]. by constructor.
    + destruct (run_ops ops tmp fs) as [[tr1 fs1] e1] eqn:E.
      intros [= <- <- _]. destruct (IH _ _ _ eq_refl) as [-> ?].
      split; [done|]. by constructor.
Qed.

(** The states before the final rename: the target, and every other file but
    the temporary one, are as before. *)
Definition unchanged_but (tmp : bytes) (fs s : FS) : Prop :=
  ∀ k, k ≠ tmp → s !! k = fs !! k.

Lemma unchanged_insert tmp fs s v :
  unchanged_but tmp fs s → unchanged_but tmp fs (<[tmp := v]> s).
Proof. intros H k Hk. rewrite lookup_insert_ne by done. by apply H. Qed.

Lemma unchanged_delete tmp fs s :
  unchanged_but tmp fs s → unchanged_but tmp fs (delete tmp s).
Proof. intros H k Hk. rewrite lookup_delete_ne by done. by apply H. Qed.

Lemma unchanged_refl tmp fs : unchanged_but tmp fs fs.
Proof. done. Qed.

#[export] Hint Resolve unchanged_insert unchanged_delete unchanged_refl : go.

(** Each state of a list was visited: it satisfies the given fact. *)
Ltac visited Hun :=
  repeat first [ assumption | apply Forall_nil_2 | apply Forall_cons_2
               | apply Forall_app_2 ];
  first [ left; reflexivity | apply Hun; auto with go | idtac ].

(** Everything about one [WriteFile]: what a visited state may look like, and
    the final state for each outcome. *)
Lemma WriteFile_cases sc fs filename data ops tr fs' err :
  Forall preserves ops → temp_ok sc fs filename →
  WriteFile sc fs filename data ops = (tr, fs', err) →
  Forall (λ s : FS, s = <[filename := data]> fs ∨
            ∃ tmp, create_temp sc = Ok tmp ∧ unchanged_but tmp fs s) tr ∧
  match err with
  | None => fs' = <[filename := data]> fs
  | Some _ => fs' = fs ∨
      (rename_err sc ≠ None ∧
       ∃ tmp, create_temp sc = Ok tmp ∧ fs' = <[tmp := data]> fs)
  end.
Proof.
  intros Hops Htmp. unfold temp_ok in Htmp. unfold WriteFile, write_data.
  destruct (create_temp sc) as [tmp|e] eqn:Ec; [|intros [= <- <- <-]; auto].
  destruct Htmp as [Hfresh Hne].
  assert (Hdel : ∀ d, delete tmp (<[tmp := d]> fs) = fs) by
    (intros d; by rewrite delete_insert_id).
  assert (Hdel2 : ∀ d d', delete tmp (<[tmp := d]> (<[tmp := d']> fs)) = fs) by
    (intros d d'; by rewrite insert_insert_eq).
  assert (Hun : ∀ s : FS, unchanged_but tmp fs s →
    s = <[filename := data]> fs ∨
      ∃ tmp', Ok (E := bytes) tmp = Ok tmp' ∧ unchanged_but tmp' fs s) by eauto.
  destruct (chmod_err sc) as [e|].
  { intros [= <- <- <-]. split; [|by left].
    visited Hun. }
  case_match.
  { intros [= <- <- <-]. split; [|by left].
    visited Hun. }
  destruct (write_err sc) as [e|].
  { intros [= <- <- <-]. split; [|by left].
    visited Hun. }
  destruct (close_err sc) as [e|].
  { intros [= <- <- <-]. split; [|by left].
    visited Hun. }
  destruct (run_ops _ _ _) as [[tr1 fs3] e3] eqn:Er.
  apply run_ops_preserves in Er as [-> Htr]; [|done].
  rewrite insert_insert_eq in *.
  assert (Htr' : Forall (λ s : FS, s = <[filename := data]> fs ∨
    ∃ tmp', Ok (E := bytes) tmp = Ok tmp' ∧ unchanged_but tmp' fs s) tr1).
  { eapply Forall_impl; [exact Htr|]. intros s ->. apply Hun. auto with go. }
  destruct e3 as [e|]; [|destruct (rename_err sc) as [e|]];
    intros [= <- <- <-]; rewrite ?lookup_insert_eq; simpl;
    rewrite ?Hdel; split; eauto 10; visited Hun.
Qed.

(** C19: Replacing a file is atomic: in every state of the disk that a crash of
    [WriteFile] can leave behind, each file other than the temporary one has
    either its previous contents or, for the target only, all of the new
    data; the new data is there at the end exactly when no error is
    returned. *)
Theorem WriteFile_atomic sc fs filename data ops :
  Forall preserves ops → temp_ok sc fs filename →
  let '(tr, fs', err) := WriteFile sc fs filename data ops in
  (∀ s, s ∈ tr →
    (s !! filename = fs !! filename ∨ s !! filename = Some data) ∧
    (∀ k, k ≠ filename → Ok k ≠ create_temp sc → s !! k = fs !! k)) ∧
  (err = None → fs' = <[filename := data]> fs) ∧
  (err ≠ None → fs' !! filename = fs !! filename) ∧
  (err ≠ None → rename_err sc = None → fs' = fs).
Proof.
  intros Hops Htmp.
  destruct (WriteFile sc fs filename data ops) as [[tr fs'] err] eqn:E.
  destruct (WriteFile_cases _ _ _ _ _ _ _ _ Hops Htmp E) as [Htr Hend].
  unfold temp_ok in Htmp. repeat split.
  - rewrite Forall_forall in Htr. destruct (Htr s H) as [->|(tmp & Ht & Hs)].
    + right. by rewrite lookup_insert_eq.
    + left. apply Hs. rewrite Ht in Htmp. naive_solver.
  - intros k Hk Hkt. rewrite Forall_forall in Htr.
    destruct (Htr s H) as [->|(tmp & Ht & Hs)].
    + by rewrite lookup_insert_ne.
    + apply Hs. congruence.
  - by intros ->.
  - intros Herr. destruct err; [|done].
    destruct Hend as [->|(_ & tmp & Ht & ->)]; [done|].
    rewrite Ht in Htmp. destruct Htmp. by rewrite lookup_insert_ne.
  - intros Herr Hren. destruct err; [|done]. naive_solver.
Qed.

(** A disk on which every call works. *)
Definition working_calls (tmp : bytes) : syscalls :=
  mkSyscalls (Ok tmp) None (Some (1000, 1000)%Z) None 0 None None None.

(** A disk that becomes full. *)
Definition full_disk (tmp : bytes) (n : nat) : syscalls :=
  mkSyscalls (Ok tmp) None None None n (Some "no space left on device") None None.

Lemma WriteFile_atomic_witness :
  let fs : FS := {[ ("/d/a" : bytes) := ("old" : bytes) ]} in
  let ops := [FsyncFileOp None None None] in
  let '(tr, fs', err) := WriteFile (full_disk "/d/.a1" 2) fs "/d/a" "new" ops in
  err ≠ None ∧ length tr = 3 ∧ fs' !! ("/d/a" : bytes) = Some ("old" : bytes) ∧
  fs' = fs.
Proof.
  intros fs ops.
  pose proof (WriteFile_atomic (full_disk "/d/.a1" 2) fs "/d/a" "new" ops) as H.
  destruct (WriteFile _ _ _ _ _) as [[tr fs'] err] eqn:E.
  destruct H as (_ & _ & H1 & H2).
  - repeat constructor; apply FsyncFileOp_preserves.
  - split; [by vm_compute|done].
  - assert (He : err = Some "no space left on device")
      by (apply (f_equal snd) in E; symmetry; exact E).
    assert (Hl : length tr = 3)
      by (apply (f_equal (λ x, length x.1.1)) in E; symmetry; exact E).
    rewrite H1 by (by rewrite He). split; [by rewrite He|]. split; [done|].
    split; [by vm_compute|]. apply H2; [by rewrite He|done].
Defined.

End Safeio.

(** ** internal/protoio *)

(** The text format of protocol buffers, from google.golang.org/protobuf:
    [prototext.Marshal] fails on strings that are not UTF-8. *)
Class ProtoText (M : Type) := {
  text_Marshal : M → res bytes bytes;
  text_Unmarshal : bytes → res bytes M;
}.

(** Its documented behaviour: what was marshalled is read back. *)
Class ProtoTextOk (M : Type) `{ProtoText M} : Prop :=
  text_roundtrip m b : text_Marshal m = Ok b → text_Unmarshal b = Ok m.

(** The binary encoding of messages, [proto.Marshal] and [proto.Unmarshal]. *)
Class ProtoWire (M : Type) := {
  wire_Marshal : M → res bytes bytes;
  wire_Unmarshal : bytes → res bytes M;
}.

(** An encoding for the examples, of any countable type of messages. *)
Module CountableText.

Fixpoint pos_text (p : positive) : bytes :=
  match p with
  | xH => "."
  | xO p => "0"%char :: pos_text p
  | xI p => "1"%char :: pos_text p
  end.

Fixpoint text_pos (b : bytes) : option positive :=
  match b with
  | [] => None
  | c :: b =>
    if c == "."%char then Some xH
    else if c == "0"%char then xO <$> text_pos b
    else xI <$> text_pos b
  end.

Lemma text_pos_text p : text_pos (pos_text p) = Some p.
Proof. induction p as [p IH|p IH|]; simpl; rewrite ?IH; done. Qed.

#[export] Instance countable_text {M} `{Countable M} : ProtoText M :=
  {| text_Marshal m := Ok (pos_text (encode m));
     text_Unmarshal b :=
       match text_pos b ≫= decode with
       | Some m => Ok m
       | None => Err "syntax error"
       end |}.

#[export] Instance countable_text_ok {M} `{Countable M} : ProtoTextOk M.
Proof.
  intros m b [= <-]. simpl. rewrite text_pos_text. simpl. by rewrite decode_encode.
Qed.

End CountableText.

Module Protoio.
Import Safeio.

Inductive read_error :=
| NotExist
| ReadFailed (msg : bytes)
| BadMessage (msg : bytes).

#[export] Instance read_error_eq_dec : EqDecision read_error.
Proof. solve_decision. Defined.

(** [os.IsNotExist]. *)
Definition IsNotExist (e : read_error) : bool := e == NotExist.

(** [os.ReadFile]; the argument [fault] is the error of reading a file that
    exists, if any. *)
Definition ReadFile (fault : bytes → option bytes) (fs : FS) (fname : bytes) :
  res read_error bytes :=
  match fs !! fname with
  | None => Err NotExist
  | Some d =>
    match fault fname with
    | Some e => Err (ReadFailed e)
    | None => Ok d
    end
  end.

Section Messages.
Context {M : Type} `{ProtoText M}.

Definition ReadTextMessage (fault : bytes → option bytes) (fs : FS)
    (fname : bytes) : res read_error M :=
  inp ← ReadFile fault fs fname;
  match text_Unmarshal inp with
  | Ok m => Ok m
  | Err e => Err (BadMessage e)
  end.

Definition WriteTextMessage (sc : syscalls) (fs : FS) (fname : bytes) (m : M)
    (ops : list FileOp) : FS * option bytes :=
  match text_Marshal m with
  | Err e => (fs, Some e)
  | Ok out =>
    let '(_, fs, err) := WriteFile sc fs fname out ops in (fs, err)
  end.

End Messages.

Section WireMessages.
Context {M : Type} `{ProtoWire M}.

Definition ReadMessage (fault : bytes → option bytes) (fs : FS) (fname : bytes) :
  res read_error M :=
  inp ← ReadFile fault fs fname;
  match wire_Unmarshal inp with
  | Ok m => Ok m
  | Err e => Err (BadMessage e)
  end.

Definition WriteMessage (sc : syscalls) (fs : FS) (fname : bytes) (m : M)
    (ops : list FileOp) : FS * option bytes :=
  match wire_Marshal m with
  | Err e => (fs, Some e)
  | Ok out =>
    let '(_, fs, err) := WriteFile sc fs fname out ops in (fs, err)
  end.

End WireMessages.

(** ** The store *)

(** [url.QueryEscape] and [url.QueryUnescape]. *)
Definition unreserved (c : ascii) : bool :=
  let b := Utf8.bval c in
  in_range 97 122 b || in_range 65 90 b || in_range 48 57 b
  || (c == "-"%char) || (c == "_"%char) || (c == "."%char) || (c == "~"%char).

Definition upperhex (n : N) : ascii :=
  ascii_of_N (if N.ltb n 10 then 48 + n else 55 + n).

Definition escape_byte (c : ascii) : bytes :=
  if c == SP then "+"
  else if unreserved c then [c]
  else ["%"%char; upperhex (N.shiftr (Utf8.bval c) 4);
        upperhex (N.land (Utf8.bval c) 15)].

Definition QueryEscape (s : bytes) : bytes := concat (escape_byte <$> s).

Definition unhex (c : ascii) : option N :=
  let b := Utf8.bval c in
  if in_range 48 57 b then Some (b - 48)%N
  else if in_range 97 102 b then Some (b - 87)%N
  else if in_range 65 70 b then Some (b - 55)%N
  else None.

Fixpoint QueryUnescape (s : bytes) : option bytes :=
  match s with
  | [] => Some []
  | c :: s' =>
    if c == "%"%char then
      match s' with
      | h :: l :: s'' =>
        match unhex h, unhex l with
        | Some h, Some l =>
          r ← QueryUnescape s''; Some (ascii_of_N (16 * h + l) :: r)
        | _, _ => None
        end
      | _ => None
      end
    else
      r ← QueryUnescape s';
      Some ((if c == "+"%char then SP else c) :: r)
  end.

Lemma QueryUnescape_byte c s :
  QueryUnescape (escape_byte c ++ s) = (λ r, c :: r) <$> QueryUnescape s.
Proof.
  destruct c as [[] [] [] [] [] [] [] []]; simpl;
    by destruct (QueryUnescape s).
Qed.

Lemma QueryUnescape_QueryEscape s : QueryUnescape (QueryEscape s) = Some s.
Proof.
  induction s as [|c s IH]; [done|].
  unfold QueryEscape. rewrite fmap_cons, concat_cons, QueryUnescape_byte.
  unfold QueryEscape in IH. by rewrite IH.
Qed.

Lemma QueryEscape_inj s t : QueryEscape s = QueryEscape t → s = t.
Proof.
  intros E. assert (Some s = Some t) as [= ->]; [|done].
  rewrite <- !QueryUnescape_QueryEscape. by rewrite E.
Qed.

Lemma QueryEscape_no_slash s : "/"%char ∉ QueryEscape s.
Proof.
  assert (Hb : ∀ c, "/"%char ∉ escape_byte c).
  { intros c. apply (bool_decide_eq_true_1 _).
    by destruct c as [[] [] [] [] [] [] [] []]. }
  unfold QueryEscape. induction s as [|c s IH]; simpl; [set_solver|].
  rewrite elem_of_app. naive_solver.
Qed.

Record Store := mkStore { dir : bytes }.

(** [NewStore] makes the directory; its only state is the name. *)
Definition NewStore (dir : bytes) (mkdir_err : option bytes) :
  Store * option bytes := (mkStore dir, mkdir_err).

Definition storeIDPrefix : bytes := "s:".

Definition idToFname (s : Store) (id : bytes) : bytes :=
  dir s ++ "/" ++ storeIDPrefix ++ QueryEscape id.

(** [os.ReadDir]: the names of the files of a directory, sorted. *)
Definition name_in (d path : bytes) : option bytes :=
  name ← strip_prefix (d ++ "/") path;
  if bool_decide ("/"%char ∈ name) then None else Some name.

Fixpoint bytes_le (a b : bytes) : bool :=
  match a, b with
  | [], _ => true
  | _ :: _, [] => false
  | x :: a, y :: b =>
    N.ltb (Utf8.bval x) (Utf8.bval y)
    || (N.eqb (Utf8.bval x) (Utf8.bval y) && bytes_le a b)
  end.

Definition ReadDir (fs : FS) (d : bytes) : list bytes :=
  merge_sort (λ a b, bytes_le a b)
    (omap (name_in d) (map_to_list fs).*1).

Definition id_of_entry (name : bytes) : option bytes :=
  rest ← strip_prefix storeIDPrefix name; QueryUnescape rest.

Definition ListIDs (dir_err : option bytes) (fs : FS) (s : Store) :
  res bytes (list bytes) :=
  match dir_err with
  | Some e => Err e
  | None => Ok (omap id_of_entry (ReadDir fs (dir s)))
  end.

Section Store.
Context {M : Type} `{ProtoText M}.

Definition Put (sc : syscalls) (fs : FS) (s : Store) (id : bytes) (m : M) :
  FS * option bytes :=
  WriteTextMessage sc fs (idToFname s id) m [].

(** The boolean tells whether the message was there. *)
Definition Get (fault : bytes → option bytes) (fs : FS) (s : Store)
    (id : bytes) : option M * option read_error :=
  match ReadTextMessage fault fs (idToFname s id) with
  | Ok m => (Some m, None)
  | Err e => if IsNotExist e then (None, None) else (None, Some e)
  end.

End Store.

Lemma idToFname_inj s i j : idToFname s i = idToFname s j → i = j.
Proof.
  unfold idToFname. intros E. repeat apply app_inv_head in E.
  by apply QueryEscape_inj.
Qed.

Lemma elem_of_ReadDir fs d name :
  name ∈ ReadDir fs d ↔ is_Some (fs !! (d ++ "/" ++ name)) ∧ "/"%char ∉ name.
Proof.
  unfold ReadDir. rewrite (merge_sort_Permutation _ _).
  rewrite list_elem_of_omap. unfold name_in. split.
  - intros (p & Hp & Hn).
    apply list_elem_of_fmap in Hp as ([k v] & -> & Hkv).
    apply elem_of_map_to_list in Hkv. simpl in *.
    apply bind_Some in Hn as (n & Hn & Hd).
    apply strip_prefix_Some in Hn as ->.
    case_bool_decide; simplify_eq. rewrite <- app_assoc in Hkv. by split; eauto.
  - intros [[v Hv] Hs]. exists (d ++ "/" ++ name). split.
    + apply list_elem_of_fmap. exists (d ++ "/" ++ name, v). split; [done|].
      by apply elem_of_map_to_list.
    + assert (strip_prefix (d ++ "/") (d ++ "/" ++ name) = Some name) as ->.
      { apply strip_prefix_Some. by rewrite <- app_assoc. }
      simpl. by rewrite bool_decide_eq_false_2.
Qed.

(** Every stored id is listed. *)
Lemma ListIDs_complete fs s ids id :
  ListIDs None fs s = Ok ids → is_Some (fs !! idToFname s id) → id ∈ ids.
Proof.
  intros [= <-] Hid. apply list_elem_of_omap.
  exists (storeIDPrefix ++ QueryEscape id). split.
  - apply elem_of_ReadDir. split; [done|].
    rewrite elem_of_app. intros [E|E].
    + revert E. unfold storeIDPrefix. rewrite !elem_of_cons, elem_of_nil.
      intros [E|[E|[]]]; discriminate E.
    + by apply QueryEscape_no_slash in E.
  - unfold id_of_entry. simpl. apply QueryUnescape_QueryEscape.
Qed.

(** A successful [Put] changes the file of the id only; a failed one at most
    leaves a temporary file behind. *)
Lemma Put_Ok {M} `{ProtoText M} sc fs s id (m : M) fs' :
  temp_ok sc fs (idToFname s id) → Put sc fs s id m = (fs', None) →
  ∃ out, text_Marshal m = Ok out ∧ fs' = <[idToFname s id := out]> fs.
Proof.
  intros Ht. unfold Put, WriteTextMessage.
  destruct (text_Marshal m) as [out|e]; [|done].
  destruct (WriteFile _ _ _ _ _) as [[tr fs1] err] eqn:E. intros [= <- ->].
  apply WriteFile_cases in E as [_ ->]; [by exists out|constructor|done].
Qed.

(** A message that was written in the binary encoding is read back, and no other
    file has changed. *)
Lemma WriteMessage_ReadMessage {M} `{ProtoWire M} sc fault fs fname (m : M) ops fs' :
  (∀ b, wire_Marshal m = Ok b → wire_Unmarshal b = Ok m) →
  Forall preserves ops → temp_ok sc fs fname →
  WriteMessage sc fs fname m ops = (fs', None) →
  (fault fname = None → ReadMessage fault fs' fname = Ok m) ∧
  (∀ k, k ≠ fname → fs' !! k = fs !! k).
Proof.
  intros Hw Hops Ht. unfold WriteMessage.
  destruct (wire_Marshal m) as [out|] eqn:Em; [|done].
  destruct (WriteFile sc fs fname out ops) as [[tr fs1] err] eqn:E. intros [= <- ->].
  destruct (WriteFile_cases _ _ _ _ _ _ _ _ Hops Ht E) as [_ ->]. split.
  - intros Hf. unfold ReadMessage, ReadFile. rewrite lookup_insert_eq, Hf. simpl.
    by rewrite (Hw out eq_refl).
  - intros k Hk. by apply lookup_insert_ne.
Qed.

(** The store is a map from ids to messages: after a [Put] that reports
    no error, [Get] of that id returns the message, [Get] of any other id
    returns what it did before, and [ListIDs] lists the id. *)
Theorem Put_Get {M} `{ProtoTextOk M} sc fault fs s id (m : M) fs' :
  temp_ok sc fs (idToFname s id) →
  Put sc fs s id m = (fs', None) →
  (fault (idToFname s id) = None → Get fault fs' s id = (Some m, None)) ∧
  (∀ id', id' ≠ id → Get (M := M) fault fs' s id' = Get fault fs s id') ∧
  (∀ ids, ListIDs None fs' s = Ok ids → id ∈ ids).
Proof.
  intros Ht HP. apply Put_Ok in HP as (out & Hout & ->); [|done].
  repeat split.
  - intros Hf. unfold Get, ReadTextMessage, ReadFile.
    rewrite lookup_insert_eq, Hf. simpl. by rewrite (text_roundtrip _ _ Hout).
  - intros id' Hid. unfold Get, ReadTextMessage, ReadFile.
    rewrite lookup_insert_ne; [done|]. intros E. by apply idToFname_inj in E.
  - intros ids Hids. eapply ListIDs_complete; [done|].
    rewrite lookup_insert_eq. by eexists.
Qed.

#[local] Existing Instances CountableText.countable_text CountableText.countable_text_ok.

Lemma Put_Get_witness :
  let put := Put (working_calls "/d/.t") ∅ (mkStore "/d") "a/b" ("msg" : bytes) in
  put.2 = None ∧
  Get (λ _, None) put.1 (mkStore "/d") "a/b" = (Some ("msg" : bytes), None).
Proof.
  intros put. assert (Hp : put.2 = None) by reflexivity. split; [exact Hp|].
  apply (Put_Get (working_calls "/d/.t") (λ _, None) ∅ (mkStore "/d") "a/b"
           ("msg" : bytes) put.1); [|exact (pair_snd put None Hp)|reflexivity].
  split; [reflexivity|discriminate].
Defined.

End Protoio.
