(* ===== verification/DomainInfo.v ===== *)
(** The domain information database: package [internal/domaininfo].  It
    remembers the security level seen for each domain, in memory and in a
    store, and refuses to go below it. *)

From S2P Require Import Prelude GoStrings Store.
#[local] Open Scope go_scope.

Module DomainInfo.
Import Safeio Protoio.

(** ** Data *)

(** [SecLevel] is a protocol buffer enumeration, an [int32]: a file may hold
    any value. *)
Definition SecLevel : Type := Z.
Definition PLAIN : SecLevel := 0%Z.
Definition TLS_CLIENT : SecLevel := 1%Z.
Definition TLS_INSECURE : SecLevel := 2%Z.
Definition TLS_SECURE : SecLevel := 3%Z.

Record Domain := mkDomain {
  Name : bytes;
  IncomingLevel : SecLevel;
  OutgoingLevel : SecLevel;
}.

#[export] Instance Domain_eq_dec : EqDecision Domain.
Proof. solve_decision. Defined.

(** [&Domain{Name: name}]. *)
Definition new_domain (name : bytes) : Domain := mkDomain name PLAIN PLAIN.

Record DB := mkDB {
  store : Store;
  info : gmap bytes Domain;
}.

Definition set_info (db : DB) (i : gmap bytes Domain) : DB :=
  mkDB (store db) i.

Inductive error :=
| ErrStore (msg : bytes)
| ErrListIDs (msg : bytes)
| ErrLoading (id : bytes) (err : read_error).

Section DomainInfo.
Context `{ProtoText Domain}.

(** ** Operations *)

(** The loop of [Reload]: it stops at the first message that cannot be
    read, with the ones before it loaded. *)
Fixpoint load_ids (fault : bytes → option bytes) (fs : FS) (st : Store)
    (ids : list bytes) (acc : gmap bytes Domain) :
  gmap bytes Domain * option error :=
  match ids with
  | [] => (acc, None)
  | id :: ids =>
    match Get fault fs st id with
    | (_, Some err) => (acc, Some (ErrLoading id err))
    | (m, None) =>
      let d := default (new_domain []) m in
      load_ids fault fs st ids (<[Name d := d]> acc)
    end
  end.

Definition Reload (fault : bytes → option bytes) (dir_err : option bytes)
    (fs : FS) (db : DB) : DB * option error :=
  match ListIDs dir_err fs (store db) with
  | Err e => (set_info db ∅, Some (ErrListIDs e))
  | Ok ids =>
    let '(i, err) := load_ids fault fs (store db) ids ∅ in
    (set_info db i, err)
  end.

Definition New (fault : bytes → option bytes) (mkdir_err dir_err : option bytes)
    (fs : FS) (dir : bytes) : res error DB :=
  match NewStore dir mkdir_err with
  | (_, Some e) => Err (ErrStore e)
  | (st, None) =>
    match Reload fault dir_err fs (mkDB st ∅) with
    | (_, Some e) => Err e
    | (db, None) => Ok db
    end
  end.

Definition write (sc : syscalls) (fs : FS) (db : DB) (d : Domain) :
  FS * option bytes := Put sc fs (store db) (Name d) d.

(** The entry of a domain, a new one if there is none, and whether it
    existed. *)
Definition entry (db : DB) (domain : bytes) : Domain * bool :=
  match info db !! domain with
  | Some d => (d, true)
  | None => (new_domain domain, false)
  end.

(** The deferred [write] runs on return, after the entry was updated; the
    caller ignores its error, which is returned here with the new disk. *)
Definition IncomingSecLevel (sc : syscalls) (fs : FS) (db : DB)
    (domain : bytes) (level : SecLevel) : bool * DB * (FS * option bytes) :=
  let '(d, exists_) := entry db domain in
  let db := set_info db (<[domain := d]> (info db)) in
  if (level <? IncomingLevel d)%Z then
    (false, db, if exists_ then (fs, None) else write sc fs db d)
  else if (level =? IncomingLevel d)%Z then
    (true, db, if exists_ then (fs, None) else write sc fs db d)
  else
    let d := mkDomain (Name d) level (OutgoingLevel d) in
    let db := set_info db (<[domain := d]> (info db)) in
    (true, db, write sc fs db d).

Definition OutgoingSecLevel (sc : syscalls) (fs : FS) (db : DB)
    (domain : bytes) (level : SecLevel) : bool * DB * (FS * option bytes) :=
  let '(d, exists_) := entry db domain in
  let db := set_info db (<[domain := d]> (info db)) in
  if (level <? OutgoingLevel d)%Z then
    (false, db, if exists_ then (fs, None) else write sc fs db d)
  else if (level =? OutgoingLevel d)%Z then
    (true, db, if exists_ then (fs, None) else write sc fs db d)
  else
    let d := mkDomain (Name d) (IncomingLevel d) level in
    let db := set_info db (<[domain := d]> (info db)) in
    (true, db, write sc fs db d).

Definition Clear (sc : syscalls) (fs : FS) (db : DB) (domain : bytes) :
  bool * DB * (FS * option bytes) :=
  match info db !! domain with
  | None => (false, db, (fs, None))
  | Some d =>
    let d := mkDomain (Name d) PLAIN PLAIN in
    let db := set_info db (<[domain := d]> (info db)) in
    (true, db, write sc fs db d)
  end.

(** ** Levels *)

Definition in_level (db : DB) (domain : bytes) : SecLevel :=
  IncomingLevel (entry db domain).1.

Definition out_level (db : DB) (domain : bytes) : SecLevel :=
  OutgoingLevel (entry db domain).1.

Lemma entry_insert db domain d :
  entry (set_info db (<[domain := d]> (info db))) domain = (d, true).
Proof. unfold entry; simpl. by rewrite lookup_insert_eq. Qed.

Lemma entry_insert_ne db domain d domain' :
  domain' ≠ domain →
  entry (set_info db (<[domain := d]> (info db))) domain' = entry db domain'.
Proof. intros ?. unfold entry; simpl. by rewrite lookup_insert_ne. Qed.

(** What one check does to the levels. *)
Lemma IncomingSecLevel_levels sc fs db domain level :
  let '(ok, db', _) := IncomingSecLevel sc fs db domain level in
  ok = bool_decide (in_level db domain ≤ level)%Z ∧
  in_level db' domain = Z.max level (in_level db domain) ∧
  out_level db' domain = out_level db domain ∧
  (∀ domain', domain' ≠ domain → entry db' domain' = entry db domain').
Proof.
  unfold IncomingSecLevel, in_level, out_level.
  destruct (entry db domain) as [d e] eqn:E. simpl.
  destruct (Z.ltb_spec level (IncomingLevel d));
    [|destruct (Z.eqb_spec level (IncomingLevel d))];
    rewrite ?entry_insert; simpl;
    [rewrite bool_decide_eq_false_2 by lia | rewrite bool_decide_eq_true_2 by lia
    | rewrite bool_decide_eq_true_2 by lia];
    (split; [done|]); (split; [lia|]); (split; [done|]);
    intros; by rewrite ?entry_insert_ne.
Qed.

Lemma OutgoingSecLevel_levels sc fs db domain level :
  let '(ok, db', _) := OutgoingSecLevel sc fs db domain level in
  ok = bool_decide (out_level db domain ≤ level)%Z ∧
  out_level db' domain = Z.max level (out_level db domain) ∧
  in_level db' domain = in_level db domain ∧
  (∀ domain', domain' ≠ domain → entry db' domain' = entry db domain').
Proof.
  unfold OutgoingSecLevel, in_level, out_level.
  destruct (entry db domain) as [d e] eqn:E. simpl.
  destruct (Z.ltb_spec level (OutgoingLevel d));
    [|destruct (Z.eqb_spec level (OutgoingLevel d))];
    rewrite ?entry_insert; simpl;
    [rewrite bool_decide_eq_false_2 by lia | rewrite bool_decide_eq_true_2 by lia
    | rewrite bool_decide_eq_true_2 by lia];
    (split; [done|]); (split; [lia|]); (split; [done|]);
    intros; by rewrite ?entry_insert_ne.
Qed.

(** ** Sequences of operations *)

Inductive op :=
| OpIncoming (domain : bytes) (level : SecLevel)
| OpOutgoing (domain : bytes) (level : SecLevel)
| OpClear (domain : bytes).

Definition run_op (sc : syscalls) (o : op) (db : DB) (fs : FS) :
  bool * DB * (FS * option bytes) :=
  match o with
  | OpIncoming domain level => IncomingSecLevel sc fs db domain level
  | OpOutgoing domain level => OutgoingSecLevel sc fs db domain level
  | OpClear domain => Clear sc fs db domain
  end.

(** The operations of a server's life, each with what the disk answered. *)
Fixpoint run_ops (ops : list (syscalls * op)) (db : DB) (fs : FS) :
  list bool * DB * FS :=
  match ops with
  | [] => ([], db, fs)
  | (sc, o) :: ops =>
    let '(ok, db, (fs, _)) := run_op sc o db fs in
    let '(oks, db, fs) := run_ops ops db fs in
    (ok :: oks, db, fs)
  end.

Definition clears (domain : bytes) (o : op) : bool :=
  match o with
  | OpClear d => d == domain
  | _ => false
  end.

Lemma run_op_monotone sc o db fs domain :
  clears domain o = false →
  let '(_, db', _) := run_op sc o db fs in
  (in_level db domain ≤ in_level db' domain)%Z ∧
  (out_level db domain ≤ out_level db' domain)%Z.
Proof.
  destruct o as [d l|d l|d]; simpl; intros Hc.
  - pose proof (IncomingSecLevel_levels sc fs db d l) as HL.
    destruct (IncomingSecLevel _ _ _ _ _) as [[ok db'] w].
    destruct HL as (_ & Hi & Ho & Hne). destruct (decide (domain = d)) as [->|].
    + lia.
    + unfold in_level, out_level. rewrite Hne by done. lia.
  - pose proof (OutgoingSecLevel_levels sc fs db d l) as HL.
    destruct (OutgoingSecLevel _ _ _ _ _) as [[ok db'] w].
    destruct HL as (_ & Hi & Ho & Hne). destruct (decide (domain = d)) as [->|].
    + lia.
    + unfold in_level, out_level. rewrite Hne by done. lia.
  - apply bool_decide_eq_false in Hc. unfold Clear, in_level, out_level.
    destruct (info db !! d) as [dd|]; [|lia].
    rewrite entry_insert_ne by congruence. lia.
Qed.

Lemma run_ops_monotone ops db fs domain :
  Forall (λ so, clears domain so.2 = false) ops →
  let '(_, db', _) := run_ops ops db fs in
  (in_level db domain ≤ in_level db' domain)%Z ∧
  (out_level db domain ≤ out_level db' domain)%Z.
Proof.
  revert db fs. induction ops as [|[sc o] ops IH]; intros db fs Hops; simpl;
    [lia|]. apply Forall_cons in Hops as [Ho Hops].
  pose proof (run_op_monotone sc o db fs domain Ho) as H1.
  destruct (run_op sc o db fs) as [[ok db1] [fs1 we]].
  specialize (IH db1 fs1 Hops).
  destruct (run_ops ops db1 fs1) as [[oks db2] fs2]. lia.
Qed.

(** C18: Once mail of a domain was accepted at a security level, a later check
    of that domain is refused at any lower level, whatever happens in
    between (checks of any domain, clears of other domains, disk failures),
    until the domain itself is cleared. *)
Theorem no_downgrade sc1 sc2 ops db fs domain high low :
  Forall (λ so, clears domain so.2 = false) ops →
  (low < high)%Z →
  let '(ok, db1, (fs1, _)) := IncomingSecLevel sc1 fs db domain high in
  let '(_, db2, fs2) := run_ops ops db1 fs1 in
  let '(ok2, _, _) := IncomingSecLevel sc2 fs2 db2 domain low in
  ok = true → ok2 = false.
Proof.
  intros Hops Hlt.
  pose proof (IncomingSecLevel_levels sc1 fs db domain high) as H1.
  destruct (IncomingSecLevel sc1 _ _ _ _) as [[ok db1] [fs1 we]].
  destruct H1 as (_ & H1 & _ & _).
  pose proof (run_ops_monotone ops db1 fs1 domain Hops) as H2.
  destruct (run_ops ops db1 fs1) as [[oks db2] fs2]. destruct H2 as [H2 _].
  pose proof (IncomingSecLevel_levels sc2 fs2 db2 domain low) as H3.
  destruct (IncomingSecLevel sc2 _ _ _ _) as [[ok2 db3] w2].
  destruct H3 as (-> & _). intros _. apply bool_decide_eq_false_2. lia.
Qed.

(** ** Persistence *)

(** The disk and the memory agree: every domain is stored under its name,
    and nothing else is in the store. *)
Record synced (db : DB) (fs : FS) : Prop := {
  synced_get id : Get (λ _, None) fs (store db) id = (info db !! id, None);
  synced_ids id ids :
    ListIDs None fs (store db) = Ok ids → id ∈ ids → is_Some (info db !! id);
  synced_name id d : info db !! id = Some d → Name d = id;
}.

Lemma ListIDs_Put_inv fs st id id' out ids :
  ListIDs None (<[idToFname st id := out]> fs) st = Ok ids → id' ∈ ids →
  id' = id ∨ ∃ ids0, ListIDs None fs st = Ok ids0 ∧ id' ∈ ids0.
Proof.
  intros [= <-]. rewrite list_elem_of_omap. intros (name & Hn & Hid).
  apply elem_of_ReadDir in Hn as [Hsome Hslash].
  destruct (decide (dir st ++ "/" ++ name = idToFname st id)) as [E|E].
  - left. unfold idToFname in E. do 2 apply app_inv_head in E. subst name.
    unfold id_of_entry in Hid. simpl in Hid.
    rewrite QueryUnescape_QueryEscape in Hid. congruence.
  - right. rewrite lookup_insert_ne in Hsome by done.
    eexists; split; [reflexivity|]. apply list_elem_of_omap. exists name.
    split; [|done]. by apply elem_of_ReadDir.
Qed.

Context `{!ProtoTextOk Domain}.

Lemma synced_write sc db fs fs' i id d :
  synced db fs → Name d = id → temp_ok sc fs (idToFname (store db) id) →
  write sc fs (set_info db i) d = (fs', None) →
  synced (set_info db (<[id := d]> (info db))) fs'.
Proof.
  intros [Hg Hi Hn] Hname Ht HP. unfold write in HP. rewrite Hname in HP.
  apply Put_Ok in HP as (out & Hout & ->); [|done]. split; simpl in *.
  - intros id'. destruct (decide (id' = id)) as [->|Hne].
    + rewrite lookup_insert_eq. unfold Get, ReadTextMessage, ReadFile.
      rewrite lookup_insert_eq. simpl. by rewrite (text_roundtrip _ _ Hout).
    + rewrite lookup_insert_ne by done. rewrite <- Hg.
      unfold Get, ReadTextMessage, ReadFile. rewrite lookup_insert_ne; [done|].
      intros E. by apply idToFname_inj in E.
  - intros id' ids Hids Hin.
    destruct (ListIDs_Put_inv _ _ _ _ _ _ Hids Hin) as [->|(ids0 & H0 & Hin0)].
    + rewrite lookup_insert_eq. by eexists.
    + destruct (decide (id' = id)) as [->|Hne];
        [rewrite lookup_insert_eq; by eexists|].
      rewrite lookup_insert_ne by done. eauto.
  - intros id' d'. destruct (decide (id' = id)) as [->|Hne].
    + rewrite lookup_insert_eq. congruence.
    + rewrite lookup_insert_ne by done. apply Hn.
Qed.

(** A file that [createTemp] made does not clash with any stored name. *)
Definition temp_fresh (sc : syscalls) (fs : FS) (st : Store) : Prop :=
  ∀ id, temp_ok sc fs (idToFname st id).

Lemma entry_name db fs domain :
  synced db fs → Name (entry db domain).1 = domain.
Proof.
  intros [_ _ Hn]. unfold entry. destruct (info db !! domain) eqn:E; [|done].
  simpl. eauto.
Qed.

(** The common end of the two checks: the entry as it was. *)
Lemma synced_keep sc db fs fs' domain :
  synced db fs → temp_fresh sc fs (store db) →
  let '(d, ex) := entry db domain in
  let db1 := set_info db (<[domain := d]> (info db)) in
  (if ex then (fs, None) else write sc fs db1 d) = (fs', None) →
  synced db1 fs'.
Proof.
  intros Hs Ht. pose proof (entry_name _ _ domain Hs) as Hname.
  unfold entry in *. destruct (info db !! domain) as [d|] eqn:E; simpl in *.
  - intros [= <-]. rewrite insert_id by done. by destruct db.
  - intros HP. eapply synced_write; eauto.
Qed.

Lemma synced_write_twice sc db fs fs' id d d0 :
  let db1 := set_info db (<[id := d0]> (info db)) in
  let db2 := set_info db1 (<[id := d]> (info db1)) in
  synced db fs → Name d = id → temp_fresh sc fs (store db) →
  write sc fs db2 d = (fs', None) → synced db2 fs'.
Proof.
  unfold set_info; simpl. rewrite insert_insert_eq. intros Hs Hn Ht HP.
  eapply (synced_write sc db); eauto.
Qed.

Lemma run_op_synced sc o db fs ok db' fs' :
  synced db fs → temp_fresh sc fs (store db) →
  run_op sc o db fs = (ok, db', (fs', None)) →
  synced db' fs' ∧ store db' = store db.
Proof.
  intros Hs Ht.
  destruct o as [d l|d l|d]; simpl;
    unfold IncomingSecLevel, OutgoingSecLevel, Clear.
  1, 2: pose proof (synced_keep sc db fs fs' d Hs Ht) as HK;
    pose proof (entry_name _ _ d Hs) as Hn;
    destruct (entry db d) as [e ex]; simpl in *;
    repeat case_match; intros [= <- <- HP];
    (split; [|done]); try (apply HK; congruence);
    (eapply synced_write_twice; eauto).
  destruct (info db !! d) as [e|] eqn:E; intros [= <- <- HP].
  - split; [|done]. eapply (synced_write sc db); eauto.
    simpl. by eapply synced_name.
  - by subst.
Qed.

(** All the operations of a sequence have reached the disk. *)
Fixpoint written_through (ops : list (syscalls * op)) (db : DB) (fs : FS) :
  Prop :=
  match ops with
  | [] => True
  | (sc, o) :: ops =>
    temp_fresh sc fs (store db) ∧
    let '(_, db', (fs', we)) := run_op sc o db fs in
    we = None ∧ written_through ops db' fs'
  end.

Lemma run_ops_synced ops db fs :
  synced db fs → written_through ops db fs →
  let '(_, db', fs') := run_ops ops db fs in
  synced db' fs' ∧ store db' = store db.
Proof.
  revert db fs. induction ops as [|[sc o] ops IH]; intros db fs Hs Hw; simpl;
    [done|]. destruct Hw as [Ht Hw].
  destruct (run_op sc o db fs) as [[ok db1] [fs1 we]] eqn:E.
  destruct Hw as [-> Hw].
  destruct (run_op_synced _ _ _ _ _ _ _ Hs Ht E) as [Hs1 Hst].
  specialize (IH db1 fs1 Hs1 Hw).
  destruct (run_ops ops db1 fs1) as [[oks db2] fs2].
  destruct IH as [? ->]. done.
Qed.

Lemma load_ids_synced db fs ids acc :
  synced db fs → (∀ id, id ∈ ids → is_Some (info db !! id)) →
  ∃ i, load_ids (λ _, None) fs (store db) ids acc = (i, None) ∧
    ∀ id, i !! id = if bool_decide (id ∈ ids) then info db !! id
                    else acc !! id.
Proof.
  intros Hs. revert acc. induction ids as [|id0 ids IH]; intros acc Hids; simpl.
  - eauto.
  - rewrite (synced_get _ _ Hs).
    destruct (Hids id0) as [d Hd]; [set_solver|]. rewrite Hd. simpl.
    rewrite (synced_name _ _ Hs _ _ Hd).
    destruct (IH (<[id0 := d]> acc)) as (i & Hi & Hl); [set_solver|].
    exists i. split; [done|]. intros id. rewrite Hl.
    destruct (decide (id = id0)) as [->|Hne].
    + rewrite lookup_insert_eq, Hd.
      rewrite (bool_decide_eq_true_2 (id0 ∈ id0 :: ids)) by set_solver.
      by case_bool_decide.
    + rewrite lookup_insert_ne by done.
      by rewrite (bool_decide_ext (id ∈ id0 :: ids) (id ∈ ids)) by set_solver.
Qed.

Lemma Reload_synced db fs :
  synced db fs → Reload (λ _, None) None fs db = (db, None).
Proof.
  intros Hs. unfold Reload, ListIDs.
  set (ids := omap id_of_entry _).
  destruct (load_ids_synced db fs ids ∅ Hs) as (i & -> & Hl).
  { intros id Hin. by eapply (synced_ids _ _ Hs). }
  assert (i = info db) as ->; [|by destruct db].
  apply map_eq. intros id. rewrite Hl. case_bool_decide as Hin; [done|].
  rewrite lookup_empty. destruct (info db !! id) as [d|] eqn:E; [|done].
  destruct Hin. eapply (ListIDs_complete fs (store db)); [done|].
  pose proof (synced_get _ _ Hs id) as Hg. rewrite E in Hg.
  unfold Get, ReadTextMessage, ReadFile in Hg.
  by destruct (fs !! idToFname (store db) id).
Qed.

Lemma synced_empty dir : synced (mkDB (mkStore dir) ∅) ∅.
Proof.
  split; simpl; [done| |done].
  intros id ids [= <-]. rewrite list_elem_of_omap.
  intros (name & Hn & _). apply elem_of_ReadDir in Hn as [[? Hx] _].
  by rewrite lookup_empty in Hx.
Qed.

(** The database survives a restart: starting from an empty directory,
    after any sequence of checks and clears whose writes reached the disk,
    opening the directory again gives a database with the same contents, so
    that no level is forgotten. *)
Theorem restart_keeps_levels dir ops :
  written_through ops (mkDB (mkStore dir) ∅) ∅ →
  let '(_, db, fs) := run_ops ops (mkDB (mkStore dir) ∅) ∅ in
  New (λ _, None) None None fs dir = Ok db.
Proof.
  intros Hw. pose proof (run_ops_synced _ _ _ (synced_empty dir) Hw) as HR.
  destruct (run_ops ops _ _) as [[oks db] fs]. destruct HR as [Hs Hst].
  unfold New, NewStore. simpl.
  assert (Reload (λ _, None) None fs (mkDB (mkStore dir) ∅) =
          Reload (λ _, None) None fs db) as ->.
  { unfold Reload. rewrite Hst. simpl. unfold set_info. simpl. by rewrite Hst. }
  by rewrite Reload_synced.
Qed.

End DomainInfo.

(** ** Examples *)

#[export] Instance Domain_countable : Countable Domain.
Proof.
  refine (inj_countable' (λ d, (Name d, IncomingLevel d, OutgoingLevel d))
            (λ '(n, i, o), mkDomain n i o) _).
  by intros [].
Defined.

Import CountableText.

(** One domain reaches TLS; the disk is full for the last operation. *)
Definition example_ops : list (syscalls * op) :=
  [(working_calls "/d/.t", OpOutgoing "x" TLS_SECURE);
   (working_calls "/d/.t", OpClear "y");
   (full_disk "/d/.t" 1, OpIncoming "x" PLAIN)].

Lemma no_downgrade_witness :
  let '(ok, db1, (fs1, _)) := IncomingSecLevel (working_calls "/d/.t") ∅
    (mkDB (mkStore "/d") ∅) "x" TLS_CLIENT in
  let '(oks, db2, fs2) := run_ops example_ops db1 fs1 in
  let '(ok2, _, _) := IncomingSecLevel (working_calls "/d/.t") fs2 db2 "x" PLAIN in
  ok = true ∧ oks = [true; false; false] ∧ ok2 = false.
Proof.
  pose proof (no_downgrade (working_calls "/d/.t") (working_calls "/d/.t")
    example_ops (mkDB (mkStore "/d") ∅) ∅ "x" TLS_CLIENT PLAIN) as HT.
  destruct (IncomingSecLevel _ _ _ _ _) as [[ok db1] [fs1 e1]] eqn:E1.
  destruct (run_ops _ _ _) as [[oks db2] fs2] eqn:E2.
  destruct (IncomingSecLevel _ fs2 _ _ _) as [[ok2 db3] w] eqn:E3.
  assert (Hok : ok = true)
    by (apply (f_equal (λ x, x.1.1)) in E1; symmetry; exact E1).
  split; [exact Hok|]. split; [|apply HT; [|reflexivity|exact Hok]].
  - apply (f_equal (λ x, x.1.2)) in E1 as Ed.
    apply (f_equal (λ x, x.2.1)) in E1 as Ef. simpl in Ed, Ef. subst db1 fs1.
    apply (f_equal (λ x, x.1.1)) in E2. symmetry. exact E2.
  - repeat constructor.
Defined.

Lemma restart_keeps_levels_witness :
  let ops := take 2 example_ops in
  let '(_, db, fs) := run_ops ops (mkDB (mkStore "/d") ∅) ∅ in
  out_level db "x" = TLS_SECURE ∧ New (λ _, None) None None fs "/d" = Ok db.
Proof.
  intros ops. pose proof (restart_keeps_levels "/d" ops) as HT.
  destruct (run_ops ops _ _) as [[oks db] fs] eqn:E. split.
  - apply (f_equal (λ x, x.1.2)) in E. simpl in E. subst db. reflexivity.
  - apply HT. simpl. split; [|split; [reflexivity|]].
    { intros id. split; [reflexivity|]. unfold idToFname. discriminate. }
    split; [|split; [reflexivity|done]].
    intros id. split; [reflexivity|]. discriminate.
Defined.

End DomainInfo.
