(* ===== verification/Auth.v ===== *)
(** Authentication: packages [internal/auth] and [internal/userdb].

    The [Backend] interface of the source is a type class; the user database
    is an instance of [NoErrorBackend], wrapped the way the source does it. *)

From Stdlib Require Import Zify ZifyN.
From S2P Require Import Prelude GoStrings Envelope Store.
#[local] Open Scope go_scope.

(** ** encoding/base64 *)
Module Base64.

(** The standard alphabet. *)
Definition enc_digit (d : N) : ascii :=
  if N.ltb d 26 then ascii_of_N (65 + d)
  else if N.ltb d 52 then ascii_of_N (71 + d)
  else if N.ltb d 62 then ascii_of_N (d - 4)
  else if N.eqb d 62 then "+"%char else "/"%char.

Definition dec_digit (c : ascii) : option N :=
  let b := Utf8.bval c in
  if in_range 65 90 b then Some (b - 65)%N
  else if in_range 97 122 b then Some (b - 71)%N
  else if in_range 48 57 b then Some (b + 4)%N
  else if c == "+"%char then Some 62%N
  else if c == "/"%char then Some 63%N
  else None.

Definition PAD : ascii := "="%char.

(** [base64.StdEncoding.EncodeToString]. *)
Fixpoint EncodeToString (s : bytes) : bytes :=
  match s with
  | [] => []
  | [a] =>
    let v := (Utf8.bval a * 65536)%N in
    [enc_digit (v / 262144); enc_digit (v / 4096 mod 64); PAD; PAD]
  | [a; b] =>
    let v := (Utf8.bval a * 65536 + Utf8.bval b * 256)%N in
    [enc_digit (v / 262144); enc_digit (v / 4096 mod 64);
     enc_digit (v / 64 mod 64); PAD]
  | a :: b :: c :: s =>
    let v := (Utf8.bval a * 65536 + Utf8.bval b * 256 + Utf8.bval c)%N in
    enc_digit (v / 262144) :: enc_digit (v / 4096 mod 64) ::
    enc_digit (v / 64 mod 64) :: enc_digit (v mod 64) :: EncodeToString s
  end.

(** Groups of four; padding is only allowed in the last one, where the bits
    that do not fill a byte are ignored. *)
Fixpoint decode_groups (s : bytes) : option bytes :=
  match s with
  | [] => Some []
  | a :: b :: c :: d :: s' =>
    match dec_digit a, dec_digit b with
    | Some a, Some b =>
      if c == PAD then
        if (d == PAD) && (s' == [])
        then Some [ascii_of_N ((a * 64 + b) / 16)] else None
      else
        match dec_digit c with
        | None => None
        | Some c =>
          let v := ((a * 64 + b) * 64 + c)%N in
          if d == PAD then
            if s' == [] then Some [ascii_of_N (v / 1024); ascii_of_N (v / 4 mod 256)]
            else None
          else
            match dec_digit d with
            | None => None
            | Some d =>
              let v := (v * 64 + d)%N in
              r ← decode_groups s';
              Some (ascii_of_N (v / 65536) :: ascii_of_N (v / 256 mod 256) ::
                    ascii_of_N (v mod 256) :: r)
            end
        end
    | _, _ => None
    end
  | _ => None
  end.

(** [base64.StdEncoding.DecodeString] ignores line breaks. *)
Definition DecodeString (s : bytes) : option bytes :=
  decode_groups (filter (λ c, c ≠ CR ∧ c ≠ LF) s).

(** *** Lemmas *)

Lemma dec_enc_digit d : (d < 64)%N → dec_digit (enc_digit d) = Some d.
Proof.
  intros Hd. assert (Hall : forallb (λ n, dec_digit (enc_digit (N.of_nat n))
    == Some (N.of_nat n)) (seq 0 64) = true) by reflexivity.
  rewrite forallb_forall in Hall. specialize (Hall (N.to_nat d)).
  rewrite in_seq, N2Nat.id in Hall.
  apply bool_decide_eq_true_1 in Hall; [done|]. lia.
Qed.

Lemma enc_digit_plain d :
  enc_digit d ≠ PAD ∧ enc_digit d ≠ CR ∧ enc_digit d ≠ LF.
Proof.
  destruct (decide (d < 64)%N) as [Hd|Hd].
  - pose proof (dec_enc_digit d Hd) as E.
    repeat split; intros E'; rewrite E' in E; discriminate.
  - unfold enc_digit. repeat rewrite (proj2 (N.ltb_ge _ _)) by lia.
    rewrite (proj2 (N.eqb_neq _ _)) by lia. done.
Qed.

Lemma bval_lt c : (Utf8.bval c < 256)%N.
Proof. apply N_ascii_bounded. Qed.

Lemma ascii_of_bval c n : n = Utf8.bval c → ascii_of_N n = c.
Proof. intros ->. apply ascii_N_embedding. Qed.

Ltac Zify.zify_post_hook ::= Z.div_mod_to_equations.

(** The encoder splits 24 bits in digits of 6, the decoder in bytes. *)
Lemma digits_value v : (v < 16777216)%N →
  (((v / 262144 * 64 + v / 4096 mod 64) * 64 + v / 64 mod 64) * 64
     + v mod 64 = v)%N.
Proof. intros Hv. lia. Qed.

Ltac plain_digits :=
  repeat match goal with
  | |- context [bool_decide (enc_digit ?d = PAD)] =>
      rewrite (bool_decide_eq_false_2 (enc_digit d = PAD))
        by apply enc_digit_plain
  end.

Lemma decode_encode_groups s : decode_groups (EncodeToString s) = Some s.
Proof.
  induction s as [s IH] using (induction_ltof1 _ (@length ascii)).
  unfold ltof in IH. destruct s as [|a [|b [|c s]]]; [done|..];
    simpl; pose proof (bval_lt a).
  - rewrite !dec_enc_digit by lia. do 2 f_equal. apply ascii_of_bval. lia.
  - pose proof (bval_lt b). rewrite !dec_enc_digit by lia. plain_digits.
    do 2 f_equal; [|f_equal]; apply ascii_of_bval; lia.
  - pose proof (bval_lt b). pose proof (bval_lt c).
    rewrite !dec_enc_digit by lia. plain_digits.
    rewrite digits_value by lia. rewrite IH by (simpl; lia). simpl.
    do 2 f_equal; [|f_equal; [|f_equal]]; apply ascii_of_bval; lia.
Qed.

Lemma EncodeToString_no_break s :
  Forall (λ c, c ≠ CR ∧ c ≠ LF) (EncodeToString s).
Proof.
  induction s as [s IH] using (induction_ltof1 _ (@length ascii)).
  unfold ltof in IH. destruct s as [|a [|b [|c s]]]; simpl;
    repeat first [apply Forall_nil_2 | apply Forall_cons_2];
    try apply enc_digit_plain; try done.
  apply IH. simpl. lia.
Qed.

Ltac Zify.zify_post_hook ::= idtac.

Lemma filter_all {A} (P : A → Prop) `{∀ x, Decision (P x)} l :
  Forall P l → filter P l = l.
Proof.
  induction 1 as [|x l Hx _ IH]; [done|]. by rewrite filter_cons_True, IH.
Qed.

Lemma DecodeString_EncodeToString s : DecodeString (EncodeToString s) = Some s.
Proof.
  unfold DecodeString. rewrite filter_all by apply EncodeToString_no_break.
  apply decode_encode_groups.
Qed.

End Base64.

(** ** internal/auth *)
Module Auth.
Import Safeio Protoio.

Inductive error :=
| ErrBackend (msg : bytes)
| ErrRead (err : read_error).

#[export] Instance auth_error_eq_dec : EqDecision error.
Proof. solve_decision. Defined.

(** The disk as a backend sees it when it reloads. *)
Record disk := mkDisk {
  disk_files : FS;
  disk_fault : bytes → option bytes;
}.

(** [Backend].  [Authenticate] may panic: no result. *)
Class Backend (B : Type) := {
  be_Authenticate : B → bytes → bytes → option (bool * option error);
  be_Exists : B → bytes → bool * option error;
  be_Reload : disk → B → B * option error;
}.

(** [NoErrorBackend]. *)
Class NoErrorBackend (B : Type) := {
  ne_Authenticate : B → bytes → bytes → option bool;
  ne_Exists : B → bytes → bool;
  ne_Reload : disk → B → B * option error;
}.

Record wrapNoErrorBackend (B : Type) := WrapNoErrorBackend { be : B }.
Arguments WrapNoErrorBackend {B} be.
Arguments be {B} w.

#[export] Instance wrap_backend {B} `{NoErrorBackend B} :
  Backend (wrapNoErrorBackend B) :=
  {| be_Authenticate w user password :=
       ok ← ne_Authenticate (be w) user password; Some (ok, None);
     be_Exists w user := (ne_Exists (be w) user, None);
     be_Reload d w :=
       let '(b, err) := ne_Reload d (be w) in (WrapNoErrorBackend b, err) |}.

(** *** Authenticator *)

Record Authenticator (B : Type) := mkAuthenticator {
  backends : gmap bytes B;
  Fallback : option B;
  AuthDuration : Z;
}.
Arguments mkAuthenticator {B} backends Fallback AuthDuration.
Arguments backends {B} a.
Arguments Fallback {B} a.
Arguments AuthDuration {B} a.

Definition Millisecond : Z := 1000000.

Definition NewAuthenticator (B : Type) : Authenticator B :=
  mkAuthenticator ∅ None (100 * Millisecond)%Z.

Definition Register {B} (a : Authenticator B) (domain : bytes) (be : B) :
  Authenticator B :=
  mkAuthenticator (<[domain := be]> (backends a)) (Fallback a) (AuthDuration a).

(** The deferred function of [Authenticate]: how long it sleeps so that the
    whole call lasts [AuthDuration] and up to 20% more of what remained.
    [rnd n] is [rand.Int64N(n)], which panics when [n] is not positive.  The
    product with the floating point constant 0.2, truncated, is a division by
    5 (for any delay under 2^50 ns, 13 days). *)
Definition auth_sleep (duration elapsed : Z) (rnd : Z → Z) : option Z :=
  let delay := (duration - elapsed)%Z in
  if (0 <? delay)%Z then
    let maxDelta := (delay / 5)%Z in
    if (maxDelta <=? 0)%Z then None else Some (delay + rnd maxDelta)%Z
  else Some 0%Z.

(** The identity given to the fallback backend includes the domain. *)
Definition fallback_id (user domain : bytes) : bytes :=
  if domain == "" then user else user ++ "@" ++ domain.

Section Authenticator.
Context {B : Type} `{Backend B}.

(** The body of [Authenticate]; the sleep is [auth_sleep]. *)
Definition Authenticate (a : Authenticator B) (user domain password : bytes) :
  option (bool * option error) :=
  let fallback :=
    match Fallback a with
    | Some be => be_Authenticate be (fallback_id user domain) password
    | None => Some (false, None)
    end in
  match backends a !! domain with
  | None => fallback
  | Some be =>
    '(ok, err) ← be_Authenticate be user password;
    if (ok : bool) || bool_decide (err ≠ None) then Some (ok, err)
    else fallback
  end.

Definition Exists (a : Authenticator B) (user domain : bytes) :
  bool * option error :=
  let fallback :=
    match Fallback a with
    | Some be => be_Exists be (fallback_id user domain)
    | None => (false, None)
    end in
  match backends a !! domain with
  | None => fallback
  | Some be =>
    let '(ok, err) := be_Exists be user in
    if ok || bool_decide (err ≠ None) then (ok, err) else fallback
  end.

(** [Reload] reloads every backend, also after errors, which it collects. *)
Definition reload_one (d : disk) (be : B) : B * option error := be_Reload d be.

Definition Reload (d : disk) (a : Authenticator B) :
  Authenticator B * list (option bytes * error) :=
  let reloaded := reload_one d <$> backends a in
  let fb := reload_one d <$> Fallback a in
  let msgs :=
    omap (λ kv, (λ e, (Some kv.1, e)) <$> kv.2.2) (map_to_list reloaded)
    ++ match fb with
       | Some (_, Some e) => [(None, e)]
       | _ => []
       end in
  (mkAuthenticator (fst <$> reloaded) (fst <$> fb) (AuthDuration a), msgs).

(** A login succeeds only when some backend vouches for it: the one
    registered for the domain, asked about the user alone, or the fallback,
    asked about the whole identity; the fallback is not consulted when the
    domain's backend fails, so an error never turns into a success. *)
Theorem Authenticate_sound a user domain password err :
  Authenticate a user domain password = Some (true, err) →
  (∃ be, backends a !! domain = Some be ∧
         be_Authenticate be user password = Some (true, err)) ∨
  (∃ be, Fallback a = Some be ∧
         be_Authenticate be (fallback_id user domain) password
           = Some (true, err) ∧
         (∀ be', backends a !! domain = Some be' →
            be_Authenticate be' user password = Some (false, None))).
Proof.
  unfold Authenticate. destruct (backends a !! domain) as [be|] eqn:Eb.
  - destruct (be_Authenticate be user password) as [[ok e]|] eqn:Ea;
      simpl; [|done].
    destruct ok; simpl; [intros [= <-]; left; eauto|].
    destruct e as [e|]; simpl; [done|].
    destruct (Fallback a) as [fb|] eqn:Ef; [|done]. intros HF. right.
    exists fb. split; [done|]. split; [done|]. congruence.
  - destruct (Fallback a) as [fb|] eqn:Ef; [|done]. intros HF. right.
    exists fb. split; [done|]. split; [done|]. congruence.
Qed.

(** A user exists when a backend knows it. *)
Lemma Exists_sound a user domain err :
  Exists a user domain = (true, err) →
  (∃ be, backends a !! domain = Some be ∧ be_Exists be user = (true, err)) ∨
  (∃ be, Fallback a = Some be ∧
         be_Exists be (fallback_id user domain) = (true, err)).
Proof.
  unfold Exists. destruct (backends a !! domain) as [be|] eqn:Eb.
  - destruct (be_Exists be user) as [ok e] eqn:Ea.
    destruct ok; simpl; [intros [= <-]; left; eauto|].
    destruct e as [e|]; simpl; [done|].
    destruct (Fallback a) as [fb|] eqn:Ef; [|done]. right; eauto.
  - destruct (Fallback a) as [fb|] eqn:Ef; [|done]. right; eauto.
Qed.

End Authenticator.

(** With a delay of 1 to 4 nanoseconds left, the random delta has an empty
    range and the call panics. *)
Lemma auth_sleep_panics duration elapsed rnd :
  auth_sleep duration elapsed rnd = None ↔ (0 < duration - elapsed < 5)%Z.
Proof.
  unfold auth_sleep. destruct (Z.ltb_spec 0 (duration - elapsed));
    [|split; [done|lia]].
  destruct (Z.leb_spec ((duration - elapsed) / 5) 0) as [Hd|Hd].
  - split; [|done]. intros _. split; [lia|].
    apply Z.nle_gt. intros H5. apply Z.div_le_mono with (c := 5%Z) in H5; [|lia].
    simpl in H5. change (5 / 5)%Z with 1%Z in H5. lia.
  - split; [done|]. intros [_ H5]. rewrite Z.div_small in Hd; lia.
Qed.

(** *** Decoding the PLAIN response *)

Inductive decode_error :=
| ErrBase64
| ErrPieces
| ErrIDsDoNotMatch
| ErrEmptyIdentity
| ErrNormalize (err : Normalize.error).

(** [bytes.SplitN(buf, []byte{0}, 3)]. *)
Definition SplitN3 (s sep : bytes) : list bytes :=
  match Cut s sep with
  | None => [s]
  | Some (a, r) =>
    match Cut r sep with
    | None => [a; r]
    | Some (b, c) => [a; b; c]
    end
  end.

Section Decode.
Context `{Unicode, Precis}.

Definition DecodeResponse (response : bytes) :
  res decode_error (bytes * bytes * bytes) :=
  match Base64.DecodeString response with
  | None => Err ErrBase64
  | Some buf =>
    match SplitN3 buf [NUL] with
    | [z; c; passwd] =>
      if (z != "") && (c != "") && (z != c) then Err ErrIDsDoNotMatch
      else
        let identity := if z != "" then z else "" in
        let identity := if c != "" then c else identity in
        if identity == "" then Err ErrEmptyIdentity
        else
          let '(user, domain) :=
            match SplitN2 identity "@" with
            | [u; d] => (u, d)
            | _ => (identity, "")
            end in
          match Normalize.User user with
          | (_, Some err) => Err (ErrNormalize err)
          | (user, None) =>
            match Normalize.Domain domain with
            | (_, Some err) => Err (ErrNormalize err)
            | (domain, None) => Ok (user, domain, passwd)
            end
          end
    | _ => Err ErrPieces
    end
  end.

Lemma SplitN3_pieces s z c p :
  SplitN3 s [NUL] = [z; c; p] ↔
    s = z ++ NUL :: c ++ NUL :: p ∧ (NUL ∉ z) ∧ (NUL ∉ c).
Proof.
  unfold SplitN3. split.
  - destruct (Cut s [NUL]) as [[a r]|] eqn:E1; [|done].
    apply Cut_byte_Some in E1 as [-> Ha].
    destruct (Cut r [NUL]) as [[b c']|] eqn:E2; [|done].
    apply Cut_byte_Some in E2 as [-> Hb]. by intros [= <- <- <-].
  - intros (-> & Hz & Hc). by rewrite !Cut_byte_app.
Qed.

(** The PLAIN response: decoding succeeds with [user], [domain] and
    [passwd] exactly when the response is base64 of two NUL-free identities
    and a password, separated by NULs, the identities equal or one of them
    empty, and [user] and [domain] are the normalized parts of the identity.
    The password is taken as it is, NULs included. *)
Theorem DecodeResponse_iff response user domain passwd :
  DecodeResponse response = Ok (user, domain, passwd) ↔
  ∃ z c id,
    Base64.DecodeString response = Some (z ++ NUL :: c ++ NUL :: passwd) ∧
    (NUL ∉ z) ∧ (NUL ∉ c) ∧ id ≠ [] ∧
    ((z = id ∧ c = id) ∨ (z = id ∧ c = []) ∨ (z = [] ∧ c = id)) ∧
    Normalize.User (Envelope.UserOf id) = (user, None) ∧
    Normalize.Domain (Envelope.DomainOf id) = (domain, None).
Proof.
  assert (HS : ∀ id : bytes, match SplitN2 id "@" with
    | [u; d] => (u, d) | _ => (id, "") end = Envelope.Split id) by done.
  unfold DecodeResponse. split.
  - destruct (Base64.DecodeString response) as [buf|] eqn:E64; [|done].
    destruct (SplitN3 buf [NUL]) as [|z [|c [|p [|]]]] eqn:ES; try done.
    apply SplitN3_pieces in ES as (-> & Hz & Hc).
    rewrite HS. unfold Envelope.UserOf, Envelope.DomainOf.
    destruct ((z != "") && (c != "") && (z != c)) eqn:Eids; [done|].
    set (id := if c != "" then c else if z != "" then z else "").
    destruct (bool_decide (id = [])) eqn:Hid; [done|].
    apply bool_decide_eq_false in Hid.
    destruct (Envelope.Split id) as [u d] eqn:Eid.
    destruct (Normalize.User u) as [u' [?|]] eqn:Eu; [done|].
    destruct (Normalize.Domain d) as [d' [?|]] eqn:Ed; [done|].
    intros [= <- <- <-]. exists z, c, id. rewrite Eid. simpl.
    repeat (split; [done|]). split; [|by split]. unfold id in *.
    destruct (decide (z = [])), (decide (c = [])), (decide (z = c));
      repeat case_bool_decide; simplify_eq; naive_solver.
  - intros (z & c & id & -> & Hz & Hc & Hid & Hids & Hu & Hd).
    rewrite (proj2 (SplitN3_pieces _ z c passwd)) by done. rewrite HS.
    unfold Envelope.UserOf, Envelope.DomainOf in Hu, Hd.
    assert (Hb : bool_decide (id = []) = false) by (by apply bool_decide_eq_false_2).
    assert (Hb' : bool_decide (id = id) = true) by (by apply bool_decide_eq_true_2).
    destruct Hids as [[-> ->]|[[-> ->]|[-> ->]]]; simpl;
      rewrite ?Hb, ?Hb'; simpl; rewrite ?Hb; simpl;
      destruct (Envelope.Split id) as [u d]; simpl in Hu, Hd; by rewrite Hu, Hd.
Qed.

(** What a client sends for PLAIN. *)
Definition plain_response (authzid id passwd : bytes) : bytes :=
  Base64.EncodeToString (authzid ++ NUL :: id ++ NUL :: passwd).

End Decode.

Lemma DecodeResponse_iff_witness :
  DecodeResponse (H := AsciiOnly.unicode) (H0 := AsciiOnly.precis)
    "AFVzZXJARG9tAHBhc3M=" = Ok ("user", "dom", "pass").
Proof.
  apply (DecodeResponse_iff (H := AsciiOnly.unicode) (H0 := AsciiOnly.precis)).
  exists [], "User@Dom", "User@Dom".
  split; [reflexivity|]. split; [by apply (bool_decide_eq_true_1 _)|].
  split; [by apply (bool_decide_eq_true_1 _)|]. split; [done|].
  split; [by right; right|]. by split.
Defined.

End Auth.

(** ** internal/userdb *)

(** golang.org/x/crypto/scrypt: the derived key, or none when the parameters
    are invalid. *)
Class ScryptKDF := {
  scrypt_Key : bytes → bytes → Z → Z → Z → Z → option bytes;
}.

Module UserDB.
Import Safeio Protoio.

(** *** Data *)

Record Scrypt := mkScrypt {
  LogN : Z;
  R : Z;
  P : Z;
  KeyLen : Z;
  Salt : bytes;
  Encrypted : bytes;
}.

(** The [oneof] of a password; it may be unset. *)
Inductive Scheme :=
| Password_Scrypt (s : Scrypt)
| Password_Plain (password : bytes)
| Password_Denied.

Abbreviation Password := (option Scheme).

#[export] Instance Scrypt_eq_dec : EqDecision Scrypt.
Proof. solve_decision. Defined.
#[export] Instance Scheme_eq_dec : EqDecision Scheme.
Proof. solve_decision. Defined.

Abbreviation ProtoDB := (gmap bytes Password).

Record DB := mkDB {
  fname : bytes;
  users : ProtoDB;
}.

Inductive error :=
| ErrInvalidUsername
| ErrSalt (msg : bytes)
| ErrScrypt.

Definition New (fname : bytes) : DB := mkDB fname ∅.

Section UserDB.
Context `{Unicode, Precis, ScryptKDF, ProtoText ProtoDB}.

(** *** Files *)

(** [partial] is what the text parser leaves in the message when it fails. *)
Definition Load (d : Auth.disk) (partial : ProtoDB) (fname : bytes) :
  DB * option read_error :=
  match ReadTextMessage (Auth.disk_fault d) (Auth.disk_files d) fname with
  | Ok m => (mkDB fname m, None)
  | Err NotExist => (New fname, None)
  | Err (ReadFailed e) => (New fname, Some (ReadFailed e))
  | Err (BadMessage e) => (mkDB fname partial, Some (BadMessage e))
  end.

Definition Reload (d : Auth.disk) (partial : ProtoDB) (db : DB) :
  DB * option read_error :=
  match Load d partial (fname db) with
  | (_, Some err) => (db, Some err)
  | (newdb, None) => (mkDB (fname db) (users newdb), None)
  end.

Definition Write (sc : syscalls) (fs : FS) (db : DB) : FS * option bytes :=
  WriteTextMessage sc fs (fname db) (users db) [].

(** *** Schemes *)

(** [1 << logN] on a Go [int] and a 64-bit shift count. *)
Definition shift_one (logN : Z) : Z :=
  if (logN <? 64)%Z then wrap64 (Z.shiftl 1 logN) else 0%Z.

Definition Plain_PasswordMatches (password plain : bytes) : bool :=
  plain == password.

(** It panics when the stored parameters are not valid. *)
Definition Scrypt_PasswordMatches (s : Scrypt) (plain : bytes) : option bool :=
  dk ← scrypt_Key plain (Salt s) (shift_one (LogN s)) (R s) (P s) (KeyLen s);
  Some (dk == Encrypted s).

Definition PasswordMatches (p : Password) (plain : bytes) : option bool :=
  match p with
  | None => Some false
  | Some (Password_Scrypt s) => Scrypt_PasswordMatches s plain
  | Some (Password_Plain password) => Some (Plain_PasswordMatches password plain)
  | Some Password_Denied => Some false
  end.

(** *** Operations *)

Definition Authenticate (db : DB) (name plainPassword : bytes) : option bool :=
  match users db !! name with
  | None => Some false
  | Some passwd => PasswordMatches passwd plainPassword
  end.

Definition valid_name (name : bytes) : bool :=
  match Normalize.User name with
  | (_, Some _) => false
  | (norm, None) => name == norm
  end.

(** [salt] is what [rand.Read] filled the 16 bytes with, or its error. *)
Definition AddUser (salt : res bytes bytes) (db : DB)
    (name plainPassword : bytes) : DB * option error :=
  if negb (valid_name name) then (db, Some ErrInvalidUsername)
  else
    match salt with
    | Err e => (db, Some (ErrSalt e))
    | Ok salt =>
      if length salt != 16 then (db, Some (ErrSalt []))
      else
        match scrypt_Key plainPassword salt (shift_one 14) 8 1 32 with
        | None => (db, Some ErrScrypt)
        | Some enc =>
          (mkDB (fname db)
             (<[name := Some (Password_Scrypt (mkScrypt 14 8 1 32 salt enc))]>
                (users db)), None)
        end
    end.

Definition AddDeniedUser (db : DB) (name : bytes) : DB * option error :=
  if negb (valid_name name) then (db, Some ErrInvalidUsername)
  else (mkDB (fname db) (<[name := Some Password_Denied]> (users db)), None).

Definition RemoveUser (db : DB) (name : bytes) : DB * bool :=
  (mkDB (fname db) (delete name (users db)),
   bool_decide (is_Some (users db !! name))).

Definition Exists (db : DB) (name : bytes) : bool :=
  bool_decide (is_Some (users db !! name)).

Definition Len (db : DB) : nat := size (users db).

(** The database is a backend that reports no errors. *)
#[export] Instance userdb_backend : Auth.NoErrorBackend DB :=
  {| Auth.ne_Authenticate := Authenticate;
     Auth.ne_Exists := Exists;
     Auth.ne_Reload d db :=
       let '(db, err) := Reload d ∅ db in (db, Auth.ErrRead <$> err) |}.

(** *** Properties *)

(** A user added with a password can log in with it, and a password logs
    in only if its derived key is the one that was stored; the other users
    are as before. *)
Theorem AddUser_Authenticate salt db name pw db' :
  AddUser salt db name pw = (db', None) →
  Authenticate db' name pw = Some true ∧
  (∀ pw', Authenticate db' name pw' = Some true →
     ∃ s key, salt = Ok s ∧ scrypt_Key pw s 16384 8 1 32 = Some key ∧
              scrypt_Key pw' s 16384 8 1 32 = Some key) ∧
  (∀ name' pw', name' ≠ name →
     Authenticate db' name' pw' = Authenticate db name' pw').
Proof.
  unfold AddUser. destruct (valid_name name); [|done]. simpl.
  destruct salt as [salt|]; [|done]. case_match; [done|].
  destruct (scrypt_Key pw salt _ 8 1 32) as [enc|] eqn:Ek; [|done].
  intros [= <-]. change (shift_one 14) with 16384%Z in Ek. repeat split.
  - unfold Authenticate; simpl. rewrite lookup_insert_eq. simpl.
    unfold Scrypt_PasswordMatches. simpl.
    change (shift_one 14) with 16384%Z. rewrite Ek. simpl.
    by rewrite bool_decide_eq_true_2.
  - intros pw'. unfold Authenticate; simpl. rewrite lookup_insert_eq. simpl.
    unfold Scrypt_PasswordMatches. simpl. change (shift_one 14) with 16384%Z.
    destruct (scrypt_Key pw' salt 16384 8 1 32) as [dk|] eqn:Ek'; simpl; [|done].
    intros [= Hd]. apply bool_decide_eq_true_1 in Hd as ->. eauto.
  - intros name' pw' Hne. unfold Authenticate; simpl.
    by rewrite lookup_insert_ne.
Qed.

(** A denied user exists, and no password logs it in. *)
Lemma AddDeniedUser_spec db name db' :
  AddDeniedUser db name = (db', None) →
  Exists db' name = true ∧ (∀ pw, Authenticate db' name pw = Some false).
Proof.
  unfold AddDeniedUser. destruct (valid_name name); [|done]. simpl.
  intros [= <-]. unfold Exists, Authenticate. simpl. rewrite lookup_insert_eq.
  split; [by apply bool_decide_eq_true_2|done].
Qed.

(** The database is written and loaded back unchanged, and a reload that
    fails leaves it as it was. *)
Theorem Write_Load `{!ProtoTextOk ProtoDB} sc fs db fs' fault partial :
  temp_ok sc fs (fname db) → Write sc fs db = (fs', None) →
  fault (fname db) = None →
  Load (Auth.mkDisk fs' fault) partial (fname db) = (db, None) ∧
  (∀ d' db' e, Reload d' partial db = (db', Some e) → db' = db).
Proof.
  intros Ht. unfold Write, WriteTextMessage.
  destruct (text_Marshal (users db)) as [out|] eqn:Em; [|done].
  destruct (WriteFile _ _ _ _ _) as [[tr fs1] err] eqn:E.
  intros [= <- ->] Hf. apply WriteFile_cases in E as [_ ->]; [|constructor|done].
  split.
  - unfold Load, ReadTextMessage, ReadFile. simpl.
    rewrite lookup_insert_eq, Hf. simpl. rewrite (text_roundtrip _ _ Em).
    by destruct db.
  - intros d' db' e. unfold Reload. destruct (Load _ _ _) as [db1 [err|]];
      congruence.
Qed.

End UserDB.

(** *** Examples *)

Module Example.

(** A key derivation that is good for examples only. *)
#[export] Instance kdf : ScryptKDF :=
  {| scrypt_Key pw salt n _ _ _ :=
       if (1 <? n)%Z then Some (pw ++ salt) else None |}.

Definition salt : bytes := "0123456789abcdef".

End Example.

Import Example AsciiOnly.

Lemma AddUser_Authenticate_witness :
  let r := AddUser (Ok salt) (New "/users") "ana" "secret" in
  r.2 = None ∧ Authenticate r.1 "ana" "secret" = Some true ∧
  Authenticate r.1 "ana" "other" = Some false.
Proof.
  intros r. assert (Hr : r.2 = None) by reflexivity. split; [exact Hr|].
  split; [|reflexivity].
  apply (AddUser_Authenticate (Ok salt) (New "/users") "ana" "secret" r.1
           (pair_snd r None Hr)).
Defined.

#[export] Instance Scheme_countable : Countable Scheme.
Proof.
  refine (inj_countable'
    (λ s, match s with
          | Password_Scrypt s =>
            inl (LogN s, R s, P s, KeyLen s, Salt s, Encrypted s)
          | Password_Plain p => inr (Some p)
          | Password_Denied => inr None
          end)
    (λ x, match x with
          | inl (n, r, p, k, s, e) => Password_Scrypt (mkScrypt n r p k s e)
          | inr (Some p) => Password_Plain p
          | inr None => Password_Denied
          end) _).
  by intros [[]|p|].
Defined.

Import CountableText.

Lemma Write_Load_witness :
  let db := (AddUser (Ok salt) (New "/u") "ana" "secret").1 in
  let w := Write (working_calls "/.u") ∅ db in
  w.2 = None ∧
  Load (Auth.mkDisk w.1 (λ _, None)) ∅ "/u" = (db, None).
Proof.
  intros db w. assert (Hw : w.2 = None) by reflexivity. split; [exact Hw|].
  apply (Write_Load (working_calls "/.u") ∅ db w.1 (λ _, None) ∅);
    [split; [reflexivity|discriminate]|exact (pair_snd w None Hw)|reflexivity].
Defined.

#[local] Existing Instance Auth.wrap_backend.

(** An authenticator with this database for one domain. *)
Definition example_authr : Auth.Authenticator (Auth.wrapNoErrorBackend DB) :=
  Auth.Register (Auth.NewAuthenticator _) "dom" (Auth.WrapNoErrorBackend
    (AddUser (Ok salt) (New "/u") "ana" "secret").1).

Lemma Authenticate_sound_witness :
  Auth.Authenticate example_authr "ana" "dom" "other" = Some (false, None) ∧
  Auth.Authenticate example_authr "ana" "dom" "secret" = Some (true, None) ∧
  ∃ be, Auth.backends example_authr !! ("dom" : bytes) = Some be ∧
        Auth.be_Authenticate be "ana" "secret" = Some (true, None).
Proof.
  assert (E : Auth.Authenticate example_authr "ana" "dom" "secret"
    = Some (true, None)) by reflexivity.
  split; [reflexivity|]. split; [exact E|].
  destruct (Auth.Authenticate_sound _ _ _ _ _ E) as [HB|(be & HF & _)]; [exact HB|discriminate HF].
Defined.

End UserDB.
