(* ===== verification/Haproxy.v ===== *)
(** Network addresses, and the HAProxy handshake: package
    [internal/haproxy]. *)

From S2P Require Import Prelude GoStrings DotReader.
#[local] Open Scope go_scope.

(** [net.ParseIP], with the address in the form [IP.String] gives it. *)
Class NetIP := { net_ParseIP : bytes → option bytes }.

(** [net.Addr]: a [*net.TCPAddr], whose IP is kept in the form that
    [IP.String] gives it, or anything else, with its [String]. *)
Inductive Addr :=
| TCPAddr (ip : bytes) (port : Z)
| OtherAddr (s : bytes).

(** [net.JoinHostPort] puts brackets around IPv6 addresses. *)
Definition JoinHostPort (host port : bytes) : bytes :=
  if Contains host ":" then "[" ++ host ++ "]:" ++ port
  else host ++ ":" ++ port.

Definition Addr_String (a : Addr) : bytes :=
  match a with
  | TCPAddr ip port => JoinHostPort ip (Itoa port)
  | OtherAddr s => s
  end.

Module Haproxy.
Import DotReader.

Inductive error :=
| errInvalidProtoID
| errUnkProtocol
| errInvalidFields
| errInvalidSrcIP
| errInvalidDstIP
| errInvalidSrcPort
| errInvalidDstPort
| ErrReadLine (e : stream_end).

(** [bufio.Reader.ReadString('\n')]. *)
Definition ReadString (r : reader) : res stream_end bytes * reader :=
  match Cut (pending r) [LF] with
  | Some (l, rest) => (Ok (l ++ [LF]), mkReader rest (ending r))
  | None => (Err (ending r), mkReader [] (ending r))
  end.

Section Haproxy.
Context `{NetIP}.

Definition parse_fields (fields : list bytes) : res error (Addr * Addr) :=
  match fields with
  | f0 :: f1 :: rest =>
    if f0 != "PROXY" then Err errInvalidProtoID
    else if negb ((f1 == "TCP4") || (f1 == "TCP6")) then Err errUnkProtocol
    else
      match rest with
      | [f2; f3; f4; f5] =>
        match net_ParseIP f2 with
        | None => Err errInvalidSrcIP
        | Some srcIP =>
          match net_ParseIP f3 with
          | None => Err errInvalidDstIP
          | Some dstIP =>
            match ParseUint f4 16 with
            | Err _ => Err errInvalidSrcPort
            | Ok srcPort =>
              match ParseUint f5 16 with
              | Err _ => Err errInvalidDstPort
              | Ok dstPort =>
                Ok (TCPAddr srcIP (Z.of_N srcPort), TCPAddr dstIP (Z.of_N dstPort))
              end
            end
          end
        end
      | _ => Err errInvalidFields
      end
  | _ => Err errInvalidProtoID
  end.

Definition Handshake (r : reader) : res error (Addr * Addr) * reader :=
  match ReadString r with
  | (Err e, r) => (Err (ErrReadLine e), r)
  | (Ok line, r) => (parse_fields (Fields line), r)
  end.

(** A successful handshake gives TCP addresses with 16-bit ports. *)
Lemma parse_fields_ports fields src dst :
  parse_fields fields = Ok (src, dst) →
  ∃ sip sport dip dport,
    src = TCPAddr sip sport ∧ dst = TCPAddr dip dport ∧
    (0 ≤ sport < 65536)%Z ∧ (0 ≤ dport < 65536)%Z.
Proof.
  unfold parse_fields.
  destruct fields as [|f0 [|f1 rest]]; [done..|].
  do 2 (case_match; [done|]).
  destruct rest as [|f2 [|f3 [|f4 [|f5 [|]]]]]; try done.
  destruct (net_ParseIP f2) as [sip|]; [|done].
  destruct (net_ParseIP f3) as [dip|]; [|done].
  destruct (ParseUint f4 16) as [sp|] eqn:Es; [|done].
  destruct (ParseUint f5 16) as [dp|] eqn:Ed; [|done].
  intros [= <- <-]. apply ParseUint_bound in Es, Ed.
  change (2 ^ 16)%N with 65536%N in *.
  exists sip, (Z.of_N sp), dip, (Z.of_N dp). repeat split; lia.
Qed.

(** The handshake reads exactly one line: whatever its outcome, what is
    left in the reader is what follows the first newline, and on success the
    client's address is a TCP address with a 16-bit port. *)
Theorem Handshake_one_line l rest fin :
  LF ∉ l →
  let '(r, rd) := Handshake (mkReader (l ++ LF :: rest) fin) in
  rd = mkReader rest fin ∧ r = parse_fields (Fields (l ++ [LF])) ∧
  (∀ src dst, r = Ok (src, dst) →
     ∃ ip port, src = TCPAddr ip port ∧ (0 ≤ port < 65536)%Z).
Proof.
  intros Hl. unfold Handshake, ReadString. simpl.
  rewrite Cut_byte_app by done. split; [done|]. split; [done|].
  intros src dst E.
  apply parse_fields_ports in E as (sip & sport & dip & dport & -> & _ & ? & _).
  eauto.
Qed.

End Haproxy.

(** Addresses are kept as they are written. *)
Definition any_ip : NetIP := {| net_ParseIP s := Some s |}.

Lemma Handshake_one_line_witness :
  let l := "PROXY TCP4 1.1.1.1 2.2.2.2 333 4444" ++ [CR] in
  let '(r, rd) := Handshake (H := any_ip) (mkReader (l ++ LF :: "EHLO x") EndEOF) in
  r = Ok (TCPAddr "1.1.1.1" 333, TCPAddr "2.2.2.2" 4444) ∧
  rd = mkReader "EHLO x" EndEOF.
Proof.
  intros l. pose proof (Handshake_one_line (H := any_ip) l "EHLO x" EndEOF) as HT.
  destruct (Handshake _) as [r rd] eqn:E.
  destruct HT as (Hrd & Hr & _).
  - by apply (bool_decide_eq_true_1 _).
  - split; [|exact Hrd]. rewrite Hr. reflexivity.
Defined.

End Haproxy.
