(* ===== verification/Conn.v ===== *)
(** The SMTP connection handler: [internal/smtpsrv/conn.go].

    One definition per method of [Conn], the command loop of [Handle]
    included.  The connection's collaborators are the models of the other
    packages (aliases, authentication, domain information, DATA reader) or,
    for the queue and DKIM, the interfaces [MailQueue] and [Dkim] below,
    which their models implement.  The operating system, the network and the
    third-party libraries answer through a record [env] per command. *)

From S2P Require Import Prelude GoStrings Envelope DotReader Aliases Store.
From S2P Require Import DomainInfo Auth Haproxy.
#[local] Open Scope go_scope.

(** ** Interfaces *)

(** What the connection needs of the queue: [Put] of an envelope. *)
Class MailQueue (Q : Type) := {
  q_Put : Q → bytes → list bytes → bytes → Q * res bytes bytes;
}.

(** What it needs of package [dkim].  The number stands for the moment: the
    state of DNS for a verification, the clock for a signature.  A
    verification may panic, and gives a result or an error. *)
Class Dkim (Signer VerifyResult : Type) := {
  dkim_Sign : nat → Signer → bytes → res bytes bytes;
  dkim_VerifyMessage : nat → bytes → option (res bytes VerifyResult);
  dkim_AuthenticationResults : VerifyResult → bytes;
}.

(** ** internal/tlsconst *)
Module TlsConst.

Definition VersionName (v : N) : bytes :=
  if N.eqb v 768 then "SSL-3.0"
  else if N.eqb v 769 then "TLS-1.0"
  else if N.eqb v 770 then "TLS-1.1"
  else if N.eqb v 771 then "TLS-1.2"
  else if N.eqb v 772 then "TLS-1.3"
  else "TLS-0x" ++ hex_digits 4 v.

(** The table of names is generated from IANA's assignments. *)
Definition CipherSuiteName (cipherSuiteName : gmap N bytes) (s : N) : bytes :=
  match cipherSuiteName !! s with
  | Some name => name
  | None => "TLS_UNKNOWN_CIPHER_SUITE-0x" ++ hex_digits 4 s
  end.

End TlsConst.

(** ** Output *)

(** A [bufio.Writer] over the connection: what was flushed to it, how many
    more flushes will work ([None]: all), and the error of one that did not,
    which later writes report. *)
Record writer := mkWriter {
  sent : bytes;
  alive : option nat;
  broken : option bytes;
}.

(** A write followed by a flush, as all the writes here are.  The error of
    the flush itself is not looked at. *)
Definition write_flush (w : writer) (b : bytes) : writer * option bytes :=
  match broken w with
  | Some e => (w, Some e)
  | None =>
    (match alive w with
     | None => mkWriter (sent w ++ b) None None
     | Some (S n) => mkWriter (sent w ++ b) (Some n) None
     | Some 0 => mkWriter (sent w) (Some 0) (Some "write: broken pipe")
     end, None)
  end.

(** The text of a multi-line response: all the lines up to the last but two
    take a dash after the code, the next one a space. *)
Fixpoint response_lines (code : Z) (lines : list bytes) : bytes :=
  match lines with
  | [] => []
  | [l] => Itoa code ++ " " ++ l ++ CRLF
  | [l; _] => Itoa code ++ " " ++ l ++ CRLF
  | l :: ls => Itoa code ++ "-" ++ l ++ CRLF ++ response_lines code ls
  end.

Definition writeResponse_text (code : Z) (msg : bytes) : bytes :=
  response_lines code (Split msg [LF]).

(** ** Data *)
Module Smtpsrv.
Import DotReader.

Record SocketMode := mkSocketMode {
  IsSubmission : bool;
  TLS : bool;
}.

Definition SocketMode_String (mode : SocketMode) : bytes :=
  let s := if IsSubmission mode then "submission" else "SMTP" in
  if TLS mode then s ++ "+TLS" else s.

Definition ModeSMTP : SocketMode := mkSocketMode false false.
Definition ModeSubmission : SocketMode := mkSocketMode true false.
Definition ModeSubmissionTLS : SocketMode := mkSocketMode true true.

(** The part of [tls.ConnectionState] that is used. *)
Record ConnectionState := mkConnectionState {
  ServerName : bytes;
  CipherSuite : N;
  Version : N;
}.

(** How a program that was run ended: its output, and for a failure its exit
    status, if it has one. *)
Inductive run_result :=
| RunOk (out : bytes)
| RunFail (out : bytes) (status : option Z).

(** What the outside answers while one command is handled. *)
Record env := mkEnv {
  now : Z;
  rnd : nat;
  (** [time.Now().Format(time.RFC1123Z)] *)
  date : bytes;
  (** Indexes the answers of the interface [Dkim]. *)
  moment : nat;
  (** [spf.CheckHostWithSender]: IP, domain, sender; result and error. *)
  spf_CheckHostWithSender : bytes → bytes → bytes → bytes * option bytes;
  (** The disk, for the domain information database. *)
  calls : Safeio.syscalls;
  getenv : bytes → bytes;
  (** [os.Stat] of the post-data hook says that it does not exist. *)
  hook_missing : bytes → bool;
  (** Running it, with its standard input and environment. *)
  hook_exec : bytes → bytes → list bytes → run_result;
}.

(** The wording of errors of other packages that responses quote. *)
Class ErrorText := {
  scan_error_text : scan_error → bytes;
  decode_error_text : Auth.decode_error → bytes;
  cipherSuiteName : gmap N bytes;
}.

(** Results of [spf]: strings, the empty one when there was no check. *)
Definition spf_Pass : bytes := "pass".
Definition spf_Fail : bytes := "fail".

Section Conn.
Context `{Unicode, Precis, NetMail, NetIP, AliasWorld, ErrorText}.
Context `{ProtoText DomainInfo.Domain}.
Context {B : Type} `{Auth.Backend B}.
Context {Q : Type} `{MailQueue Q}.
Context {Signer VerifyResult : Type} `{Dkim Signer VerifyResult}.

(** What a connection takes from the server when it is created and does not
    change. *)
Record Config := mkConfig {
  maxDataSize : Z;
  postDataHook : bytes;
  mode : SocketMode;
  authr : Auth.Authenticator B;
  localDomains : option StringSet.String;
  aliasesR : Aliases.Resolver;
  dkimSigners : gmap bytes (list Signer);
  deadline : Z;
  haproxyEnabled : bool;
  maxReceivedHeaders : nat;
  disableSPFForTesting : bool;
}.

Record Conn := mkConn {
  cfg : Config;
  hostname : bytes;
  remoteAddr : Addr;
  tlsConnState : option ConnectionState;
  rd : reader;
  wr : writer;
  (** The TLS handshakes to come: each fails or gives the decrypted input. *)
  handshakes : list (res bytes (ConnectionState * reader));
  ehloDomain : bytes;
  isESMTP : bool;
  mailFrom : bytes;
  rcptTo : list bytes;
  data : bytes;
  spfResult : bytes;
  spfError : option bytes;
  dkimVerifyResult : option VerifyResult;
  onTLS : bool;
  completedAuth : bool;
  authUser : bytes;
  authDomain : bytes;
  dinfo : DomainInfo.DB;
  dinfoFS : Safeio.FS;
  queue : Q;
}.

(** Assignments to groups of fields. *)

Definition set_remoteAddr (c : Conn) (a : Addr) : Conn :=
  mkConn
    (cfg c) (hostname c) a (tlsConnState c) (rd c) (wr c) (handshakes c)
    (ehloDomain c) (isESMTP c) (mailFrom c) (rcptTo c) (data c) (spfResult c)
    (spfError c) (dkimVerifyResult c) (onTLS c) (completedAuth c) (authUser c)
    (authDomain c) (dinfo c) (dinfoFS c) (queue c).

Definition set_io (c : Conn) (r : reader) (w : writer) : Conn :=
  mkConn
    (cfg c) (hostname c) (remoteAddr c) (tlsConnState c) r w (handshakes c)
    (ehloDomain c) (isESMTP c) (mailFrom c) (rcptTo c) (data c) (spfResult c)
    (spfError c) (dkimVerifyResult c) (onTLS c) (completedAuth c) (authUser c)
    (authDomain c) (dinfo c) (dinfoFS c) (queue c).

Definition set_handshakes (c : Conn) 
    (hs : list (res bytes (ConnectionState * reader))) : Conn :=
  mkConn
    (cfg c) (hostname c) (remoteAddr c) (tlsConnState c) (rd c) (wr c) hs
    (ehloDomain c) (isESMTP c) (mailFrom c) (rcptTo c) (data c) (spfResult c)
    (spfError c) (dkimVerifyResult c) (onTLS c) (completedAuth c) (authUser c)
    (authDomain c) (dinfo c) (dinfoFS c) (queue c).

Definition set_tls (c : Conn) (h : bytes) (st : ConnectionState) (tls : bool) : Conn :=
  mkConn
    (cfg c) h (remoteAddr c) (Some st) (rd c) (wr c) (handshakes c)
    (ehloDomain c) (isESMTP c) (mailFrom c) (rcptTo c) (data c) (spfResult c)
    (spfError c) (dkimVerifyResult c) tls (completedAuth c) (authUser c)
    (authDomain c) (dinfo c) (dinfoFS c) (queue c).

Definition set_ehlo (c : Conn) (d : bytes) (e : bool) : Conn :=
  mkConn
    (cfg c) (hostname c) (remoteAddr c) (tlsConnState c) (rd c) (wr c)
    (handshakes c) d e (mailFrom c) (rcptTo c) (data c) (spfResult c)
    (spfError c) (dkimVerifyResult c) (onTLS c) (completedAuth c) (authUser c)
    (authDomain c) (dinfo c) (dinfoFS c) (queue c).

Definition set_mailFrom (c : Conn) (a : bytes) : Conn :=
  mkConn
    (cfg c) (hostname c) (remoteAddr c) (tlsConnState c) (rd c) (wr c)
    (handshakes c) (ehloDomain c) (isESMTP c) a (rcptTo c) (data c)
    (spfResult c) (spfError c) (dkimVerifyResult c) (onTLS c)
    (completedAuth c) (authUser c) (authDomain c) (dinfo c) (dinfoFS c)
    (queue c).

Definition set_rcptTo (c : Conn) (l : list bytes) : Conn :=
  mkConn
    (cfg c) (hostname c) (remoteAddr c) (tlsConnState c) (rd c) (wr c)
    (handshakes c) (ehloDomain c) (isESMTP c) (mailFrom c) l (data c)
    (spfResult c) (spfError c) (dkimVerifyResult c) (onTLS c)
    (completedAuth c) (authUser c) (authDomain c) (dinfo c) (dinfoFS c)
    (queue c).

Definition set_data (c : Conn) (d : bytes) : Conn :=
  mkConn
    (cfg c) (hostname c) (remoteAddr c) (tlsConnState c) (rd c) (wr c)
    (handshakes c) (ehloDomain c) (isESMTP c) (mailFrom c) (rcptTo c) d
    (spfResult c) (spfError c) (dkimVerifyResult c) (onTLS c)
    (completedAuth c) (authUser c) (authDomain c) (dinfo c) (dinfoFS c)
    (queue c).

Definition set_spf (c : Conn) (r : bytes) (e : option bytes) : Conn :=
  mkConn
    (cfg c) (hostname c) (remoteAddr c) (tlsConnState c) (rd c) (wr c)
    (handshakes c) (ehloDomain c) (isESMTP c) (mailFrom c) (rcptTo c) (data c)
    r e (dkimVerifyResult c) (onTLS c) (completedAuth c) (authUser c)
    (authDomain c) (dinfo c) (dinfoFS c) (queue c).

Definition set_dkim (c : Conn) (v : option VerifyResult) : Conn :=
  mkConn
    (cfg c) (hostname c) (remoteAddr c) (tlsConnState c) (rd c) (wr c)
    (handshakes c) (ehloDomain c) (isESMTP c) (mailFrom c) (rcptTo c) (data c)
    (spfResult c) (spfError c) v (onTLS c) (completedAuth c) (authUser c)
    (authDomain c) (dinfo c) (dinfoFS c) (queue c).

Definition set_auth (c : Conn) (u d : bytes) : Conn :=
  mkConn
    (cfg c) (hostname c) (remoteAddr c) (tlsConnState c) (rd c) (wr c)
    (handshakes c) (ehloDomain c) (isESMTP c) (mailFrom c) (rcptTo c) (data c)
    (spfResult c) (spfError c) (dkimVerifyResult c) (onTLS c) true u d
    (dinfo c) (dinfoFS c) (queue c).

Definition set_dinfo (c : Conn) (db : DomainInfo.DB) (fs : Safeio.FS) : Conn :=
  mkConn
    (cfg c) (hostname c) (remoteAddr c) (tlsConnState c) (rd c) (wr c)
    (handshakes c) (ehloDomain c) (isESMTP c) (mailFrom c) (rcptTo c) (data c)
    (spfResult c) (spfError c) (dkimVerifyResult c) (onTLS c)
    (completedAuth c) (authUser c) (authDomain c) db fs (queue c).

Definition set_queue (c : Conn) (q : Q) : Conn :=
  mkConn
    (cfg c) (hostname c) (remoteAddr c) (tlsConnState c) (rd c) (wr c)
    (handshakes c) (ehloDomain c) (isESMTP c) (mailFrom c) (rcptTo c) (data c)
    (spfResult c) (spfError c) (dkimVerifyResult c) (onTLS c)
    (completedAuth c) (authUser c) (authDomain c) (dinfo c) (dinfoFS c) q.

(** ** Input and output *)

(** A handler ends with a response code and message, or panics. *)
Inductive outcome :=
| Reply (code : Z) (msg : bytes)
| Panic.

(** The method [writeResponse]. *)
Definition writeResponse (c : Conn) (code : Z) (msg : bytes) :
  Conn * option bytes :=
  let '(w, err) := write_flush (wr c) (writeResponse_text code msg) in
  (set_io c (rd c) w, err).

(** [printfLine], with the line already formatted. *)
Definition printfLine (c : Conn) (line : bytes) : Conn :=
  let '(w, _) := write_flush (wr c) (line ++ CRLF) in set_io c (rd c) w.

Inductive read_error :=
| ReadEnd (e : stream_end)
| LineTooLong.

Definition read_error_text (e : read_error) : bytes :=
  match e with
  | ReadEnd EndEOF => "EOF"
  | ReadEnd (EndError msg) => msg
  | LineTooLong => "line too long"
  end.

(** [bufio.Reader.ReadLine] takes the line ending off; at the end of the
    input it returns an unfinished line.  A line that does not fit its buffer
    of 4096 bytes is also longer than the limit here, and is skipped to its
    end like any other line that is too long. *)
Definition readLine (c : Conn) : Conn * res read_error bytes :=
  let r := rd c in
  match pending r with
  | [] => (c, Err (ReadEnd (ending r)))
  | _ =>
    let '(l, rest) :=
      match Cut (pending r) [LF] with
      | Some (l, rest) => (TrimSuffix l [CR], rest)
      | None => (pending r, [])
      end in
    let c := set_io c (mkReader rest (ending r)) (wr c) in
    if bool_decide (1000 < length l) then (c, Err LineTooLong) else (c, Ok l)
  end.

Definition readCommand (c : Conn) : Conn * res read_error (bytes * bytes) :=
  let '(c, msg) := readLine c in
  (c, msg ← msg;
      match SplitN2 msg " " with
      | [cmd; params] => Ok (ToUpper cmd, params)
      | _ => Ok (ToUpper msg, [])
      end).

(** [msgs[rand.Int()%len(msgs)]] *)
Definition pick (e : env) (msgs : list bytes) : bytes :=
  nth (rnd e mod length msgs) msgs [].

(** The [%v] verb on an error. *)
Definition fmt_err (e : option bytes) : bytes := default "<nil>" e.

(** ** Simple commands *)

Definition resetEnvelope (c : Conn) : Conn :=
  set_spf (set_data (set_rcptTo (set_mailFrom c []) []) []) [] None.

Definition invisible : outcome :=
  Reply 501 "Invisible customers are not welcome!".

Definition HELO (e : env) (c : Conn) (params : bytes) : Conn * outcome :=
  if length (TrimSpace params) == 0 then (c, invisible)
  else
    let c := set_ehlo c (nth 0 (Fields params) []) (isESMTP c) in
    let types : list bytes :=
      ["general store"; "used armor dealership"; "second-hand bookstore";
       "liquor emporium"; "antique weapons outlet"; "delicatessen";
       "jewelers"; "quality apparel and accessories"; "hardware";
       "rare books"; "lighting store"] in
    (c, Reply 250 ("Hello my friend, welcome to chasqui's "
                     ++ pick e types ++ "!")).

Definition EHLO (c : Conn) (params : bytes) : Conn * outcome :=
  if length (TrimSpace params) == 0 then (c, invisible)
  else
    let c := set_ehlo c (nth 0 (Fields params) []) true in
    let buf := hostname c ++ " - Your hour of destiny has come." ++ [LF] in
    let buf := buf ++ "8BITMIME" ++ [LF] in
    let buf := buf ++ "PIPELINING" ++ [LF] in
    let buf := buf ++ "SMTPUTF8" ++ [LF] in
    let buf := buf ++ "ENHANCEDSTATUSCODES" ++ [LF] in
    let buf := buf ++ "SIZE " ++ Itoa (maxDataSize (cfg c)) ++ [LF] in
    let buf := buf ++ (if onTLS c then "AUTH PLAIN" else "STARTTLS") ++ [LF] in
    let buf := buf ++ "HELP" ++ [LF] in
    (c, Reply 250 buf).

Definition HELP (c : Conn) : Conn * outcome :=
  (c, Reply 214 "2.0.0 Hoy por ti, mañana por mi").

Definition RSET (e : env) (c : Conn) : Conn * outcome :=
  let c := resetEnvelope c in
  let msgs : list bytes :=
    ["Who was that Maud person anyway?";
     "Thinking of Maud you forget everything else.";
     "Your mind releases itself from mundane concerns.";
     "As your mind turns inward on itself, you forget everything else."] in
  (c, Reply 250 ("2.0.0 " ++ pick e msgs)).

Definition VRFY (c : Conn) : Conn * outcome :=
  (c, Reply 502 "5.5.1 You have a strange feeling for a moment, then it passes.").

Definition EXPN (c : Conn) : Conn * outcome :=
  (c, Reply 502 "5.5.1 You feel disoriented for a moment.").

Definition NOOP (c : Conn) : Conn * outcome :=
  (c, Reply 250 "2.0.0 You hear a faint typing noise.").

(** ** MAIL *)

Definition checkSPF (e : env) (c : Conn) (addr : bytes) : bytes * option bytes :=
  if completedAuth c then ([], None)
  else if disableSPFForTesting (cfg c) then ([], None)
  else
    match remoteAddr c with
    | TCPAddr ip _ =>
      spf_CheckHostWithSender e ip (Envelope.DomainOf addr) addr
    | OtherAddr _ => ([], None)
    end.

Definition secLevelCheck (e : env) (c : Conn) (addr : bytes) : Conn * bool :=
  if spfResult c != spf_Pass then (c, true)
  else
    let domain := Envelope.DomainOf addr in
    let level := if onTLS c then DomainInfo.TLS_CLIENT else DomainInfo.PLAIN in
    let '(ok, db, (fs, _)) :=
      DomainInfo.IncomingSecLevel (calls e) (dinfoFS c) (dinfo c) domain level in
    (set_dinfo c db fs, ok).

(** The checks on a sender other than the null one; they end with the
    address to use, or with the response to a bad one. *)
Definition check_sender (e : env) (c : Conn) (rawAddr : bytes) :
  Conn * res outcome bytes :=
  match mail_ParseAddress rawAddr with
  | None | Some [] => (c, Err (Reply 501 "5.1.7 Sender address malformed"))
  | Some addr =>
    if negb (Contains addr "@") then
      (c, Err (Reply 501 "5.1.8 Sender address must contain a domain"))
    else if bool_decide (256 < length addr) then
      (c, Err (Reply 501 "5.1.7 Sender address too long"))
    else
      let '(sr, se) := checkSPF e c addr in
      let c := set_spf c sr se in
      if spfResult c == spf_Fail then
        (c, Err (Reply 550 ("5.7.23 SPF check failed: " ++ fmt_err (spfError c))))
      else
        let '(c, ok) := secLevelCheck e c addr in
        if negb ok then
          (c, Err (Reply 550 "5.7.3 Security level check failed"))
        else
          match Normalize.DomainToUnicode addr with
          | (_, Some _) =>
            (c, Err (Reply 501
              "5.1.8 Malformed sender domain (IDNA conversion failed)"))
          | (addr, None) => (c, Ok addr)
          end
  end.

Definition MAIL (e : env) (c : Conn) (params : bytes) : Conn * outcome :=
  if negb (HasPrefix (ToLower params) "from:") then
    (c, Reply 500 "5.5.2 Unknown command")
  else if IsSubmission (mode (cfg c)) && negb (completedAuth c) then
    (c, Reply 550 "5.7.9 Mail to submission port must be authenticated")
  else
    match Sscanf_word (drop 5 params) with
    | Err err =>
      (c, Reply 500 ("5.5.4 Malformed command: " ++ scan_error_text err))
    | Ok rawAddr =>
      let c := resetEnvelope c in
      let '(c, addr) :=
        if ReplaceAll rawAddr " " "" == "<>" then (c, Ok "<>")
        else check_sender e c rawAddr in
      match addr with
      | Err reply => (c, reply)
      | Ok addr =>
        (set_mailFrom c addr, Reply 250 "2.1.5 You feel like you are being watched")
      end
    end.

(** ** RCPT *)

Definition localUserExists (c : Conn) (addr : bytes) :
  bool * option Auth.error :=
  if Aliases.Exists (aliasesR (cfg c)) addr then (true, None)
  else
    let addr := Aliases.RemoveDropsAndSuffix (aliasesR (cfg c)) addr in
    let '(user, domain) := Envelope.Split addr in
    Auth.Exists (authr (cfg c)) user domain.

(** What RCPT requires of a local address: the normalized address, which has
    to exist. *)
Definition check_local (c : Conn) (addr : bytes) : res outcome bytes :=
  match Normalize.Addr addr with
  | (_, Some _) => Err (Reply 550 "5.1.3 Destination address is invalid")
  | (addr, None) =>
    match localUserExists c addr with
    | (_, Some _) => Err (Reply 451 "4.4.3 Temporary error checking address")
    | (false, None) =>
      Err (Reply 550 "5.1.1 Destination address is unknown (user does not exist)")
    | (true, None) => Ok addr
    end
  end.

Definition RCPT (c : Conn) (params : bytes) : Conn * outcome :=
  if negb (HasPrefix (ToLower params) "to:") then
    (c, Reply 500 "5.5.2 Unknown command")
  else if mailFrom c == "" then (c, Reply 503 "5.5.1 Sender not yet given")
  else
    match Sscanf_word (drop 3 params) with
    | Err err =>
      (c, Reply 500 ("5.5.4 Malformed command: " ++ scan_error_text err))
    | Ok rawAddr =>
      if bool_decide (100 < length (rcptTo c)) then
        (c, Reply 452 "4.5.3 Too many recipients")
      else
        match mail_ParseAddress rawAddr with
        | None | Some [] =>
          (c, Reply 501 "5.1.3 Malformed destination address")
        | Some address =>
          match Normalize.DomainToUnicode address with
          | (_, Some _) =>
            (c, Reply 501
              "5.1.2 Malformed destination domain (IDNA conversion failed)")
          | (addr, None) =>
            if bool_decide (256 < length addr) then
              (c, Reply 501 "5.1.3 Destination address too long")
            else
              let localDst := Envelope.DomainIn addr (localDomains (cfg c)) in
              if negb localDst && negb (completedAuth c) then
                (c, Reply 503 "5.7.1 Relay not allowed")
              else
                match (if localDst then check_local c addr else Ok addr) with
                | Err reply => (c, reply)
                | Ok addr =>
                  (set_rcptTo c (rcptTo c ++ [addr]),
                   Reply 250 "2.1.5 You have an eerie feeling...")
                end
          end
        end
    end.

(** ** DATA *)

Definition checkData (c : Conn) (data : bytes) : option bytes :=
  match mail_ReadMessage data with
  | Err err => Some ("5.6.0 Error parsing message: " ++ err)
  | Ok header =>
    let received := default [] (header !! ("Received" : bytes)) in
    if bool_decide (maxReceivedHeaders (cfg c) < length received) then
      Some ("5.4.6 Loop detected ("
              ++ Itoa (Z.of_nat (maxReceivedHeaders (cfg c))) ++ " hops)")
    else None
  end.

Definition addrLiteral (addr : Addr) : bytes :=
  match addr with
  | OtherAddr s => s
  | TCPAddr ip _ => if Contains ip ":" then "IPv6:" ++ ip else ip
  end.

(** The value of the Received header. *)
Definition received_value (e : env) (c : Conn) : bytes :=
  let received :=
    if completedAuth c then "from " ++ ehloDomain c ++ [LF]
    else "from " ++ ehloDomain c ++ " ([" ++ addrLiteral (remoteAddr c) ++ "])"
           ++ [LF] in
  let received := received ++ "by " ++ hostname c ++ " (chasquid) " in
  let with_ := if isESMTP c then "ESMTP" else "SMTP" in
  let with_ := if onTLS c then with_ ++ "S" else with_ in
  let with_ := if completedAuth c then with_ ++ "A" else with_ in
  let received := received ++ "with " ++ with_ ++ [LF] in
  let received :=
    match tlsConnState c with
    | Some st =>
      received ++ "tls "
        ++ TlsConst.CipherSuiteName cipherSuiteName (CipherSuite st) ++ [LF]
    | None => received
    end in
  let received := received ++ "(over " ++ SocketMode_String (mode (cfg c)) ++ ", " in
  let received :=
    match tlsConnState c with
    | Some st => received ++ TlsConst.VersionName (Version st) ++ ", "
    | None => received ++ "plain text!, "
    end in
  let received := received ++ "envelope from " ++ Quote (mailFrom c) ++ ")" ++ [LF] in
  received ++ "; " ++ date e ++ [LF].

Definition addReceivedHeader (e : env) (c : Conn) : Conn :=
  let c := set_data c (Envelope.AddHeader (data c) "Received" (received_value e c)) in
  let arHdr := hostname c ++ CRLF in
  let includeAR := false in
  let '(c, arHdr, includeAR) :=
    if spfResult c != "" then
      let received := spfResult c ++ " (" ++ fmt_err (spfError c) ++ ")" in
      (set_data c (Envelope.AddHeader (data c) "Received-SPF" received),
       arHdr ++ ";spf=" ++ spfResult c ++ " (" ++ fmt_err (spfError c) ++ ")" ++ CRLF,
       true)
    else (c, arHdr, includeAR) in
  let '(arHdr, includeAR) :=
    match dkimVerifyResult c with
    | Some v => (arHdr ++ dkim_AuthenticationResults v ++ CRLF, true)
    | None => (arHdr, includeAR)
    end in
  if (includeAR : bool) then
    set_data c
      (Envelope.AddHeader (data c) "Authentication-Results" (TrimSpace arHdr))
  else c.

Definition ehlo_allowed (r : N) : bool :=
  in_range 97 122 r || in_range 65 90 r || in_range 48 57 r
  || N.eqb r 45 || N.eqb r 46 || N.eqb r 91 || N.eqb r 93 || N.eqb r 58.

Definition sanitizeEHLODomain (s : bytes) : bytes :=
  foldl (λ n c, if ehlo_allowed c then n ++ Utf8.encode c else n) []
    (Utf8.runes s).

Definition boolToStr (b : bool) : bytes := if b then "1" else "0".

Definition lastLine (s : bytes) : bytes :=
  let l := Split s [LF] in
  if bool_decide (length l < 2) then [] else nth (length l - 2) l [].

(** The loop of [isHeader] over the lines. *)
Fixpoint header_lines (seen : bool) (lines : list bytes) : bool :=
  match lines with
  | [] => true
  | line :: lines =>
    if line == "" then header_lines seen lines
    else if HasPrefix line " " || HasPrefix line [TAB] then
      if negb seen then false else header_lines seen lines
    else if negb (Contains line ":") then false
    else header_lines true lines
  end.

Definition isHeader (b : bytes) : bool :=
  if length b == 0 then true
  else if (b == [LF]) || Contains b [LF; LF] then false
  else if last b != Some LF then false
  else header_lines false (SplitAfter b [LF]).

(** The environment of the post-data hook. *)
Definition hook_env (e : env) (c : Conn) : list bytes :=
  ((λ v, v ++ "=" ++ getenv e v) <$> Fields "USER PWD SHELL PATH") ++
  ["REMOTE_ADDR=" ++ Addr_String (remoteAddr c);
   "EHLO_DOMAIN=" ++ sanitizeEHLODomain (ehloDomain c);
   "EHLO_DOMAIN_RAW=" ++ ehloDomain c;
   "MAIL_FROM=" ++ mailFrom c;
   "RCPT_TO=" ++ Join (rcptTo c) " ";
   (if completedAuth c then "AUTH_AS=" ++ authUser c ++ "@" ++ authDomain c
    else "AUTH_AS=");
   "ON_TLS=" ++ boolToStr (onTLS c);
   "FROM_LOCAL_DOMAIN=" ++
     boolToStr (Envelope.DomainIn (mailFrom c) (localDomains (cfg c)));
   "SPF_PASS=" ++ boolToStr (spfResult c == spf_Pass)].

(** The headers to add; on error, whether it is permanent, and its text. *)
Definition runPostDataHook (e : env) (c : Conn) (data : bytes) :
  res (bool * bytes) bytes :=
  if hook_missing e (postDataHook (cfg c)) then Ok []
  else
    match hook_exec e (postDataHook (cfg c)) data (hook_env e c) with
    | RunFail out status =>
      Err (match status with Some n => (n =? 20)%Z | None => false end,
           lastLine out)
    | RunOk out => if negb (isHeader out) then Ok [] else Ok out
    end.

(** The loop of [dkimSign]. *)
Fixpoint dkim_sign_loop (e : env) (signers : list Signer) (c : Conn) :
  Conn * option bytes :=
  match signers with
  | [] => (c, None)
  | signer :: signers =>
    match dkim_Sign (moment e) signer (Normalize.StringToCRLF (data c)) with
    | Err err => (c, Some err)
    | Ok sig =>
      let sig := ReplaceAll sig CRLF [LF] in
      dkim_sign_loop e signers
        (set_data c (Envelope.AddHeader (data c) "DKIM-Signature" sig))
    end
  end.

Definition dkimSign (e : env) (c : Conn) : Conn * option bytes :=
  let domain := Envelope.DomainOf (mailFrom c) in
  let signers := default [] (dkimSigners (cfg c) !! domain) in
  if length signers == 0 then (c, None) else dkim_sign_loop e signers c.

Definition dkimVerify (e : env) (c : Conn) : option Conn :=
  match dkim_VerifyMessage (moment e) (Normalize.ToCRLF (data c)) with
  | None => None
  | Some (Ok v) => Some (set_dkim c (Some v))
  | Some (Err _) => Some (set_dkim c None)
  end.

Definition dot_error_text (e : DotReader.error) : bytes :=
  match e with
  | errMessageTooLarge => "message too large"
  | errInvalidLineEnding => "invalid line ending"
  | ErrUnexpectedEOF => "unexpected EOF"
  | ReadError msg => msg
  end.

(** The end of DATA: the hook and the queue. *)
Definition data_queue (e : env) (c : Conn) : Conn * outcome :=
  let c := addReceivedHeader e c in
  match runPostDataHook e c (data c) with
  | Err (permanent, msg) =>
    (c, Reply (if permanent then 554 else 451) msg)
  | Ok hookOut =>
    let c := set_data c (hookOut ++ data c) in
    let '(q, r) := q_Put (queue c) (mailFrom c) (rcptTo c) (data c) in
    let c := set_queue c q in
    match r with
    | Err err => (c, Reply 451 ("4.3.0 Failed to queue message: " ++ err))
    | Ok msgID =>
      let c := resetEnvelope c in
      let msgs : list bytes :=
        ["You offer the Amulet of Yendor to Anhur...";
         "An invisible choir sings, and you are bathed in radiance...";
         "The voice of Anhur booms out: Congratulations, mortal!";
         "In return to thy service, I grant thee the gift of Immortality!";
         "You ascend to the status of Demigod(dess)..."] in
      (c, Reply 250 ("2.0.0 " ++ pick e msgs))
    end
  end.

(** What DATA does with a message that was read. *)
Definition data_message (e : env) (c : Conn) : Conn * outcome :=
  match checkData c (data c) with
  | Some err => (c, Reply 554 err)
  | None =>
    if completedAuth c then
      match dkimSign e c with
      | (c, Some _) => (c, Reply 451 "4.3.0 DKIM signing failed")
      | (c, None) => data_queue e c
      end
    else
      match dkimVerify e c with
      | None => (c, Panic)
      | Some c => data_queue e c
      end
  end.

Definition DATA (e : env) (c : Conn) : Conn * outcome :=
  if ehloDomain c == "" then
    (c, Reply 503 "5.5.1 Invisible customers are not welcome!")
  else if mailFrom c == "" then (c, Reply 503 "5.5.1 Sender not yet given")
  else if length (rcptTo c) == 0 then
    (c, Reply 503 "5.5.1 Need an address to send to")
  else
    match writeResponse c 354 "You suddenly realize it is unnaturally quiet" with
    | (c, Some err) =>
      (c, Reply 554 ("5.4.0 Error writing DATA response: " ++ err))
    | (c, None) =>
      let '(d, err, r) := readUntilDot (rd c) (maxDataSize (cfg c)) in
      let c := set_data (set_io c r (wr c)) d in
      match err with
      | Some errMessageTooLarge => (c, Reply 552 "5.3.4 Message too big")
      | Some errInvalidLineEnding =>
        let '(c, _) := writeResponse c 521
          "5.5.2 Error reading DATA: invalid line ending" in
        (c, Reply (-1) "Invalid line ending, closing connection")
      | Some err =>
        (c, Reply 554 ("5.4.0 Error reading DATA: " ++ dot_error_text err))
      | None => data_message e c
      end
    end.

(** ** STARTTLS and AUTH *)

Definition server_name (st : ConnectionState) (h : bytes) : bytes :=
  if ServerName st != "" then ServerName st else h.

Definition STARTTLS (c : Conn) : Conn * outcome :=
  if onTLS c then (c, Reply 503 "5.5.1 You are already wearing that!")
  else
    match writeResponse c 220 "2.0.0 You experience a strange sense of peace" with
    | (c, Some err) =>
      (c, Reply 554 ("5.4.0 Error writing STARTTLS response: " ++ err))
    | (c, None) =>
      match handshakes c with
      | [] => (c, Reply 554 "5.5.0 Error in TLS handshake: EOF")
      | Err err :: hs =>
        (set_handshakes c hs, Reply 554 ("5.5.0 Error in TLS handshake: " ++ err))
      | Ok (st, r) :: hs =>
        let c := set_handshakes c hs in
        (* A new reader and writer over the TLS connection: what was buffered
           before the handshake is gone. *)
        let c := set_io c r (mkWriter (sent (wr c)) (alive (wr c)) None) in
        let c := resetEnvelope c in
        let c := set_tls c (server_name st (hostname c)) st true in
        (c, Reply 0 [])
      end
    end.

(** The response of AUTH PLAIN, given with the command or asked for. *)
Definition auth_response (c : Conn) (params : bytes) :
  Conn * res outcome bytes :=
  match SplitN2 params " " with
  | [_; response] => (c, Ok response)
  | _ =>
    match writeResponse c 334 "" with
    | (c, Some err) => (c, Err (Reply 554 ("5.4.0 Error writing AUTH 334: " ++ err)))
    | (c, None) =>
      match readLine c with
      | (c, Err err) =>
        (c, Err (Reply 554
          ("5.4.0 Error reading AUTH response: " ++ read_error_text err)))
      | (c, Ok response) => (c, Ok response)
      end
    end
  end.

Definition AUTH (c : Conn) (params : bytes) : Conn * outcome :=
  if negb (onTLS c) then (c, Reply 503 "5.7.10 You feel vulnerable")
  else if completedAuth c then
    (c, Reply 503 "5.5.1 You are already wearing that!")
  else if nth 0 (SplitN2 params " ") [] != "PLAIN" then
    (c, Reply 534 "5.7.9 Asmodeus demands 534 zorkmids for safe passage")
  else
    match auth_response c params with
    | (c, Err reply) => (c, reply)
    | (c, Ok response) =>
      match Auth.DecodeResponse response with
      | Err err =>
        (c, Reply 501
          ("5.5.2 Error decoding AUTH response: " ++ decode_error_text err))
      | Ok (user, domain, passwd) =>
        match Auth.Authenticate (authr (cfg c)) user domain passwd with
        | None => (c, Panic)
        | Some (_, Some _) =>
          (c, Reply 454 "4.7.0 Temporary authentication failure")
        | Some (true, None) =>
          (set_auth c user domain, Reply 235 "2.7.0 Authentication successful")
        | Some (false, None) =>
          (c, Reply 535 "5.7.8 Incorrect user or password")
        end
      end
    end.

(** ** The command loop *)

(** The commands that have a handler. *)
Definition run_command (e : env) (c : Conn) (cmd params : bytes) :
  Conn * outcome :=
  if cmd == "HELO" then HELO e c params
  else if cmd == "EHLO" then EHLO c params
  else if cmd == "HELP" then HELP c
  else if cmd == "NOOP" then NOOP c
  else if cmd == "RSET" then RSET e c
  else if cmd == "VRFY" then VRFY c
  else if cmd == "EXPN" then EXPN c
  else if cmd == "MAIL" then MAIL e c params
  else if cmd == "RCPT" then RCPT c params
  else if cmd == "DATA" then DATA e c
  else if cmd == "STARTTLS" then STARTTLS c
  else if cmd == "AUTH" then AUTH c params
  else (c, Reply 500 "5.5.1 Unknown command").

(** Why the loop ends. *)
Inductive exit :=
| ExitDeadline
| ExitRead (err : read_error)
| ExitQuit
| ExitHTTP
| ExitTooManyErrors
| ExitWrite (err : bytes)
| ExitClosed (msg : bytes)
| ExitPanic.

Definition is_http (cmd : bytes) : bool :=
  (cmd == "GET") || (cmd == "POST") || (cmd == "CONNECT").

(** One iteration: either the loop goes on, with the count of errors, or it
    ends. *)
Definition iteration (e : env) (c : Conn) (errCount : nat) :
  Conn * (nat + exit) :=
  if (0 <? now e - deadline (cfg c))%Z then (c, inr ExitDeadline)
  else
    match readCommand c with
    | (c, Err err) =>
      (printfLine c ("554 error reading command: " ++ read_error_text err),
       inr (ExitRead err))
    | (c, Ok (cmd, params)) =>
      if cmd == "QUIT" then
        let '(c, _) := writeResponse c 221 "2.0.0 Be seeing you..." in
        (c, inr ExitQuit)
      else if is_http cmd then
        let '(c, _) := writeResponse c 502
          "5.7.0 You hear someone cursing shoplifters" in
        (c, inr ExitHTTP)
      else
        match run_command e c cmd params with
        | (c, Panic) => (c, inr ExitPanic)
        | (c, Reply code msg) =>
          if (0 <? code)%Z then
            let errCount := if (400 <=? code)%Z then S errCount else errCount in
            if (400 <=? code)%Z && bool_decide (3 <= errCount) then
              let '(c, _) := writeResponse c 421 "4.5.0 Too many errors, bye" in
              (c, inr ExitTooManyErrors)
            else
              match writeResponse c code msg with
              | (c, Some err) => (c, inr (ExitWrite err))
              | (c, None) => (c, inl errCount)
              end
          else if (code <? 0)%Z then (c, inr (ExitClosed msg))
          else (c, inl errCount)
        end
    end.

(** [fuel] bounds the iterations; [Handle_terminates] gives enough. *)
Fixpoint loop (fuel : nat) (envs : nat → env) (i : nat) (c : Conn)
    (errCount : nat) : Conn * option exit :=
  match fuel with
  | 0 => (c, None)
  | S fuel =>
    match iteration (envs i) c errCount with
    | (c, inr x) => (c, Some x)
    | (c, inl errCount) => loop fuel envs (S i) c errCount
    end
  end.

(** [Handle].  For a TLS listener the handshake comes first; its result, if
    there is one, is the first of [handshakes]. *)
Definition tls_listener (c : Conn) : res bytes Conn :=
  if TLS (mode (cfg c)) then
    match handshakes c with
    | Ok (st, r) :: hs =>
      Ok (set_tls (set_io (set_handshakes c hs) r (wr c))
            (server_name st (hostname c)) st (onTLS c))
    | Err err :: _ => Err err
    | [] => Err "EOF"
    end
  else Ok c.

Inductive handled :=
| HandshakeFailed (err : bytes)
| HaproxyFailed (err : Haproxy.error)
| Handled (x : option exit).

Definition Handle (fuel : nat) (envs : nat → env) (c : Conn) :
  Conn * handled :=
  match tls_listener c with
  | Err err => (c, HandshakeFailed err)
  | Ok c =>
    let '(r, err) :=
      if haproxyEnabled (cfg c) then
        match Haproxy.Handshake (rd c) with
        | (Err err, r) => (set_io c r (wr c), Some err)
        | (Ok (src, _), r) => (set_remoteAddr (set_io c r (wr c)) src, None)
        end
      else (c, None) in
    match err with
    | Some err => (r, HaproxyFailed err)
    | None =>
      let c := printfLine r ("220 " ++ hostname r ++ " ESMTP chasquid") in
      let '(c, x) := loop fuel envs 0 c 0 in
      (c, Handled x)
    end
  end.

(** The connection a server makes for a client, in [serve]. *)
Definition new_conn (cf : Config) (hostname : bytes) (addr : Addr) (r : reader)
    (w : writer) (hs : list (res bytes (ConnectionState * reader)))
    (db : DomainInfo.DB) (fs : Safeio.FS) (q : Q) : Conn :=
  {| cfg := cf; hostname := hostname; remoteAddr := addr; tlsConnState := None;
     rd := r; wr := w; handshakes := hs; ehloDomain := []; isESMTP := false;
     mailFrom := []; rcptTo := []; data := []; spfResult := [];
     spfError := None; dkimVerifyResult := None; onTLS := TLS (mode cf);
     completedAuth := false; authUser := []; authDomain := [];
     dinfo := db; dinfoFS := fs; queue := q |}.

End Conn.
End Smtpsrv.
