(* ===== verification/TlsCiphers.v ===== *)
(** The names of the TLS cipher suites: internal/tlsconst/ciphers.go. *)

From S2P Require Import Prelude GoStrings Conn.
#[local] Open Scope go_scope.

Module TlsCiphers.

(** The entries of the table, in the order of the file, in three parts. *)
Definition entries_1 : list (N * bytes) :=
  [(0x0000%N, "TLS_NULL_WITH_NULL_NULL" : bytes);
   (0x0001%N, "TLS_RSA_WITH_NULL_MD5" : bytes);
   (0x0002%N, "TLS_RSA_WITH_NULL_SHA" : bytes);
   (0x0003%N, "TLS_RSA_EXPORT_WITH_RC4_40_MD5" : bytes);
   (0x0004%N, "TLS_RSA_WITH_RC4_128_MD5" : bytes);
   (0x0005%N, "TLS_RSA_WITH_RC4_128_SHA" : bytes);
   (0x0006%N, "TLS_RSA_EXPORT_WITH_RC2_CBC_40_MD5" : bytes);
   (0x0007%N, "TLS_RSA_WITH_IDEA_CBC_SHA" : bytes);
   (0x0008%N, "TLS_RSA_EXPORT_WITH_DES40_CBC_SHA" : bytes);
   (0x0009%N, "TLS_RSA_WITH_DES_CBC_SHA" : bytes);
   (0x000a%N, "TLS_RSA_WITH_3DES_EDE_CBC_SHA" : bytes);
   (0x000b%N, "TLS_DH_DSS_EXPORT_WITH_DES40_CBC_SHA" : bytes);
   (0x000c%N, "TLS_DH_DSS_WITH_DES_CBC_SHA" : bytes);
   (0x000d%N, "TLS_DH_DSS_WITH_3DES_EDE_CBC_SHA" : bytes);
   (0x000e%N, "TLS_DH_RSA_EXPORT_WITH_DES40_CBC_SHA" : bytes);
   (0x000f%N, "TLS_DH_RSA_WITH_DES_CBC_SHA" : bytes);
   (0x0010%N, "TLS_DH_RSA_WITH_3DES_EDE_CBC_SHA" : bytes);
   (0x0011%N, "TLS_DHE_DSS_EXPORT_WITH_DES40_CBC_SHA" : bytes);
   (0x0012%N, "TLS_DHE_DSS_WITH_DES_CBC_SHA" : bytes);
   (0x0013%N, "TLS_DHE_DSS_WITH_3DES_EDE_CBC_SHA" : bytes);
   (0x0014%N, "TLS_DHE_RSA_EXPORT_WITH_DES40_CBC_SHA" : bytes);
   (0x0015%N, "TLS_DHE_RSA_WITH_DES_CBC_SHA" : bytes);
   (0x0016%N, "TLS_DHE_RSA_WITH_3DES_EDE_CBC_SHA" : bytes);
   (0x0017%N, "TLS_DH_anon_EXPORT_WITH_RC4_40_MD5" : bytes);
   (0x0018%N, "TLS_DH_anon_WITH_RC4_128_MD5" : bytes);
   (0x0019%N, "TLS_DH_anon_EXPORT_WITH_DES40_CBC_SHA" : bytes);
   (0x001a%N, "TLS_DH_anon_WITH_DES_CBC_SHA" : bytes);
   (0x001b%N, "TLS_DH_anon_WITH_3DES_EDE_CBC_SHA" : bytes);
   (0x001e%N, "TLS_KRB5_WITH_DES_CBC_SHA" : bytes);
   (0x001f%N, "TLS_KRB5_WITH_3DES_EDE_CBC_SHA" : bytes);
   (0x0020%N, "TLS_KRB5_WITH_RC4_128_SHA" : bytes);
   (0x0021%N, "TLS_KRB5_WITH_IDEA_CBC_SHA" : bytes);
   (0x0022%N, "TLS_KRB5_WITH_DES_CBC_MD5" : bytes);
   (0x0023%N, "TLS_KRB5_WITH_3DES_EDE_CBC_MD5" : bytes);
   (0x0024%N, "TLS_KRB5_WITH_RC4_128_MD5" : bytes);
   (0x0025%N, "TLS_KRB5_WITH_IDEA_CBC_MD5" : bytes);
   (0x0026%N, "TLS_KRB5_EXPORT_WITH_DES_CBC_40_SHA" : bytes);
   (0x0027%N, "TLS_KRB5_EXPORT_WITH_RC2_CBC_40_SHA" : bytes);
   (0x0028%N, "TLS_KRB5_EXPORT_WITH_RC4_40_SHA" : bytes);
   (0x0029%N, "TLS_KRB5_EXPORT_WITH_DES_CBC_40_MD5" : bytes);
   (0x002a%N, "TLS_KRB5_EXPORT_WITH_RC2_CBC_40_MD5" : bytes);
   (0x002b%N, "TLS_KRB5_EXPORT_WITH_RC4_40_MD5" : bytes);
   (0x002c%N, "TLS_PSK_WITH_NULL_SHA" : bytes);
   (0x002d%N, "TLS_DHE_PSK_WITH_NULL_SHA" : bytes);
   (0x002e%N, "TLS_RSA_PSK_WITH_NULL_SHA" : bytes);
   (0x002f%N, "TLS_RSA_WITH_AES_128_CBC_SHA" : bytes);
   (0x0030%N, "TLS_DH_DSS_WITH_AES_128_CBC_SHA" : bytes);
   (0x0031%N, "TLS_DH_RSA_WITH_AES_128_CBC_SHA" : bytes);
   (0x0032%N, "TLS_DHE_DSS_WITH_AES_128_CBC_SHA" : bytes);
   (0x0033%N, "TLS_DHE_RSA_WITH_AES_128_CBC_SHA" : bytes);
   (0x0034%N, "TLS_DH_anon_WITH_AES_128_CBC_SHA" : bytes);
   (0x0035%N, "TLS_RSA_WITH_AES_256_CBC_SHA" : bytes);
   (0x0036%N, "TLS_DH_DSS_WITH_AES_256_CBC_SHA" : bytes);
   (0x0037%N, "TLS_DH_RSA_WITH_AES_256_CBC_SHA" : bytes);
   (0x0038%N, "TLS_DHE_DSS_WITH_AES_256_CBC_SHA" : bytes);
   (0x0039%N, "TLS_DHE_RSA_WITH_AES_256_CBC_SHA" : bytes);
   (0x003a%N, "TLS_DH_anon_WITH_AES_256_CBC_SHA" : bytes);
   (0x003b%N, "TLS_RSA_WITH_NULL_SHA256" : bytes);
   (0x003c%N, "TLS_RSA_WITH_AES_128_CBC_SHA256" : bytes);
   (0x003d%N, "TLS_RSA_WITH_AES_256_CBC_SHA256" : bytes);
   (0x003e%N, "TLS_DH_DSS_WITH_AES_128_CBC_SHA256" : bytes);
   (0x003f%N, "TLS_DH_RSA_WITH_AES_128_CBC_SHA256" : bytes);
   (0x0040%N, "TLS_DHE_DSS_WITH_AES_128_CBC_SHA256" : bytes);
   (0x0041%N, "TLS_RSA_WITH_CAMELLIA_128_CBC_SHA" : bytes);
   (0x0042%N, "TLS_DH_DSS_WITH_CAMELLIA_128_CBC_SHA" : bytes);
   (0x0043%N, "TLS_DH_RSA_WITH_CAMELLIA_128_CBC_SHA" : bytes);
   (0x0044%N, "TLS_DHE_DSS_WITH_CAMELLIA_128_CBC_SHA" : bytes);
   (0x0045%N, "TLS_DHE_RSA_WITH_CAMELLIA_128_CBC_SHA" : bytes);
   (0x0046%N, "TLS_DH_anon_WITH_CAMELLIA_128_CBC_SHA" : bytes);
   (0x0067%N, "TLS_DHE_RSA_WITH_AES_128_CBC_SHA256" : bytes);
   (0x0068%N, "TLS_DH_DSS_WITH_AES_256_CBC_SHA256" : bytes);
   (0x0069%N, "TLS_DH_RSA_WITH_AES_256_CBC_SHA256" : bytes);
   (0x006a%N, "TLS_DHE_DSS_WITH_AES_256_CBC_SHA256" : bytes);
   (0x006b%N, "TLS_DHE_RSA_WITH_AES_256_CBC_SHA256" : bytes);
   (0x006c%N, "TLS_DH_anon_WITH_AES_128_CBC_SHA256" : bytes);
   (0x006d%N, "TLS_DH_anon_WITH_AES_256_CBC_SHA256" : bytes);
   (0x0084%N, "TLS_RSA_WITH_CAMELLIA_256_CBC_SHA" : bytes);
   (0x0085%N, "TLS_DH_DSS_WITH_CAMELLIA_256_CBC_SHA" : bytes);
   (0x0086%N, "TLS_DH_RSA_WITH_CAMELLIA_256_CBC_SHA" : bytes);
   (0x0087%N, "TLS_DHE_DSS_WITH_CAMELLIA_256_CBC_SHA" : bytes);
   (0x0088%N, "TLS_DHE_RSA_WITH_CAMELLIA_256_CBC_SHA" : bytes);
   (0x0089%N, "TLS_DH_anon_WITH_CAMELLIA_256_CBC_SHA" : bytes);
   (0x008a%N, "TLS_PSK_WITH_RC4_128_SHA" : bytes);
   (0x008b%N, "TLS_PSK_WITH_3DES_EDE_CBC_SHA" : bytes);
   (0x008c%N, "TLS_PSK_WITH_AES_128_CBC_SHA" : bytes);
   (0x008d%N, "TLS_PSK_WITH_AES_256_CBC_SHA" : bytes);
   (0x008e%N, "TLS_DHE_PSK_WITH_RC4_128_SHA" : bytes);
   (0x008f%N, "TLS_DHE_PSK_WITH_3DES_EDE_CBC_SHA" : bytes);
   (0x0090%N, "TLS_DHE_PSK_WITH_AES_128_CBC_SHA" : bytes);
   (0x0091%N, "TLS_DHE_PSK_WITH_AES_256_CBC_SHA" : bytes);
   (0x0092%N, "TLS_RSA_PSK_WITH_RC4_128_SHA" : bytes);
   (0x0093%N, "TLS_RSA_PSK_WITH_3DES_EDE_CBC_SHA" : bytes);
   (0x0094%N, "TLS_RSA_PSK_WITH_AES_128_CBC_SHA" : bytes);
   (0x0095%N, "TLS_RSA_PSK_WITH_AES_256_CBC_SHA" : bytes);
   (0x0096%N, "TLS_RSA_WITH_SEED_CBC_SHA" : bytes);
   (0x0097%N, "TLS_DH_DSS_WITH_SEED_CBC_SHA" : bytes);
   (0x0098%N, "TLS_DH_RSA_WITH_SEED_CBC_SHA" : bytes);
   (0x0099%N, "TLS_DHE_DSS_WITH_SEED_CBC_SHA" : bytes);
   (0x009a%N, "TLS_DHE_RSA_WITH_SEED_CBC_SHA" : bytes);
   (0x009b%N, "TLS_DH_anon_WITH_SEED_CBC_SHA" : bytes);
   (0x009c%N, "TLS_RSA_WITH_AES_128_GCM_SHA256" : bytes);
   (0x009d%N, "TLS_RSA_WITH_AES_256_GCM_SHA384" : bytes);
   (0x009e%N, "TLS_DHE_RSA_WITH_AES_128_GCM_SHA256" : bytes);
   (0x009f%N, "TLS_DHE_RSA_WITH_AES_256_GCM_SHA384" : bytes);
   (0x00a0%N, "TLS_DH_RSA_WITH_AES_128_GCM_SHA256" : bytes);
   (0x00a1%N, "TLS_DH_RSA_WITH_AES_256_GCM_SHA384" : bytes);
   (0x00a2%N, "TLS_DHE_DSS_WITH_AES_128_GCM_SHA256" : bytes);
   (0x00a3%N, "TLS_DHE_DSS_WITH_AES_256_GCM_SHA384" : bytes);
   (0x00a4%N, "TLS_DH_DSS_WITH_AES_128_GCM_SHA256" : bytes);
   (0x00a5%N, "TLS_DH_DSS_WITH_AES_256_GCM_SHA384" : bytes);
   (0x00a6%N, "TLS_DH_anon_WITH_AES_128_GCM_SHA256" : bytes);
   (0x00a7%N, "TLS_DH_anon_WITH_AES_256_GCM_SHA384" : bytes);
   (0x00a8%N, "TLS_PSK_WITH_AES_128_GCM_SHA256" : bytes);
   (0x00a9%N, "TLS_PSK_WITH_AES_256_GCM_SHA384" : bytes);
   (0x00aa%N, "TLS_DHE_PSK_WITH_AES_128_GCM_SHA256" : bytes);
   (0x00ab%N, "TLS_DHE_PSK_WITH_AES_256_GCM_SHA384" : bytes);
   (0x00ac%N, "TLS_RSA_PSK_WITH_AES_128_GCM_SHA256" : bytes);
   (0x00ad%N, "TLS_RSA_PSK_WITH_AES_256_GCM_SHA384" : bytes);
   (0x00ae%N, "TLS_PSK_WITH_AES_128_CBC_SHA256" : bytes);
   (0x00af%N, "TLS_PSK_WITH_AES_256_CBC_SHA384" : bytes)].

Definition entries_2 : list (N * bytes) :=
  [(0x00b0%N, "TLS_PSK_WITH_NULL_SHA256" : bytes);
   (0x00b1%N, "TLS_PSK_WITH_NULL_SHA384" : bytes);
   (0x00b2%N, "TLS_DHE_PSK_WITH_AES_128_CBC_SHA256" : bytes);
   (0x00b3%N, "TLS_DHE_PSK_WITH_AES_256_CBC_SHA384" : bytes);
   (0x00b4%N, "TLS_DHE_PSK_WITH_NULL_SHA256" : bytes);
   (0x00b5%N, "TLS_DHE_PSK_WITH_NULL_SHA384" : bytes);
   (0x00b6%N, "TLS_RSA_PSK_WITH_AES_128_CBC_SHA256" : bytes);
   (0x00b7%N, "TLS_RSA_PSK_WITH_AES_256_CBC_SHA384" : bytes);
   (0x00b8%N, "TLS_RSA_PSK_WITH_NULL_SHA256" : bytes);
   (0x00b9%N, "TLS_RSA_PSK_WITH_NULL_SHA384" : bytes);
   (0x00ba%N, "TLS_RSA_WITH_CAMELLIA_128_CBC_SHA256" : bytes);
   (0x00bb%N, "TLS_DH_DSS_WITH_CAMELLIA_128_CBC_SHA256" : bytes);
   (0x00bc%N, "TLS_DH_RSA_WITH_CAMELLIA_128_CBC_SHA256" : bytes);
   (0x00bd%N, "TLS_DHE_DSS_WITH_CAMELLIA_128_CBC_SHA256" : bytes);
   (0x00be%N, "TLS_DHE_RSA_WITH_CAMELLIA_128_CBC_SHA256" : bytes);
   (0x00bf%N, "TLS_DH_anon_WITH_CAMELLIA_128_CBC_SHA256" : bytes);
   (0x00c0%N, "TLS_RSA_WITH_CAMELLIA_256_CBC_SHA256" : bytes);
   (0x00c1%N, "TLS_DH_DSS_WITH_CAMELLIA_256_CBC_SHA256" : bytes);
   (0x00c2%N, "TLS_DH_RSA_WITH_CAMELLIA_256_CBC_SHA256" : bytes);
   (0x00c3%N, "TLS_DHE_DSS_WITH_CAMELLIA_256_CBC_SHA256" : bytes);
   (0x00c4%N, "TLS_DHE_RSA_WITH_CAMELLIA_256_CBC_SHA256" : bytes);
   (0x00c5%N, "TLS_DH_anon_WITH_CAMELLIA_256_CBC_SHA256" : bytes);
   (0x00c6%N, "TLS_SM4_GCM_SM3" : bytes);
   (0x00c7%N, "TLS_SM4_CCM_SM3" : bytes);
   (0x00ff%N, "TLS_EMPTY_RENEGOTIATION_INFO_SCSV" : bytes);
   (0x1301%N, "TLS_AES_128_GCM_SHA256" : bytes);
   (0x1302%N, "TLS_AES_256_GCM_SHA384" : bytes);
   (0x1303%N, "TLS_CHACHA20_POLY1305_SHA256" : bytes);
   (0x1304%N, "TLS_AES_128_CCM_SHA256" : bytes);
   (0x1305%N, "TLS_AES_128_CCM_8_SHA256" : bytes);
   (0x1306%N, "TLS_AEGIS_256_SHA512" : bytes);
   (0x1307%N, "TLS_AEGIS_128L_SHA256" : bytes);
   (0x5600%N, "TLS_FALLBACK_SCSV" : bytes);
   (0xc001%N, "TLS_ECDH_ECDSA_WITH_NULL_SHA" : bytes);
   (0xc002%N, "TLS_ECDH_ECDSA_WITH_RC4_128_SHA" : bytes);
   (0xc003%N, "TLS_ECDH_ECDSA_WITH_3DES_EDE_CBC_SHA" : bytes);
   (0xc004%N, "TLS_ECDH_ECDSA_WITH_AES_128_CBC_SHA" : bytes);
   (0xc005%N, "TLS_ECDH_ECDSA_WITH_AES_256_CBC_SHA" : bytes);
   (0xc006%N, "TLS_ECDHE_ECDSA_WITH_NULL_SHA" : bytes);
   (0xc007%N, "TLS_ECDHE_ECDSA_WITH_RC4_128_SHA" : bytes);
   (0xc008%N, "TLS_ECDHE_ECDSA_WITH_3DES_EDE_CBC_SHA" : bytes);
   (0xc009%N, "TLS_ECDHE_ECDSA_WITH_AES_128_CBC_SHA" : bytes);
   (0xc00a%N, "TLS_ECDHE_ECDSA_WITH_AES_256_CBC_SHA" : bytes);
   (0xc00b%N, "TLS_ECDH_RSA_WITH_NULL_SHA" : bytes);
   (0xc00c%N, "TLS_ECDH_RSA_WITH_RC4_128_SHA" : bytes);
   (0xc00d%N, "TLS_ECDH_RSA_WITH_3DES_EDE_CBC_SHA" : bytes);
   (0xc00e%N, "TLS_ECDH_RSA_WITH_AES_128_CBC_SHA" : bytes);
   (0xc00f%N, "TLS_ECDH_RSA_WITH_AES_256_CBC_SHA" : bytes);
   (0xc010%N, "TLS_ECDHE_RSA_WITH_NULL_SHA" : bytes);
   (0xc011%N, "TLS_ECDHE_RSA_WITH_RC4_128_SHA" : bytes);
   (0xc012%N, "TLS_ECDHE_RSA_WITH_3DES_EDE_CBC_SHA" : bytes);
   (0xc013%N, "TLS_ECDHE_RSA_WITH_AES_128_CBC_SHA" : bytes);
   (0xc014%N, "TLS_ECDHE_RSA_WITH_AES_256_CBC_SHA" : bytes);
   (0xc015%N, "TLS_ECDH_anon_WITH_NULL_SHA" : bytes);
   (0xc016%N, "TLS_ECDH_anon_WITH_RC4_128_SHA" : bytes);
   (0xc017%N, "TLS_ECDH_anon_WITH_3DES_EDE_CBC_SHA" : bytes);
   (0xc018%N, "TLS_ECDH_anon_WITH_AES_128_CBC_SHA" : bytes);
   (0xc019%N, "TLS_ECDH_anon_WITH_AES_256_CBC_SHA" : bytes);
   (0xc01a%N, "TLS_SRP_SHA_WITH_3DES_EDE_CBC_SHA" : bytes);
   (0xc01b%N, "TLS_SRP_SHA_RSA_WITH_3DES_EDE_CBC_SHA" : bytes);
   (0xc01c%N, "TLS_SRP_SHA_DSS_WITH_3DES_EDE_CBC_SHA" : bytes);
   (0xc01d%N, "TLS_SRP_SHA_WITH_AES_128_CBC_SHA" : bytes);
   (0xc01e%N, "TLS_SRP_SHA_RSA_WITH_AES_128_CBC_SHA" : bytes);
   (0xc01f%N, "TLS_SRP_SHA_DSS_WITH_AES_128_CBC_SHA" : bytes);
   (0xc020%N, "TLS_SRP_SHA_WITH_AES_256_CBC_SHA" : bytes);
   (0xc021%N, "TLS_SRP_SHA_RSA_WITH_AES_256_CBC_SHA" : bytes);
   (0xc022%N, "TLS_SRP_SHA_DSS_WITH_AES_256_CBC_SHA" : bytes);
   (0xc023%N, "TLS_ECDHE_ECDSA_WITH_AES_128_CBC_SHA256" : bytes);
   (0xc024%N, "TLS_ECDHE_ECDSA_WITH_AES_256_CBC_SHA384" : bytes);
   (0xc025%N, "TLS_ECDH_ECDSA_WITH_AES_128_CBC_SHA256" : bytes);
   (0xc026%N, "TLS_ECDH_ECDSA_WITH_AES_256_CBC_SHA384" : bytes);
   (0xc027%N, "TLS_ECDHE_RSA_WITH_AES_128_CBC_SHA256" : bytes);
   (0xc028%N, "TLS_ECDHE_RSA_WITH_AES_256_CBC_SHA384" : bytes);
   (0xc029%N, "TLS_ECDH_RSA_WITH_AES_128_CBC_SHA256" : bytes);
   (0xc02a%N, "TLS_ECDH_RSA_WITH_AES_256_CBC_SHA384" : bytes);
   (0xc02b%N, "TLS_ECDHE_ECDSA_WITH_AES_128_GCM_SHA256" : bytes);
   (0xc02c%N, "TLS_ECDHE_ECDSA_WITH_AES_256_GCM_SHA384" : bytes);
   (0xc02d%N, "TLS_ECDH_ECDSA_WITH_AES_128_GCM_SHA256" : bytes);
   (0xc02e%N, "TLS_ECDH_ECDSA_WITH_AES_256_GCM_SHA384" : bytes);
   (0xc02f%N, "TLS_ECDHE_RSA_WITH_AES_128_GCM_SHA256" : bytes);
   (0xc030%N, "TLS_ECDHE_RSA_WITH_AES_256_GCM_SHA384" : bytes);
   (0xc031%N, "TLS_ECDH_RSA_WITH_AES_128_GCM_SHA256" : bytes);
   (0xc032%N, "TLS_ECDH_RSA_WITH_AES_256_GCM_SHA384" : bytes);
   (0xc033%N, "TLS_ECDHE_PSK_WITH_RC4_128_SHA" : bytes);
   (0xc034%N, "TLS_ECDHE_PSK_WITH_3DES_EDE_CBC_SHA" : bytes);
   (0xc035%N, "TLS_ECDHE_PSK_WITH_AES_128_CBC_SHA" : bytes);
   (0xc036%N, "TLS_ECDHE_PSK_WITH_AES_256_CBC_SHA" : bytes);
   (0xc037%N, "TLS_ECDHE_PSK_WITH_AES_128_CBC_SHA256" : bytes);
   (0xc038%N, "TLS_ECDHE_PSK_WITH_AES_256_CBC_SHA384" : bytes);
   (0xc039%N, "TLS_ECDHE_PSK_WITH_NULL_SHA" : bytes);
   (0xc03a%N, "TLS_ECDHE_PSK_WITH_NULL_SHA256" : bytes);
   (0xc03b%N, "TLS_ECDHE_PSK_WITH_NULL_SHA384" : bytes);
   (0xc03c%N, "TLS_RSA_WITH_ARIA_128_CBC_SHA256" : bytes);
   (0xc03d%N, "TLS_RSA_WITH_ARIA_256_CBC_SHA384" : bytes);
   (0xc03e%N, "TLS_DH_DSS_WITH_ARIA_128_CBC_SHA256" : bytes);
   (0xc03f%N, "TLS_DH_DSS_WITH_ARIA_256_CBC_SHA384" : bytes);
   (0xc040%N, "TLS_DH_RSA_WITH_ARIA_128_CBC_SHA256" : bytes);
   (0xc041%N, "TLS_DH_RSA_WITH_ARIA_256_CBC_SHA384" : bytes);
   (0xc042%N, "TLS_DHE_DSS_WITH_ARIA_128_CBC_SHA256" : bytes);
   (0xc043%N, "TLS_DHE_DSS_WITH_ARIA_256_CBC_SHA384" : bytes);
   (0xc044%N, "TLS_DHE_RSA_WITH_ARIA_128_CBC_SHA256" : bytes);
   (0xc045%N, "TLS_DHE_RSA_WITH_ARIA_256_CBC_SHA384" : bytes);
   (0xc046%N, "TLS_DH_anon_WITH_ARIA_128_CBC_SHA256" : bytes);
   (0xc047%N, "TLS_DH_anon_WITH_ARIA_256_CBC_SHA384" : bytes);
   (0xc048%N, "TLS_ECDHE_ECDSA_WITH_ARIA_128_CBC_SHA256" : bytes);
   (0xc049%N, "TLS_ECDHE_ECDSA_WITH_ARIA_256_CBC_SHA384" : bytes);
   (0xc04a%N, "TLS_ECDH_ECDSA_WITH_ARIA_128_CBC_SHA256" : bytes);
   (0xc04b%N, "TLS_ECDH_ECDSA_WITH_ARIA_256_CBC_SHA384" : bytes);
   (0xc04c%N, "TLS_ECDHE_RSA_WITH_ARIA_128_CBC_SHA256" : bytes);
   (0xc04d%N, "TLS_ECDHE_RSA_WITH_ARIA_256_CBC_SHA384" : bytes);
   (0xc04e%N, "TLS_ECDH_RSA_WITH_ARIA_128_CBC_SHA256" : bytes);
   (0xc04f%N, "TLS_ECDH_RSA_WITH_ARIA_256_CBC_SHA384" : bytes);
   (0xc050%N, "TLS_RSA_WITH_ARIA_128_GCM_SHA256" : bytes);
   (0xc051%N, "TLS_RSA_WITH_ARIA_256_GCM_SHA384" : bytes);
   (0xc052%N, "TLS_DHE_RSA_WITH_ARIA_128_GCM_SHA256" : bytes);
   (0xc053%N, "TLS_DHE_RSA_WITH_ARIA_256_GCM_SHA384" : bytes);
   (0xc054%N, "TLS_DH_RSA_WITH_ARIA_128_GCM_SHA256" : bytes);
   (0xc055%N, "TLS_DH_RSA_WITH_ARIA_256_GCM_SHA384" : bytes);
   (0xc056%N, "TLS_DHE_DSS_WITH_ARIA_128_GCM_SHA256" : bytes);
   (0xc057%N, "TLS_DHE_DSS_WITH_ARIA_256_GCM_SHA384" : bytes)].

Definition entries_3 : list (N * bytes) :=
  [(0xc058%N, "TLS_DH_DSS_WITH_ARIA_128_GCM_SHA256" : bytes);
   (0xc059%N, "TLS_DH_DSS_WITH_ARIA_256_GCM_SHA384" : bytes);
   (0xc05a%N, "TLS_DH_anon_WITH_ARIA_128_GCM_SHA256" : bytes);
   (0xc05b%N, "TLS_DH_anon_WITH_ARIA_256_GCM_SHA384" : bytes);
   (0xc05c%N, "TLS_ECDHE_ECDSA_WITH_ARIA_128_GCM_SHA256" : bytes);
   (0xc05d%N, "TLS_ECDHE_ECDSA_WITH_ARIA_256_GCM_SHA384" : bytes);
   (0xc05e%N, "TLS_ECDH_ECDSA_WITH_ARIA_128_GCM_SHA256" : bytes);
   (0xc05f%N, "TLS_ECDH_ECDSA_WITH_ARIA_256_GCM_SHA384" : bytes);
   (0xc060%N, "TLS_ECDHE_RSA_WITH_ARIA_128_GCM_SHA256" : bytes);
   (0xc061%N, "TLS_ECDHE_RSA_WITH_ARIA_256_GCM_SHA384" : bytes);
   (0xc062%N, "TLS_ECDH_RSA_WITH_ARIA_128_GCM_SHA256" : bytes);
   (0xc063%N, "TLS_ECDH_RSA_WITH_ARIA_256_GCM_SHA384" : bytes);
   (0xc064%N, "TLS_PSK_WITH_ARIA_128_CBC_SHA256" : bytes);
   (0xc065%N, "TLS_PSK_WITH_ARIA_256_CBC_SHA384" : bytes);
   (0xc066%N, "TLS_DHE_PSK_WITH_ARIA_128_CBC_SHA256" : bytes);
   (0xc067%N, "TLS_DHE_PSK_WITH_ARIA_256_CBC_SHA384" : bytes);
   (0xc068%N, "TLS_RSA_PSK_WITH_ARIA_128_CBC_SHA256" : bytes);
   (0xc069%N, "TLS_RSA_PSK_WITH_ARIA_256_CBC_SHA384" : bytes);
   (0xc06a%N, "TLS_PSK_WITH_ARIA_128_GCM_SHA256" : bytes);
   (0xc06b%N, "TLS_PSK_WITH_ARIA_256_GCM_SHA384" : bytes);
   (0xc06c%N, "TLS_DHE_PSK_WITH_ARIA_128_GCM_SHA256" : bytes);
   (0xc06d%N, "TLS_DHE_PSK_WITH_ARIA_256_GCM_SHA384" : bytes);
   (0xc06e%N, "TLS_RSA_PSK_WITH_ARIA_128_GCM_SHA256" : bytes);
   (0xc06f%N, "TLS_RSA_PSK_WITH_ARIA_256_GCM_SHA384" : bytes);
   (0xc070%N, "TLS_ECDHE_PSK_WITH_ARIA_128_CBC_SHA256" : bytes);
   (0xc071%N, "TLS_ECDHE_PSK_WITH_ARIA_256_CBC_SHA384" : bytes);
   (0xc072%N, "TLS_ECDHE_ECDSA_WITH_CAMELLIA_128_CBC_SHA256" : bytes);
   (0xc073%N, "TLS_ECDHE_ECDSA_WITH_CAMELLIA_256_CBC_SHA384" : bytes);
   (0xc074%N, "TLS_ECDH_ECDSA_WITH_CAMELLIA_128_CBC_SHA256" : bytes);
   (0xc075%N, "TLS_ECDH_ECDSA_WITH_CAMELLIA_256_CBC_SHA384" : bytes);
   (0xc076%N, "TLS_ECDHE_RSA_WITH_CAMELLIA_128_CBC_SHA256" : bytes);
   (0xc077%N, "TLS_ECDHE_RSA_WITH_CAMELLIA_256_CBC_SHA384" : bytes);
   (0xc078%N, "TLS_ECDH_RSA_WITH_CAMELLIA_128_CBC_SHA256" : bytes);
   (0xc079%N, "TLS_ECDH_RSA_WITH_CAMELLIA_256_CBC_SHA384" : bytes);
   (0xc07a%N, "TLS_RSA_WITH_CAMELLIA_128_GCM_SHA256" : bytes);
   (0xc07b%N, "TLS_RSA_WITH_CAMELLIA_256_GCM_SHA384" : bytes);
   (0xc07c%N, "TLS_DHE_RSA_WITH_CAMELLIA_128_GCM_SHA256" : bytes);
   (0xc07d%N, "TLS_DHE_RSA_WITH_CAMELLIA_256_GCM_SHA384" : bytes);
   (0xc07e%N, "TLS_DH_RSA_WITH_CAMELLIA_128_GCM_SHA256" : bytes);
   (0xc07f%N, "TLS_DH_RSA_WITH_CAMELLIA_256_GCM_SHA384" : bytes);
   (0xc080%N, "TLS_DHE_DSS_WITH_CAMELLIA_128_GCM_SHA256" : bytes);
   (0xc081%N, "TLS_DHE_DSS_WITH_CAMELLIA_256_GCM_SHA384" : bytes);
   (0xc082%N, "TLS_DH_DSS_WITH_CAMELLIA_128_GCM_SHA256" : bytes);
   (0xc083%N, "TLS_DH_DSS_WITH_CAMELLIA_256_GCM_SHA384" : bytes);
   (0xc084%N, "TLS_DH_anon_WITH_CAMELLIA_128_GCM_SHA256" : bytes);
   (0xc085%N, "TLS_DH_anon_WITH_CAMELLIA_256_GCM_SHA384" : bytes);
   (0xc086%N, "TLS_ECDHE_ECDSA_WITH_CAMELLIA_128_GCM_SHA256" : bytes);
   (0xc087%N, "TLS_ECDHE_ECDSA_WITH_CAMELLIA_256_GCM_SHA384" : bytes);
   (0xc088%N, "TLS_ECDH_ECDSA_WITH_CAMELLIA_128_GCM_SHA256" : bytes);
   (0xc089%N, "TLS_ECDH_ECDSA_WITH_CAMELLIA_256_GCM_SHA384" : bytes);
   (0xc08a%N, "TLS_ECDHE_RSA_WITH_CAMELLIA_128_GCM_SHA256" : bytes);
   (0xc08b%N, "TLS_ECDHE_RSA_WITH_CAMELLIA_256_GCM_SHA384" : bytes);
   (0xc08c%N, "TLS_ECDH_RSA_WITH_CAMELLIA_128_GCM_SHA256" : bytes);
   (0xc08d%N, "TLS_ECDH_RSA_WITH_CAMELLIA_256_GCM_SHA384" : bytes);
   (0xc08e%N, "TLS_PSK_WITH_CAMELLIA_128_GCM_SHA256" : bytes);
   (0xc08f%N, "TLS_PSK_WITH_CAMELLIA_256_GCM_SHA384" : bytes);
   (0xc090%N, "TLS_DHE_PSK_WITH_CAMELLIA_128_GCM_SHA256" : bytes);
   (0xc091%N, "TLS_DHE_PSK_WITH_CAMELLIA_256_GCM_SHA384" : bytes);
   (0xc092%N, "TLS_RSA_PSK_WITH_CAMELLIA_128_GCM_SHA256" : bytes);
   (0xc093%N, "TLS_RSA_PSK_WITH_CAMELLIA_256_GCM_SHA384" : bytes);
   (0xc094%N, "TLS_PSK_WITH_CAMELLIA_128_CBC_SHA256" : bytes);
   (0xc095%N, "TLS_PSK_WITH_CAMELLIA_256_CBC_SHA384" : bytes);
   (0xc096%N, "TLS_DHE_PSK_WITH_CAMELLIA_128_CBC_SHA256" : bytes);
   (0xc097%N, "TLS_DHE_PSK_WITH_CAMELLIA_256_CBC_SHA384" : bytes);
   (0xc098%N, "TLS_RSA_PSK_WITH_CAMELLIA_128_CBC_SHA256" : bytes);
   (0xc099%N, "TLS_RSA_PSK_WITH_CAMELLIA_256_CBC_SHA384" : bytes);
   (0xc09a%N, "TLS_ECDHE_PSK_WITH_CAMELLIA_128_CBC_SHA256" : bytes);
   (0xc09b%N, "TLS_ECDHE_PSK_WITH_CAMELLIA_256_CBC_SHA384" : bytes);
   (0xc09c%N, "TLS_RSA_WITH_AES_128_CCM" : bytes);
   (0xc09d%N, "TLS_RSA_WITH_AES_256_CCM" : bytes);
   (0xc09e%N, "TLS_DHE_RSA_WITH_AES_128_CCM" : bytes);
   (0xc09f%N, "TLS_DHE_RSA_WITH_AES_256_CCM" : bytes);
   (0xc0a0%N, "TLS_RSA_WITH_AES_128_CCM_8" : bytes);
   (0xc0a1%N, "TLS_RSA_WITH_AES_256_CCM_8" : bytes);
   (0xc0a2%N, "TLS_DHE_RSA_WITH_AES_128_CCM_8" : bytes);
   (0xc0a3%N, "TLS_DHE_RSA_WITH_AES_256_CCM_8" : bytes);
   (0xc0a4%N, "TLS_PSK_WITH_AES_128_CCM" : bytes);
   (0xc0a5%N, "TLS_PSK_WITH_AES_256_CCM" : bytes);
   (0xc0a6%N, "TLS_DHE_PSK_WITH_AES_128_CCM" : bytes);
   (0xc0a7%N, "TLS_DHE_PSK_WITH_AES_256_CCM" : bytes);
   (0xc0a8%N, "TLS_PSK_WITH_AES_128_CCM_8" : bytes);
   (0xc0a9%N, "TLS_PSK_WITH_AES_256_CCM_8" : bytes);
   (0xc0aa%N, "TLS_PSK_DHE_WITH_AES_128_CCM_8" : bytes);
   (0xc0ab%N, "TLS_PSK_DHE_WITH_AES_256_CCM_8" : bytes);
   (0xc0ac%N, "TLS_ECDHE_ECDSA_WITH_AES_128_CCM" : bytes);
   (0xc0ad%N, "TLS_ECDHE_ECDSA_WITH_AES_256_CCM" : bytes);
   (0xc0ae%N, "TLS_ECDHE_ECDSA_WITH_AES_128_CCM_8" : bytes);
   (0xc0af%N, "TLS_ECDHE_ECDSA_WITH_AES_256_CCM_8" : bytes);
   (0xc0b0%N, "TLS_ECCPWD_WITH_AES_128_GCM_SHA256" : bytes);
   (0xc0b1%N, "TLS_ECCPWD_WITH_AES_256_GCM_SHA384" : bytes);
   (0xc0b2%N, "TLS_ECCPWD_WITH_AES_128_CCM_SHA256" : bytes);
   (0xc0b3%N, "TLS_ECCPWD_WITH_AES_256_CCM_SHA384" : bytes);
   (0xc0b4%N, "TLS_SHA256_SHA256" : bytes);
   (0xc0b5%N, "TLS_SHA384_SHA384" : bytes);
   (0xc100%N, "TLS_GOSTR341112_256_WITH_KUZNYECHIK_CTR_OMAC" : bytes);
   (0xc101%N, "TLS_GOSTR341112_256_WITH_MAGMA_CTR_OMAC" : bytes);
   (0xc102%N, "TLS_GOSTR341112_256_WITH_28147_CNT_IMIT" : bytes);
   (0xc103%N, "TLS_GOSTR341112_256_WITH_KUZNYECHIK_MGM_L" : bytes);
   (0xc104%N, "TLS_GOSTR341112_256_WITH_MAGMA_MGM_L" : bytes);
   (0xc105%N, "TLS_GOSTR341112_256_WITH_KUZNYECHIK_MGM_S" : bytes);
   (0xc106%N, "TLS_GOSTR341112_256_WITH_MAGMA_MGM_S" : bytes);
   (0xcca8%N, "TLS_ECDHE_RSA_WITH_CHACHA20_POLY1305_SHA256" : bytes);
   (0xcca9%N, "TLS_ECDHE_ECDSA_WITH_CHACHA20_POLY1305_SHA256" : bytes);
   (0xccaa%N, "TLS_DHE_RSA_WITH_CHACHA20_POLY1305_SHA256" : bytes);
   (0xccab%N, "TLS_PSK_WITH_CHACHA20_POLY1305_SHA256" : bytes);
   (0xccac%N, "TLS_ECDHE_PSK_WITH_CHACHA20_POLY1305_SHA256" : bytes);
   (0xccad%N, "TLS_DHE_PSK_WITH_CHACHA20_POLY1305_SHA256" : bytes);
   (0xccae%N, "TLS_RSA_PSK_WITH_CHACHA20_POLY1305_SHA256" : bytes);
   (0xd001%N, "TLS_ECDHE_PSK_WITH_AES_128_GCM_SHA256" : bytes);
   (0xd002%N, "TLS_ECDHE_PSK_WITH_AES_256_GCM_SHA384" : bytes);
   (0xd003%N, "TLS_ECDHE_PSK_WITH_AES_128_CCM_8_SHA256" : bytes);
   (0xd005%N, "TLS_ECDHE_PSK_WITH_AES_128_CCM_SHA256" : bytes)].

Definition entries : list (N * bytes) := entries_1 ++ entries_2 ++ entries_3.

Definition cipherSuiteName : gmap N bytes := list_to_map entries.

(** No code is listed twice, so each has the name that is next to it, and they
    are all of 16 bits. *)
Lemma codes_NoDup : NoDup entries.*1.
Proof. apply (bool_decide_eq_true_1 _). vm_compute. reflexivity. Qed.

Lemma codes_16bit : Forall (λ c, c < 65536)%N entries.*1.
Proof. apply (bool_decide_eq_true_1 _). vm_compute. reflexivity. Qed.

Lemma names_NoDup : NoDup entries.*2.
Proof. apply (bool_decide_eq_true_1 _). vm_compute. reflexivity. Qed.

Lemma CipherSuiteName_listed code name :
  (code, name) ∈ entries → TlsConst.CipherSuiteName cipherSuiteName code = name.
Proof.
  intros Hin. unfold TlsConst.CipherSuiteName, cipherSuiteName.
  by rewrite (elem_of_list_to_map_1 _ _ _ codes_NoDup Hin).
Qed.

(** Different suites are shown as different names. *)
Lemma CipherSuiteName_inj c1 n1 c2 n2 :
  (c1, n1) ∈ entries → (c2, n2) ∈ entries →
  TlsConst.CipherSuiteName cipherSuiteName c1 = TlsConst.CipherSuiteName cipherSuiteName c2 →
  c1 = c2.
Proof.
  intros H1 H2. rewrite (CipherSuiteName_listed _ _ H1), (CipherSuiteName_listed _ _ H2). intros <-.
  apply list_elem_of_lookup in H1 as [i Hi], H2 as [j Hj].
  assert (i = j) as ->; [|congruence].
  eapply (NoDup_lookup entries.*2); [apply names_NoDup|..]; by rewrite list_lookup_fmap, ?Hi, ?Hj.
Qed.

End TlsCiphers.
