(* ===== verification/ConnText.v ===== *)
(** Properties of the texts the SMTP connection handler produces and
    inspects: responses, the output of the post-data hook, the EHLO domain
    given to it. *)

From S2P Require Import Prelude GoStrings Envelope Conn.
#[local] Open Scope go_scope.

Module ConnText.
Import Smtpsrv.

(** ** Responses *)

(** The format of RFC 5321, section 4.2.1: all the lines but the last have a
    dash after the code. *)
Definition reply_text (code : Z) (ls : list bytes) (l : bytes) : bytes :=
  concat ((λ x, Itoa code ++ "-" ++ x ++ CRLF) <$> ls)
    ++ Itoa code ++ " " ++ l ++ CRLF.

Lemma response_lines_terminated code ls l :
  response_lines code (ls ++ [l; []]) = reply_text code ls l.
Proof.
  unfold reply_text. induction ls as [|x ls IH]; [done|].
  rewrite fmap_cons, concat_cons, <- !app_assoc, <- IH.
  by destruct ls as [|y [|z ls]].
Qed.

(** Responses follow the format of the protocol: a message made of
    newline-terminated lines is sent as a multi-line reply with all of its
    lines, and a message without newlines as a one-line reply. *)
Theorem writeResponse_format code ls l :
  Forall (λ x, LF ∉ x) (ls ++ [l]) →
  writeResponse_text code (concat ((λ x, x ++ [LF]) <$> ls ++ [l]))
    = reply_text code ls l ∧
  writeResponse_text code l = reply_text code [] l.
Proof.
  intros Hls. unfold writeResponse_text. split.
  - rewrite Split_terminated by done. rewrite <- app_assoc.
    apply response_lines_terminated.
  - apply Forall_app in Hls as [_ Hl]. rewrite Forall_singleton in Hl.
    rewrite Split_eq by done. by rewrite (proj2 (Cut_byte_None l LF) Hl).
Qed.

Lemma writeResponse_format_witness :
  writeResponse_text 250 ("a" ++ [LF] ++ "b" ++ [LF] ++ "c" ++ [LF]) =
    "250-a" ++ CRLF ++ "250-b" ++ CRLF ++ "250 c" ++ CRLF.
Proof.
  exact (proj1 (writeResponse_format 250 ["a"; "b"] "c"
    ltac:(by apply (bool_decide_eq_true_1 _)))).
Defined.

(** The last line of a message that has several, but no final newline, is
    not sent. *)
Lemma writeResponse_drops_unterminated code ls l rest :
  Forall (λ x, LF ∉ x) (ls ++ [l]) → LF ∉ rest →
  writeResponse_text code
    (concat ((λ x, x ++ [LF]) <$> ls ++ [l]) ++ rest) = reply_text code ls l.
Proof.
  intros Hls Hrest. unfold writeResponse_text.
  assert (concat ((λ x, x ++ [LF]) <$> ls ++ [l]) ++ rest =
          Join ((ls ++ [l]) ++ [rest]) [LF]) as ->.
  { clear Hls. induction (ls ++ [l]) as [|x xs IH]; [done|].
    rewrite fmap_cons, concat_cons, <- !app_assoc, IH.
    change ((x :: xs) ++ [rest]) with (x :: (xs ++ [rest])).
    rewrite Join_cons by (by destruct xs). done. }
  rewrite Split_Join_byte.
  - unfold reply_text. clear Hls. rewrite <- app_assoc.
    induction ls as [|x ls IH]; [done|].
    rewrite fmap_cons, concat_cons, <- !app_assoc.
    rewrite <- IH. by destruct ls as [|y [|z ls]].
  - by destruct ls.
  - apply Forall_app. split; [done|]. by apply Forall_singleton.
Qed.

(** ** The output of the post-data hook *)

Definition continuation (l : bytes) : Prop :=
  ∃ r, l = SP :: r ∨ l = TAB :: r.

(** Lines that can go before a message without ending its header: the first
    one starts a field, and each of the rest starts or continues one. *)
Definition header_block (ls : list bytes) : Prop :=
  match ls with
  | [] => True
  | l :: _ =>
    ¬ continuation l ∧
    Forall (λ l, continuation l ∨ ":"%char ∈ l) ls
  end.

Lemma HasPrefix_byte l c : HasPrefix l [c] = true ↔ ∃ r, l = c :: r.
Proof. rewrite HasPrefix_spec. done. Qed.

(** What the loop requires of one line, given with its newline. *)
Lemma line_kind l :
  HasPrefix (l ++ [LF]) " " || HasPrefix (l ++ [LF]) [TAB] = true ↔
  continuation l.
Proof.
  unfold continuation. rewrite orb_true_iff, !HasPrefix_byte. split.
  - intros [[r Hr]|[r Hr]]; destruct l as [|c l]; try discriminate;
      injection Hr as -> _; eauto.
  - intros [r [-> | ->]]; simpl; eauto.
Qed.

Lemma header_lines_cons seen l ls :
  header_lines seen ((l ++ [LF]) :: ls) = true →
  (continuation l ∧ seen = true ∧ header_lines seen ls = true) ∨
  (¬ continuation l ∧ ":"%char ∈ l ∧ header_lines true ls = true).
Proof.
  simpl. rewrite (bool_decide_eq_false_2 (l ++ [LF] = [])) by (by destruct l).
  destruct (HasPrefix (l ++ [LF]) " " || HasPrefix (l ++ [LF]) [TAB]) eqn:Ek.
  - apply line_kind in Ek. destruct seen; [|done]. simpl. auto.
  - assert (Hk : ¬ continuation l) by (intros Hk; apply line_kind in Hk; congruence).
    rewrite Contains_byte. case_bool_decide as Hc; [|done]. simpl.
    right. split; [done|]. split; [|done].
    rewrite elem_of_app in Hc. destruct Hc as [Hc|Hc]; [done|]. set_solver.
Qed.

Lemma header_lines_rest ls :
  header_lines true (((λ l, l ++ [LF]) <$> ls) ++ [[]]) = true →
  Forall (λ l, continuation l ∨ ":"%char ∈ l) ls.
Proof.
  induction ls as [|l ls IH]; intros Hl; [constructor|].
  rewrite fmap_cons in Hl.
  apply header_lines_cons in Hl as [(? & _ & Hl)|(? & ? & Hl)];
    constructor; auto.
Qed.

Lemma header_lines_block ls :
  header_lines false (((λ l, l ++ [LF]) <$> ls) ++ [[]]) = true →
  header_block ls.
Proof.
  destruct ls as [|l ls]; intros Hl; [done|]. rewrite fmap_cons in Hl.
  apply header_lines_cons in Hl as [(_ & ? & _)|(? & ? & Hl)]; [done|].
  split; [done|]. constructor; [by right|]. by apply header_lines_rest.
Qed.

Lemma add_sep_terminated (ls : list bytes) sep :
  add_sep (ls ++ [[]]) sep = ((λ l, l ++ sep) <$> ls) ++ [[]].
Proof.
  induction ls as [|l ls IH]; [done|]. rewrite fmap_cons. simpl in *.
  rewrite <- IH. by destruct ls.
Qed.

(** The output of the post-data hook is only used when it cannot break
    the message: [isHeader] accepts nothing but sequences of complete,
    non-empty lines that form header fields, so that whatever is put after
    them is still in the header. *)
Theorem isHeader_sound b :
  isHeader b = true →
  ∃ ls, b = concat ((λ l, l ++ [LF]) <$> ls) ∧
        Forall (λ l, LF ∉ l) ls ∧ Forall (λ l, l ≠ []) ls ∧ header_block ls.
Proof.
  unfold isHeader. case_bool_decide as Hb.
  { intros _. exists []. destruct b; [|done]. repeat split; constructor. }
  destruct ((b == [LF]) || Contains b [LF; LF]); [done|].
  destruct (bool_decide (last b = Some LF)) eqn:Hlast; simpl; [|done].
  apply bool_decide_eq_true in Hlast.
  apply last_Some in Hlast as [b' ->].
  pose proof (Split_byte_Forall b' LF) as Hf.
  pose proof (Join_Split b' [LF] ltac:(done)) as HJ.
  pose proof (Split_not_nil b' [LF] ltac:(done)) as Hnn.
  set (ls := Split b' [LF]) in *.
  assert (b' ++ [LF] = concat ((λ l, l ++ [LF]) <$> ls)) as ->.
  { rewrite <- HJ. clear -Hnn. induction ls as [|l ls IH]; [done|].
    destruct ls as [|l' ls]; [simpl; by rewrite (right_id_L [] (++))|].
    rewrite Join_cons by done. rewrite fmap_cons, concat_cons, <- IH by done.
    by rewrite <- !app_assoc. }
  unfold SplitAfter. rewrite Split_terminated, add_sep_terminated by done.
  intros Hh. apply header_lines_block in Hh.
  exists ls. split; [done|]. split; [done|]. split; [|done].
  destruct ls as [|l ls']; [done|]. destruct Hh as [_ Hh].
  eapply Forall_impl; [exact Hh|]. intros x [[r [-> | ->]]|Hx]; try done.
  by destruct x; [apply elem_of_nil in Hx|].
Qed.

Lemma isHeader_sound_witness :
  ∃ ls, "X-Spam: no" ++ [LF; TAB] ++ "score=1" ++ [LF]
          = concat ((λ l, l ++ [LF]) <$> ls) ∧ header_block ls.
Proof.
  destruct (isHeader_sound ("X-Spam: no" ++ [LF; TAB] ++ "score=1" ++ [LF])
    ltac:(reflexivity)) as (ls & E & _ & _ & Hb).
  exists ls. split; [exact E|exact Hb].
Defined.

(** ** The EHLO domain *)

Definition shell_safe (c : ascii) : bool := ehlo_allowed (Utf8.bval c).

Lemma allowed_ascii r : ehlo_allowed r = true → (r < 128)%N.
Proof.
  unfold ehlo_allowed, in_range. rewrite !orb_true_iff, !andb_true_iff.
  rewrite !N.leb_le, !N.eqb_eq. lia.
Qed.

Lemma encode_allowed r :
  ehlo_allowed r = true →
  Utf8.encode r = [ascii_of_N r] ∧ Utf8.bval (ascii_of_N r) = r.
Proof.
  intros Hr. by apply encode_low, allowed_ascii.
Qed.

Lemma sanitize_concat rs n :
  foldl (λ n c, if ehlo_allowed c then n ++ Utf8.encode c else n) n rs
    = n ++ (ascii_of_N <$> filter (λ r, ehlo_allowed r = true) rs).
Proof.
  revert n. induction rs as [|r rs IH]; intros n; simpl.
  { by rewrite (right_id_L [] (++)). }
  rewrite IH. destruct (ehlo_allowed r) eqn:Er.
  - rewrite filter_cons_True by done.
    rewrite (proj1 (encode_allowed r Er)). by rewrite <- app_assoc.
  - by rewrite filter_cons_False by congruence.
Qed.

Lemma shell_safe_ascii s : forallb shell_safe s = true → forallb Utf8.is_ascii s = true.
Proof.
  rewrite !forallb_forall. intros Hs x Hx. specialize (Hs x Hx).
  apply allowed_ascii in Hs. by apply N.ltb_lt.
Qed.

(** The EHLO domain that the hook gets in EHLO_DOMAIN is safe in a shell
    script, whatever the client said: it has letters, digits, and []-.: only;
    and a domain made of these is passed on unchanged. *)
Theorem sanitizeEHLODomain_safe s :
  forallb shell_safe (sanitizeEHLODomain s) = true ∧
  (forallb shell_safe s = true → sanitizeEHLODomain s = s).
Proof.
  unfold sanitizeEHLODomain. rewrite sanitize_concat. simpl. split.
  - rewrite forallb_forall. intros c Hc.
    apply list_elem_of_In, list_elem_of_fmap in Hc as (r & -> & Hr).
    apply list_elem_of_filter in Hr as [Hr _].
    unfold shell_safe. by rewrite (proj2 (encode_allowed r Hr)).
  - intros Hs. unfold Utf8.runes.
    rewrite chunks_ascii by (by apply shell_safe_ascii).
    induction s as [|c s IH]; [done|]. simpl in Hs.
    apply andb_true_iff in Hs as [Hc Hs]. rewrite !fmap_cons. simpl fst.
    rewrite filter_cons_True by done. rewrite fmap_cons.
    rewrite IH by done. unfold Utf8.bval. by rewrite ascii_N_embedding.
Qed.

End ConnText.
