(* ===== verification/ConnProps.v ===== *)
(** Properties of the SMTP connection handler modelled in [Conn.v]. *)

From S2P Require Import Prelude GoStrings Envelope DotReader Aliases Store.
From S2P Require Import DomainInfo Auth Haproxy Conn.
#[local] Open Scope go_scope.

Module ConnProps.
Import DotReader Smtpsrv.

Section ConnProps.
Context `{Unicode, Precis, NetMail, NetIP, AliasWorld, ErrorText}.
Context `{ProtoText DomainInfo.Domain}.
Context {B : Type} `{Auth.Backend B}.
Context {Q : Type} `{MailQueue Q}.
Context {Signer VerifyResult : Type} `{Dkim Signer VerifyResult}.

#[local] Abbreviation Conn := (Conn (B := B) (Q := Q) (Signer := Signer)
                                 (VerifyResult := VerifyResult)).
#[local] Abbreviation Config := (Config (B := B) (Signer := Signer)).

(** ** Termination *)

(** The input that is left: in the reader, and in the TLS connections that
    may still replace it. *)
Definition handshake_input (h : res bytes (ConnectionState * reader)) : nat :=
  match h with
  | Ok (_, r) => length (pending r)
  | Err _ => 0
  end.

Definition input_left (c : Conn) : nat :=
  length (pending (rd c)) + sum_list_with handshake_input (handshakes c).

Lemma readLine_input c c' r :
  readLine c = (c', r) →
  input_left c' ≤ input_left c ∧
  (pending (rd c) ≠ [] → input_left c' < input_left c) ∧
  (pending (rd c) = [] → r = Err (ReadEnd (ending (rd c)))) ∧
  handshakes c' = handshakes c.
Proof.
  unfold readLine, input_left.
  destruct (pending (rd c)) as [|b p] eqn:Ep.
  { intros [= <- <-]. rewrite Ep. repeat split; naive_solver lia. }
  destruct (Cut (b :: p) [LF]) as [[l rest]|] eqn:Ec;
    [apply (f_equal (@length ascii)) in Ep; pose proof (Cut_Some _ _ _ _ Ec) as El;
     apply (f_equal (@length ascii)) in El; rewrite !length_app in El|];
    case_bool_decide; intros [= <- <-]; simpl in *; rewrite ?Ep;
    repeat split; simpl; try lia; done.
Qed.

Lemma loop_rest max s d fin b err rest :
  DotReader.loop max s d fin = (b, err, rest) → length rest ≤ length d.
Proof.
  revert s. induction d as [|x d IH]; intros s; simpl; [by intros [= _ _ <-]|].
  destruct (step max s x) as [s'|s'|b' e'].
  - intros E. apply IH in E. lia.
  - case_match; intros [= _ _ <-]; lia.
  - intros [= _ _ <-]. lia.
Qed.

Lemma readUntilDot_input r max b err r' :
  readUntilDot r max = (b, err, r') →
  length (pending r') ≤ length (pending r).
Proof.
  unfold readUntilDot.
  destruct (DotReader.loop _ _ _ _) as [[b1 e1] rest] eqn:E.
  intros [= _ _ <-]. by apply loop_rest in E.
Qed.

(** Parts of a connection that a definition leaves alone. *)
Definition same_input (c c' : Conn) : Prop :=
  rd c' = rd c ∧ handshakes c' = handshakes c.

Lemma same_input_left c c' : same_input c c' → input_left c' = input_left c.
Proof. intros [E1 E2]. unfold input_left. by rewrite E1, E2. Qed.

Lemma writeResponse_same c code msg c' err :
  writeResponse c code msg = (c', err) → same_input c c'.
Proof.
  unfold writeResponse. destruct (write_flush _ _). by intros [= <- _].
Qed.

Lemma check_sender_same e c raw c' r :
  check_sender e c raw = (c', r) → same_input c c'.
Proof.
  unfold check_sender, secLevelCheck. intros E.
  repeat case_match; simplify_eq; done.
Qed.

Lemma dkim_sign_loop_same e signers c c' err :
  dkim_sign_loop e signers c = (c', err) → same_input c c'.
Proof.
  revert c. induction signers as [|s ss IH]; intros c; simpl;
    [by intros [= <- _]|].
  destruct (dkim_Sign _ _ _); [|by intros [= <- _]].
  intros E. by apply IH in E.
Qed.

Lemma addReceivedHeader_same e c : same_input c (addReceivedHeader e c).
Proof. unfold addReceivedHeader. repeat case_match; simplify_eq; done. Qed.

Lemma data_queue_same e c c' o : data_queue e c = (c', o) → same_input c c'.
Proof.
  unfold data_queue. pose proof (addReceivedHeader_same e c) as HA.
  destruct (runPostDataHook _ _ _) as [out|[perm msg]]; [|by intros [= <- _]].
  destruct (q_Put _ _ _ _) as [q [id|err]]; intros [= <- _]; exact HA.
Qed.

Lemma same_input_trans c1 c2 c3 :
  same_input c1 c2 → same_input c2 c3 → same_input c1 c3.
Proof. unfold same_input. intros [-> ->]. done. Qed.

Lemma data_message_same e c c' o :
  data_message e c = (c', o) → same_input c c'.
Proof.
  unfold data_message, dkimSign, dkimVerify. intros E.
  repeat case_match; simplify_eq;
    repeat match goal with
    | E : dkim_sign_loop _ _ _ = _ |- _ => apply dkim_sign_loop_same in E
    | E : data_queue _ _ = _ |- _ => apply data_queue_same in E
    end; eauto using same_input_trans; done.
Qed.

Lemma DATA_input e c c' o : DATA e c = (c', o) → input_left c' ≤ input_left c.
Proof.
  unfold DATA. do 3 (case_match; [by intros [= <- _]|]).
  destruct (writeResponse c 354 _) as [c1 [err|]] eqn:E1;
    apply writeResponse_same, same_input_left in E1 as <-;
    [by intros [= <- _]|].
  destruct (readUntilDot _ _) as [[d err] r] eqn:E2.
  apply readUntilDot_input in E2.
  set (c2 := set_data _ _).
  assert (input_left c2 ≤ input_left c1) by (unfold input_left; simpl; lia).
  destruct err as [[]|]; try (by intros [= <- _]).
  - destruct (writeResponse c2 521 _) as [c3 err] eqn:E3.
    apply writeResponse_same, same_input_left in E3. intros [= <- _]. lia.
  - intros E. apply data_message_same, same_input_left in E. lia.
Qed.

Lemma STARTTLS_input c c' o : STARTTLS c = (c', o) → input_left c' ≤ input_left c.
Proof.
  unfold STARTTLS. case_match; [by intros [= <- _]|].
  destruct (writeResponse c 220 _) as [c1 [err|]] eqn:E1;
    apply writeResponse_same, same_input_left in E1 as <-;
    [by intros [= <- _]|].
  unfold input_left. destruct (handshakes c1) as [|[[st r]|err] hs] eqn:Eh;
    intros [= <- _]; simpl; rewrite ?Eh; simpl; lia.
Qed.

Lemma auth_response_input c params c' r :
  auth_response c params = (c', r) → input_left c' ≤ input_left c.
Proof.
  unfold auth_response.
  assert (HW : ∀ c1 : Conn, match writeResponse c 334 "" with
    | (c, Some err) => (c, Err (Reply 554 ("5.4.0 Error writing AUTH 334: " ++ err)))
    | (c, None) =>
      match readLine c with
      | (c, Err err) =>
        (c, Err (Reply 554
          ("5.4.0 Error reading AUTH response: " ++ read_error_text err)))
      | (c, Ok response) => (c, Ok response)
      end
    end = (c1, r) → input_left c1 ≤ input_left c).
  { intros c1. destruct (writeResponse c 334 _) as [c2 [err|]] eqn:E1;
      apply writeResponse_same, same_input_left in E1 as <-;
      [by intros [= <- _]|].
    destruct (readLine c2) as [c3 [l|err]] eqn:E2;
      apply readLine_input in E2 as (HL & _); by intros [= <- _]. }
  repeat case_match; try apply HW; by intros [= <- _].
Qed.

Lemma AUTH_input c params c' o :
  AUTH c params = (c', o) → input_left c' ≤ input_left c.
Proof.
  unfold AUTH. do 3 (case_match; [by intros [= <- _]|]).
  destruct (auth_response c params) as [c1 [resp|r]] eqn:E;
    apply auth_response_input in E; [|by intros [= <- _]].
  repeat case_match; by intros [= <- _].
Qed.

(** The commands other than these do not read. *)
Lemma run_command_input e c cmd params c' o :
  run_command e c cmd params = (c', o) → input_left c' ≤ input_left c.
Proof.
  unfold run_command, HELO, EHLO, HELP, NOOP, RSET, VRFY, EXPN.
  do 7 (case_match; [intros E; repeat case_match; by simplify_eq|]).
  case_match.
  { unfold MAIL. repeat case_match; intros [= <- _]; simplify_eq; try done;
      match goal with
      | E : check_sender _ _ _ = _ |- _ =>
        apply check_sender_same, same_input_left in E;
        unfold input_left in *; simpl in *; lia
      end. }
  case_match; [unfold RCPT; repeat case_match; by intros [= <- _]|].
  case_match; [apply DATA_input|]. case_match; [apply STARTTLS_input|].
  case_match; [apply AUTH_input|]. by intros [= <- _].
Qed.

Lemma iteration_input e c n c' n' :
  iteration e c n = (c', inl n') → input_left c' < input_left c.
Proof.
  unfold iteration. case_match; [done|].
  destruct (readCommand c) as [c1 r] eqn:E1. unfold readCommand in E1.
  destruct (readLine c) as [c0 l] eqn:E0. injection E1 as <- <-.
  apply readLine_input in E0 as (_ & Hlt & Hempty & _).
  destruct (decide (pending (rd c) = [])) as [Hp|Hp].
  { by rewrite (Hempty Hp). }
  specialize (Hlt Hp).
  destruct (l ≫= _) as [[cmd params]|err]; [|done].
  case_match; [by case_match|]. case_match; [by case_match|].
  destruct (run_command e c0 cmd params) as [c2 [code msg|]] eqn:E2; [|done].
  apply run_command_input in E2.
  destruct (0 <? code)%Z; [|case_match; [done|]; intros [= <- _]; lia].
  destruct (_ && bool_decide _); [by destruct (writeResponse _ _ _)|].
  destruct (writeResponse c2 code msg) as [c3 [err|]] eqn:E3; [done|].
  apply writeResponse_same, same_input_left in E3. intros [= <- _]. lia.
Qed.

Lemma loop_terminates fuel envs i c n :
  input_left c < fuel → ∃ c' x, loop fuel envs i c n = (c', Some x).
Proof.
  revert i c n. induction fuel as [|fuel IH]; intros i c n Hf; [lia|]. simpl.
  destruct (iteration (envs i) c n) as [c1 [n1|x]] eqn:E; [|eauto].
  apply iteration_input in E. apply IH. lia.
Qed.

Lemma haproxy_input r res r' :
  Haproxy.Handshake r = (res, r') → length (pending r') ≤ length (pending r).
Proof.
  unfold Haproxy.Handshake, Haproxy.ReadString.
  destruct (Cut (pending r) [LF]) as [[l rest]|] eqn:E; intros [= _ <-]; simpl;
    [|lia]. apply Cut_Some in E. rewrite E, !length_app. lia.
Qed.

(** C31: Every connection comes to an end: whatever the client sends and
    whatever the outside answers, [Handle] leaves its loop after at most one
    iteration per byte of input. *)
Theorem Handle_terminates envs c fuel :
  input_left c < fuel →
  ∃ c' h, Handle fuel envs c = (c', h) ∧ h ≠ Handled None.
Proof.
  intros Hf. unfold Handle.
  destruct (tls_listener c) as [c1|err] eqn:Et; [|eauto].
  assert (Hin : input_left c1 ≤ input_left c).
  { revert Et. unfold tls_listener, input_left. case_match.
    - destruct (handshakes c) as [|[[st r]|] hs] eqn:Eh; intros [= <-].
      simpl. lia.
    - by intros [= <-]. }
  destruct (haproxyEnabled (cfg c1)).
  - destruct (Haproxy.Handshake (rd c1)) as [r rd'] eqn:Eh.
    apply haproxy_input in Eh. destruct r as [[src dst]|err]; [|eauto].
    unfold printfLine. destruct (write_flush _ _) as [w e0].
    edestruct (loop_terminates fuel envs 0) as (c' & x & ->); [|eauto].
    unfold input_left in *. simpl. lia.
  - unfold printfLine. destruct (write_flush _ _) as [w e0].
    edestruct (loop_terminates fuel envs 0) as (c' & x & ->); [|eauto].
    unfold input_left in *. simpl. lia.
Qed.

(** ** What reaches the queue *)

(** An envelope that was given to the queue, and whether the client had
    authenticated. *)
Record mail := mkMail {
  m_from : bytes;
  m_to : list bytes;
  m_data : bytes;
  m_auth : bool;
}.

Definition puts (q : Q) (ms : list mail) : Q :=
  foldl (λ q m, (q_Put q (m_from m) (m_to m) (m_data m)).1) q ms.

(** Somebody's credentials are valid. *)
Definition authenticated (cf : Config) : Prop :=
  ∃ user domain passwd,
    Auth.Authenticate (authr cf) user domain passwd = Some (true, None).

(** [localUserExists] depends on the configuration only. *)
Definition user_exists (cf : Config) (addr : bytes) : Prop :=
  Aliases.Exists (aliasesR cf) addr = true ∨
  let '(user, domain) :=
    Envelope.Split (Aliases.RemoveDropsAndSuffix (aliasesR cf) addr) in
  Auth.Exists (authr cf) user domain = (true, None).

(** A recipient that anybody may send to: the normalized form of an address
    of a local domain, whose user exists. *)
Definition local_rcpt (cf : Config) (r : bytes) : Prop :=
  ∃ a, Envelope.DomainIn a (localDomains cf) = true ∧
       Normalize.Addr a = (r, None) ∧ user_exists cf r.

(** The users and aliases of a server may be reloaded during a connection:
    [seen] are the configurations that it may have had. *)
Section Policy.
Context (seen : Config → Prop).

Definition authenticated_once : Prop := ∃ cf, seen cf ∧ authenticated cf.

Definition local_once (r : bytes) : Prop := ∃ cf, seen cf ∧ local_rcpt cf r.

(** The policy on what may be queued, by a submission port or another one. *)
Record mail_ok (submission : bool) (m : mail) : Prop := {
  ok_from : m_from m ≠ [];
  ok_to : 0 < length (m_to m) ≤ 101;
  ok_relay : m_auth m = false → Forall local_once (m_to m);
  ok_auth : m_auth m = true → authenticated_once;
  ok_submission : submission = true → m_auth m = true;
}.

(** The invariant of the connection. *)
Record inv (c : Conn) : Prop := {
  inv_tls : completedAuth c = true → onTLS c = true;
  inv_auth : completedAuth c = true → authenticated_once;
  inv_submission : IsSubmission (mode (cfg c)) = true → mailFrom c ≠ [] →
    completedAuth c = true;
  inv_relay : completedAuth c = false → Forall local_once (rcptTo c);
  inv_rcpts : length (rcptTo c) ≤ 101;
}.

(** What a piece of the handler may do: keep the invariant and the
    configuration, and queue mail that complies with the policy. *)
Definition good (c c' : Conn) : Prop :=
  seen (cfg c) → inv c → inv c' ∧ cfg c' = cfg c ∧
    ∃ ms, queue c' = puts (queue c) ms ∧ Forall (mail_ok (IsSubmission (mode (cfg c)))) ms.

Lemma good_refl c : good c c.
Proof. intros _ Hi. split; [done|]. split; [done|]. by exists []. Qed.

Lemma good_trans c1 c2 c3 : good c1 c2 → good c2 c3 → good c1 c3.
Proof.
  intros G1 G2 Hs Hi. destruct (G1 Hs Hi) as (Hi2 & E2 & ms2 & Q2 & M2).
  rewrite <- E2 in Hs. destruct (G2 Hs Hi2) as (Hi3 & E3 & ms3 & Q3 & M3).
  split; [done|]. split; [congruence|]. exists (ms2 ++ ms3). split.
  - rewrite Q3, Q2. unfold puts. by rewrite foldl_app.
  - rewrite E2 in M3. by apply Forall_app.
Qed.

(** The state that the policy is about. *)
Definition same_policy (c c' : Conn) : Prop :=
  cfg c' = cfg c ∧ onTLS c' = onTLS c ∧ completedAuth c' = completedAuth c ∧
  mailFrom c' = mailFrom c ∧ rcptTo c' = rcptTo c ∧ queue c' = queue c.

Lemma same_policy_good c c' : same_policy c c' → good c c'.
Proof.
  intros (E1 & E2 & E3 & E4 & E5 & E6) _ [].
  split; [|split; [done|by exists []]].
  split; rewrite ?E1, ?E2, ?E3, ?E4, ?E5; done.
Qed.

Lemma same_policy_trans c1 c2 c3 :
  same_policy c1 c2 → same_policy c2 c3 → same_policy c1 c3.
Proof. unfold same_policy. naive_solver congruence. Qed.

Lemma resetEnvelope_good c : good c (resetEnvelope c).
Proof.
  intros _ []. split; [|split; [done|by exists []]].
  split; simpl; auto using Forall_nil_2; first [lia | naive_solver].
Qed.

(** Each handler is good. *)

Lemma writeResponse_policy c code msg c' err :
  writeResponse c code msg = (c', err) → same_policy c c'.
Proof.
  unfold writeResponse. destruct (write_flush _ _). by intros [= <- _].
Qed.

Lemma readLine_policy c c' r : readLine c = (c', r) → same_policy c c'.
Proof.
  unfold readLine. intros E. repeat case_match; simplify_eq; done.
Qed.

Lemma check_sender_policy e c raw c' r :
  check_sender e c raw = (c', r) → same_policy c c'.
Proof.
  unfold check_sender, secLevelCheck. intros E.
  repeat case_match; simplify_eq; done.
Qed.

Lemma MAIL_good e c params c' o : MAIL e c params = (c', o) → good c c'.
Proof.
  unfold MAIL. case_match; [intros [= <- _]; apply good_refl|].
  destruct (IsSubmission (mode (cfg c)) && negb (completedAuth c)) eqn:Es;
    [intros [= <- _]; apply good_refl|].
  destruct (Sscanf_word _) as [raw|err]; [|intros [= <- _]; apply good_refl].
  set (c1 := resetEnvelope c).
  destruct (if ReplaceAll raw " " "" == "<>" then (c1, Ok "<>")
            else check_sender e c1 raw) as [c2 addr] eqn:E2.
  assert (HP : same_policy c1 c2).
  { destruct (ReplaceAll raw " " "" == "<>"); [by injection E2 as <- _|].
    by apply check_sender_policy in E2. }
  assert (HG : good c c2)
    by (eapply good_trans; [apply resetEnvelope_good|by apply same_policy_good]).
  destruct addr as [addr|reply]; intros [= <- _]; [|done].
  destruct HP as (E1 & _ & E3 & _).
  intros Hs Hi. destruct (HG Hs Hi) as ([] & Hc & ms & Hq & Hms).
  split; [|split; [done|eauto]]. split; simpl; try done.
  rewrite E1, E3. simpl. intros Hsub _. rewrite Hsub in Es.
  by destruct (completedAuth c).
Qed.

Lemma check_local_ok (c : Conn) addr r :
  Envelope.DomainIn addr (localDomains (cfg c)) = true →
  check_local c addr = Ok r → local_rcpt (cfg c) r.
Proof.
  intros Hin. unfold check_local.
  destruct (Normalize.Addr addr) as [a [err|]] eqn:Ea; [done|].
  destruct (localUserExists c a) as [[] [err|]] eqn:El; try done.
  intros [= <-]. exists addr. split; [done|]. split; [done|].
  unfold user_exists. unfold localUserExists in El.
  destruct (Aliases.Exists _ a); [by left|]. right.
  by destruct (Envelope.Split _).
Qed.

Lemma RCPT_good c params c' o : RCPT c params = (c', o) → good c c'.
Proof.
  unfold RCPT. do 2 (case_match; [intros [= <- _]; apply good_refl|]).
  destruct (Sscanf_word _) as [raw|err]; [|intros [= <- _]; apply good_refl].
  destruct (bool_decide (100 < length (rcptTo c))) eqn:Hlen;
    [intros [= <- _]; apply good_refl|]. apply bool_decide_eq_false in Hlen.
  destruct (mail_ParseAddress raw) as [[|b a]|];
    try (intros [= <- _]; apply good_refl).
  destruct (Normalize.DomainToUnicode _) as [addr [err|]];
    [intros [= <- _]; apply good_refl|].
  case_match; [intros [= <- _]; apply good_refl|].
  destruct (Envelope.DomainIn addr _) eqn:El; simpl.
  - destruct (check_local c addr) as [r|reply] eqn:Ec;
      [|intros [= <- _]; apply good_refl].
    intros [= <- _] Hs []. split; [|split; [done|by exists []]].
    split; simpl; try done.
    + intros Ha. apply Forall_app. split; [auto|]. apply Forall_singleton.
      exists (cfg c). split; [done|]. by eapply check_local_ok.
    + rewrite length_app. simpl. lia.
  - destruct (completedAuth c) eqn:Ea; simpl;
      [|intros [= <- _]; apply good_refl].
    intros [= <- _] _ []. split; [|split; [done|by exists []]].
    split; simpl; rewrite ?Ea in *; try done. rewrite length_app. simpl. lia.
Qed.

Lemma dkim_sign_loop_policy e signers c c' err :
  dkim_sign_loop e signers c = (c', err) → same_policy c c'.
Proof.
  revert c. induction signers as [|s ss IH]; intros c; simpl;
    [by intros [= <- _]|].
  destruct (dkim_Sign _ _ _); [|by intros [= <- _]].
  intros E. by apply IH in E.
Qed.

Lemma addReceivedHeader_policy e c : same_policy c (addReceivedHeader e c).
Proof. unfold addReceivedHeader. repeat case_match; simplify_eq; done. Qed.

(** The mail that is queued is the envelope of the connection. *)
Lemma data_queue_good e c c' o :
  mailFrom c ≠ [] → length (rcptTo c) ≠ 0 →
  data_queue e c = (c', o) → good c c'.
Proof.
  intros Hf Hr. unfold data_queue.
  pose proof (addReceivedHeader_policy e c) as HA.
  set (c1 := addReceivedHeader e c) in *. clearbody c1.
  destruct (runPostDataHook _ _ _) as [out|[perm msg]];
    [|intros [= <- _]; by apply same_policy_good].
  set (c2 := set_data c1 _).
  destruct (q_Put (queue c2) (mailFrom c2) (rcptTo c2) (data c2)) as [q r] eqn:Eq.
  destruct HA as (E1 & E2 & E3 & E4 & E5 & E6). simpl in *.
  assert (HG : good c (set_queue c2 q)).
  { intros _ []. split; [|split; [done|]].
    - split; simpl; rewrite ?E1, ?E2, ?E3, ?E4, ?E5; done.
    - exists [mkMail (mailFrom c) (rcptTo c) (out ++ data c1) (completedAuth c)].
      split; [by rewrite E4, E5, E6 in Eq; simpl; rewrite Eq|].
      apply Forall_singleton. split; simpl; try done; [lia|auto]. }
  destruct r as [id|err]; intros [= <- _]; [|done].
  eapply good_trans; [exact HG|apply resetEnvelope_good].
Qed.

Lemma data_message_good e c c' o :
  mailFrom c ≠ [] → length (rcptTo c) ≠ 0 →
  data_message e c = (c', o) → good c c'.
Proof.
  intros Hf Hr. unfold data_message, dkimSign, dkimVerify.
  destruct (checkData c (data c)) as [err|];
    [intros [= <- _]; apply good_refl|].
  destruct (completedAuth c).
  - destruct (if length _ == 0 then _ else _) as [c1 err] eqn:E.
    assert (HP : same_policy c c1).
    { destruct (length _ == 0); [by injection E as <- _|].
      by apply dkim_sign_loop_policy in E. }
    destruct err; [intros [= <- _]; by apply same_policy_good|].
    intros E2. eapply good_trans; [by apply same_policy_good|].
    destruct HP as (_ & _ & _ & E4 & E5 & _).
    eapply data_queue_good; [by rewrite E4|by rewrite E5|exact E2].
  - destruct (dkim_VerifyMessage _ _) as [[v|err]|];
      [| |intros [= <- _]; apply good_refl];
      intros E; apply data_queue_good in E; [|exact Hf|exact Hr| |exact Hf|exact Hr];
      (eapply good_trans; [|exact E]); by apply same_policy_good.
Qed.

Lemma DATA_good e c c' o : DATA e c = (c', o) → good c c'.
Proof.
  unfold DATA. case_match; [intros [= <- _]; apply good_refl|].
  destruct (mailFrom c == "") eqn:Ef; [intros [= <- _]; apply good_refl|].
  destruct (length (rcptTo c) == 0) eqn:Er; [intros [= <- _]; apply good_refl|].
  apply bool_decide_eq_false in Ef, Er.
  destruct (writeResponse c 354 _) as [c1 err1] eqn:E1.
  apply writeResponse_policy in E1.
  destruct err1; [intros [= <- _]; by apply same_policy_good|].
  destruct (readUntilDot _ _) as [[d err] r].
  set (c2 := set_data _ d).
  assert (HP : same_policy c c2) by exact E1.
  destruct err as [err|].
  - destruct (writeResponse c2 521 _) as [c3 err3] eqn:E3.
    apply writeResponse_policy in E3.
    destruct err; intros [= <- _]; apply same_policy_good; try exact HP.
    by eapply same_policy_trans.
  - intros E. eapply good_trans; [by apply same_policy_good|].
    destruct HP as (_ & _ & _ & E4 & E5 & _).
    eapply data_message_good; [by rewrite E4|by rewrite E5|exact E].
Qed.

Lemma STARTTLS_good c c' o : STARTTLS c = (c', o) → good c c'.
Proof.
  unfold STARTTLS. case_match; [intros [= <- _]; apply good_refl|].
  destruct (writeResponse c 220 _) as [c1 err] eqn:E1.
  apply writeResponse_policy, same_policy_good in E1.
  destruct err; [by intros [= <- _]|].
  destruct (handshakes c1) as [|[[st r]|err] hs]; intros [= <- _];
    [exact E1| |eapply good_trans; [exact E1|by apply same_policy_good]].
  eapply good_trans; [exact E1|]. intros _ [].
  split; [|split; [done|by exists []]].
  split; simpl; auto using Forall_nil_2; first [lia | naive_solver].
Qed.

Lemma auth_response_policy c params c' r :
  auth_response c params = (c', r) → same_policy c c'.
Proof.
  unfold auth_response. intros E.
  repeat case_match; simplify_eq; try done;
    repeat match goal with
    | E : writeResponse _ _ _ = _ |- _ => apply writeResponse_policy in E
    | E : readLine _ = _ |- _ => apply readLine_policy in E
    end; eauto using same_policy_trans.
Qed.

Lemma AUTH_good c params c' o : AUTH c params = (c', o) → good c c'.
Proof.
  unfold AUTH. destruct (onTLS c) eqn:Et; [|intros [= <- _]; apply good_refl].
  simpl. do 2 (case_match; [intros [= <- _]; apply good_refl|]).
  destruct (auth_response c params) as [c1 r] eqn:E1.
  apply auth_response_policy in E1 as HP.
  pose proof (same_policy_good _ _ HP) as HG.
  destruct r as [resp|reply]; [|by intros [= <- _]].
  destruct (Auth.DecodeResponse resp) as [[[u d] p]|err]; [|by intros [= <- _]].
  destruct (Auth.Authenticate _ u d p) as [[[] [err|]]|] eqn:Ea;
    intros [= <- _]; try exact HG.
  intros Hs Hi. destruct (HG Hs Hi) as ([] & Hc & ms & Hq & Hms).
  split; [|split; [done|eauto]].
  split; simpl; try done.
  - destruct HP as (_ & -> & _). done.
  - intros _. exists (cfg c1). destruct HP as (Ec & _). split; [by rewrite Ec|].
    by exists u, d, p.
Qed.

Lemma run_command_good e c cmd params c' o :
  run_command e c cmd params = (c', o) → good c c'.
Proof.
  unfold run_command, HELO, EHLO, HELP, NOOP, RSET, VRFY, EXPN, invisible.
  do 4 (case_match; [intros E; repeat case_match; simplify_eq;
                     by apply same_policy_good|]).
  case_match; [intros [= <- _]; apply resetEnvelope_good|].
  do 2 (case_match; [intros [= <- _]; apply good_refl|]).
  case_match; [apply MAIL_good|]. case_match; [apply RCPT_good|].
  case_match; [apply DATA_good|]. case_match; [apply STARTTLS_good|].
  case_match; [apply AUTH_good|]. intros [= <- _]; apply good_refl.
Qed.

Lemma iteration_good e c n c' r : iteration e c n = (c', r) → good c c'.
Proof.
  unfold iteration. case_match; [intros [= <- _]; apply good_refl|].
  destruct (readCommand c) as [c1 rc] eqn:E1. unfold readCommand in E1.
  destruct (readLine c) as [c0 l] eqn:E0. injection E1 as <- <-.
  apply readLine_policy, same_policy_good in E0.
  destruct (l ≫= _) as [[cmd params]|err].
  2: { unfold printfLine. destruct (write_flush _ _). intros [= <- _].
       eapply good_trans; [exact E0|]. by apply same_policy_good. }
  destruct (cmd == "QUIT").
  { destruct (writeResponse c0 221 _) as [c2 e2] eqn:E2. intros [= <- _].
    apply writeResponse_policy, same_policy_good in E2. by eapply good_trans. }
  destruct (is_http cmd).
  { destruct (writeResponse c0 502 _) as [c2 e2] eqn:E2. intros [= <- _].
    apply writeResponse_policy, same_policy_good in E2. by eapply good_trans. }
  destruct (run_command e c0 cmd params) as [c2 o] eqn:E2.
  apply run_command_good in E2.
  assert (HG : good c c2) by (by eapply good_trans).
  destruct o as [code msg|]; [|by intros [= <- _]].
  destruct (0 <? code)%Z; [|case_match; by intros [= <- _]].
  destruct (_ && bool_decide _).
  - destruct (writeResponse c2 421 _) as [c3 e3] eqn:E3. intros [= <- _].
    apply writeResponse_policy, same_policy_good in E3. by eapply good_trans.
  - destruct (writeResponse c2 code msg) as [c3 e3] eqn:E3.
    apply writeResponse_policy, same_policy_good in E3.
    destruct e3; intros [= <- _]; by eapply good_trans.
Qed.

Lemma loop_good fuel envs i c n c' x :
  loop fuel envs i c n = (c', x) → good c c'.
Proof.
  revert i c n. induction fuel as [|fuel IH]; intros i c n; simpl.
  - intros [= <- _]. apply good_refl.
  - destruct (iteration (envs i) c n) as [c1 [n1|y]] eqn:E;
      apply iteration_good in E.
    + intros E2. apply IH in E2. by eapply good_trans.
    + by intros [= <- _].
Qed.

Lemma Handle_good fuel envs c c' h : Handle fuel envs c = (c', h) → good c c'.
Proof.
  unfold Handle. destruct (tls_listener c) as [c1|err] eqn:Et;
    [|intros [= <- _]; apply good_refl].
  assert (HG : good c c1).
  { revert Et. unfold tls_listener. destruct (TLS _);
      [|intros [= <-]; apply good_refl].
    destruct (handshakes c) as [|[[st r]|] hs]; intros [= <-].
    by apply same_policy_good. }
  assert (HL : ∀ (c2 : Conn) l, same_policy c1 c2 →
    (let '(c, x) := loop fuel envs 0 (printfLine c2 l) 0 in (c, Handled x))
      = (c', h) → good c c').
  { intros c2 l HP. unfold printfLine. destruct (write_flush _ _) as [w e0].
    destruct (loop _ _ _ _ _) as [c3 x] eqn:El. intros [= <- _].
    apply loop_good in El. eapply good_trans; [exact HG|].
    eapply good_trans; [|exact El]. by apply same_policy_good. }
  destruct (haproxyEnabled (cfg c1)); [|by apply HL].
  destruct (Haproxy.Handshake (rd c1)) as [[[src dst]|err] r];
    [by apply HL|]. intros [= <- _].
  eapply good_trans; [exact HG|]. by apply same_policy_good.
Qed.

Lemma new_conn_inv cf h a r w hs db fs q : inv (new_conn cf h a r w hs db fs q).
Proof. split; simpl; auto using Forall_nil_2; first [lia | naive_solver]. Qed.

End Policy.

(** ** Logging in *)

(** A turn in which the client logs in: the next command that it sends, over TLS,
    is an AUTH with a user and a password that the server accepts. *)
Definition logs_in (c : Conn) (user domain passwd : bytes) : Prop :=
  ∃ c1 params c2 response,
    onTLS c = true ∧ readCommand c = (c1, Ok ("AUTH" : bytes, params)) ∧
    auth_response c1 params = (c2, Ok response) ∧
    Auth.DecodeResponse response = Ok (user, domain, passwd) ∧
    Auth.Authenticate (authr (cfg c)) user domain passwd = Some (true, None).

(** Nothing but AUTH touches [completedAuth]. *)
Lemma policy_auth c c' : same_policy c c' → completedAuth c' = completedAuth c.
Proof. by intros (_ & _ & E & _). Qed.

Lemma MAIL_auth e (c : Conn) params : completedAuth (MAIL e c params).1 = completedAuth c.
Proof.
  unfold MAIL. do 2 (case_match; [done|]). destruct (Sscanf_word _) as [raw|]; [|done].
  destruct (ReplaceAll raw " " "" == "<>"); [done|].
  destruct (check_sender e (resetEnvelope c) raw) as [c2 addr] eqn:E.
  apply check_sender_policy, policy_auth in E. by destruct addr.
Qed.

Lemma data_queue_auth e (c : Conn) : completedAuth (data_queue e c).1 = completedAuth c.
Proof.
  unfold data_queue. pose proof (policy_auth _ _ (addReceivedHeader_policy e c)) as E.
  destruct (runPostDataHook _ _ _) as [out|[perm msg]]; [|done].
  by destruct (q_Put _ _ _ _) as [q [id|err]].
Qed.

Lemma data_message_auth e (c : Conn) : completedAuth (data_message e c).1 = completedAuth c.
Proof.
  unfold data_message, dkimSign, dkimVerify. destruct (checkData c (data c)); [done|].
  destruct (completedAuth c) eqn:Ea.
  - destruct (if length _ == 0 then _ else _) as [c1 err] eqn:E.
    assert (E1 : completedAuth c1 = true).
    { rewrite <- Ea. destruct (length _ == 0); [by injection E as <- _|].
      by apply dkim_sign_loop_policy, policy_auth in E. }
    destruct err; [done|]. by rewrite data_queue_auth.
  - by destruct (dkim_VerifyMessage _ _) as [[v|err]|]; rewrite ?data_queue_auth.
Qed.

Lemma DATA_auth e (c : Conn) : completedAuth (DATA e c).1 = completedAuth c.
Proof.
  unfold DATA. do 3 (case_match; [done|]).
  destruct (writeResponse c 354 _) as [c1 err1] eqn:E1.
  apply writeResponse_policy, policy_auth in E1. destruct err1; [done|].
  destruct (readUntilDot _ _) as [[d err] r].
  destruct err as [[]|]; try exact E1; [|by rewrite data_message_auth].
  destruct (writeResponse _ 521 _) as [c3 err3] eqn:E3.
  apply writeResponse_policy, policy_auth in E3. cbn [fst]. by rewrite E3.
Qed.

Lemma STARTTLS_auth (c : Conn) : completedAuth (STARTTLS c).1 = completedAuth c.
Proof.
  unfold STARTTLS. case_match; [done|].
  destruct (writeResponse c 220 _) as [c1 err] eqn:E1.
  apply writeResponse_policy, policy_auth in E1. destruct err; [done|].
  by destruct (handshakes c1) as [|[[st r]|err] hs].
Qed.

Lemma other_auth e (c : Conn) cmd params :
  cmd ≠ "AUTH" → completedAuth (run_command e c cmd params).1 = completedAuth c.
Proof.
  intros Hn. unfold run_command, HELO, EHLO, HELP, NOOP, RSET, VRFY, EXPN, RCPT, invisible.
  do 7 (case_match; [repeat case_match; simplify_eq; done|]).
  case_match; [apply MAIL_auth|].
  case_match; [repeat (case_match; simplify_eq; try done)|].
  case_match; [apply DATA_auth|]. case_match; [apply STARTTLS_auth|].
  by rewrite (bool_decide_eq_false_2 _ Hn).
Qed.

Lemma reply_auth (c : Conn) code msg : completedAuth (writeResponse c code msg).1 = completedAuth c.
Proof.
  destruct (writeResponse c code msg) as [c1 err] eqn:E. by apply writeResponse_policy, policy_auth in E.
Qed.

Lemma AUTH_login (c : Conn) params :
  completedAuth (AUTH c params).1 = true →
  completedAuth c = true ∨
  onTLS c = true ∧ ∃ c2 response user domain passwd,
    auth_response c params = (c2, Ok response) ∧
    Auth.DecodeResponse response = Ok (user, domain, passwd) ∧
    Auth.Authenticate (authr (cfg c)) user domain passwd = Some (true, None).
Proof.
  unfold AUTH. destruct (onTLS c); [|by left]. cbn [negb].
  destruct (completedAuth c) eqn:Ea; [by left|]. case_match; [cbn [fst]; congruence|].
  destruct (auth_response c params) as [c2 r] eqn:E.
  pose proof (auth_response_policy _ _ _ _ E) as (Ec & _ & E2 & _). rewrite Ea in E2.
  destruct r as [response|]; [|cbn [fst]; congruence].
  destruct (Auth.DecodeResponse response) as [[[u d] p]|] eqn:Ed; [|cbn [fst]; congruence].
  destruct (Auth.Authenticate _ u d p) as [[[] [err|]]|] eqn:Eau; cbn [fst]; try congruence.
  intros _. right. split; [done|]. exists c2, response, u, d, p. by rewrite <- Ec.
Qed.

(** After a turn the client is authenticated only if it already was, or if it
    logged in in that turn. *)
Lemma iteration_login e (c : Conn) n :
  completedAuth (iteration e c n).1 = true →
  completedAuth c = true ∨ ∃ user domain passwd, logs_in c user domain passwd.
Proof.
  unfold iteration. case_match; [by left|].
  destruct (readCommand c) as [c0 rc] eqn:E0.
  assert (HP : same_policy c c0).
  { unfold readCommand in E0. destruct (readLine c) as [c1 l] eqn:E1. injection E0 as <- _.
    by apply readLine_policy in E1. }
  destruct HP as (Ec & Et & Ea & _).
  destruct rc as [[cmd params]|err].
  2: { unfold printfLine. destruct (write_flush _ _). cbn. rewrite Ea. by left. }
  destruct (cmd == "QUIT").
  { pose proof (reply_auth c0 221 "2.0.0 Be seeing you...") as E.
    destruct (writeResponse c0 221 _). cbn in *. rewrite E, Ea. by left. }
  destruct (is_http cmd).
  { pose proof (reply_auth c0 502 "5.7.0 You hear someone cursing shoplifters") as E.
    destruct (writeResponse c0 502 _). cbn in *. rewrite E, Ea. by left. }
  intros Hc. assert (HR : completedAuth (run_command e c0 cmd params).1 = true).
  { rewrite <- Hc. clear. destruct (run_command e c0 cmd params) as [c1 [code msg|]]; [|done].
    pose proof (reply_auth c1 421 "4.5.0 Too many errors, bye") as E1.
    pose proof (reply_auth c1 code msg) as E2.
    destruct (writeResponse c1 421 _), (writeResponse c1 code msg) as [c3 [err|]]; cbn -[Z.ltb Z.leb] in *;
      repeat case_match; done. }
  clear Hc. destruct (decide (cmd = "AUTH")) as [->|Hn]; [|left; by rewrite <- Ea, <- (other_auth e c0 cmd params)].
  apply (AUTH_login c0 params) in HR as [HR|(Ht & c2 & resp & u & d & p & H1' & H2' & H3')];
    [left; by rewrite <- Ea|right].
  exists u, d, p, c0, params, c2, resp. rewrite <- Et, <- Ec. done.
Qed.

(** No open relay.  Over a whole connection, for any input and any
    answers of the outside, the queue is changed by a sequence of [Put]s
    only, and each envelope that was put has a sender and between 1 and 101
    recipients; all of them are existing users of local domains, unless the
    client had authenticated with credentials that a backend accepted, which
    is always so on a submission port. *)
Theorem no_open_relay fuel envs cf h a r w hs db fs q :
  ∃ ms,
    queue (Handle fuel envs (new_conn cf h a r w hs db fs q)).1 = puts q ms ∧
    Forall (mail_ok (eq cf) (IsSubmission (mode cf))) ms.
Proof.
  set (c := new_conn _ _ _ _ _ _ _ _ _).
  destruct (Handle fuel envs c) as [c' x] eqn:E.
  apply (Handle_good (eq cf)) in E. destruct (E eq_refl (new_conn_inv _ _ _ _ _ _ _ _ _ _))
    as (_ & _ & ms & Hq & Hms). eauto.
Qed.

(** C11: Credentials only travel encrypted: at any point of a connection where
    a client is authenticated, the connection is on TLS; and AUTH is refused,
    with nothing else done, while it is not. *)
Theorem auth_needs_tls fuel envs cf h a r w hs db fs q :
  let c := (Handle fuel envs (new_conn cf h a r w hs db fs q)).1 in
  (completedAuth c = true → onTLS c = true) ∧
  (∀ (c : Conn) params, onTLS c = false →
     AUTH c params = (c, Reply 503 "5.7.10 You feel vulnerable")).
Proof.
  simpl. split.
  - destruct (Handle fuel envs _) as [c' x] eqn:E. apply (Handle_good (eq cf)) in E.
    by destruct (E eq_refl (new_conn_inv _ _ _ _ _ _ _ _ _ _)) as ([] & _).
  - intros c params Ht. unfold AUTH. by rewrite Ht.
Qed.

(** ** STARTTLS *)

(** C9: A successful STARTTLS starts a new envelope over TLS: the sender, the
    recipients, the message and the result of SPF are forgotten, the reader is the
    one over the TLS connection, and nothing that the client (or somebody in
    between) sent before the handshake and was still unread has any effect.  What
    the client said with HELO or EHLO is kept, and so are the results of DKIM for
    an earlier message and the fact that the client authenticated. *)
Theorem STARTTLS_discards_plaintext (c : Conn) r1 r2 (c1 : Conn) :
  STARTTLS (set_io c r1 (wr c)) = (c1, Reply 0 []) →
  STARTTLS (set_io c r2 (wr c)) = (c1, Reply 0 []) ∧
  onTLS c1 = true ∧ mailFrom c1 = [] ∧ rcptTo c1 = [] ∧ data c1 = [] ∧
  spfResult c1 = [] ∧ spfError c1 = None ∧
  ehloDomain c1 = ehloDomain c ∧ isESMTP c1 = isESMTP c ∧
  dkimVerifyResult c1 = dkimVerifyResult c ∧ completedAuth c1 = completedAuth c ∧
  ∃ st hs, handshakes c = Ok (st, rd c1) :: hs ∧ tlsConnState c1 = Some st.
Proof.
  unfold STARTTLS. simpl. destruct (onTLS c); [done|].
  unfold writeResponse. simpl.
  destruct (write_flush _ _) as [w [err|]]; [done|]. simpl.
  destruct (handshakes c) as [|[[st r]|err] hs]; try done.
  intros [= <-]. simpl. repeat split; try done. by exists st, hs.
Qed.

(** ** The contents of the message *)

(** A block of header fields, as [AddHeader] writes them. *)
Definition field (kv : bytes * bytes) : bytes :=
  kv.1 ++ ": " ++ Envelope.fold_value kv.2 ++ [LF].

Definition fields (kvs : list (bytes * bytes)) : bytes := concat (field <$> kvs).

#[local] Arguments Envelope.AddHeader : simpl never.
#[local] Arguments fields : simpl never.

Lemma AddHeader_fields k v kvs d :
  Envelope.AddHeader (fields kvs ++ d) k v = fields ((k, v) :: kvs) ++ d.
Proof.
  unfold Envelope.AddHeader, fields, field.
  rewrite fmap_cons, concat_cons. cbn [fst snd]. by rewrite <- !app_assoc.
Qed.

(** The state the Received header is about. *)
Definition same_session (c c' : Conn) : Prop :=
  cfg c' = cfg c ∧ hostname c' = hostname c ∧ remoteAddr c' = remoteAddr c ∧
  tlsConnState c' = tlsConnState c ∧ ehloDomain c' = ehloDomain c ∧
  isESMTP c' = isESMTP c ∧ mailFrom c' = mailFrom c ∧ onTLS c' = onTLS c ∧
  completedAuth c' = completedAuth c ∧ rcptTo c' = rcptTo c ∧
  queue c' = queue c.

Lemma received_value_same e (c c' : Conn) :
  same_session c c' → received_value e c' = received_value e c.
Proof.
  intros (E1 & E2 & E3 & E4 & E5 & E6 & E7 & E8 & E9 & _).
  unfold received_value. by rewrite E1, E2, E3, E4, E5, E6, E7, E8, E9.
Qed.

Lemma same_session_trans c1 c2 c3 :
  same_session c1 c2 → same_session c2 c3 → same_session c1 c3.
Proof. unfold same_session. naive_solver congruence. Qed.

Lemma addReceivedHeader_fields e c kvs payload :
  data c = fields kvs ++ payload →
  same_session c (addReceivedHeader e c) ∧
  ∃ above, data (addReceivedHeader e c) =
    fields (above ++ ("Received", received_value e c) :: kvs) ++ payload.
Proof.
  intros Hd. unfold addReceivedHeader. cbv beta zeta.
  pose (kvs1 := ("Received" : bytes, received_value e c) :: kvs).
  assert (HA : ∀ (c1 : Conn) above k v,
    same_session c c1 → data c1 = fields (above ++ kvs1) ++ payload →
    same_session c (set_data c1 (Envelope.AddHeader (data c1) k v)) ∧
    data (set_data c1 (Envelope.AddHeader (data c1) k v)) =
      fields ((k, v) :: above ++ kvs1) ++ payload).
  { intros c1 above k v HS Hd1. split; [done|].
    cbn [data set_data]. by rewrite Hd1, AddHeader_fields. }
  set (c1 := set_data c _).
  assert (H1' : same_session c c1 ∧ data c1 = fields ([] ++ kvs1) ++ payload).
  { split; [done|]. cbn [c1 data set_data]. by rewrite Hd, AddHeader_fields. }
  clearbody c1. destruct H1' as [HS1 Hd1].
  destruct (spfResult c1 != "").
  - set (c2 := set_data c1 _).
    destruct (HA c1 [] "Received-SPF" _ HS1 Hd1 :
      same_session c c2 ∧ data c2 = _) as [HS2 Hd2].
    clearbody c2. destruct (dkimVerifyResult c2) as [v|]; (split; [exact HS2|]);
      eexists [_; _]; (eapply (HA c2 [_]); [exact HS2|exact Hd2]).
  - destruct (dkimVerifyResult c1) as [v|]; [|split; [done|by exists []]].
    split; [exact HS1|]. eexists [_]. eapply (HA c1 []); [exact HS1|exact Hd1].
Qed.

Lemma dkim_sign_loop_fields e signers c c' err kvs payload :
  data c = fields kvs ++ payload →
  dkim_sign_loop e signers c = (c', err) →
  same_session c c' ∧ ∃ kvs', data c' = fields kvs' ++ payload.
Proof.
  revert c kvs. induction signers as [|s ss IH]; intros c kvs Hd; simpl.
  { intros [= <- _]. split; [done|eauto]. }
  destruct (dkim_Sign _ _ _) as [sig|]; [|intros [= <- _]; split; [done|eauto]].
  intros E. eapply IH in E as [HS HF];
    [|simpl; rewrite Hd, AddHeader_fields; reflexivity].
  split; [|done]. eapply same_session_trans; [|exact HS]. done.
Qed.

(** What happened to a message: put in the queue, or not. *)
Definition queued (e : env) (c : Conn) (payload : bytes) (c' : Conn)
    (code : Z) : Prop :=
  if (code =? 250)%Z then
    ∃ hook above below id,
      isHeader hook = true ∧
      q_Put (queue c) (mailFrom c) (rcptTo c)
        (hook ++ fields (above ++ ("Received", received_value e c) :: below)
           ++ payload) = (queue c', Ok id) ∧
      mailFrom c' = [] ∧ rcptTo c' = [] ∧ data c' = []
  else
    queue c' = queue c ∨
    ∃ d err, q_Put (queue c) (mailFrom c) (rcptTo c) d = (queue c', Err err).

Lemma runPostDataHook_header e (c : Conn) d out :
  runPostDataHook e c d = Ok out → isHeader out = true.
Proof.
  unfold runPostDataHook. case_match; [by intros [= <-]|].
  case_match; [|done]. case_match; intros [= <-]; [done|].
  by apply negb_false_iff.
Qed.

Lemma data_queue_queued e c c' code msg kvs payload :
  data c = fields kvs ++ payload →
  data_queue e c = (c', Reply code msg) → queued e c payload c' code.
Proof.
  intros Hd. unfold data_queue.
  destruct (addReceivedHeader_fields e c kvs payload Hd) as [HS [above HF]].
  set (c1 := addReceivedHeader e c) in *. clearbody c1.
  destruct HS as (_ & _ & _ & _ & _ & _ & E7 & _ & _ & E10 & E11).
  destruct (runPostDataHook e c1 (data c1)) as [out|[perm m]] eqn:Eh.
  2: { intros [= <- <- _]. unfold queued. rewrite E11.
       destruct perm; simpl; by left. }
  simpl. rewrite HF, E7, E10, E11.
  destruct (q_Put _ _ _ _) as [q [id|err]] eqn:Eq; intros [= <- <- _];
    unfold queued; simpl.
  - exists out, above, kvs, id. split; [by eapply runPostDataHook_header|].
    done.
  - right. eauto.
Qed.

Lemma queued_same e c1 c2 payload c' code :
  same_session c1 c2 → queued e c2 payload c' code → queued e c1 payload c' code.
Proof.
  intros HS. unfold queued. rewrite (received_value_same e c1 c2 HS).
  destruct HS as (_ & _ & _ & _ & _ & _ & -> & _ & _ & -> & ->). done.
Qed.

Lemma data_message_queued e c c' code msg :
  data_message e c = (c', Reply code msg) → queued e c (data c) c' code.
Proof.
  unfold data_message, dkimSign, dkimVerify.
  destruct (checkData c (data c)) as [err|].
  { intros [= <- <- _]. unfold queued. simpl. by left. }
  destruct (completedAuth c).
  - destruct (if length _ == 0 then _ else _) as [c1 err] eqn:E.
    assert (HS : same_session c c1 ∧ ∃ kvs, data c1 = fields kvs ++ data c).
    { destruct (length _ == 0).
      - injection E as <- _. split; [done|]. by exists [].
      - by eapply (dkim_sign_loop_fields e _ c c1 err []). }
    destruct HS as [HS [kvs Hk]]. destruct err.
    + intros [= <- <- _]. unfold queued. simpl.
      destruct HS as (_ & _ & _ & _ & _ & _ & _ & _ & _ & _ & ->). by left.
    + intros E2. eapply queued_same; [exact HS|].
      by eapply data_queue_queued.
  - destruct (dkim_VerifyMessage _ _) as [[v|err]|]; [| |done]; intros E2;
      eapply (data_queue_queued e _ c' code msg [] (data c)) in E2; try done.
Qed.

(** DATA as a whole. *)
Lemma DATA_queued e c c' code msg :
  DATA e c = (c', Reply code msg) →
  (code = 250%Z →
   ∃ payload, (readUntilDot (rd c) (maxDataSize (cfg c))).1 = (payload, None) ∧
              queued e c payload c' 250) ∧
  (code ≠ 250%Z → queued e c [] c' code).
Proof.
  unfold DATA. do 3 (case_match; [intros [= <- <- _]; split; [done|by left]|]).
  destruct (writeResponse c 354 _) as [c1 err1] eqn:E1.
  assert (HS : same_session c c1).
  { revert E1. unfold writeResponse. destruct (write_flush _ _).
    by intros [= <- _]. }
  destruct err1.
  { intros [= <- <- _]. split; [done|]. intros _. left. apply HS. }
  assert (Hrd : rd c1 = rd c) by (by apply writeResponse_same in E1 as [-> _]).
  assert (Hcf : cfg c1 = cfg c) by apply HS. rewrite Hrd, Hcf.
  destruct (readUntilDot (rd c) _) as [[d err] r].
  set (c2 := set_data _ d).
  assert (HQ : queue c2 = queue c) by apply HS.
  destruct err as [err|].
  - intros E. assert (queue c' = queue c ∧ code ≠ 250%Z) as [Hq Hc].
    { destruct (writeResponse c2 521 _) as [c3 e3] eqn:E3.
      assert (queue c3 = queue c).
      { rewrite <- HQ. revert E3. unfold writeResponse.
        destruct (write_flush _ _). by intros [= <- _]. }
      destruct err; injection E as <- <- _; done. }
    split; [done|]. intros _. unfold queued.
    by rewrite (proj2 (Z.eqb_neq _ _) Hc); left.
  - intros E. apply data_message_queued in E.
    apply (queued_same e c c2) in E as HE; [|exact HS].
    split; [intros ->; eauto|]. intros Hc. revert HE. unfold queued.
    by rewrite (proj2 (Z.eqb_neq _ _) Hc).
Qed.

(** C10: DATA answers 250 exactly for messages that are in the queue.  Then
    the queue accepted the sender and the recipients of the envelope, with
    the payload the client sent (as [readUntilDot] reads it) unchanged after
    a block of complete header fields, a Received one among them, and the
    envelope starts over; with any other answer, the queue either was not
    touched or refused the message. *)
Theorem DATA_ack_iff_queued e c c' code msg :
  DATA e c = (c', Reply code msg) →
  (code = 250%Z →
   ∃ payload, (readUntilDot (rd c) (maxDataSize (cfg c))).1 = (payload, None) ∧
              queued e c payload c' 250) ∧
  (code ≠ 250%Z → queued e c [] c' code).
Proof. apply DATA_queued. Qed.

End ConnProps.

(** ** A concrete server *)

Module Example.
Import AsciiOnly CountableText.

(** A server with one local domain, one user and no alias files; SPF passes,
    there is no hook, and the queue is the list of what was put in it. *)

#[export] Instance net_mail : NetMail :=
  {| mail_ParseAddress s := Some (TrimSuffix (TrimPrefix s "<") ">");
     mail_ReadMessage _ := Ok ∅ |}.

#[export] Instance net_ip : NetIP := Haproxy.any_ip.

#[export] Instance alias_world : AliasWorld :=
  {| read_file _ := FileNotExist; Aliases.hook_missing _ := true;
     hook_run _ _ := ([], None) |}.

#[export] Instance error_text : ErrorText :=
  {| scan_error_text _ := "scan error"; decode_error_text _ := "decode error";
     cipherSuiteName := ∅ |}.

Definition user_db : UserDB.DB :=
  UserDB.mkDB "/u" {[ ("ana" : bytes) := Some (UserDB.Password_Plain "secret") ]}.

#[export] Existing Instances Auth.wrap_backend UserDB.userdb_backend
  UserDB.Example.kdf UserDB.Scheme_eq_dec UserDB.Scheme_countable
  DomainInfo.Domain_eq_dec DomainInfo.Domain_countable.

Abbreviation backend := (Auth.wrapNoErrorBackend UserDB.DB).

Definition the_authr : Auth.Authenticator backend :=
  Auth.Register (Auth.NewAuthenticator _) "dom" (Auth.WrapNoErrorBackend user_db).

Abbreviation queue_t := (list (bytes * list bytes * bytes)).

#[export] Instance list_queue : MailQueue queue_t :=
  {| q_Put q from to data := (q ++ [(from, to, data)], Ok "id") |}.

#[export] Instance no_dkim : Dkim unit unit :=
  {| dkim_Sign _ _ _ := Ok "sig"; dkim_VerifyMessage _ _ := Some (Ok tt);
     dkim_AuthenticationResults _ := ";dkim=none" |}.

Definition config : Config (B := backend) (Signer := unit) :=
  {| maxDataSize := 1000; postDataHook := "/hook"; mode := ModeSMTP;
     authr := the_authr; localDomains := Some (StringSet.NewString ["dom"]);
     aliasesR := Aliases.AddDomain (Aliases.NewResolver (λ _ _, Ok false)) "dom";
     dkimSigners := ∅; deadline := 1000; haproxyEnabled := false;
     maxReceivedHeaders := 50; disableSPFForTesting := false |}.

Definition example_env : env :=
  {| now := 0; rnd := 0; date := "today"; moment := 0;
     spf_CheckHostWithSender _ _ _ := ("pass", None);
     calls := Safeio.working_calls "/d/.t"; getenv _ := []; hook_missing _ := true;
     hook_exec _ _ _ := RunOk [] |}.

Definition lines (ls : list bytes) : bytes := concat ((λ l, l ++ CRLF) <$> ls).

Definition tls_state : ConnectionState := mkConnectionState [] 4865 772.

Definition conn (inp tls_inp : list bytes) :
  Conn (B := backend) (Q := queue_t) (Signer := unit) (VerifyResult := unit) :=
  new_conn config "mx.dom" (TCPAddr "1.2.3.4" 99) (mkReader (lines inp) EndEOF)
    (mkWriter [] None None)
    [Ok (tls_state, mkReader (lines tls_inp) EndEOF)]
    (DomainInfo.mkDB (Protoio.mkStore "/d") ∅) ∅ [].

(** A client that delivers one message, after trying to relay. *)
Definition session : list bytes :=
  ["EHLO client"; "MAIL FROM:<a@b.com>"; "RCPT TO:<x@other.com>";
   "RCPT TO:<ana@dom>"; "DATA"; "Subject: hi"; ""; "..hello"; "."; "QUIT"].

End Example.
Import AsciiOnly CountableText Example.

Lemma Handle_terminates_witness :
  input_left (conn session []) < 300 ∧
  ∃ c' h, Handle 300 (λ _, example_env) (conn session []) = (c', h) ∧
          h ≠ Handled None.
Proof.
  assert (Hi : input_left (conn session []) < 300)
    by (apply (bool_decide_eq_true_1 _); vm_compute; reflexivity).
  split; [exact Hi|].
  exact (Handle_terminates (λ _, example_env) (conn session []) 300 Hi).
Defined.

(** Injected commands are ignored, and the mail they started is forgotten. *)
Lemma STARTTLS_discards_plaintext_witness :
  let c := set_mailFrom (conn [] ["NOOP"]) "evil@x" in
  let inj := mkReader (lines ["MAIL FROM:<evil@x>"]) EndEOF in
  let c1 := (STARTTLS (set_io c inj (wr c))).1 in
  STARTTLS (set_io c (mkReader [] EndEOF) (wr c)) = (c1, Reply 0 []) ∧
  mailFrom c1 = [] ∧ rd c1 = mkReader (lines ["NOOP"]) EndEOF.
Proof.
  intros c inj c1.
  destruct (STARTTLS_discards_plaintext c inj (mkReader [] EndEOF) c1
    ltac:(reflexivity)) as (E & _ & Em & _).
  split; [exact E|]. split; [exact Em|reflexivity].
Defined.

Lemma DATA_ack_iff_queued_witness :
  let c := set_rcptTo (set_mailFrom (set_ehlo
    (conn ["Subject: hi"; ""; "..hello"; "."] []) "client" true) "a@b.com")
    ["ana@dom"] in
  ∃ c' msg payload,
    DATA example_env c = (c', Reply 250 msg) ∧
    (readUntilDot (rd c) 1000).1 = (payload, None) ∧
    queued example_env c payload c' 250.
Proof.
  intros c. pose (r := DATA example_env c).
  assert (Hr : r = (r.1, Reply 250 "2.0.0 You offer the Amulet of Yendor to Anhur..."))
    by (apply pair_snd; vm_compute; reflexivity).
  destruct (proj1 (DATA_ack_iff_queued _ _ _ _ _ Hr) eq_refl)
    as (payload & Hp & Hq).
  exists r.1, "2.0.0 You offer the Amulet of Yendor to Anhur...", payload.
  split; [exact Hr|]. split; [exact Hp|exact Hq].
Defined.

(** The DKIM results of a message stay for the next one: after a message
    without authentication, a second one on the same connection, which is
    authenticated and therefore not verified, gets an Authentication-Results
    header with the results of the first. *)
Definition stale_session : list bytes :=
  ["EHLO client"; "MAIL FROM:<a@b.com>"; "RCPT TO:<ana@dom>"; "DATA";
   "Subject: 1"; "."; "AUTH PLAIN AGFuYUBkb20Ac2VjcmV0";
   "MAIL FROM:<ana@dom>"; "RCPT TO:<x@other.com>"; "DATA"; "Subject: 2"; ".";
   "QUIT"].

Lemma stale_dkim_results :
  match queue (Handle 400 (λ _, example_env)
                 (conn ["STARTTLS"] stale_session)).1 with
  | [_; (from, _, d)] =>
    from = "ana@dom" ∧
    HasPrefix d ("Authentication-Results: mx.dom" ++ CRLF ++ [TAB]
                   ++ ";dkim=none") = true
  | _ => False
  end.
Proof. vm_compute. split; reflexivity. Qed.

End ConnProps.
