(* ===== verification/ConnQueue.v ===== *)
(** The connection handler and the queue: of everything that a turn of the loop
    of [Handle] may do, only the end of DATA touches the queue, with one call of
    [Put], which does not depend on what the queue holds; and only the reply
    depends on the result. *)

From S2P Require Import Prelude GoStrings Envelope DotReader Aliases Store.
From S2P Require Import DomainInfo Auth Haproxy Conn ConnProps.
#[local] Open Scope go_scope.

Module ConnQueue.
Import DotReader Smtpsrv.

Section ConnQueue.
Context `{Unicode, Precis, NetMail, NetIP, AliasWorld, ErrorText}.
Context `{ProtoText DomainInfo.Domain}.
Context {B : Type} `{Auth.Backend B}.
Context {Q : Type} `{MailQueue Q}.
Context {Signer VerifyResult : Type} `{Dkim Signer VerifyResult}.

#[local] Abbreviation Conn := (Conn (B := B) (Q := Q) (Signer := Signer)
                                 (VerifyResult := VerifyResult)).

(** ** What does not look at the queue *)

Definition with_queue {A} (q : Q) (p : Conn * A) : Conn * A := (set_queue p.1 q, p.2).

Definition blind {A} (f : Conn → Conn * A) : Prop :=
  ∀ c q, f (set_queue c q) = with_queue q (f c).

Tactic Notation "blind_by" reference(f) :=
  intros c q; unfold f, with_queue; cbn; repeat case_match; simplify_eq/=; done.

Lemma writeResponse_blind code msg : blind (λ c, writeResponse c code msg).
Proof. blind_by writeResponse. Qed.

Lemma readLine_blind : blind readLine.
Proof. blind_by readLine. Qed.

Lemma readCommand_blind : blind readCommand.
Proof.
  intros c q. unfold readCommand. rewrite readLine_blind. by destruct (readLine c).
Qed.

Lemma HELO_blind e params : blind (λ c, HELO e c params).
Proof. blind_by HELO. Qed.

Lemma EHLO_blind params : blind (λ c, EHLO c params).
Proof. blind_by EHLO. Qed.

Lemma secLevelCheck_blind e addr : blind (λ c, secLevelCheck e c addr).
Proof. blind_by secLevelCheck. Qed.

Lemma check_sender_blind e raw : blind (λ c, check_sender e c raw).
Proof.
  intros c q. unfold check_sender. destruct (mail_ParseAddress raw) as [[|b addr]|]; [done| |done].
  case_match; [done|]. case_match; [done|].
  change (checkSPF e (set_queue c q) (b :: addr)) with (checkSPF e c (b :: addr)).
  destruct (checkSPF e c (b :: addr)) as [sr se]. cbv zeta.
  change (set_spf (set_queue c q) sr se) with (set_queue (set_spf c sr se) q).
  rewrite secLevelCheck_blind. set (c1 := set_spf c sr se).
  change (spfResult (set_queue c1 q)) with (spfResult c1).
  destruct (spfResult c1 == spf_Fail); [done|].
  destruct (secLevelCheck e c1 (b :: addr)) as [c2 ok]. cbn.
  destruct ok; [|done]. cbn. by destruct (Normalize.DomainToUnicode _) as [a [err|]].
Qed.

Lemma MAIL_blind e params : blind (λ c, MAIL e c params).
Proof.
  intros c q. unfold MAIL. case_match; [done|]. cbn. case_match; [done|].
  destruct (Sscanf_word _) as [raw|err]; [|done].
  change (resetEnvelope (set_queue c q)) with (set_queue (resetEnvelope c) q).
  destruct (ReplaceAll raw " " "" == "<>"); [done|]. rewrite check_sender_blind.
  by destruct (check_sender e (resetEnvelope c) raw) as [c1 [addr|r]].
Qed.

Lemma RCPT_blind params : blind (λ c, RCPT c params).
Proof.
  intros c q. unfold RCPT.
  change (check_local (set_queue c q)) with (check_local c). cbn.
  repeat (case_match; simplify_eq/=; try done).
Qed.

Lemma auth_response_blind params : blind (λ c, auth_response c params).
Proof.
  intros c q. unfold auth_response. rewrite writeResponse_blind.
  destruct (writeResponse c 334 "") as [c1 [err|]]; cbn; [|rewrite readLine_blind];
    repeat (case_match; simplify_eq/=; try done).
Qed.

Lemma AUTH_blind params : blind (λ c, AUTH c params).
Proof.
  intros c q. unfold AUTH. cbn. case_match; [done|]. case_match; [done|]. case_match; [done|].
  rewrite auth_response_blind. destruct (auth_response c params) as [c1 [resp|r]]; [|done].
  cbn. repeat (case_match; simplify_eq/=; try done).
Qed.

Lemma STARTTLS_blind : blind STARTTLS.
Proof.
  intros c q. unfold STARTTLS. cbn. case_match; [done|]. rewrite writeResponse_blind.
  destruct (writeResponse c 220 _) as [c1 [err|]]; [done|]. cbn.
  by destruct (handshakes c1) as [|[[st r]|err] hs].
Qed.

(** ** What DATA does with it *)

(** A piece of the handler that leaves the queue alone, or else puts this one
    message in it and answers as the queue does. *)
Definition failed (err : bytes) : outcome := Reply 451 ("4.3.0 Failed to queue message: " ++ err).

Definition put_reply (c1 : Conn) (msg : bytes) (r : Q * res bytes bytes) : Conn * outcome :=
  match r with
  | (q, Ok _) => (resetEnvelope (set_queue c1 q), Reply 250 msg)
  | (q, Err err) => (set_queue c1 q, failed err)
  end.

(** What everything before the call leaves as it was. *)
Definition kept (c c' : Conn) : Prop :=
  dinfo c' = dinfo c ∧ dinfoFS c' = dinfoFS c ∧ mailFrom c' = mailFrom c ∧ rcptTo c' = rcptTo c.

Lemma kept_trans c1 c2 c3 : kept c1 c2 → kept c2 c3 → kept c1 c3.
Proof. unfold kept. naive_solver congruence. Qed.

(** The message has the sender and the recipients of the connection. *)
Inductive puts_once (c : Conn) (f : Conn → Conn * outcome) : Prop :=
| puts_none : (∀ q, f (set_queue c q) = with_queue q (f c)) → puts_once c f
| puts_one d c1 msg :
    kept c c1 →
    (∀ q, f (set_queue c q) = put_reply c1 msg (q_Put q (mailFrom c) (rcptTo c) d)) →
    puts_once c f.

Lemma blind_puts c f : blind f → puts_once c f.
Proof. left. auto. Qed.

Lemma set_queue_id (c : Conn) : set_queue c (queue c) = c.
Proof. by destruct c. Qed.

(** After a step that does not look at the queue. *)
Lemma puts_after {A} c (g : Conn → Conn * A) (k : A → Conn → Conn * outcome) :
  blind g → kept c (g c).1 → puts_once (g c).1 (k (g c).2) →
  puts_once c (λ c, let '(c, a) := g c in k a c).
Proof.
  intros Hg Hd Hk. assert (E : ∀ q, (let '(c, a) := g (set_queue c q) in k a c)
    = k (g c).2 (set_queue (g c).1 q)) by (intros q; by rewrite Hg).
  destruct Hk as [Hk|d c1 msg Ed Hk].
  - left. intros q. rewrite E, Hk. by destruct (g c).
  - right with d c1 msg; [by eapply kept_trans|]. intros q. rewrite E, Hk.
    by destruct Hd as (_ & _ & -> & ->).
Qed.

Lemma addReceivedHeader_queue e (c : Conn) q :
  addReceivedHeader e (set_queue c q) = set_queue (addReceivedHeader e c) q.
Proof.
  unfold addReceivedHeader. change (received_value e (set_queue c q)) with (received_value e c).
  cbn. repeat (case_match; simplify_eq/=; try done).
Qed.

Lemma addReceivedHeader_kept e (c : Conn) : kept c (addReceivedHeader e c).
Proof. unfold addReceivedHeader. repeat (case_match; simplify_eq/=; try done). Qed.

(** The same function, up to what it is on these arguments. *)
Lemma puts_ext c f g : (∀ q, f (set_queue c q) = g (set_queue c q)) → puts_once c g → puts_once c f.
Proof.
  intros E Hg. assert (Ec : f c = g c) by (by rewrite <- (set_queue_id c), E).
  destruct Hg as [Hg|d c1 msg Hd Hg].
  - left. intros q. by rewrite E, Hg, Ec.
  - eright; [exact Hd|]. intros q. by rewrite E, Hg.
Qed.

(** [data_queue], once the headers are there. *)
Definition hook_and_put (e : env) (c : Conn) : Conn * outcome :=
  match runPostDataHook e c (data c) with
  | Err (permanent, msg) => (c, Reply (if permanent then 554 else 451) msg)
  | Ok hookOut =>
    let c := set_data c (hookOut ++ data c) in
    let '(q, r) := q_Put (queue c) (mailFrom c) (rcptTo c) (data c) in
    let c := set_queue c q in
    match r with
    | Err err => (c, failed err)
    | Ok _ => (resetEnvelope c, Reply 250 ("2.0.0 " ++ pick e
        ["You offer the Amulet of Yendor to Anhur...";
         "An invisible choir sings, and you are bathed in radiance...";
         "The voice of Anhur booms out: Congratulations, mortal!";
         "In return to thy service, I grant thee the gift of Immortality!";
         "You ascend to the status of Demigod(dess)..."]))
    end
  end.

Lemma runPostDataHook_queue e (c : Conn) q d :
  runPostDataHook e (set_queue c q) d = runPostDataHook e c d.
Proof.
  unfold runPostDataHook, hook_env. cbn [cfg remoteAddr ehloDomain mailFrom rcptTo completedAuth
    authUser authDomain onTLS spfResult set_queue]. reflexivity.
Qed.

Lemma hook_and_put_puts e c : puts_once c (hook_and_put e).
Proof.
  destruct (runPostDataHook e c (data c)) as [out|[perm msg]] eqn:Eh.
  - eapply (puts_one c _ (out ++ data c) (set_data c (out ++ data c))); [done|].
    intros q. unfold hook_and_put.
    rewrite runPostDataHook_queue. cbn [data set_queue]. rewrite Eh. cbv zeta.
    cbn [data queue mailFrom rcptTo set_queue set_data]. destruct (q_Put q _ _ _) as [q' [id|err]]; reflexivity.
  - left. intros q. unfold hook_and_put.
    rewrite runPostDataHook_queue. cbn [data set_queue]. by rewrite Eh.
Qed.

Lemma data_queue_puts e c : puts_once c (data_queue e).
Proof.
  apply (puts_ext _ _ (λ c, hook_and_put e (addReceivedHeader e c))); [reflexivity|].
  apply (puts_after c (λ c, (addReceivedHeader e c, tt)) (λ _, hook_and_put e)); [|apply addReceivedHeader_kept|].
  - intros c' q. unfold with_queue. cbn [fst snd]. by rewrite addReceivedHeader_queue.
  - apply hook_and_put_puts.
Qed.

Lemma dkim_sign_loop_blind e signers : blind (dkim_sign_loop e signers).
Proof.
  induction signers as [|s ss IH]; intros c q; [done|]. cbn.
  destruct (dkim_Sign _ _ _) as [sig|err]; [|done].
  exact (IH (set_data c _) q).
Qed.

Lemma dkim_sign_loop_kept e signers (c : Conn) : kept c (dkim_sign_loop e signers c).1.
Proof.
  revert c. induction signers as [|s ss IH]; intros c; [done|]. cbn.
  destruct (dkim_Sign _ _ _) as [sig|err]; [|done]. apply (IH (set_data c _)).
Qed.

Lemma dkimSign_blind e : blind (dkimSign e).
Proof.
  intros c q. unfold dkimSign. cbn. case_match; [done|]. apply dkim_sign_loop_blind.
Qed.

Lemma dkimSign_kept e (c : Conn) : kept c (dkimSign e c).1.
Proof. unfold dkimSign. case_match; [done|]. apply dkim_sign_loop_kept. Qed.

Lemma checked_queue e (c : Conn) q :
  checkData c (data c) = None →
  data_message e (set_queue c q) =
    if completedAuth c then
      let '(c, r) := dkimSign e (set_queue c q) in
      match r with
      | Some _ => (c, Reply 451 "4.3.0 DKIM signing failed")
      | None => data_queue e c
      end
    else
      match dkim_VerifyMessage (moment e) (Normalize.ToCRLF (data c)) with
      | None => (set_queue c q, Panic)
      | Some (Ok v) => data_queue e (set_dkim (set_queue c q) (Some v))
      | Some (Err _) => data_queue e (set_dkim (set_queue c q) None)
      end.
Proof.
  intros Ec. unfold data_message, dkimVerify. change (checkData (set_queue c q)) with (checkData c).
  cbn [data completedAuth set_queue]. rewrite Ec. destruct (completedAuth c).
  - by destruct (dkimSign e _) as [c1 [err|]].
  - by destruct (dkim_VerifyMessage _ _) as [[v|err]|].
Qed.

Lemma set_dkim_puts e c v : puts_once c (λ c, data_queue e (set_dkim c v)).
Proof.
  apply (puts_after c (λ c, (set_dkim c v, tt)) (λ _, data_queue e)); [done..|].
  apply data_queue_puts.
Qed.

Lemma data_message_puts e c : puts_once c (data_message e).
Proof.
  destruct (checkData c (data c)) as [err|] eqn:Ec.
  { left. intros q. unfold data_message. change (checkData (set_queue c q)) with (checkData c).
    cbn [data set_queue]. by rewrite Ec. }
  destruct (completedAuth c) eqn:Ea.
  - apply (puts_ext _ _ (λ c, let '(c, r) := dkimSign e c in
      match r with Some _ => (c, Reply 451 "4.3.0 DKIM signing failed") | None => data_queue e c end)).
    { intros q. rewrite checked_queue by done. by rewrite Ea. }
    apply (puts_after c (dkimSign e) (λ r c, match r with
      | Some _ => (c, Reply 451 "4.3.0 DKIM signing failed") | None => data_queue e c end)); [apply dkimSign_blind|apply dkimSign_kept|].
    destruct (dkimSign e c).2; [by left|apply data_queue_puts].
  - destruct (dkim_VerifyMessage (moment e) (Normalize.ToCRLF (data c))) as [[v|err]|] eqn:Ev.
    + eapply puts_ext; [|apply (set_dkim_puts e c (Some v))].
      intros q. rewrite checked_queue by done. by rewrite Ea, Ev.
    + eapply puts_ext; [|apply (set_dkim_puts e c None)].
      intros q. rewrite checked_queue by done. by rewrite Ea, Ev.
    + apply (puts_ext _ _ (λ c, (c, Panic))); [|by left].
      intros q. rewrite checked_queue by done. by rewrite Ea, Ev.
Qed.

(** What DATA does once the message has been read. *)
Definition data_read (e : env) (err : option DotReader.error) (c : Conn) : Conn * outcome :=
  match err with
  | Some errMessageTooLarge => (c, Reply 552 "5.3.4 Message too big")
  | Some errInvalidLineEnding =>
    let '(c, _) := writeResponse c 521 "5.5.2 Error reading DATA: invalid line ending" in
    (c, Reply (-1) "Invalid line ending, closing connection")
  | Some err => (c, Reply 554 ("5.4.0 Error reading DATA: " ++ dot_error_text err))
  | None => data_message e c
  end.

Lemma data_read_puts e err c : puts_once c (data_read e err).
Proof.
  destruct err as [[]|]; [by left| |by left|by left|apply data_message_puts].
  left. intros q. unfold data_read. rewrite writeResponse_blind. by destruct (writeResponse c 521 _).
Qed.

Definition read_data (c : Conn) : Conn * option DotReader.error :=
  let '(d, err, r) := readUntilDot (rd c) (maxDataSize (cfg c)) in
  (set_data (set_io c r (wr c)) d, err).

Lemma writeResponse_kept (c : Conn) code msg : kept c (writeResponse c code msg).1.
Proof. unfold writeResponse. by destruct (write_flush _ _). Qed.

Lemma read_data_puts e c :
  puts_once c (λ c, let '(c, err) := read_data c in data_read e err c).
Proof.
  assert (HB : blind read_data).
  { intros c' q. unfold read_data, with_queue. cbn. by destruct (readUntilDot _ _) as [[d err] r]. }
  apply (puts_after c read_data (data_read e)); [exact HB| |apply data_read_puts].
  unfold read_data. by destruct (readUntilDot _ _) as [[d err] r].
Qed.

(** DATA, after its first checks. *)
Definition data_go (e : env) (c : Conn) : Conn * outcome :=
  let '(c, err) := writeResponse c 354 "You suddenly realize it is unnaturally quiet" in
  match err with
  | Some err => (c, Reply 554 ("5.4.0 Error writing DATA response: " ++ err))
  | None => let '(c, err) := read_data c in data_read e err c
  end.

Lemma DATA_go e (c : Conn) :
  ehloDomain c ≠ "" → mailFrom c ≠ "" → length (rcptTo c) ≠ 0 → DATA e c = data_go e c.
Proof.
  intros E1 E2 E3. unfold DATA, data_go. rewrite !bool_decide_eq_false_2 by done.
  destruct (writeResponse c 354 _) as [c1 [err|]]; [done|]. unfold read_data.
  by destruct (readUntilDot _ _) as [[d err] r].
Qed.

Lemma data_go_puts e c : puts_once c (data_go e).
Proof.
  apply (puts_after c (λ c, writeResponse c 354 "You suddenly realize it is unnaturally quiet")
    (λ err c, match err with
     | Some err => (c, Reply 554 ("5.4.0 Error writing DATA response: " ++ err))
     | None => let '(c, err) := read_data c in data_read e err c
     end)); [apply writeResponse_blind|apply writeResponse_kept|].
  destruct (writeResponse c 354 _).2; [by left|apply read_data_puts].
Qed.

Lemma DATA_puts e c : puts_once c (DATA e).
Proof.
  destruct (decide (ehloDomain c = "")) as [E1|E1];
    [left; intros q; unfold DATA; cbn [ehloDomain set_queue]; by rewrite E1|].
  destruct (decide (mailFrom c = "")) as [E2|E2];
    [left; intros q; unfold DATA; cbn [ehloDomain mailFrom set_queue];
     rewrite (bool_decide_eq_false_2 (ehloDomain c = "")) by done; by rewrite E2|].
  destruct (decide (length (rcptTo c) = 0)) as [E3|E3];
    [left; intros q; unfold DATA; cbn [ehloDomain mailFrom rcptTo set_queue];
     rewrite (bool_decide_eq_false_2 (ehloDomain c = "")) by done;
     rewrite (bool_decide_eq_false_2 (mailFrom c = "")) by done; by rewrite E3|].
  apply (puts_ext _ _ (data_go e)); [|apply data_go_puts]. intros q. by apply DATA_go.
Qed.

Lemma run_command_puts e c cmd params : puts_once c (λ c, run_command e c cmd params).
Proof.
  unfold run_command.
  repeat match goal with |- puts_once _ (λ c, if ?b then _ else _) => destruct b end;
    try (apply DATA_puts); apply blind_puts;
    eauto using HELO_blind, EHLO_blind, MAIL_blind, RCPT_blind, AUTH_blind, STARTTLS_blind; done.
Qed.

(** ** Turns *)

(** The end of a turn: the reply to the command. *)
Definition reply_turn (n : nat) (p : Conn * outcome) : Conn * (nat + exit) :=
  match p with
  | (c, Panic) => (c, inr ExitPanic)
  | (c, Reply code msg) =>
    if (0 <? code)%Z then
      let errCount := if (400 <=? code)%Z then S n else n in
      if (400 <=? code)%Z && bool_decide (3 <= errCount) then
        let '(c, _) := writeResponse c 421 "4.5.0 Too many errors, bye" in
        (c, inr ExitTooManyErrors)
      else
        match writeResponse c code msg with
        | (c, Some err) => (c, inr (ExitWrite err))
        | (c, None) => (c, inl errCount)
        end
    else if (code <? 0)%Z then (c, inr (ExitClosed msg))
    else (c, inl n)
  end.

Lemma reply_turn_queue n p q : reply_turn n (with_queue q p) = with_queue q (reply_turn n p).
Proof.
  destruct p as [c [code msg|]]; [|done]. cbn -[Z.ltb Z.leb].
  rewrite !writeResponse_blind.
  destruct (writeResponse c code msg) as [c1 [err|]], (writeResponse c 421 _) as [c2 e2]; cbn -[Z.ltb Z.leb];
    repeat case_match; done.
Qed.

(** A turn leaves the queue alone, or makes one call of [Put], with the sender and
    the recipients of the connection and contents that do not depend on the queue,
    and then only replies. *)
Inductive turn_puts (e : env) (c : Conn) (n : nat) : Prop :=
| turn_none : (∀ q, iteration e (set_queue c q) n = with_queue q (iteration e c n)) → turn_puts e c n
| turn_one d c1 msg :
    kept c c1 →
    (∀ q, iteration e (set_queue c q) n =
       reply_turn n (put_reply c1 msg (q_Put q (mailFrom c) (rcptTo c) d))) →
    turn_puts e c n.

Lemma readLine_kept (c : Conn) : kept c (readLine c).1.
Proof. unfold readLine. repeat case_match; simplify_eq/=; done. Qed.

Lemma iteration_puts e c n : turn_puts e c n.
Proof.
  destruct (0 <? now e - deadline (cfg c))%Z eqn:Et.
  { left. intros q. unfold iteration. cbn. by rewrite Et. }
  assert (HI : ∀ q, iteration e (set_queue c q) n =
    match with_queue q (readCommand c) with
    | (c, Err err) =>
      (printfLine c ("554 error reading command: " ++ read_error_text err), inr (ExitRead err))
    | (c, Ok (cmd, params)) =>
      if cmd == "QUIT" then
        let '(c, _) := writeResponse c 221 "2.0.0 Be seeing you..." in (c, inr ExitQuit)
      else if is_http cmd then
        let '(c, _) := writeResponse c 502 "5.7.0 You hear someone cursing shoplifters" in
        (c, inr ExitHTTP)
      else reply_turn n (run_command e c cmd params)
    end).
  { intros q. unfold iteration. cbn [cfg set_queue]. rewrite Et, readCommand_blind.
    destruct (with_queue q (readCommand c)) as [c' [[cmd params]|err]]; [|done].
    do 2 (case_match; [done|]). by destruct (run_command e c' cmd params) as [c2 []]. }
  pose proof (HI (queue c)) as HC. rewrite <- readCommand_blind, !set_queue_id in HC.
  assert (HD : kept c (readCommand c).1).
  { unfold readCommand. pose proof (readLine_kept c). by destruct (readLine c). }
  destruct (readCommand c) as [c0 [[cmd params]|err]]; cbn [fst snd] in HC, HD;
    [|left; intros q; rewrite HI, HC; unfold printfLine, with_queue; cbn;
      by destruct (write_flush _ _)].
  destruct (cmd == "QUIT") eqn:Eq;
    [left; intros q; rewrite HI, HC; cbn [with_queue fst snd]; rewrite Eq, writeResponse_blind;
     by destruct (writeResponse c0 221 _)|].
  destruct (is_http cmd) eqn:Eh;
    [left; intros q; rewrite HI, HC; cbn [with_queue fst snd]; rewrite Eq, Eh, writeResponse_blind;
     by destruct (writeResponse c0 502 _)|].
  destruct (run_command_puts e c0 cmd params) as [Hr|d c1 msg Hd Hr].
  - left. intros q. rewrite HI, HC. cbn [with_queue fst snd]. rewrite Eq, Eh, Hr.
    apply reply_turn_queue.
  - right with d c1 msg; [by eapply kept_trans|]. intros q. rewrite HI.
    cbn [with_queue fst snd]. rewrite Eq, Eh, Hr. by destruct HD as (_ & _ & -> & ->).
Qed.

End ConnQueue.
End ConnQueue.
