(* ===== verification/Queue.v ===== *)
(** The mail queue: package [internal/queue] ([queue.go] and [dsn.go]).

    The items and the files they are saved in, the operations on the queue,
    the sending loop of an item, and the delivery status notifications.  The
    couriers are called through an oracle that gives the result of each
    delivery; the clock, the random numbers and the disk are arguments. *)

From stdpp Require Import sorting.
From S2P Require Import Prelude GoStrings Envelope Aliases Store.
#[local] Open Scope go_scope.

Module Queue.
Import Safeio Protoio.

(** ** Data *)

Inductive RType := EMAIL | PIPE | FORWARD.
Inductive Status := PENDING | SENT | FAILED.

#[export] Instance QRType_eq_dec : EqDecision RType.
Proof. solve_decision. Defined.
#[export] Instance Status_eq_dec : EqDecision Status.
Proof. solve_decision. Defined.

Record Recipient := mkRecipient {
  Address : bytes;
  Type_ : RType;
  Rstatus : Status;
  LastFailureMessage : bytes;
  OriginalAddress : bytes;
  Via : list bytes;
}.

#[export] Instance QRecipient_eq_dec : EqDecision Recipient.
Proof. solve_decision. Defined.

(** Seconds since the epoch, and nanoseconds. *)
Record Timestamp := mkTimestamp { Seconds : Z; Nanos : Z }.

#[export] Instance Timestamp_eq_dec : EqDecision Timestamp.
Proof. solve_decision. Defined.

Record Message := mkMessage {
  ID : bytes;
  From : bytes;
  To : list bytes;
  Rcpt : list Recipient;
  Data : bytes;
  CreatedAtTs : Timestamp;
}.

#[export] Instance Message_eq_dec : EqDecision Message.
Proof. solve_decision. Defined.

(** [time.Time], in nanoseconds since the epoch. *)
Definition Second : Z := 1000000000.
Definition Minute : Z := 60 * Second.

Record Item := mkItem {
  msg : Message;
  CreatedAt : Z;
}.

(** A Go [time.Duration] of [h] hours. *)
Definition hours (h : Z) : Z := (h * 60 * Minute)%Z.

Record Queue := mkQueue {
  localDomains : option StringSet.String;
  path : bytes;
  aliases : Aliases.Resolver;
  MaxItems : Z;
  GiveUpAfter : Z;
  q : gmap bytes Item;
}.

Definition itemFilePrefix : bytes := "m:".

Definition set_q (qu : Queue) (m : gmap bytes Item) : Queue :=
  mkQueue (localDomains qu) (path qu) (aliases qu) (MaxItems qu)
    (GiveUpAfter qu) m.

Definition New (path : bytes) (localDomains : option StringSet.String)
    (aliases : Aliases.Resolver) (mkdir_err : option bytes) :
  Queue * option bytes :=
  (mkQueue localDomains path aliases 100 (hours 20) ∅, mkdir_err).

(** [SetQueueLimits] of [internal/smtpsrv/server.go]. *)
Definition SetQueueLimits (qu : Queue) (maxItems giveUpAfter : Z) : Queue :=
  mkQueue (localDomains qu) (path qu) (aliases qu)
    (if (0 <? maxItems)%Z then maxItems else MaxItems qu)
    (if (0 <? giveUpAfter)%Z then giveUpAfter else GiveUpAfter qu) (q qu).

Definition Len (qu : Queue) : Z := Z.of_nat (size (q qu)).

(** ** Files *)

Definition timeToProto (t : Z) : Timestamp :=
  mkTimestamp (t / Second) (t mod Second).

Definition timeFromProto (ts : Timestamp) : Z :=
  (Seconds ts * Second + Nanos ts)%Z.

Definition set_ts (m : Message) (ts : Timestamp) : Message :=
  mkMessage (ID m) (From m) (To m) (Rcpt m) (Data m) ts.

Definition item_path (dir id : bytes) : bytes :=
  dir ++ "/" ++ itemFilePrefix ++ id.

(** What the disk answers to one write of an item: the calls of [WriteFile]
    and the three of [FsyncFileOp]. *)
Record item_disk := mkItemDisk {
  wcalls : syscalls;
  fsync_open_err : option bytes;
  fsync_err : option bytes;
  fsync_close_err : option bytes;
}.

(** A disk with no errors. *)
Definition good_disk (tmp : bytes) : item_disk :=
  mkItemDisk (working_calls tmp) None None None.

Section Queue.
Context `{Unicode, Precis, AliasWorld, NetMail, ProtoText Message}.

Definition ItemFromFile (fault : bytes → option bytes) (fs : FS)
    (fname : bytes) : res read_error Item :=
  m ← ReadTextMessage fault fs fname;
  Ok (mkItem m (timeFromProto (CreatedAtTs m))).

(** The item's own timestamp is set before it is written. *)
Definition WriteTo (d : item_disk) (fs : FS) (item : Item) (dir : bytes) :
  Item * FS * option bytes :=
  let m := set_ts (msg item) (timeToProto (CreatedAt item)) in
  let '(fs, err) :=
    WriteTextMessage (wcalls d) fs (item_path dir (ID m)) m
      [FsyncFileOp (fsync_open_err d) (fsync_err d) (fsync_close_err d)] in
  (mkItem m (CreatedAt item), fs, err).

(** [filepath.Glob(q.path + "/m:*")], for a path without special characters:
    the files of the directory whose name has the prefix. *)
Definition glob_items (fs : FS) (dir : bytes) : list bytes :=
  (λ n, dir ++ "/" ++ n)
    <$> filter (λ n, HasPrefix n itemFilePrefix = true) (ReadDir fs dir).

(** [Load] also starts the sending loop of each item it read: their ids are
    returned.  Files that cannot be read are skipped. *)
Fixpoint load_files (fault : bytes → option bytes) (fs : FS)
    (files : list bytes) (m : gmap bytes Item) (started : list bytes) :
  gmap bytes Item * list bytes :=
  match files with
  | [] => (m, started)
  | fname :: files =>
    match ItemFromFile fault fs fname with
    | Err _ => load_files fault fs files m started
    | Ok item =>
      load_files fault fs files (<[ID (msg item) := item]> m)
        (started ++ [ID (msg item)])
    end
  end.

Definition Load (fault : bytes → option bytes) (fs : FS) (qu : Queue) :
  Queue * list bytes :=
  let '(m, started) := load_files fault fs (glob_items fs (path qu)) (q qu) [] in
  (set_q qu m, started).

(** ** Put *)

Inductive put_error :=
| errQueueFull
| ErrResolving (to : bytes) (err : Aliases.error)
| ErrWrite (msg : bytes).

Definition rcpt_type (t : Aliases.RType) : RType :=
  match t with
  | Aliases.EMAIL => EMAIL
  | Aliases.PIPE => PIPE
  | Aliases.FORWARD => FORWARD
  end.

(** The conversion of a resolved recipient; only forwards carry servers. *)
Definition new_rcpt (t : bytes) (r : Aliases.Recipient) : Recipient :=
  mkRecipient (Aliases.Addr r) (rcpt_type (Aliases.Type_ r)) PENDING [] t
    (match Aliases.Type_ r with
     | Aliases.FORWARD => Aliases.Via r
     | _ => []
     end).

Fixpoint add_rcpts (al : Aliases.Resolver) (to : list bytes)
    (rcpts : list Recipient) : res put_error (list Recipient) :=
  match to with
  | [] => Ok rcpts
  | t :: to =>
    match Aliases.Resolve al t with
    | Err err => Err (ErrResolving t err)
    | Ok rs => add_rcpts al to (rcpts ++ (new_rcpt t <$> rs))
    end
  end.

(** What the outside gives to one [Put]: the next id, the time, the disk. *)
Record put_env := mkPutEnv {
  new_id : bytes;
  put_time : Z;
  put_disk : item_disk;
}.

Definition Put (e : put_env) (fs : FS) (qu : Queue) (from : bytes)
    (to : list bytes) (data : bytes) : Queue * FS * res put_error bytes :=
  if (MaxItems qu <=? Len qu)%Z then (qu, fs, Err errQueueFull)
  else
    match add_rcpts (aliases qu) to [] with
    | Err err => (qu, fs, Err err)
    | Ok rcpts =>
      let item := mkItem (mkMessage (new_id e) from to rcpts data (mkTimestamp 0 0))
                    (put_time e) in
      match WriteTo (put_disk e) fs item (path qu) with
      | (_, fs, Some err) => (qu, fs, Err (ErrWrite err))
      | (item, fs, None) =>
        (set_q qu (<[ID (msg item) := item]> (q qu)), fs, Ok (ID (msg item)))
      end
    end.

(** [rm_err]: the error of removing the file, which is only logged. *)
Definition Remove (rm_err : option bytes) (fs : FS) (qu : Queue) (id : bytes) :
  Queue * FS :=
  (set_q qu (delete id (q qu)),
   match rm_err with
   | Some _ => fs
   | None => delete (item_path (path qu) id) fs
   end).

(** ** The debugging page *)

Definition Status_String (s : Status) : bytes :=
  match s with PENDING => "PENDING" | SENT => "SENT" | FAILED => "FAILED" end.

Definition RType_String (t : RType) : bytes :=
  match t with EMAIL => "EMAIL" | PIPE => "PIPE" | FORWARD => "FORWARD" end.

Definition dump_rcpt (r : Recipient) : bytes :=
  Status_String (Rstatus r) ++ " " ++ Address r ++ " (" ++ RType_String (Type_ r) ++ ")" ++ [LF]
    ++ "  original address: " ++ OriginalAddress r ++ [LF]
    ++ "  last failure: " ++ Quote (LastFailureMessage r) ++ [LF].

(** [time_text] is the text of a time. *)
Definition dump_item (time_text : Z → bytes) (id : bytes) (item : Item) : bytes :=
  "## Item " ++ id ++ [LF]
    ++ "created at: " ++ time_text (CreatedAt item) ++ [LF]
    ++ "from: " ++ From (msg item) ++ [LF]
    ++ "to: [" ++ Join (To (msg item)) " " ++ "]" ++ [LF]
    ++ concat (dump_rcpt <$> Rcpt (msg item)) ++ [LF].

(** [entries]: the map in the order in which [range] visits it. *)
Definition DumpString (time_text : Z → bytes) (now : Z) (entries : list (bytes * Item))
    (qu : Queue) : bytes :=
  "# Queue status" ++ [LF; LF] ++ "date: " ++ time_text now ++ [LF]
    ++ "length: " ++ Itoa (Len qu) ++ [LF; LF]
    ++ concat ((λ e, dump_item time_text e.1 e.2) <$> entries).

(** ** Delivery *)

(** What is asked of a courier, or of the system for a pipe. *)
Inductive delivery :=
| RunPipe (cmd : bytes) (args : list bytes) (data : bytes)
| RemoteForward (from to data : bytes) (via : list bytes)
| LocalDeliver (from to data : bytes)
| RemoteDeliver (from to data : bytes).

(** The result of a delivery: the error, if any, and whether it is
    permanent. *)
Definition result : Type := option bytes * bool.

Definition mustIDNAToASCII (s : bytes) : bytes :=
  let '(a, err) := idna_ToASCII s in
  if (err : bool) then a else s.

Definition rewriteSender (from originalAddr : bytes) : bytes :=
  Envelope.UserOf originalAddr ++ "+fwd_from=" ++ ReplaceAll from "@" "="
    ++ "@" ++ mustIDNAToASCII (Envelope.DomainOf originalAddr).

(** The call that [deliver] makes for a recipient, if any. *)
Definition delivery_for (qu : Queue) (m : Message) (rcpt : Recipient) :
  res result delivery :=
  match Type_ rcpt with
  | PIPE =>
    match Fields (Address rcpt) with
    | [] => Err (Some "empty pipe", true)
    | cmd :: args => Ok (RunPipe cmd args (Data m))
    end
  | FORWARD =>
    let from := if negb (Envelope.DomainIn (From m) (localDomains qu))
                then rewriteSender (From m) (OriginalAddress rcpt)
                else From m in
    Ok (RemoteForward from (Address rcpt) (Data m) (Via rcpt))
  | EMAIL =>
    if Envelope.DomainIn (Address rcpt) (localDomains qu) then
      Ok (LocalDeliver (From m) (Address rcpt) (Data m))
    else
      let from := if negb (Envelope.DomainIn (From m) (localDomains qu))
                  then rewriteSender (From m) (OriginalAddress rcpt)
                  else From m in
      Ok (RemoteDeliver from (Address rcpt) (Data m))
  end.

(** [deliver]: the errors of a pipe are always permanent. *)
Definition deliver (courier : delivery → result) (qu : Queue) (m : Message)
    (rcpt : Recipient) : result :=
  match delivery_for qu m rcpt with
  | Err r => r
  | Ok d =>
    match d with
    | RunPipe _ _ _ => ((courier d).1, true)
    | _ => courier d
    end
  end.

(** The update of a recipient after an attempt. *)
Definition after_attempt (rcpt : Recipient) (r : result) : Recipient :=
  let set s l := mkRecipient (Address rcpt) (Type_ rcpt) s l
                   (OriginalAddress rcpt) (Via rcpt) in
  match r with
  | (Some err, true) => set FAILED err
  | (Some err, false) => set (Rstatus rcpt) err
  | (None, _) => set SENT (LastFailureMessage rcpt)
  end.

Definition set_rcpt (m : Message) (rs : list Recipient) : Message :=
  mkMessage (ID m) (From m) (To m) rs (Data m) (CreatedAtTs m).

(** [sendOneRcpt] for the recipient with index [i]: the attempt, the update,
    and the item written; its error is only logged. *)
Definition sendOneRcpt (courier : delivery → result) (d : item_disk) (fs : FS)
    (qu : Queue) (item : Item) (i : nat) : Item * FS :=
  match Rcpt (msg item) !! i with
  | None => (item, fs)
  | Some rcpt =>
    let r := deliver courier qu (msg item) rcpt in
    let item := mkItem (set_rcpt (msg item)
                  (<[i := after_attempt rcpt r]> (Rcpt (msg item))))
                  (CreatedAt item) in
    let '(item, fs, _) := WriteTo d fs item (path qu) in
    (item, fs)
  end.

Definition countRcpt (m : Message) (statuses : list Status) : nat :=
  length (filter (λ r, Rstatus r ∈ statuses) (Rcpt m)).

(** ** The sending loop *)

(** [rnd60] is [rand.N(60 * time.Second)]. *)
Definition nextDelay (since rnd60 : Z) : Z :=
  let delay :=
    if (since <? 1 * Minute)%Z then (1 * Minute)%Z
    else if (since <? 5 * Minute)%Z then (5 * Minute)%Z
    else if (since <? 10 * Minute)%Z then (10 * Minute)%Z
    else (20 * Minute)%Z in
  (delay + rnd60)%Z.

(** What the outside does in one round of the loop: the order in which the
    parallel attempts complete, what the couriers answer, the disk, how long
    the attempts take, and the random part of the delay. *)
Record round_env := mkRoundEnv {
  order : list nat → list nat;
  courier : delivery → result;
  disks : nat → item_disk;
  elapsed : Z;
  rnd60 : Z;
}.

(** The indexes of the recipients to send to. *)
Fixpoint pending_from (i : nat) (rs : list Recipient) : list nat :=
  match rs with
  | [] => []
  | r :: rs =>
    if Rstatus r != PENDING then pending_from (S i) rs
    else i :: pending_from (S i) rs
  end.

Definition pending (m : Message) : list nat := pending_from 0 (Rcpt m).

(** The attempts of a round, in the order in which they complete. *)
Definition send_round (e : round_env) (fs : FS) (qu : Queue) (item : Item) :
  Item * FS :=
  foldl (λ st i, sendOneRcpt (courier e) (disks e i) st.2 qu st.1 i)
    (item, fs) (order e (pending (msg item))).

(** The loop of [SendLoop], from time [now] on; the result has the time at
    which it ends.  [fuel] bounds the rounds. *)
Fixpoint send_rounds (fuel : nat) (es : nat → round_env) (k : nat) (now : Z)
    (fs : FS) (qu : Queue) (item : Item) : option (Item * FS * Z) :=
  match fuel with
  | 0 => None
  | S fuel =>
    if (now - CreatedAt item <? GiveUpAfter qu)%Z then
      let e := es k in
      let '(item, fs) := send_round e fs qu item in
      let now := (now + elapsed e)%Z in
      if countRcpt (msg item) [PENDING] == 0 then Some (item, fs, now)
      else
        let delay := nextDelay (now - CreatedAt item) (rnd60 e) in
        send_rounds fuel es (S k) (now + delay)%Z fs qu item
    else Some (item, fs, now)
  end.

(** ** Delivery status notifications *)

Definition maxOrigMsgLen : nat := N.to_nat (256 * 1024).

(** [indent] with four spaces. *)
Definition indent (sp : nat) (s : bytes) : bytes :=
  ReplaceAll s [LF] ([LF] ++ replicate sp SP).

Record dsnInfo := mkDsnInfo {
  OurDomain : bytes;
  Destination : bytes;
  MessageID : bytes;
  Date : bytes;
  FailedTo : list bytes;
  FailedRecipients : list Recipient;
  PendingRecipients : list Recipient;
  OriginalMessage : bytes;
  OriginalMessageID : bytes;
  Boundary : bytes;
}.

Definition failure_text (r : Recipient) : bytes :=
  indent 4 (TrimSpace (LastFailureMessage r)).

Definition line (l : bytes) : bytes := l ++ [LF].

Definition technical (what : bytes) (r : Recipient) : bytes :=
  [LF] ++ "- " ++ [DQUOTE] ++ Address r ++ [DQUOTE] ++ " ("
    ++ RType_String (Type_ r) ++ ") " ++ what ++ [LF] ++ "    " ++ failure_text r.

Definition report (code : bytes) (r : Recipient) : bytes :=
  line ("Original-Recipient: utf-8; " ++ OriginalAddress r)
    ++ line ("Final-Recipient: utf-8; " ++ Address r)
    ++ line "Action: failed"
    ++ line ("Status: " ++ code)
    ++ line ("Diagnostic-Code: smtp; " ++ failure_text r)
    ++ [LF].

(** [dsnTemplate], part by part. *)
Definition dsn_header (i : dsnInfo) : bytes :=
  line ("From: Mail Delivery System <postmaster-dsn@" ++ OurDomain i ++ ">")
    ++ line ("To: <" ++ Destination i ++ ">")
    ++ line "Subject: Mail delivery failed: returning message to sender"
    ++ line ("Message-ID: <" ++ MessageID i ++ ">")
    ++ line ("Date: " ++ Date i)
    ++ line ("In-Reply-To: " ++ OriginalMessageID i)
    ++ line ("References: " ++ OriginalMessageID i)
    ++ line ("X-Failed-Recipients: " ++ concat ((λ a, a ++ ", ") <$> FailedTo i))
    ++ line "Auto-Submitted: auto-replied"
    ++ line "MIME-Version: 1.0"
    ++ line "Content-Type: multipart/report; report-type=delivery-status;"
    ++ line ("    boundary=" ++ [DQUOTE] ++ Boundary i ++ [DQUOTE]).

Definition dsn_notification (i : dsnInfo) : bytes :=
  line ("--" ++ Boundary i)
    ++ line ("Content-Type: text/plain; charset=" ++ [DQUOTE] ++ "utf-8" ++ [DQUOTE])
    ++ line "Content-Disposition: inline"
    ++ line "Content-Description: Notification"
    ++ line "Content-Transfer-Encoding: 8bit"
    ++ line ""
    ++ line "Delivery of your message to the following recipient(s) failed permanently:"
    ++ line ""
    ++ concat ((λ a, line ("  - " ++ a)) <$> FailedTo i) ++ line ""
    ++ line ""
    ++ "Technical details:"
    ++ concat (technical "failed permanently with error:" <$> FailedRecipients i)
    ++ concat (technical "failed repeatedly and timed out, last error:"
                 <$> PendingRecipients i)
    ++ line "".

Definition dsn_report (i : dsnInfo) : bytes :=
  line ("--" ++ Boundary i)
    ++ line "Content-Type: message/global-delivery-status"
    ++ line "Content-Description: Delivery Report"
    ++ line "Content-Transfer-Encoding: 8bit"
    ++ line ""
    ++ line ("Reporting-MTA: dns; " ++ OurDomain i)
    ++ line ""
    ++ concat (report "5.0.0" <$> FailedRecipients i)
    ++ concat (report "4.0.0" <$> PendingRecipients i) ++ line "".

Definition dsn_original (i : dsnInfo) : bytes :=
  line ("--" ++ Boundary i)
    ++ line "Content-Type: message/rfc822"
    ++ line "Content-Description: Undelivered Message"
    ++ line "Content-Transfer-Encoding: 8bit"
    ++ line ""
    ++ line (OriginalMessage i)
    ++ line ""
    ++ line ("--" ++ Boundary i ++ "--").

Definition dsnTemplate (i : dsnInfo) : bytes :=
  dsn_header i ++ line "" ++ line "" ++ dsn_notification i ++ line ""
    ++ line "" ++ dsn_report i ++ line "" ++ dsn_original i.

(** [msg.Header.Get("Message-ID")]: the first value of the field. *)
Definition getMessageID (data : bytes) : bytes :=
  match mail_ReadMessage data with
  | Err _ => []
  | Ok header => default [] (head (default [] (header !! ("Message-Id" : bytes))))
  end.

(** The keys of a map, in the order in which the template visits them. *)
Definition map_keys (m : gmap bytes bytes) : list bytes :=
  merge_sort (λ a b, bytes_le a b) (map_to_list m).*1.

Definition deliveryStatusNotification (id1 id2 date domainFrom : bytes)
    (m : Message) : bytes :=
  let failedTo := foldl (λ acc r, match Rstatus r with
    | SENT => acc
    | _ => <[OriginalAddress r := OriginalAddress r]> acc
    end) (∅ : gmap bytes bytes) (Rcpt m) in
  dsnTemplate {|
    OurDomain := domainFrom;
    Destination := From m;
    MessageID := "chasquid-dsn-" ++ id1 ++ "@" ++ domainFrom;
    Date := date;
    FailedTo := map_keys failedTo;
    FailedRecipients := filter (λ r, Rstatus r = FAILED) (Rcpt m);
    PendingRecipients := filter (λ r, Rstatus r = PENDING) (Rcpt m);
    OriginalMessage :=
      if bool_decide (maxOrigMsgLen < length (Data m))
      then take maxOrigMsgLen (Data m) else Data m;
    OriginalMessageID := getMessageID (Data m);
    Boundary := id2 |}.

(** The local domain a notification is sent from. *)
Definition dsn_domain (qu : Queue) (m : Message) : bytes :=
  if (From m != "<>") && Envelope.DomainIn (From m) (localDomains qu) then
    Envelope.DomainOf (From m)
  else
    match list_find (λ r, Envelope.DomainIn (OriginalAddress r)
                            (localDomains qu) = true) (Rcpt m) with
    | Some (_, r) => Envelope.DomainOf (OriginalAddress r)
    | None => "unknown"
    end.

(** What the outside gives to the end of a sending loop. *)
Record dsn_env := mkDsnEnv {
  dsn_id : bytes;
  dsn_boundary : bytes;
  dsn_date : bytes;
  dsn_put : put_env;
  dsn_rm_err : option bytes;
}.

Definition sendDSN (e : dsn_env) (fs : FS) (qu : Queue) (m : Message) :
  Queue * FS * res put_error bytes :=
  let data := deliveryStatusNotification (dsn_id e) (dsn_boundary e) (dsn_date e)
                (dsn_domain qu m) m in
  Put (dsn_put e) fs qu "<>" [From m] data.

(** The end of [SendLoop]: the notification, if there is one to send, and
    the removal of the item. *)
Definition needs_dsn (m : Message) : bool :=
  bool_decide (0 < countRcpt m [FAILED; PENDING]) && (From m != "<>").

Definition finish (e : dsn_env) (fs : FS) (qu : Queue) (m : Message) :
  Queue * FS :=
  let '(qu, fs) :=
    if needs_dsn m then let '(qu, fs, _) := sendDSN e fs qu m in (qu, fs)
    else (qu, fs) in
  Remove (dsn_rm_err e) fs qu (ID m).

(** [SendLoop] of an item; the map holds the same item, so what the attempts
    change in it is seen there too.  The result has the item as it was when the
    loop ended, and that time. *)
Definition SendLoop (fuel : nat) (es : nat → round_env) (e : dsn_env) (now : Z)
    (fs : FS) (qu : Queue) (item : Item) : option (Queue * FS * Item * Z) :=
  '(item, fs, now) ← send_rounds fuel es 0 now fs qu item;
  let qu := set_q qu (<[ID (msg item) := item]> (q qu)) in
  let '(qu, fs) := finish e fs qu (msg item) in
  Some (qu, fs, item, now).

End Queue.
End Queue.
