(* ===== verification/QueueProps.v ===== *)
(** Properties of the mail queue modelled in [Queue.v]. *)

From stdpp Require Import sorting.
From S2P Require Import Prelude GoStrings Envelope Aliases Store Queue.
#[local] Open Scope go_scope.

Module QueueProps.
Import Safeio Protoio Queue.

Section QueueProps.
Context `{Unicode, Precis, AliasWorld, NetMail, ProtoText Message}.

(** ** Times *)

Lemma timeFromProto_timeToProto t : timeFromProto (timeToProto t) = t.
Proof.
  unfold timeFromProto, timeToProto. simpl.
  pose proof (Z.div_mod t Second ltac:(done)). lia.
Qed.

(** The range of the delays. *)
Lemma nextDelay_range since rnd :
  (0 ≤ rnd < 60 * Second)%Z →
  (Minute ≤ nextDelay since rnd < 21 * Minute)%Z ∧
  (∀ since', since ≤ since' → nextDelay since 0 ≤ nextDelay since' 0)%Z.
Proof.
  unfold nextDelay, Minute. intros Hr. split.
  - repeat case_match; lia.
  - intros since' Hs.
    destruct (Z.ltb_spec since (1 * (60 * Second)));
    destruct (Z.ltb_spec since (5 * (60 * Second)));
    destruct (Z.ltb_spec since (10 * (60 * Second)));
    destruct (Z.ltb_spec since' (1 * (60 * Second)));
    destruct (Z.ltb_spec since' (5 * (60 * Second)));
    destruct (Z.ltb_spec since' (10 * (60 * Second))); unfold Second in *; lia.
Qed.

(** ** Put *)

(** A write to the queue's disk. *)
Definition disk_ok (d : item_disk) (fs : FS) (dir id : bytes) : Prop :=
  temp_ok (wcalls d) fs (item_path dir id).

Lemma WriteTo_item d fs item dir item' fs' err :
  WriteTo d fs item dir = (item', fs', err) →
  item' = mkItem (set_ts (msg item) (timeToProto (CreatedAt item))) (CreatedAt item).
Proof.
  unfold WriteTo. destruct (WriteTextMessage _ _ _ _ _). by intros [= <- _ _].
Qed.

Lemma WriteTo_Ok d fs item dir item' fs' :
  disk_ok d fs dir (ID (msg item)) →
  WriteTo d fs item dir = (item', fs', None) →
  ∃ out, text_Marshal (msg item') = Ok out ∧
         fs' = <[item_path dir (ID (msg item)) := out]> fs.
Proof.
  intros Hd E. apply WriteTo_item in E as Hi. revert E.
  unfold WriteTo, WriteTextMessage. subst item'. simpl.
  destruct (text_Marshal _) as [out|]; [|done].
  destruct (WriteFile _ _ _ _ _) as [[tr fs1] err] eqn:EW.
  intros [= <- ->]. apply WriteFile_cases in EW as [_ ->]; [eauto| |done].
  apply Forall_singleton, FsyncFileOp_preserves.
Qed.

(** New recipients are pending. *)
Lemma add_rcpts_pending al to rs rcpts :
  add_rcpts al to rs = Ok rcpts → Forall (λ r, Rstatus r = PENDING) rs →
  Forall (λ r, Rstatus r = PENDING) rcpts.
Proof.
  revert rs. induction to as [|t to IH]; intros rs; simpl; [by intros [= ->]|].
  destruct (Aliases.Resolve al t) as [r|err]; [|done]. intros E Hrs.
  apply IH in E; [done|]. apply Forall_app. split; [done|].
  by apply Forall_fmap, Forall_true.
Qed.

(** What a successful [Put] stores. *)
Lemma Put_accepted e fs qu from to data qu' fs' id :
  disk_ok (put_disk e) fs (path qu) (new_id e) →
  Put e fs qu from to data = (qu', fs', Ok id) →
  id = new_id e ∧
  ∃ rcpts out,
    let m := mkMessage id from to rcpts data (timeToProto (put_time e)) in
    add_rcpts (aliases qu) to [] = Ok rcpts ∧
    qu' = set_q qu (<[id := mkItem m (put_time e)]> (q qu)) ∧
    text_Marshal m = Ok out ∧ fs' = <[item_path (path qu) id := out]> fs.
Proof.
  intros Hd. unfold Put. case_match; [done|].
  destruct (add_rcpts (aliases qu) to []) as [rcpts|err]; [|done].
  destruct (WriteTo _ _ _ _) as [[item fs1] [err|]] eqn:E; [done|].
  apply WriteTo_item in E as Hi. apply WriteTo_Ok in E as (out & Hout & ->);
    [|done]. subst item. simpl in *. intros [= <- <- <-].
  split; [done|]. eauto 10.
Qed.

Lemma Put_Err e fs qu from to data qu' fs' err :
  Put e fs qu from to data = (qu', fs', Err err) → qu' = qu.
Proof. unfold Put. repeat case_match; by intros [= <- _ _]. Qed.

(** The queue does not grow beyond its limit: [Put] refuses mail exactly
    when the queue is full, and otherwise at most fills it; mail that is
    refused, for this or any other reason, leaves the queue as it was. *)
Theorem Put_bounded e fs qu from to data qu' fs' r :
  (Len qu ≤ MaxItems qu)%Z →
  Put e fs qu from to data = (qu', fs', r) →
  (Len qu' ≤ MaxItems qu')%Z ∧
  (r = Err errQueueFull ↔ Len qu = MaxItems qu) ∧
  (∀ err, r = Err err → qu' = qu).
Proof.
  intros Hle HP. split; [|split].
  - revert HP. unfold Put. destruct (Z.leb_spec (MaxItems qu) (Len qu)) as [Hf|Hf];
      [by intros [= <- _ _]|].
    destruct (add_rcpts _ _ _) as [rcpts|]; [|by intros [= <- _ _]].
    destruct (WriteTo _ _ _ _) as [[item fs1] [err|]]; [by intros [= <- _ _]|].
    intros [= <- _ _]. unfold Len in *. simpl.
    pose proof (map_size_insert (ID (msg item)) item (q qu)) as Hs.
    destruct (q qu !! ID (msg item)); simpl in Hs; lia.
  - revert HP. unfold Put. destruct (Z.leb_spec (MaxItems qu) (Len qu)) as [Hf|Hf].
    + intros [= _ _ <-]. split; [intros _; lia|done].
    + split; [|lia]. intros ->.
      destruct (add_rcpts (aliases qu) to []) as [rcpts|err] eqn:Ea.
      * by repeat case_match.
      * injection HP as _ _ ->. exfalso. clear -Ea. revert Ea.
        generalize (@nil Recipient) as rs.
        induction to as [|t to IH]; intros rs; simpl; [done|].
        destruct (Aliases.Resolve _ t); [apply IH|done].
  - intros err ->. by eapply Put_Err.
Qed.

(** ** Restarting *)

(** The files of the directory are named after the items they hold. *)
Definition files_ok (fs : FS) (dir : bytes) : Prop :=
  ∀ id m, ReadTextMessage (λ _, None) fs (item_path dir id) = Ok m → ID m = id.

Lemma item_path_inj dir i j : item_path dir i = item_path dir j → i = j.
Proof. unfold item_path. intros E. by repeat apply app_inv_head in E. Qed.

Lemma elem_of_glob_items fs dir f :
  f ∈ glob_items fs dir ↔
  ∃ id, f = item_path dir id ∧ is_Some (fs !! f) ∧ "/"%char ∉ id.
Proof.
  unfold glob_items. rewrite list_elem_of_fmap. split.
  - intros (n & -> & Hn). apply list_elem_of_filter in Hn as [Hp Hn].
    apply elem_of_ReadDir in Hn as [Hs Hn].
    apply HasPrefix_spec in Hp as [id ->]. exists id. split; [done|].
    split; [done|]. set_solver.
  - intros (id & -> & Hs & Hid). exists (itemFilePrefix ++ id). split; [done|].
    apply list_elem_of_filter. split; [apply HasPrefix_app|].
    apply elem_of_ReadDir. split; [done|]. rewrite elem_of_app.
    intros [Hx|Hx]; [|done]. revert Hx. by apply (bool_decide_eq_true_1 _).
Qed.

Lemma load_files_lookup fs dir files m started id :
  files_ok fs dir →
  (∀ f, f ∈ files → ∃ id, f = item_path dir id) →
  (load_files (λ _, None) fs files m started).1 !! id =
    match (if bool_decide (item_path dir id ∈ files)
           then ItemFromFile (λ _, None) fs (item_path dir id)
           else Err NotExist) with
    | Ok item => Some item
    | Err _ => m !! id
    end.
Proof.
  intros Hok. revert m started. induction files as [|f files IH];
    intros m started Hf; [done|]. simpl.
  destruct (Hf f) as [id0 ->]; [set_solver|].
  assert (Hf' : ∀ f, f ∈ files → ∃ id, f = item_path dir id) by set_solver.
  destruct (decide (id = id0)) as [->|Hne].
  - rewrite (bool_decide_eq_true_2 (item_path dir id0 ∈ item_path dir id0 :: files))
      by set_solver.
    destruct (ItemFromFile (λ _, None) fs (item_path dir id0)) as [item|] eqn:Ei.
    + rewrite IH by done. assert (ID (msg item) = id0) as ->.
      { revert Ei. unfold ItemFromFile.
        destruct (ReadTextMessage _ _ _) as [m0|] eqn:Er; [|done].
        intros [= <-]. by apply Hok in Er. }
      rewrite lookup_insert_eq. by case_bool_decide.
    + rewrite IH by done. by case_bool_decide.
  - rewrite (bool_decide_ext (item_path dir id ∈ item_path dir id0 :: files)
      (item_path dir id ∈ files)).
    2: { rewrite elem_of_cons. split; [|by right].
         intros [E|]; [|done]. by apply item_path_inj in E. }
    destruct (ItemFromFile (λ _, None) fs (item_path dir id0)) as [item|] eqn:Ei.
    + rewrite IH by done. rewrite lookup_insert_ne; [done|].
      revert Ei. unfold ItemFromFile.
      destruct (ReadTextMessage _ _ _) as [m0|] eqn:Er; [|done].
      intros [= <-]. apply Hok in Er. simpl. congruence.
    + by rewrite IH by done.
Qed.

(** Loading an empty queue from a directory: exactly the items in its
    files. *)
Lemma Load_lookup fs qu id :
  files_ok fs (path qu) → q qu = ∅ → "/"%char ∉ id →
  q (Load (λ _, None) fs qu).1 !! id =
    match ItemFromFile (λ _, None) fs (item_path (path qu) id) with
    | Ok item => Some item
    | Err _ => None
    end.
Proof.
  intros Hok He Hid. unfold Load. rewrite He.
  destruct (load_files _ _ _ _ _) as [m st] eqn:E. simpl.
  apply (f_equal fst) in E. simpl in E. subst m.
  rewrite (load_files_lookup fs (path qu)); [|done|].
  - rewrite lookup_empty. case_bool_decide as Hin; [done|].
    destruct (ItemFromFile _ _ _) as [item|] eqn:Ei; [|done].
    destruct Hin. apply elem_of_glob_items. exists id. split; [done|].
    split; [|done]. revert Ei. unfold ItemFromFile, ReadTextMessage, ReadFile.
    by destruct (fs !! _).
  - intros f Hf. apply elem_of_glob_items in Hf as (i & -> & _). eauto.
Qed.

Context `{!ProtoTextOk Message}.

Lemma files_ok_insert fs dir id m out :
  files_ok fs dir → text_Marshal m = Ok out → ID m = id →
  files_ok (<[item_path dir id := out]> fs) dir.
Proof.
  intros Hok Hout Hid id' m'. unfold ReadTextMessage, ReadFile.
  destruct (decide (id' = id)) as [->|Hne].
  - rewrite lookup_insert_eq. simpl. rewrite (text_roundtrip _ _ Hout).
    by intros [= <-].
  - rewrite lookup_insert_ne; [apply Hok|].
    intros E. by apply item_path_inj in E.
Qed.

(** What is read back after a [Put]. *)
Lemma reload_put e fs qu from to data qu' fs' id al loc :
  files_ok fs (path qu) →
  disk_ok (put_disk e) fs (path qu) (new_id e) →
  "/"%char ∉ new_id e →
  Put e fs qu from to data = (qu', fs', Ok id) →
  let fresh := (New (path qu) loc al None).1 in
  let reloaded := (Load (λ _, None) fs' fresh).1 in
  files_ok fs' (path qu) ∧
  (∃ item, q reloaded !! id = Some item ∧ q qu' !! id = Some item ∧
     From (msg item) = from ∧ To (msg item) = to ∧ Data (msg item) = data ∧
     CreatedAt item = put_time e ∧
     add_rcpts (aliases qu) to [] = Ok (Rcpt (msg item)) ∧
     Forall (λ r, Rstatus r = PENDING) (Rcpt (msg item))) ∧
  (∀ id', "/"%char ∉ id' → id' ≠ id →
     q reloaded !! id' = q (Load (λ _, None) fs fresh).1 !! id').
Proof.
  intros Hok Hd Hid HP fresh reloaded.
  apply Put_accepted in HP as (-> & rcpts & out & Hr & -> & Hout & ->); [|done].
  set (m := mkMessage _ _ _ _ _ _) in *.
  assert (Hok' : files_ok (<[item_path (path qu) (new_id e) := out]> fs) (path qu))
    by (by eapply files_ok_insert).
  split; [done|]. split.
  - exists (mkItem m (put_time e)). unfold reloaded.
    rewrite Load_lookup by done. unfold ItemFromFile, ReadTextMessage, ReadFile.
    simpl. rewrite !lookup_insert_eq. simpl.
    rewrite (text_roundtrip _ _ Hout). simpl.
    rewrite timeFromProto_timeToProto. repeat split; try done.
    by eapply add_rcpts_pending.
  - intros id' Hid' Hne. unfold reloaded. rewrite !Load_lookup by done.
    unfold ItemFromFile, ReadTextMessage, ReadFile.
    rewrite lookup_insert_ne; [done|].
    intros E. apply item_path_inj in E. done.
Qed.

(** Accepted mail survives a restart: when [Put] returns an id, a queue
    loaded afterwards from the same directory has an item with that id, with
    the same sender, recipients, contents and creation time, all of whose
    recipients are still to be sent to; and the items that were on the disk
    before are still there. *)
Theorem Put_durable e fs qu from to data qu' fs' id al loc :
  files_ok fs (path qu) →
  disk_ok (put_disk e) fs (path qu) (new_id e) →
  "/"%char ∉ new_id e →
  Put e fs qu from to data = (qu', fs', Ok id) →
  let fresh := (New (path qu) loc al None).1 in
  let reloaded := (Load (λ _, None) fs' fresh).1 in
  files_ok fs' (path qu) ∧
  (∃ item, q reloaded !! id = Some item ∧ q qu' !! id = Some item ∧
     From (msg item) = from ∧ To (msg item) = to ∧ Data (msg item) = data ∧
     CreatedAt item = put_time e ∧
     add_rcpts (aliases qu) to [] = Ok (Rcpt (msg item)) ∧
     Forall (λ r, Rstatus r = PENDING) (Rcpt (msg item))) ∧
  (∀ id', "/"%char ∉ id' → id' ≠ id →
     q reloaded !! id' = q (Load (λ _, None) fs fresh).1 !! id').
Proof. apply reload_put. Qed.

(** ** Sending *)

(** What an attempt does to a recipient; the ones that are settled are left
    alone. *)
Definition attempt (c : delivery → result) (qu : Queue) (m : Message)
    (r : Recipient) : Recipient :=
  if Rstatus r == PENDING then after_attempt r (deliver c qu m r) else r.

(** The parts of an item that sending does not change. *)
Definition same_envelope (i i' : Item) : Prop :=
  ID (msg i') = ID (msg i) ∧ From (msg i') = From (msg i) ∧
  To (msg i') = To (msg i) ∧ Data (msg i') = Data (msg i) ∧
  CreatedAt i' = CreatedAt i ∧
  length (Rcpt (msg i')) = length (Rcpt (msg i)).

Lemma same_envelope_refl i : same_envelope i i.
Proof. done. Qed.

Lemma same_envelope_trans i j k :
  same_envelope i j → same_envelope j k → same_envelope i k.
Proof. unfold same_envelope. naive_solver congruence. Qed.

Lemma deliver_envelope c qu i i' r :
  same_envelope i i' → deliver c qu (msg i') r = deliver c qu (msg i) r.
Proof.
  intros (_ & E1 & _ & E2 & _). unfold deliver, delivery_for.
  by rewrite E1, E2.
Qed.

Lemma sendOneRcpt_spec c d fs qu item i item' fs' :
  sendOneRcpt c d fs qu item i = (item', fs') →
  same_envelope item item' ∧
  Rcpt (msg item') =
    alter (λ r, after_attempt r (deliver c qu (msg item) r)) i (Rcpt (msg item)).
Proof.
  unfold sendOneRcpt. destruct (Rcpt (msg item) !! i) as [r|] eqn:Er.
  - destruct (WriteTo _ _ _ _) as [[item1 fs1] err] eqn:E.
    apply WriteTo_item in E as ->. intros [= <- _]. unfold same_envelope. simpl.
    split; [by rewrite length_insert|].
    apply list_eq. intros j. destruct (decide (j = i)) as [->|Hne].
    + rewrite list_lookup_insert_eq by (by eapply lookup_lt_Some).
      rewrite list_lookup_alter_eq, Er. done.
    + rewrite list_lookup_insert_ne by done.
      by rewrite list_lookup_alter_ne by done.
  - intros [= <- _]. split; [done|].
    apply list_eq. intros j. destruct (decide (j = i)) as [->|Hne].
    + by rewrite list_lookup_alter_eq, Er.
    + by rewrite list_lookup_alter_ne by done.
Qed.

(** The attempts of a round, one per index. *)
Lemma send_fold_lookup c ds qu idx item fs item0 :
  same_envelope item0 item → NoDup idx →
  let item' := (foldl (λ st i, sendOneRcpt c (ds i) st.2 qu st.1 i)
                  (item, fs) idx).1 in
  same_envelope item0 item' ∧
  ∀ j, Rcpt (msg item') !! j =
    if bool_decide (j ∈ idx)
    then (λ r, after_attempt r (deliver c qu (msg item0) r))
           <$> Rcpt (msg item) !! j
    else Rcpt (msg item) !! j.
Proof.
  intros Hs0 Hnd. revert item fs Hs0. induction Hnd as [|i idx Hi Hnd IH];
    intros item fs Hs0; simpl.
  - split; [done|]. intros j. done.
  - destruct (sendOneRcpt c (ds i) fs qu item i) as [item1 fs1] eqn:E1.
    apply sendOneRcpt_spec in E1 as [Hs1 Hr1].
    destruct (IH item1 fs1) as [Hs2 Hl]; [by eapply same_envelope_trans|].
    split; [done|]. intros j. simpl in *. rewrite Hl, Hr1.
    destruct (decide (j = i)) as [->|Hne].
    + rewrite (bool_decide_eq_false_2 (i ∈ idx)) by done.
      rewrite (bool_decide_eq_true_2 (i ∈ i :: idx)) by set_solver.
      rewrite list_lookup_alter_eq. destruct (Rcpt (msg item) !! i); [|done].
      simpl. by rewrite (deliver_envelope c qu item0 item).
    + rewrite list_lookup_alter_ne by done.
      by rewrite (bool_decide_ext (j ∈ i :: idx) (j ∈ idx)) by set_solver.
Qed.

Lemma elem_of_pending_from i rs j :
  j ∈ pending_from i rs ↔
  i ≤ j ∧ ∃ r, rs !! (j - i) = Some r ∧ Rstatus r = PENDING.
Proof.
  revert i. induction rs as [|r rs IH]; intros i; simpl.
  - split; [by intros ?%elem_of_nil|]. naive_solver.
  - assert (Hrec : j ∈ pending_from (S i) rs ↔
      i < j ∧ ∃ r', (r :: rs) !! (j - i) = Some r' ∧ Rstatus r' = PENDING).
    { rewrite IH. split; intros [Hij (r' & Hr & Hp)]; (split; [lia|]);
        exists r'; (split; [|done]).
      - replace (j - i) with (S (j - S i)) by lia. done.
      - replace (j - i) with (S (j - S i)) in Hr by lia. done. }
    case_bool_decide as Hr; simpl; rewrite ?elem_of_cons, Hrec; split.
    + intros [->|[? ?]]; [|split; [lia|done]]. split; [lia|].
      rewrite Nat.sub_diag. by exists r.
    + intros [Hij Hex]. destruct (decide (j = i)); [by left|right].
      split; [lia|done].
    + intros [? ?]. split; [lia|done].
    + intros [Hij (r' & Hr' & Hp)]. destruct (decide (j = i)) as [->|].
      * rewrite Nat.sub_diag in Hr'. simpl in Hr'. congruence.
      * split; [lia|]. eauto.
Qed.

Lemma NoDup_pending_from i rs : NoDup (pending_from i rs).
Proof.
  revert i. induction rs as [|r rs IH]; intros i; simpl; [constructor|].
  case_match; [done|]. constructor; [|done].
  rewrite elem_of_pending_from. lia.
Qed.

(** A round as a map over the recipients. *)
Lemma send_round_attempts e fs qu item :
  (∀ l, order e l ≡ₚ l) →
  let item' := (send_round e fs qu item).1 in
  same_envelope item item' ∧
  Rcpt (msg item') = attempt (courier e) qu (msg item) <$> Rcpt (msg item).
Proof.
  intros Ho. unfold send_round.
  assert (Hnd : NoDup (order e (pending (msg item))))
    by (rewrite Ho; apply NoDup_pending_from).
  destruct (send_fold_lookup (courier e) (disks e) qu _ item fs item
    (same_envelope_refl item) Hnd) as [Hs Hl].
  split; [exact Hs|]. apply list_eq. intros j. rewrite Hl, list_lookup_fmap.
  rewrite (bool_decide_ext _ (j ∈ pending (msg item))) by (by rewrite Ho).
  unfold attempt. case_bool_decide as Hj.
  - apply elem_of_pending_from in Hj as (_ & r & Hr & Hp).
    rewrite Nat.sub_0_r in Hr. rewrite Hr. simpl. by rewrite bool_decide_eq_true_2.
  - destruct (Rcpt (msg item) !! j) as [r|] eqn:Er; [|done]. simpl.
    rewrite bool_decide_eq_false_2; [done|]. intros Hp. destruct Hj.
    apply elem_of_pending_from. split; [lia|]. rewrite Nat.sub_0_r. eauto.
Qed.


(** ** The sending loop *)

Definition envs_ok (es : nat → round_env) : Prop :=
  ∀ k, (∀ l, order (es k) l ≡ₚ l) ∧ (0 ≤ elapsed (es k))%Z ∧
       (0 ≤ rnd60 (es k) < 60 * Second)%Z.

(** Recipients that were sent or failed stay as they are. *)
Definition settled_kept (rs rs' : list Recipient) : Prop :=
  ∀ i r, rs !! i = Some r → Rstatus r ≠ PENDING → rs' !! i = Some r.

Lemma settled_attempt c qu m rs : settled_kept rs (attempt c qu m <$> rs).
Proof.
  intros i r Hr Hs. rewrite list_lookup_fmap, Hr. simpl.
  unfold attempt. by rewrite bool_decide_eq_false_2.
Qed.

(** Nobody is left to send to. *)
Definition all_settled (m : Message) : Prop :=
  Forall (λ r, Rstatus r ≠ PENDING) (Rcpt m).

Lemma countRcpt_zero m : countRcpt m [PENDING] = 0 ↔ all_settled m.
Proof.
  unfold countRcpt, all_settled. induction (Rcpt m) as [|r rs IH]; [done|].
  rewrite Forall_cons, <- IH. destruct (decide (Rstatus r ∈ [PENDING])) as [Hr|Hr].
  - rewrite filter_cons_True by done. apply list_elem_of_singleton in Hr.
    simpl. split; [lia|]. intros [? _]. done.
  - rewrite filter_cons_False by done. rewrite list_elem_of_singleton in Hr.
    naive_solver.
Qed.

Lemma send_rounds_outcome fuel es k now fs qu item item' fs' now' :
  envs_ok es →
  send_rounds fuel es k now fs qu item = Some (item', fs', now') →
  same_envelope item item' ∧
  settled_kept (Rcpt (msg item)) (Rcpt (msg item')) ∧
  (all_settled (msg item') ∨ (GiveUpAfter qu ≤ now' - CreatedAt item)%Z).
Proof.
  intros Hes. revert k now fs item. induction fuel as [|fuel IH];
    intros k now fs item; simpl; [done|].
  destruct (Z.ltb_spec (now - CreatedAt item) (GiveUpAfter qu)) as [Hlt|Hge].
  2: { intros [= <- _ <-]. split; [done|]. split; [by intros i r|by right]. }
  destruct (Hes k) as (Ho & He & Hr).
  pose proof (send_round_attempts (es k) fs qu item Ho) as [Hs Hrc].
  destruct (send_round (es k) fs qu item) as [item1 fs1]. simpl in Hs, Hrc.
  assert (Hk : settled_kept (Rcpt (msg item)) (Rcpt (msg item1)))
    by (rewrite Hrc; apply settled_attempt).
  case_bool_decide as Hc.
  - intros [= <- _ _]. split; [done|]. split; [done|].
    left. by apply countRcpt_zero.
  - intros E. apply IH in E as (Hs' & Hk' & Hend).
    split; [by eapply same_envelope_trans|]. split.
    + intros i r Hi Hp. apply Hk'; [|done]. by apply Hk.
    + destruct Hs as (_ & _ & _ & _ & Hca & _). by rewrite <- Hca.
Qed.

Lemma send_rounds_terminates fuel es k now fs qu item :
  envs_ok es →
  (GiveUpAfter qu - (now - CreatedAt item) ≤ Z.of_nat fuel * Minute)%Z →
  ∃ r, send_rounds (S fuel) es k now fs qu item = Some r.
Proof.
  intros Hes. revert k now fs item. induction fuel as [|fuel IH];
    intros k now fs item Hf;
    destruct (Hes k) as (Ho & He & Hr);
    pose proof (send_round_attempts (es k) fs qu item Ho) as [Hs _].
  - simpl. rewrite (proj2 (Z.ltb_ge _ _)) by lia. eauto.
  - remember (S fuel) as n. simpl. case_match; [|eauto].
    destruct (send_round (es k) fs qu item) as [item1 fs1]. simpl in Hs.
    case_match; [eauto|]. subst n. apply IH.
    destruct Hs as (_ & _ & _ & _ & -> & _).
    pose proof (nextDelay_range (now + elapsed (es k) - CreatedAt item)
      (rnd60 (es k)) Hr) as [Hd _]. unfold Minute in *. lia.
Qed.

Lemma Put_From e fs qu from to data qu' fs' id item :
  Put e fs qu from to data = (qu', fs', Ok id) → q qu' !! id = Some item →
  id = new_id e ∧ From (msg item) = from ∧ To (msg item) = to ∧
  q qu' = <[id := item]> (q qu).
Proof.
  unfold Put. case_match; [done|].
  destruct (add_rcpts _ _ _) as [rcpts|]; [|done].
  destruct (WriteTo _ _ _ _) as [[item1 fs1] [err|]] eqn:E; [done|].
  apply WriteTo_item in E as ->. intros [= <- _ <-]. simpl.
  rewrite lookup_insert_eq. by intros [= <-].
Qed.


(** ** Notifications *)

Definition infix (x s : bytes) : Prop := ∃ a b, s = a ++ x ++ b.

Lemma infix_refl x : infix x x.
Proof. exists [], []. simpl. by rewrite (right_id_L [] (++)). Qed.

Lemma infix_app_l x a s : infix x s → infix x (a ++ s).
Proof. intros (b & c & ->). exists (a ++ b), c. by rewrite <- app_assoc. Qed.

Lemma infix_app_r x s b : infix x s → infix x (s ++ b).
Proof. intros (a & c & ->). exists a, (c ++ b). by rewrite <- !app_assoc. Qed.

Lemma infix_concat x (ls : list bytes) : x ∈ ls → infix x (concat ls).
Proof.
  induction ls as [|l ls IH]; [by intros ?%elem_of_nil|].
  rewrite elem_of_cons. simpl. intros [->|Hx].
  - apply infix_app_r, infix_refl.
  - by apply infix_app_l, IH.
Qed.

Lemma failedTo_elem rs acc r :
  r ∈ rs ∧ Rstatus r ≠ SENT ∨ is_Some (acc !! OriginalAddress r) →
  is_Some (foldl (λ acc r, match Rstatus r with
    | SENT => acc
    | _ => <[OriginalAddress r := OriginalAddress r]> acc
    end) (acc : gmap bytes bytes) rs !! OriginalAddress r).
Proof.
  revert acc. induction rs as [|r0 rs IH]; intros acc; simpl.
  { intros [[?%elem_of_nil _]|?]; done. }
  intros Hr. apply IH. destruct Hr as [[Hin Hs]|Hacc].
  - apply elem_of_cons in Hin as [<-|Hin]; [|by left]. right.
    destruct (Rstatus r); try done; rewrite lookup_insert_eq; by eexists.
  - right. destruct (decide (OriginalAddress r0 = OriginalAddress r)) as [E|E];
      destruct (Rstatus r0); rewrite ?E, ?lookup_insert_eq, ?lookup_insert_ne;
      by eauto.
Qed.

Lemma elem_of_map_keys m k : is_Some (m !! k) → k ∈ map_keys m.
Proof.
  intros [v Hv]. unfold map_keys. rewrite (merge_sort_Permutation _ _).
  apply list_elem_of_fmap. exists (k, v). split; [done|].
  by apply elem_of_map_to_list.
Qed.

Lemma dsn_reports id1 id2 date domain m r :
  r ∈ Rcpt m → Rstatus r ≠ SENT →
  let dsn := deliveryStatusNotification id1 id2 date domain m in
  infix ("  - " ++ OriginalAddress r ++ [LF]) dsn ∧
  infix (report (if Rstatus r == FAILED then "5.0.0" else "4.0.0") r) dsn ∧
  infix (take maxOrigMsgLen (Data m)) dsn.
Proof.
  intros Hr Hs dsn. unfold dsn, deliveryStatusNotification.
  split; [|split].
  - unfold dsnTemplate. do 3 apply infix_app_l. apply infix_app_r. unfold dsn_notification.
    do 8 apply infix_app_l. apply infix_app_r, infix_concat. cbn [FailedTo].
    apply list_elem_of_fmap. exists (OriginalAddress r).
    split; [unfold line; by rewrite <- app_assoc|].
    apply elem_of_map_keys, failedTo_elem. by left.
  - unfold dsnTemplate. do 6 apply infix_app_l. apply infix_app_r.
    unfold dsn_report.
    do 7 apply infix_app_l. cbn [FailedRecipients PendingRecipients].
    destruct (Rstatus r) eqn:Er; [|done|].
    + apply infix_app_l, infix_app_r, infix_concat, list_elem_of_fmap.
      exists r. split; [done|]. by apply list_elem_of_filter.
    + apply infix_app_r, infix_concat, list_elem_of_fmap.
      exists r. split; [done|]. by apply list_elem_of_filter.
  - assert (HI : ∀ i, infix (OriginalMessage i) (dsnTemplate i)).
    { intros i. unfold dsnTemplate. do 8 apply infix_app_l. unfold dsn_original.
      do 5 apply infix_app_l. apply infix_app_r. apply infix_app_r, infix_refl. }
    match goal with |- infix _ (dsnTemplate ?i) =>
      pose proof (HI i) as Hi; cbn [OriginalMessage] in Hi; revert Hi;
      generalize (dsnTemplate i)
    end.
    intros t. case_bool_decide; [done|]. by rewrite (take_ge (Data m)) by lia.
Qed.

Lemma cut_original (d : bytes) :
  (if bool_decide (maxOrigMsgLen < length d) then take maxOrigMsgLen d else d)
    = take (N.to_nat 262144) d.
Proof.
  assert (E : maxOrigMsgLen = N.to_nat 262144) by (unfold maxOrigMsgLen; f_equal).
  rewrite E. case_bool_decide; [done|]. by rewrite take_ge by lia.
Qed.

(** The template ends with the original message. *)
Lemma dsnTemplate_end i : ∃ before, dsnTemplate i = before ++
  "--" ++ Boundary i ++ [LF] ++ "Content-Type: message/rfc822" ++ [LF] ++
  "Content-Description: Undelivered Message" ++ [LF] ++
  "Content-Transfer-Encoding: 8bit" ++ [LF] ++ [LF] ++
  OriginalMessage i ++ [LF] ++ [LF] ++ "--" ++ Boundary i ++ "--" ++ [LF].
Proof.
  exists (dsn_header i ++ line "" ++ line "" ++ dsn_notification i ++ line "" ++ line "" ++
    dsn_report i ++ line ""). unfold dsnTemplate. rewrite <- !app_assoc.
  unfold dsn_original, line. by rewrite <- !app_assoc.
Qed.

(** C24: A notification tells the sender about every recipient that did not get the
    message: it lists the address that the sender used, and has a report with that
    address, the one that it led to, a permanent or a temporary status, and the last
    error.  It ends with the original message, cut after 256 KiB, between the
    header of its part and the closing boundary. *)
Theorem dsn_reports_failures id1 id2 date domain m r :
  r ∈ Rcpt m → Rstatus r ≠ SENT →
  let dsn := deliveryStatusNotification id1 id2 date domain m in
  infix ("  - " ++ OriginalAddress r ++ [LF]) dsn ∧
  infix ("Original-Recipient: utf-8; " ++ OriginalAddress r ++ [LF] ++
         "Final-Recipient: utf-8; " ++ Address r ++ [LF] ++
         "Action: failed" ++ [LF] ++
         "Status: " ++ (if Rstatus r == FAILED then "5.0.0" else "4.0.0") ++ [LF] ++
         "Diagnostic-Code: smtp; " ++
         ReplaceAll (TrimSpace (LastFailureMessage r)) [LF] ([LF] ++ "    ") ++ [LF]) dsn ∧
  ∃ before, dsn = before ++
    "--" ++ id2 ++ [LF] ++ "Content-Type: message/rfc822" ++ [LF] ++
    "Content-Description: Undelivered Message" ++ [LF] ++
    "Content-Transfer-Encoding: 8bit" ++ [LF] ++ [LF] ++
    take (N.to_nat 262144) (Data m) ++ [LF] ++ [LF] ++ "--" ++ id2 ++ "--" ++ [LF].
Proof.
  intros Hr Hs dsn. destruct (dsn_reports id1 id2 date domain m r Hr Hs) as (H1' & H2' & _).
  split; [exact H1'|]. split.
  - destruct H2' as (a & b & E). exists a, ([LF] ++ b). unfold dsn. rewrite E.
    unfold report, failure_text, indent, line. by rewrite <- !app_assoc.
  - unfold dsn, deliveryStatusNotification.
    match goal with |- context [dsnTemplate ?i] => destruct (dsnTemplate_end i) as [before E] end.
    exists before. rewrite E. cbn [Boundary OriginalMessage]. by rewrite cut_original.
Qed.

(** The debugging page has every item of the queue, whatever the order in which
    the map is visited. *)
Theorem DumpString_complete time_text now entries qu id item :
  entries ≡ₚ map_to_list (q qu) → q qu !! id = Some item →
  infix (dump_item time_text id item) (DumpString time_text now entries qu).
Proof.
  intros He Hq. unfold DumpString. do 8 apply infix_app_l. apply infix_concat.
  apply list_elem_of_fmap. exists (id, item). split; [done|].
  rewrite He. by apply elem_of_map_to_list.
Qed.

(** The comment of [rewriteSender] wants the IDNA form of the domain, but
    [mustIDNAToASCII] has the branches the wrong way around: when the
    conversion works, its result is not used. *)
Lemma mustIDNAToASCII_unused s :
  (idna_ToASCII s).2 = false → mustIDNAToASCII s = s.
Proof. unfold mustIDNAToASCII. destruct (idna_ToASCII s). by intros [= ->]. Qed.

End QueueProps.

(** ** Examples *)

#[export] Instance QRecipient_countable : Countable Recipient.
Proof.
  refine (inj_countable'
    (λ r, (Address r, match Type_ r with EMAIL => 0 | PIPE => 1 | FORWARD => 2 end,
           match Rstatus r with PENDING => 0 | SENT => 1 | FAILED => 2 end,
           LastFailureMessage r, OriginalAddress r, Via r))
    (λ '(a, t, s, l, o, v), mkRecipient a
       (match t with 0 => EMAIL | 1 => PIPE | _ => FORWARD end)
       (match s with 0 => PENDING | 1 => SENT | _ => FAILED end) l o v) _).
  by intros [a [] [] l o v].
Defined.

#[export] Instance Message_countable : Countable Message.
Proof.
  refine (inj_countable'
    (λ m, (ID m, From m, To m, Rcpt m, Data m,
           (Seconds (CreatedAtTs m), Nanos (CreatedAtTs m))))
    (λ '(i, f, t, r, d, (s, n)), mkMessage i f t r d (mkTimestamp s n)) _).
  by intros [i f t r d []].
Defined.

Module Example.
Import AsciiOnly CountableText.

#[export] Instance alias_world : AliasWorld :=
  {| read_file _ := FileNotExist; hook_missing _ := true;
     hook_run _ _ := ([], None) |}.

#[export] Instance net_mail : NetMail :=
  {| mail_ParseAddress s := Some s; mail_ReadMessage _ := Ok ∅ |}.

Definition queue : Queue :=
  SetQueueLimits
    (New "/q" (Some (StringSet.NewString ["dom"]))
       (Aliases.AddDomain (Aliases.NewResolver (λ _ _, Ok true)) "dom") None).1
    2 (2 * Minute).

Definition put_e : put_env := mkPutEnv "id1" 5000000123 (good_disk "/q/.t").

(** The courier delivers to everybody but to [x@other]. *)
Definition courier_e (d : delivery) : result :=
  match d with
  | RemoteDeliver _ "x@other" _ => (Some "no such user", true)
  | _ => (None, false)
  end.

Definition round_e : round_env :=
  mkRoundEnv reverse courier_e (λ _, good_disk "/q/.t") 0 0.

Definition dsn_e : dsn_env :=
  mkDsnEnv "id2" "id3" "today" (mkPutEnv "id4" 0 (good_disk "/q/.t")) None.

Definition put_result :=
  Put put_e ∅ queue "ana@dom" ["x@other"; "juan@dom"] "Hello".

Definition item : Item :=
  mkItem (mkMessage "id1" "ana@dom" ["x@other"; "juan@dom"]
    [mkRecipient "x@other" EMAIL PENDING [] "x@other" [];
     mkRecipient "juan@dom" EMAIL PENDING [] "juan@dom" []] "Hello"
    (mkTimestamp 5 123)) 5000000123.

End Example.

Import AsciiOnly CountableText Example.

Lemma Put_bounded_witness :
  put_result.2 = Ok "id1" ∧ (Len put_result.1.1 ≤ 2)%Z.
Proof.
  split; [reflexivity|].
  refine (proj1 (Put_bounded put_e ∅ queue "ana@dom" ["x@other"; "juan@dom"]
    "Hello" put_result.1.1 put_result.1.2 put_result.2 _ _)).
  - apply Z.leb_le. reflexivity.
  - change (put_result = (put_result.1.1, put_result.1.2, put_result.2)).
    by destruct put_result as [[? ?] ?].
Defined.

Lemma Put_durable_witness :
  ∃ i, q (Load (λ _, None) put_result.1.2 (New "/q" None (aliases queue) None).1).1
         !! ("id1" : bytes) = Some i ∧ From (msg i) = "ana@dom" ∧
       Data (msg i) = "Hello" ∧ CreatedAt i = 5000000123%Z.
Proof.
  destruct (Put_durable put_e ∅ queue "ana@dom" ["x@other"; "juan@dom"] "Hello"
    put_result.1.1 put_result.1.2 "id1" (aliases queue) None)
    as (_ & (i & Hi & _ & Hf & _ & Hd & Hc & _) & _).
  - intros id m. unfold ReadTextMessage, ReadFile. rewrite lookup_empty. done.
  - split; [reflexivity|]. discriminate.
  - by apply (bool_decide_eq_true_1 _).
  - assert (put_result.2 = Ok "id1") as <- by reflexivity.
    change (put_result = (put_result.1.1, put_result.1.2, put_result.2)).
    by destruct put_result as [[? ?] ?].
  - exists i. split; [exact Hi|]. split; [exact Hf|]. split; [exact Hd|exact Hc].
Defined.



Lemma dsn_reports_failures_witness :
  let m := msg (send_round round_e ∅ queue item).1 in
  infix ("  - " ++ "x@other" ++ [LF])
    (deliveryStatusNotification "id2" "id3" "today" "dom" m).
Proof.
  intros m. refine (proj1 (dsn_reports_failures "id2" "id3" "today" "dom" m
    (mkRecipient "x@other" EMAIL FAILED "no such user" "x@other" []) _ _)).
  - apply (bool_decide_eq_true_1 _). reflexivity.
  - discriminate.
Defined.

End QueueProps.
