(* ===== verification/QueueConc.v ===== *)
(** The queue at work: package [internal/queue] with everything that runs at
    the same time.

    [Queue.v] has the operations of the queue one at a time.  Here they run
    together, as the goroutines of the program do: several clients [Put] mail,
    each item has its [SendLoop], which sends to the recipients in parallel and
    calls [Put] itself for a notification, and the process may stop at any
    moment, in the middle of several writes, and start again from the files.
    A state has a thread per item, and a step is what one goroutine does between
    two points where others can see it. *)

From stdpp Require Import sorting.
From S2P Require Import Prelude GoStrings Envelope Aliases Store Auth Queue QueueProps.
#[local] Open Scope go_scope.

Module QueueConc.
Import Safeio Protoio Queue QueueProps.

(** ** The names of the items *)

(** [base64.RawURLEncoding]: the digits of the standard encoding, but for the
    last two, and no padding. *)
Definition url_digit (c : ascii) : ascii :=
  if c == "+"%char then "-"%char else if c == "/"%char then "_"%char else c.

Definition RawURLEncoding (s : bytes) : bytes :=
  url_digit <$> filter (.≠ Base64.PAD) (Base64.EncodeToString s).

(** [binary.NativeEndian.PutUint64]: the order is that of the machine. *)
Definition PutUint64 (big : bool) (v : N) : bytes :=
  let le := (λ k, ascii_of_N (N.shiftr v (8 * N.of_nat k) mod 256)) <$> seq 0 8 in
  if big then reverse le else le.

(** What [generateNewIDs] makes of a random number. *)
Definition generateNewID (big : bool) (v : N) : bytes := RawURLEncoding (PutUint64 big v).

Lemma url_digit_inj_std c c' :
  is_Some (Base64.dec_digit c) → is_Some (Base64.dec_digit c') →
  url_digit c = url_digit c' → c = c'.
Proof.
  unfold url_digit. intros [d Hd] [d' Hd'].
  repeat case_bool_decide; subst; try done; intros E; subst; vm_compute in Hd, Hd'; done.
Qed.

Lemma enc_digit_std d : is_Some (Base64.dec_digit (Base64.enc_digit d)).
Proof.
  destruct (decide (d < 64)%N) as [Hd|Hd]; [rewrite Base64.dec_enc_digit by done; eauto|].
  unfold Base64.enc_digit. repeat rewrite (proj2 (N.ltb_ge _ _)) by lia.
  rewrite (proj2 (N.eqb_neq _ _)) by lia. by eexists.
Qed.

Lemma encode_digits s :
  Forall (λ c, c = Base64.PAD ∨ is_Some (Base64.dec_digit c)) (Base64.EncodeToString s).
Proof.
  induction s as [s IH] using (induction_ltof1 _ (@length ascii)). unfold ltof in IH.
  destruct s as [|a [|b [|c s]]]; simpl;
    repeat first [apply Forall_nil_2 | apply Forall_cons_2];
    auto using enc_digit_std. apply IH. simpl. lia.
Qed.

(** Names have neither the slash that would make them a path, nor the colon of
    the prefix of the files. *)
Lemma generateNewID_chars big v : Forall (λ c, c ≠ "/"%char ∧ c ≠ ":"%char) (generateNewID big v).
Proof.
  unfold generateNewID, RawURLEncoding. apply Forall_fmap, Forall_forall. intros c Hc.
  apply list_elem_of_filter in Hc as [Hp Hc].
  pose proof (encode_digits (PutUint64 big v)) as Hd. rewrite Forall_forall in Hd.
  destruct (Hd c Hc) as [?|[d Hdc]]; [done|]. unfold url_digit, compose.
  repeat case_bool_decide; [done..|]. split; [done|]. intros ->. done.
Qed.

Lemma encode_eight s : length s = 8 →
  Base64.EncodeToString s =
    filter (.≠ Base64.PAD) (Base64.EncodeToString s) ++ [Base64.PAD].
Proof.
  intros Hl. do 8 (destruct s as [|? s]; [done|]). destruct s; [|done].
  cbn [Base64.EncodeToString].
  repeat (rewrite filter_cons_True by apply Base64.enc_digit_plain).
  by rewrite filter_cons_False by (by intros []).
Qed.

Lemma map_inj_on {A B} (P : A → Prop) (f : A → B) l l' :
  (∀ x y, P x → P y → f x = f y → x = y) → Forall P l → Forall P l' →
  f <$> l = f <$> l' → l = l'.
Proof.
  intros Hf Hl. revert l'. induction Hl as [|x l Hx _ IH]; intros l' Hl' E.
  - by destruct l'.
  - destruct Hl' as [|y l' Hy Hl']; [done|]. injection E as E1 E2.
    f_equal; [by apply Hf|by apply IH].
Qed.

Lemma RawURLEncoding_inj s s' :
  length s = 8 → length s' = 8 → RawURLEncoding s = RawURLEncoding s' → s = s'.
Proof.
  intros Hl Hl' E. unfold RawURLEncoding in E.
  apply (map_inj_on (λ c, is_Some (Base64.dec_digit c))) in E.
  - pose proof (Base64.decode_encode_groups s) as D.
    pose proof (Base64.decode_encode_groups s') as D'.
    rewrite (encode_eight s), E, <- encode_eight, D' in D by done. congruence.
  - apply url_digit_inj_std.
  - apply Forall_forall. intros c [Hp Hc]%list_elem_of_filter.
    pose proof (encode_digits s) as Hd. rewrite Forall_forall in Hd. naive_solver.
  - apply Forall_forall. intros c [Hp Hc]%list_elem_of_filter.
    pose proof (encode_digits s') as Hd. rewrite Forall_forall in Hd. naive_solver.
Qed.

Lemma PutUint64_inj big v w :
  (v < 2 ^ 64)%N → (w < 2 ^ 64)%N → PutUint64 big v = PutUint64 big w → v = w.
Proof.
  intros Hv Hw E. assert (El : PutUint64 false v = PutUint64 false w).
  { unfold PutUint64 in *. destruct big; [|done]. by apply (inj reverse) in E. }
  clear E.
  assert (Hb : ∀ k, k < 8 → (N.shiftr v (8 * N.of_nat k) mod 256 = N.shiftr w (8 * N.of_nat k) mod 256)%N).
  { intros k Hk. apply (f_equal (.!! k)) in El. unfold PutUint64 in El.
    rewrite !list_lookup_fmap, lookup_seq_lt in El by done.
    apply (inj Some), (f_equal N_of_ascii) in El.
    by rewrite !N_ascii_embedding in El by (apply N.mod_lt; done). }
  apply N.bits_inj. intros n. destruct (decide (n < 64)%N) as [Hn|Hn].
  - assert (Hk : (n / 8 < 8)%N) by (apply N.Div0.div_lt_upper_bound; lia).
    specialize (Hb (N.to_nat (n / 8)) ltac:(lia)). rewrite N2Nat.id in Hb.
    apply (f_equal (λ x, N.testbit x (n mod 8))) in Hb.
    assert (n mod 8 < 8)%N by (apply N.mod_lt; lia).
    change 256%N with (2 ^ 8)%N in Hb. rewrite !N.mod_pow2_bits_low, !N.shiftr_spec' in Hb by done.
    replace (n mod 8 + 8 * (n / 8))%N with n in Hb; [done|].
    rewrite N.add_comm. apply N.div_mod'.
  - rewrite !N.bits_above_log2; [done|..]; [destruct (decide (w = 0)%N) as [->|]|destruct (decide (v = 0)%N) as [->|]];
      try (cbn; lia); (apply N.log2_lt_pow2; [lia|]); eapply N.lt_le_trans; [done| |done|];
      apply N.pow_le_mono_r; lia.
Qed.

(** The names are as many as the numbers: two different numbers never give the
    same name. *)
Lemma generateNewID_inj big v w :
  (v < 2 ^ 64)%N → (w < 2 ^ 64)%N → generateNewID big v = generateNewID big w → v = w.
Proof.
  intros Hv Hw E. apply (PutUint64_inj big); [done..|].
  assert (Hl : ∀ x, length (PutUint64 big x) = 8).
  { intros x. unfold PutUint64. destruct big; rewrite ?length_reverse, length_fmap; done. }
  by apply RawURLEncoding_inj.
Qed.

(** ** Threads *)

(** Where the goroutine that works on an item is.  A [Put] knows the item whose
    notification it queues, if that is what it does. *)
Inductive phase :=
| Writing (parent : option bytes)
| Inserting (parent : option bytes)
| Looping
| Sending (todo : list nat) (writes : nat)
| Sleeping (until : Z)
| Ending
| Notifying (child : bytes)
| Unlinking
| Deleting.

(** The map of the queue holds pointers to the items, so that there is one copy
    of an item: the thread's. *)
Record thread := mkThread { item_of : Item; phase_of : phase }.

(** [table]: the keys of the map [q.q]; [drawn]: the ids that were used. *)
Record State := mkState {
  threads : gmap bytes thread;
  table : gset bytes;
  disk : FS;
  now : Z;
  drawn : gset bytes;
}.

Definition set_thread (st : State) (id : bytes) (t : thread) : State :=
  mkState (<[id := t]> (threads st)) (table st) (disk st) (now st) (drawn st).

Definition set_disk (st : State) (fs : FS) : State :=
  mkState (threads st) (table st) fs (now st) (drawn st).

(** The goroutine of [parent] goes on after its [Put] returned. *)
Definition resume (parent : option bytes) (ts : gmap bytes thread) : gmap bytes thread :=
  match parent with
  | None => ts
  | Some p => alter (λ t, mkThread (item_of t) Unlinking) p ts
  end.

(** The [Put] of an item returns an error. *)
Definition put_failed (st : State) (id : bytes) (parent : option bytes) (fs : FS) : State :=
  mkState (resume parent (delete id (threads st))) (table st) fs (now st) (drawn st).

(** It returns the id: the item is in the map, and its loop starts. *)
Definition put_done (st : State) (id : bytes) (parent : option bytes) (item : Item) : State :=
  mkState (resume parent (<[id := mkThread item Looping]> (threads st))) ({[id]} ∪ table st)
    (disk st) (now st) (drawn st).

(** The end of [Remove]. *)
Definition forgotten (st : State) (id : bytes) : State :=
  mkState (delete id (threads st)) (table st ∖ {[id]}) (disk st) (now st) (drawn st).

(** What can be seen of a step. *)
Inductive event :=
| Silent
| Refused (err : put_error)
| Accepted (item : Item)
| Attempt (id : bytes) (i : nat) (r : result)
| NotifyFailed (id : bytes) (err : put_error)
| Removed (item : Item)
| RemoveFailed (id : bytes)
| Crashed.

Definition set_rcpts (item : Item) (rs : list Recipient) : Item :=
  mkItem (set_rcpt (msg item) rs) (CreatedAt item).

Section Steps.
Context `{Unicode, Precis, AliasWorld, NetMail, ProtoText Message}.
Context (big : bool) (qu : Queue).

Definition file_of (id : bytes) : bytes := item_path (path qu) id.

Definition full (st : State) : bool := (MaxItems qu <=? Z.of_nat (size (table st)))%Z.

(** The error of [Put] that the queue gives at once, if it does. *)
Definition refusal (st : State) (al : Aliases.Resolver) (to : list bytes) : res put_error (list Recipient) :=
  if full st then Err errQueueFull else add_rcpts al to [].

(** A random number that was not drawn before. *)
Definition fresh (st : State) (id : bytes) : Prop :=
  (∃ v, id = generateNewID big v) ∧ id ∉ drawn st.

(** [Put] before it writes. *)
Definition put_started (st : State) (id : bytes) (parent : option bytes) (from : bytes)
    (to : list bytes) (rcpts : list Recipient) (data : bytes) : State :=
  mkState
    (<[id := mkThread (mkItem (mkMessage id from to rcpts data (mkTimestamp 0 0)) (now st))
               (Writing parent)]> (threads st))
    (table st) (disk st) (now st) ({[id]} ∪ drawn st).

(** Temporary files are new, and their names are not those of items: they start
    with a dot. *)
Definition disk_answers (d : item_disk) (fs : FS) : Prop :=
  match create_temp (wcalls d) with
  | Ok tmp => fs !! tmp = None ∧ ∀ id, tmp ≠ file_of id
  | Err _ => True
  end.

(** The states that the disk goes through in one [WriteTo]. *)
Definition write_trace (d : item_disk) (fs : FS) (item : Item) : list FS :=
  let m := set_ts (msg item) (timeToProto (CreatedAt item)) in
  match text_Marshal m with
  | Err _ => []
  | Ok out =>
    (WriteFile (wcalls d) fs (file_of (ID m)) out
       [FsyncFileOp (fsync_open_err d) (fsync_err d) (fsync_close_err d)]).1.1
  end.

Definition is_writing (p : phase) : bool :=
  match p with Writing _ | Sending _ (S _) => true | _ => false end.

(** What a crash leaves on the disk: the writes that were under way stop
    anywhere, each one. *)
Inductive torn (ts : gmap bytes thread) : FS → FS → Prop :=
| torn_none fs : torn ts fs fs
| torn_write fs id t d fs1 fs2 :
    ts !! id = Some t → is_writing (phase_of t) = true → disk_answers d fs →
    fs1 ∈ write_trace d fs (item_of t) → torn ts fs1 fs2 →
    torn ts fs fs2.

(** The process starts: [Load] puts what it can read in the map, and starts the
    loops. *)
Definition restarted (st : State) (fault : bytes → option bytes) (fs : FS) (now' : Z) : State :=
  let loaded := q (Load fault fs (set_q qu ∅)).1 in
  mkState ((λ item, mkThread item Looping) <$> loaded) (dom loaded) fs now' (drawn st).

Inductive step (st : State) : event → State → Prop :=
(** [Put], called by a client. *)
| put_refused al to err :
    refusal st al to = Err err → step st (Refused err) st
| put_starts id al from to rcpts data :
    refusal st al to = Ok rcpts → fresh st id →
    step st Silent (put_started st id None from to rcpts data)
| put_writes id t parent d item fs :
    threads st !! id = Some t → phase_of t = Writing parent → disk_answers d (disk st) →
    WriteTo d (disk st) (item_of t) (path qu) = (item, fs, None) →
    step st Silent (set_thread (set_disk st fs) id (mkThread item (Inserting parent)))
| put_write_fails id t parent d item fs err :
    threads st !! id = Some t → phase_of t = Writing parent → disk_answers d (disk st) →
    WriteTo d (disk st) (item_of t) (path qu) = (item, fs, Some err) →
    step st (match parent with None => Refused (ErrWrite err) | Some p => NotifyFailed p (ErrWrite err) end)
      (put_failed st id parent fs)
| put_inserts id t parent :
    threads st !! id = Some t → phase_of t = Inserting parent →
    step st (Accepted (item_of t)) (put_done st id parent (item_of t))
(** [SendLoop]. *)
| loop_sends id t :
    threads st !! id = Some t → phase_of t = Looping →
    (now st - CreatedAt (item_of t) < GiveUpAfter qu)%Z →
    step st Silent (set_thread st id (mkThread (item_of t) (Sending (pending (msg (item_of t))) 0)))
| loop_gives_up id t :
    threads st !! id = Some t → phase_of t = Looping →
    (GiveUpAfter qu ≤ now st - CreatedAt (item_of t))%Z →
    step st Silent (set_thread st id (mkThread (item_of t) Ending))
| rcpt_tried id t before i after w courier rcpt :
    threads st !! id = Some t → phase_of t = Sending (before ++ i :: after) w →
    Rcpt (msg (item_of t)) !! i = Some rcpt →
    let r := deliver courier qu (msg (item_of t)) rcpt in
    step st (Attempt id i r)
      (set_thread st id (mkThread
        (set_rcpts (item_of t) (<[i := after_attempt rcpt r]> (Rcpt (msg (item_of t)))))
        (Sending (before ++ after) (S w))))
| rcpt_saved id t todo w d item fs err :
    threads st !! id = Some t → phase_of t = Sending todo (S w) → disk_answers d (disk st) →
    WriteTo d (disk st) (item_of t) (path qu) = (item, fs, err) →
    step st Silent (set_thread (set_disk st fs) id (mkThread item (Sending todo w)))
| round_all_done id t :
    threads st !! id = Some t → phase_of t = Sending [] 0 →
    countRcpt (msg (item_of t)) [PENDING] = 0 →
    step st Silent (set_thread st id (mkThread (item_of t) Ending))
| round_sleeps id t rnd :
    threads st !! id = Some t → phase_of t = Sending [] 0 →
    countRcpt (msg (item_of t)) [PENDING] ≠ 0 → (0 ≤ rnd < 60 * Second)%Z →
    step st Silent (set_thread st id (mkThread (item_of t)
      (Sleeping (now st + nextDelay (now st - CreatedAt (item_of t)) rnd))))
| loop_wakes id t until :
    threads st !! id = Some t → phase_of t = Sleeping until → (until ≤ now st)%Z →
    step st Silent (set_thread st id (mkThread (item_of t) Looping))
(** The end of [SendLoop], [sendDSN] and [Remove]. *)
| end_quiet id t :
    threads st !! id = Some t → phase_of t = Ending → needs_dsn (msg (item_of t)) = false →
    step st Silent (set_thread st id (mkThread (item_of t) Unlinking))
| end_refused id t al err :
    threads st !! id = Some t → phase_of t = Ending → needs_dsn (msg (item_of t)) = true →
    refusal st al [From (msg (item_of t))] = Err err →
    step st (NotifyFailed id err) (set_thread st id (mkThread (item_of t) Unlinking))
| end_notifies id t al rcpts child id1 id2 date :
    threads st !! id = Some t → phase_of t = Ending → needs_dsn (msg (item_of t)) = true →
    refusal st al [From (msg (item_of t))] = Ok rcpts → fresh st child →
    step st Silent
      (put_started (set_thread st id (mkThread (item_of t) (Notifying child))) child (Some id)
         "<>" [From (msg (item_of t))] rcpts
         (deliveryStatusNotification id1 id2 date (dsn_domain qu (msg (item_of t))) (msg (item_of t))))
| file_removed id t :
    threads st !! id = Some t → phase_of t = Unlinking →
    step st (Removed (item_of t))
      (set_thread (set_disk st (delete (file_of id) (disk st))) id (mkThread (item_of t) Deleting))
| file_kept id t :
    threads st !! id = Some t → phase_of t = Unlinking →
    step st (RemoveFailed id) (set_thread st id (mkThread (item_of t) Deleting))
| entry_removed id t :
    threads st !! id = Some t → phase_of t = Deleting → step st Silent (forgotten st id)
(** Time goes on; and the process stops and starts again. *)
| time_passes now' :
    (now st ≤ now')%Z → step st Silent (mkState (threads st) (table st) (disk st) now' (drawn st))
| crashes fs fault now' :
    torn (threads st) (disk st) fs → (now st ≤ now')%Z →
    step st Crashed (restarted st fault fs now').

(** A queue that starts for the first time, with nothing on the disk. *)
Definition boot (fs : FS) (t : Z) : State := mkState ∅ ∅ fs t ∅.

Definition no_items (fs : FS) : Prop := ∀ id, fs !! file_of id = None.

(** What happened, with the last event first. *)
Inductive run : list event → State → Prop :=
| run_boot fs t : no_items fs → run [] (boot fs t)
| run_step tr st ev st' : run tr st → step st ev st' → run (ev :: tr) st'.

End Steps.

End QueueConc.
