(* ===== verification/QueueConcProps.v ===== *)
(** Properties of the queue at work, modelled in [QueueConc.v]: an invariant of
    every state that clients, loops, couriers, disks and crashes can lead to, and
    what follows from it for the mail. *)

From stdpp Require Import sorting.
From S2P Require Import Prelude GoStrings Envelope Aliases Store Auth Queue QueueProps QueueConc.
#[local] Open Scope go_scope.

Module QueueConcProps.
Import Safeio Protoio Queue QueueProps QueueConc.

Section Steps.
Context `{Unicode, Precis, AliasWorld, NetMail, ProtoText Message}.
Context (big : bool) (qu : Queue).

#[local] Abbreviation file_of := (file_of qu).
#[local] Abbreviation full := (full qu).
#[local] Abbreviation fresh := (fresh big).
#[local] Abbreviation refusal := (refusal qu).
#[local] Abbreviation disk_answers := (disk_answers qu).
#[local] Abbreviation write_trace := (write_trace qu).
#[local] Abbreviation torn := (torn qu).
#[local] Abbreviation restarted := (restarted qu).
#[local] Abbreviation step := (step big qu).
#[local] Abbreviation run := (run big qu).

(** ** What is on the disk *)

(** What identifies a message and its recipients, and never changes. *)
Definition rcpt_key (r : Recipient) : bytes * RType * bytes * list bytes :=
  (Address r, Type_ r, OriginalAddress r, Via r).

Definition mail_key (it : Item) :=
  (ID (msg it), From (msg it), To (msg it), Data (msg it), CreatedAt it, rcpt_key <$> Rcpt (msg it)).

Definition stored (fs : FS) (id : bytes) (f : Item) : Prop :=
  ItemFromFile (λ _, None) fs (file_of id) = Ok f.

Definition same_files (fs fs' : FS) : Prop := ∀ id, fs' !! file_of id = fs !! file_of id.

Definition stamped (it : Item) : Item :=
  mkItem (set_ts (msg it) (timeToProto (CreatedAt it))) (CreatedAt it).

(** What a write leaves: the files of the items as they were, or the whole new
    file. *)
Definition written_or_not (fs : FS) (it : Item) (fs' : FS) : Prop :=
  same_files fs fs' ∨
  ∃ out, text_Marshal (msg (stamped it)) = Ok out ∧ fs' = <[file_of (ID (msg it)) := out]> fs.

Lemma file_of_inj id id' : file_of id = file_of id' → id = id'.
Proof. apply item_path_inj. Qed.

Lemma stored_same fs fs' id f : same_files fs fs' → stored fs' id f ↔ stored fs id f.
Proof. intros Hs. unfold stored, ItemFromFile, ReadTextMessage, ReadFile. by rewrite Hs. Qed.

Lemma stored_ne fs id id' out f :
  id ≠ id' → stored (<[file_of id' := out]> fs) id f ↔ stored fs id f.
Proof.
  intros Hne. unfold stored, ItemFromFile, ReadTextMessage, ReadFile.
  rewrite lookup_insert_ne; [done|]. intros E. by apply file_of_inj in E.
Qed.

Lemma stored_file fs id f : stored fs id f → is_Some (fs !! file_of id).
Proof. unfold stored, ItemFromFile, ReadTextMessage, ReadFile. by destruct (fs !! file_of id). Qed.

Lemma disk_answers_temp d fs id : disk_answers d fs → temp_ok (wcalls d) fs (file_of id).
Proof. unfold disk_answers, temp_ok. destruct (create_temp _); naive_solver. Qed.

Lemma unchanged_files d fs tmp fs' :
  disk_answers d fs → create_temp (wcalls d) = Ok tmp → unchanged_but tmp fs fs' → same_files fs fs'.
Proof.
  unfold disk_answers. intros Hd Et Hu id. rewrite Et in Hd. destruct Hd as [_ Hd].
  apply Hu. intros E. by apply (Hd id).
Qed.

Lemma WriteTo_disk d fs it it' fs' err :
  disk_answers d fs → WriteTo d fs it (path qu) = (it', fs', err) →
  it' = stamped it ∧
  match err with
  | None => ∃ out, text_Marshal (msg it') = Ok out ∧ fs' = <[file_of (ID (msg it)) := out]> fs
  | Some _ => same_files fs fs'
  end.
Proof.
  intros Hd E. pose proof (WriteTo_item _ _ _ _ _ _ _ E) as ->. split; [done|].
  destruct err as [err|].
  2: { destruct (WriteTo_Ok d fs it (path qu) _ _ (disk_answers_temp _ _ _ Hd) E) as (out & Ho & ->). eauto. }
  revert E. unfold WriteTo, WriteTextMessage. destruct (text_Marshal _) as [out|]; [|by intros [= <- _]].
  destruct (WriteFile _ _ _ _ _) as [[tr fs1] e1] eqn:EW. intros [= <- ->].
  apply WriteFile_cases in EW as [_ EW]; [|apply Forall_singleton, FsyncFileOp_preserves|
    by apply (disk_answers_temp _ _ (ID (msg it)))].
  destruct EW as [->|(_ & tmp & Et & ->)]; [done|]. eapply unchanged_files; [done..|]. auto with go.
Qed.

Lemma write_trace_disk d fs it s :
  disk_answers d fs → s ∈ write_trace d fs it → written_or_not fs it s.
Proof.
  intros Hd. unfold write_trace. destruct (text_Marshal _) as [out|] eqn:Eo; [|by intros ?%elem_of_nil].
  destruct (WriteFile _ _ _ _ _) as [[tr fs1] e1] eqn:EW. simpl.
  apply WriteFile_cases in EW as [EW _]; [|apply Forall_singleton, FsyncFileOp_preserves|
    by apply (disk_answers_temp _ _ (ID (msg it)))].
  rewrite Forall_forall in EW. intros [->|(tmp & Et & Hu)]%EW; [right; eauto|].
  left. by eapply unchanged_files.
Qed.

Context `{!ProtoTextOk Message}.

Lemma stored_written fs it out :
  text_Marshal (msg (stamped it)) = Ok out →
  stored (<[file_of (ID (msg it)) := out]> fs) (ID (msg it)) (stamped it).
Proof.
  intros Ho. unfold stored, ItemFromFile, ReadTextMessage, ReadFile.
  rewrite lookup_insert_eq. cbn [mbind res_bind]. rewrite (text_roundtrip _ _ Ho).
  cbn. by rewrite timeFromProto_timeToProto.
Qed.

(** ** What is true in every state *)

(** The results that an item has are those of attempts that were made. *)
Definition backed (tr : list event) (it : Item) : Prop :=
  ∀ i r, Rcpt (msg it) !! i = Some r →
  match Rstatus r with
  | PENDING => True
  | SENT => ∃ p, Attempt (ID (msg it)) i (None, p) ∈ tr
  | FAILED => Attempt (ID (msg it)) i (Some (LastFailureMessage r), true) ∈ tr
  end.

(** The file has the item with the results of before, or of now. *)
Definition behind (f it : Item) : Prop :=
  mail_key f = mail_key it ∧ settled_kept (Rcpt (msg f)) (Rcpt (msg it)).

Definition saved (fs : FS) (id : bytes) (it : Item) : Prop := ∃ f, stored fs id f ∧ behind f it.

Definition over (st : State) (it : Item) : Prop :=
  all_settled (msg it) ∨ (GiveUpAfter qu ≤ now st - CreatedAt it)%Z.

Definition is_dsn (it dsn : Item) : Prop :=
  From (msg dsn) = "<>" ∧ To (msg dsn) = [From (msg it)] ∧
  ∃ id1 id2 date, Data (msg dsn) =
    deliveryStatusNotification id1 id2 date (dsn_domain qu (msg it)) (msg it).

Definition notified (tr : list event) (it : Item) : Prop :=
  needs_dsn (msg it) = true →
  (∃ dsn, Accepted dsn ∈ tr ∧ is_dsn it dsn) ∨ ∃ err, NotifyFailed (ID (msg it)) err ∈ tr.

Definition in_table (p : phase) : bool :=
  match p with Writing _ | Inserting _ => false | _ => true end.

Definition phase_ok (tr : list event) (st : State) (id : bytes) (t : thread) : Prop :=
  let it := item_of t in
  match phase_of t with
  | Writing _ => disk st !! file_of id = None
  | Inserting _ | Looping | Sleeping _ => saved (disk st) id it
  | Sending todo _ => saved (disk st) id it ∧ NoDup todo ∧
      ∀ i, i ∈ todo → ∃ r, Rcpt (msg it) !! i = Some r ∧ Rstatus r = PENDING
  | Ending => saved (disk st) id it ∧ over st it
  | Notifying _ => saved (disk st) id it ∧ over st it
  | Unlinking => saved (disk st) id it ∧ over st it ∧ notified tr it
  | Deleting => True
  end.

Record thread_ok (tr : list event) (st : State) (id : bytes) (t : thread) : Prop := {
  t_id : ID (msg (item_of t)) = id;
  t_drawn : id ∈ drawn st;
  t_backed : backed tr (item_of t);
  t_table : id ∈ table st ↔ in_table (phase_of t) = true;
  t_phase : phase_ok tr st id t;
}.

(** The threads that wait, and those they wait for. *)
Definition parent_of (p : phase) : option bytes :=
  match p with Writing par | Inserting par => par | _ => None end.

Definition child_of (p : phase) : option bytes :=
  match p with Notifying c => Some c | _ => None end.

Record links (ts : gmap bytes thread) : Prop := {
  l_up : ∀ c tc p, ts !! c = Some tc → parent_of (phase_of tc) = Some p →
    ∃ tp, ts !! p = Some tp ∧ child_of (phase_of tp) = Some c ∧ is_dsn (item_of tp) (item_of tc);
  l_down : ∀ p tp c, ts !! p = Some tp → child_of (phase_of tp) = Some c →
    ∃ tc, ts !! c = Some tc ∧ parent_of (phase_of tc) = Some p;
}.

(** Every file of an item can be read, and has what happened. *)
Definition files_inv (tr : list event) (dr : gset bytes) (fs : FS) : Prop :=
  ∀ id, is_Some (fs !! file_of id) →
    id ∈ dr ∧ ∃ f, stored fs id f ∧ ID (msg f) = id ∧ backed tr f.

(** Mail that was accepted is on the disk until it is removed. *)
Definition kept (tr : list event) (fs : FS) : Prop :=
  ∀ it, Accepted it ∈ tr →
    (∃ f, stored fs (ID (msg it)) f ∧ mail_key f = mail_key it) ∨
    ∃ it', Removed it' ∈ tr ∧ mail_key it' = mail_key it.

(** What is removed was dealt with. *)
Definition dealt_with (tr : list event) (st : State) (it : Item) : Prop :=
  backed tr it ∧ over st it ∧ notified tr it.

Record inv (tr : list event) (st : State) : Prop := {
  i_threads : ∀ id t, threads st !! id = Some t → thread_ok tr st id t;
  i_links : links (threads st);
  i_files : files_inv tr (drawn st) (disk st);
  i_drawn : ∀ id, id ∈ drawn st → "/"%char ∉ id;
  i_table : table st ⊆ dom (threads st);
  i_kept : kept tr (disk st);
  i_removed : ∀ it, Removed it ∈ tr → dealt_with tr st it;
}.

(** *** More events, more time *)

Lemma backed_more tr tr' it : tr ⊆ tr' → backed tr it → backed tr' it.
Proof. intros Ht Hb i r Hr. specialize (Hb i r Hr). destruct (Rstatus r); naive_solver. Qed.

Lemma notified_more tr tr' it : tr ⊆ tr' → notified tr it → notified tr' it.
Proof. intros Ht Hn Hd. destruct (Hn Hd) as [(dsn & ? & ?)|[err ?]]; [left|right]; eauto. Qed.

Lemma over_later st st' it : (now st ≤ now st')%Z → over st it → over st' it.
Proof. intros Hn [?|?]; [by left|right; lia]. Qed.

Lemma dealt_more tr tr' st st' it :
  tr ⊆ tr' → (now st ≤ now st')%Z → dealt_with tr st it → dealt_with tr' st' it.
Proof.
  intros Ht Hn (Hb & Ho & Hd). split_and!;
    [by eapply backed_more|by eapply over_later|by eapply notified_more].
Qed.

Lemma saved_frame fs fs' id it :
  fs' !! file_of id = fs !! file_of id → saved fs id it → saved fs' id it.
Proof.
  intros E (f & Hf & Hb). exists f. split; [|done].
  revert Hf. unfold stored, ItemFromFile, ReadTextMessage, ReadFile. by rewrite E.
Qed.

(** What a step of another thread leaves alone. *)
Lemma thread_ok_frame tr tr' st st' id t :
  tr ⊆ tr' → (now st ≤ now st')%Z → drawn st ⊆ drawn st' →
  disk st' !! file_of id = disk st !! file_of id →
  (id ∈ table st' ↔ id ∈ table st) →
  thread_ok tr st id t → thread_ok tr' st' id t.
Proof.
  intros Ht Hn Hdr Hd Htb [Ti Td Tb Tt Tp]. split; [done|set_solver|by eapply backed_more|by rewrite Htb|].
  unfold phase_ok in *. destruct (phase_of t);
    repeat match goal with
    | H : _ ∧ _ |- _ => destruct H
    | |- _ ∧ _ => split
    end; eauto using saved_frame, over_later, notified_more. by rewrite Hd.
Qed.

Lemma thread_ok_threads tr ts ts' tb fs n dr id t :
  thread_ok tr (mkState ts tb fs n dr) id t → thread_ok tr (mkState ts' tb fs n dr) id t.
Proof. by apply thread_ok_frame. Qed.

(** *** Writes *)

Definition preserved (fs fs' : FS) : Prop :=
  ∀ id f, stored fs id f → ∃ f', stored fs' id f' ∧ mail_key f' = mail_key f.

Lemma preserved_refl fs : preserved fs fs.
Proof. intros id f Hf. eauto. Qed.

Lemma preserved_trans fs1 fs2 fs3 : preserved fs1 fs2 → preserved fs2 fs3 → preserved fs1 fs3.
Proof.
  intros P1 P2 id f Hf. destruct (P1 id f Hf) as (f2 & Hf2 & K2).
  destruct (P2 id f2 Hf2) as (f3 & Hf3 & K3). exists f3. split; [done|congruence].
Qed.

Lemma kept_preserved tr fs fs' : preserved fs fs' → kept tr fs → kept tr fs'.
Proof.
  intros Hp Hk it Hit. destruct (Hk it Hit) as [(f & Hf & E)|Hr]; [left|by right].
  destruct (Hp _ _ Hf) as (f' & Hf' & E'). exists f'. split; [done|congruence].
Qed.

Lemma files_more tr tr' dr dr' fs :
  tr ⊆ tr' → dr ⊆ dr' → files_inv tr dr fs → files_inv tr' dr' fs.
Proof.
  intros Ht Hd Hf id Hs. destruct (Hf id Hs) as (Hi & f & Hst & HI & Hb).
  split; [set_solver|]. exists f. split_and!; [done..|by eapply backed_more].
Qed.

Lemma written_others fs it fs' id :
  written_or_not fs it fs' → id ≠ ID (msg it) → fs' !! file_of id = fs !! file_of id.
Proof.
  intros [Hs|(out & _ & ->)] Hne; [apply Hs|]. rewrite lookup_insert_ne; [done|].
  intros E. by apply file_of_inj in E.
Qed.

Lemma written_files tr dr fs it fs' :
  ID (msg it) ∈ dr → backed tr it → written_or_not fs it fs' →
  files_inv tr dr fs → files_inv tr dr fs'.
Proof.
  intros Hd Hb Hw Hf id Hs. destruct (decide (id = ID (msg it))) as [->|Hne].
  - destruct Hw as [Hsame|(out & Ho & ->)].
    + rewrite Hsame in Hs. destruct (Hf _ Hs) as (? & f & ? & ?).
      split; [done|]. exists f. by rewrite (stored_same fs).
    + split; [done|]. exists (stamped it). split; [by apply stored_written|done].
  - rewrite (written_others _ _ _ _ Hw Hne) in Hs. destruct (Hf _ Hs) as (? & f & ? & ?).
    split; [done|]. exists f. split; [|done].
    destruct Hw as [Hsame|(out & Ho & ->)]; [by rewrite (stored_same fs)|by rewrite stored_ne].
Qed.

Lemma written_preserved fs it fs' :
  written_or_not fs it fs' →
  (∀ f, stored fs (ID (msg it)) f → mail_key f = mail_key it) → preserved fs fs'.
Proof.
  intros [Hsame|(out & Ho & ->)] Hk id f Hf; [exists f; by rewrite (stored_same fs)|].
  destruct (decide (id = ID (msg it))) as [->|Hne]; [|exists f; by rewrite stored_ne].
  exists (stamped it). split; [by apply stored_written|]. by rewrite (Hk f Hf).
Qed.

Lemma stored_inj fs id f f' : stored fs id f → stored fs id f' → f = f'.
Proof. unfold stored. congruence. Qed.

Lemma saved_key fs id it f : saved fs id it → stored fs id f → mail_key f = mail_key it.
Proof. intros (f' & Hf' & [Hk _]) Hf. by rewrite (stored_inj _ _ _ _ Hf Hf'). Qed.

Lemma saved_written fs it fs' :
  written_or_not fs it fs' → saved fs (ID (msg it)) it → saved fs' (ID (msg it)) (stamped it).
Proof.
  intros [Hsame|(out & Ho & ->)] (f & Hf & Hb).
  - exists f. split; [by rewrite (stored_same fs)|]. exact Hb.
  - exists (stamped it). split; [by apply stored_written|]. split; [done|by intros ??].
Qed.

(** *** A step of one thread *)

Definition quiet (ev : event) : Prop :=
  match ev with Accepted _ | Removed _ => False | _ => True end.

Lemma quiet_kept tr ev fs : quiet ev → kept tr fs → kept (ev :: tr) fs.
Proof.
  intros Hq Hk it [E|Hit]%elem_of_cons; [by subst ev|].
  destruct (Hk it Hit) as [?|(it' & ? & ?)]; [by left|right]. exists it'. by rewrite elem_of_cons; auto.
Qed.

Lemma removed_more tr ev st st' :
  quiet ev → (now st ≤ now st')%Z → (∀ it, Removed it ∈ tr → dealt_with tr st it) →
  ∀ it, Removed it ∈ ev :: tr → dealt_with (ev :: tr) st' it.
Proof.
  intros Hq Hn Hr it [E|Hit]%elem_of_cons; [by subst ev|].
  eapply dealt_more; [|done|by apply Hr]. set_solver.
Qed.

Lemma links_insert ts id t t' :
  links ts → ts !! id = Some t → parent_of (phase_of t') = parent_of (phase_of t) →
  child_of (phase_of t') = child_of (phase_of t) →
  (∀ c, child_of (phase_of t) = Some c → item_of t' = item_of t) →
  mail_key (item_of t') = mail_key (item_of t) →
  links (<[id := t']> ts).
Proof.
  intros [Hu Hd] Ht Hp Hc Hi Hk. split.
  - intros c tc p. destruct (decide (c = id)) as [->|Hne].
    + rewrite lookup_insert_eq. intros [= <-] Hpar. rewrite Hp in Hpar.
      destruct (Hu id t p Ht Hpar) as (tp & Htp & Hch & Hdsn).
      destruct (decide (p = id)) as [->|Hpne].
      * rewrite Ht in Htp. injection Htp as <-. exfalso. revert Hpar Hch. by destruct (phase_of t).
      * exists tp. rewrite lookup_insert_ne by done. split_and!; [done..|].
        unfold is_dsn in *. unfold mail_key in Hk. injection Hk as _ -> -> -> _ _. done.
    + rewrite lookup_insert_ne by done. intros Htc Hpar.
      destruct (Hu c tc p Htc Hpar) as (tp & Htp & Hch & Hdsn).
      destruct (decide (p = id)) as [->|Hpne].
      * rewrite Ht in Htp. injection Htp as <-. exists t'. rewrite lookup_insert_eq, Hc.
        by rewrite (Hi c Hch).
      * exists tp. by rewrite lookup_insert_ne.
  - intros p tp c. destruct (decide (p = id)) as [->|Hne].
    + rewrite lookup_insert_eq. intros [= <-] Hch. rewrite Hc in Hch.
      destruct (Hd id t c Ht Hch) as (tc & Htc & Hpar).
      destruct (decide (c = id)) as [->|Hcne].
      * rewrite Ht in Htc. injection Htc as <-. exists t'. by rewrite lookup_insert_eq, Hp.
      * exists tc. by rewrite lookup_insert_ne.
    + rewrite lookup_insert_ne by done. intros Htp Hch.
      destruct (Hd p tp c Htp Hch) as (tc & Htc & Hpar).
      destruct (decide (c = id)) as [->|Hcne].
      * rewrite Ht in Htc. injection Htc as <-. exists t'. by rewrite lookup_insert_eq, Hp.
      * exists tc. by rewrite lookup_insert_ne.
Qed.

Lemma inv_thread tr ev st id t t' fs :
  inv tr st → threads st !! id = Some t → quiet ev →
  (∀ id', id' ≠ id → fs !! file_of id' = disk st !! file_of id') →
  files_inv (ev :: tr) (drawn st) fs → preserved (disk st) fs →
  parent_of (phase_of t') = parent_of (phase_of t) →
  child_of (phase_of t') = child_of (phase_of t) →
  (∀ c, child_of (phase_of t) = Some c → item_of t' = item_of t) →
  in_table (phase_of t') = in_table (phase_of t) →
  mail_key (item_of t') = mail_key (item_of t) →
  backed (ev :: tr) (item_of t') →
  phase_ok (ev :: tr) (set_thread (set_disk st fs) id t') id t' →
  inv (ev :: tr) (set_thread (set_disk st fs) id t').
Proof.
  intros [It Il If Id Itb Ik Ir] Ht Hq Ho Hfs Hpr Hp Hc Hi Hin Hk Hb Hph.
  destruct (It id t Ht) as [Ti Td Tb Tt Tp]. split; cbn [threads drawn table disk set_thread set_disk].
  - intros id' t0. destruct (decide (id' = id)) as [->|Hne].
    + rewrite lookup_insert_eq. intros [= <-]. split; cbn; [|done|done|by rewrite Hin|done].
      apply (f_equal (λ k, k.1.1.1.1.1)) in Hk. cbn in Hk. congruence.
    + rewrite lookup_insert_ne by done. intros Ht0.
      eapply thread_ok_frame; [..|by apply It]; cbn; [set_solver|done|done|by apply Ho|done].
  - by eapply links_insert.
  - done.
  - done.
  - rewrite dom_insert. set_solver.
  - by apply quiet_kept; [|eapply kept_preserved].
  - eapply (removed_more tr ev st); [done| |done]. done.
Qed.

Lemma inv_phase tr ev st id t p :
  inv tr st → threads st !! id = Some t → quiet ev →
  parent_of p = parent_of (phase_of t) → child_of p = child_of (phase_of t) →
  in_table p = in_table (phase_of t) →
  phase_ok (ev :: tr) st id (mkThread (item_of t) p) →
  inv (ev :: tr) (set_thread st id (mkThread (item_of t) p)).
Proof.
  intros I Ht Hq Hp Hc Hi Hph. pose proof (i_threads _ _ I id t Ht) as T.
  apply (inv_thread tr ev st id t (mkThread (item_of t) p) (disk st)); try done.
  - eapply files_more; [..|apply I]; set_solver.
  - apply preserved_refl.
  - eapply backed_more; [|apply T]. set_solver.
Qed.

(** *** A [Put] returns *)

Lemma lookup_resume parent ts k :
  resume parent ts !! k =
    (if decide (parent = Some k) then λ t, mkThread (item_of t) Unlinking else id) <$> ts !! k.
Proof.
  case_decide as Hp.
  - subst parent. simpl. by rewrite lookup_alter_eq.
  - rewrite option_fmap_id. destruct parent as [p|]; [|done]. simpl.
    by rewrite lookup_alter_ne by congruence.
Qed.

Lemma links_return ts id t (o : option thread) :
  links ts → ts !! id = Some t → child_of (phase_of t) = None →
  (∀ t', o = Some t' → parent_of (phase_of t') = None ∧ child_of (phase_of t') = None) →
  links (resume (parent_of (phase_of t)) (partial_alter (λ _, o) id ts)).
Proof.
  intros [Hu Hd] Ht Hch Hn.
  assert (Hold : ∀ k t', resume (parent_of (phase_of t)) (partial_alter (λ _, o) id ts) !! k = Some t' →
    (parent_of (phase_of t') ≠ None ∨ child_of (phase_of t') ≠ None) →
    ts !! k = Some t' ∧ k ≠ id ∧ parent_of (phase_of t) ≠ Some k).
  { intros k t'. rewrite lookup_resume. destruct (decide (k = id)) as [->|Hne].
    - rewrite lookup_partial_alter_eq. destruct o as [t0|]; [|done]. destruct (Hn t0 eq_refl).
      simpl. intros [= <-] [Hx|Hx]; revert Hx; by case_decide.
    - rewrite lookup_partial_alter_ne by done. destruct (ts !! k) as [t0|]; [|done]. simpl.
      intros [= <-] Hx. case_decide; [|done]. by destruct Hx. }
  assert (Hnew : ∀ k t', ts !! k = Some t' → k ≠ id → parent_of (phase_of t) ≠ Some k →
    resume (parent_of (phase_of t)) (partial_alter (λ _, o) id ts) !! k = Some t').
  { intros k t' Hk Hne Hp. rewrite lookup_resume, lookup_partial_alter_ne, Hk by done.
    by rewrite decide_False. }
  split.
  - intros c tc p Hc Hpar. destruct (Hold c tc Hc) as (Htc & Hci & Hcp); [left; congruence|].
    destruct (Hu c tc p Htc Hpar) as (tp & Htp & Hcp' & Hdsn). exists tp. split; [|done].
    apply Hnew; [done|congruence|]. intros Hp.
    destruct (Hu id t p Ht Hp) as (tp' & Htp' & Hcp2 & _). congruence.
  - intros p tp c Hp Hc. destruct (Hold p tp Hp) as (Htp & Hpi & Hpp); [right; congruence|].
    destruct (Hd p tp c Htp Hc) as (tc & Htc & Hpar). exists tc. split; [|done].
    apply Hnew; [done|congruence|]. intros Hcp.
    destruct (Hu id t c Ht Hcp) as (tp' & Htp' & Hcp2 & _). rewrite Htc in Htp'.
    injection Htp' as <-. revert Hpar Hcp2. by destruct (phase_of tc).
Qed.

Lemma inv_return tr ev st id t (o : option thread) tb fs :
  inv tr st → threads st !! id = Some t → child_of (phase_of t) = None →
  (∀ t', o = Some t' → parent_of (phase_of t') = None ∧ child_of (phase_of t') = None ∧
     thread_ok (ev :: tr) (mkState ∅ tb fs (now st) (drawn st)) id t') →
  (∀ id', id' ≠ id → fs !! file_of id' = disk st !! file_of id') →
  (∀ id', id' ≠ id → (id' ∈ tb ↔ id' ∈ table st)) → (id ∈ tb → is_Some o) →
  files_inv (ev :: tr) (drawn st) fs → kept (ev :: tr) fs →
  (∀ it, Removed it ∈ ev :: tr → Removed it ∈ tr) →
  (∀ p tp, parent_of (phase_of t) = Some p → threads st !! p = Some tp →
     is_dsn (item_of tp) (item_of t) → ID (msg (item_of tp)) = p → notified (ev :: tr) (item_of tp)) →
  inv (ev :: tr) (mkState (resume (parent_of (phase_of t)) (partial_alter (λ _, o) id (threads st)))
    tb fs (now st) (drawn st)).
Proof.
  intros [It Il If Id Itb Ik Ir] Ht Hch Ho Hoth Htb Hid Hfs Hk Hrm Hno.
  split; cbn [threads table disk now drawn].
  - intros k t'. rewrite lookup_resume. destruct (decide (k = id)) as [->|Hne].
    + rewrite lookup_partial_alter_eq. destruct o as [t0|]; [|done]. simpl. intros [= <-].
      destruct (Ho t0 eq_refl) as (_ & _ & Hok). rewrite decide_False; [by eapply thread_ok_threads|].
      intros Hp. destruct (l_up _ Il id t id Ht Hp) as (tp & Htp & Hc & _). congruence.
    + rewrite lookup_partial_alter_ne by done. destruct (threads st !! k) as [t0|] eqn:Hk0; [|done].
      simpl. intros [= <-].
      assert (Hok : thread_ok (ev :: tr) (mkState ∅ tb fs (now st) (drawn st)) k t0).
      { eapply thread_ok_frame; [..|by apply It]; cbn; [set_solver|done|done|by apply Hoth|by apply Htb]. }
      case_decide as Hp; [|by eapply thread_ok_threads].
      destruct (l_up _ Il id t k Ht Hp) as (tp & Htp & Hc & Hdsn). rewrite Hk0 in Htp. injection Htp as <-.
      destruct Hok as [Ti Td Tb Tt Tp]. unfold phase_ok in Tp.
      destruct (phase_of t0) eqn:Ep; try done. destruct Tp as [Ts To].
      split; try done. cbn. split_and!; [done..|]. by eapply Hno.
  - apply links_return; [done..|]. intros t' E. by destruct (Ho t' E) as (? & ? & _).
  - done.
  - done.
  - intros k Hk0. apply elem_of_dom. rewrite lookup_resume. apply fmap_is_Some.
    destruct (decide (k = id)) as [->|Hne].
    + rewrite lookup_partial_alter_eq. by apply Hid.
    + rewrite lookup_partial_alter_ne by done. apply elem_of_dom, Itb. by apply Htb.
  - done.
  - intros it Hit. eapply (dealt_more tr (ev :: tr) st); [set_solver|done|]. by apply Ir, Hrm.
Qed.

(** *** A [Put] starts *)

Lemma links_start ts c tc :
  links ts → ts !! c = None → parent_of (phase_of tc) = None → child_of (phase_of tc) = None →
  links (<[c := tc]> ts).
Proof.
  intros [Hu Hd] Hc Hp Hch. split.
  - intros k tk p. destruct (decide (k = c)) as [->|Hne]; [rewrite lookup_insert_eq; congruence|].
    rewrite lookup_insert_ne by done. intros Hk Hpar. destruct (Hu k tk p Hk Hpar) as (tp & Htp & ?).
    exists tp. rewrite lookup_insert_ne by congruence. done.
  - intros p tp k. destruct (decide (p = c)) as [->|Hne]; [rewrite lookup_insert_eq; congruence|].
    rewrite lookup_insert_ne by done. intros Htp Hk. destruct (Hd p tp k Htp Hk) as (tk & Htk & ?).
    exists tk. rewrite lookup_insert_ne by congruence. done.
Qed.

Lemma links_notify ts p tp c it :
  links ts → ts !! p = Some tp → phase_of tp = Ending → ts !! c = None → is_dsn (item_of tp) it →
  links (<[c := mkThread it (Writing (Some p))]> (<[p := mkThread (item_of tp) (Notifying c)]> ts)).
Proof.
  intros [Hu Hd] Hp Hph Hc Hdsn. assert (Hpc : p ≠ c) by congruence. split.
  - intros k tk p'. destruct (decide (k = c)) as [->|Hkc].
    { rewrite lookup_insert_eq. intros [= <-] [= <-]. exists (mkThread (item_of tp) (Notifying c)).
      rewrite lookup_insert_ne, lookup_insert_eq by done. done. }
    rewrite lookup_insert_ne by done. destruct (decide (k = p)) as [->|Hkp].
    { rewrite lookup_insert_eq. by intros [= <-]. }
    rewrite lookup_insert_ne by done. intros Hk Hpar.
    destruct (Hu k tk p' Hk Hpar) as (tp' & Htp' & Hch & Hd').
    exists tp'. rewrite !lookup_insert_ne; [done| |congruence].
    intros ->. rewrite Hp in Htp'. injection Htp' as <-. by rewrite Hph in Hch.
  - intros p' tp' k. destruct (decide (p' = c)) as [->|Hkc].
    { rewrite lookup_insert_eq. by intros [= <-]. }
    rewrite lookup_insert_ne by done. destruct (decide (p' = p)) as [->|Hkp].
    { rewrite lookup_insert_eq. intros [= <-] [= <-]. eexists. by rewrite lookup_insert_eq. }
    rewrite lookup_insert_ne by done. intros Hp' Hch.
    destruct (Hd p' tp' k Hp' Hch) as (tk & Htk & Hpar).
    exists tk. rewrite !lookup_insert_ne; [done| |congruence].
    intros ->. rewrite Hp in Htk. injection Htk as <-. by rewrite Hph in Hpar.
Qed.

(** The new item, which nothing in the state knows of. *)
Lemma started_ok tr st ts c par from to al rcpts data :
  inv tr st → fresh st c → add_rcpts al to [] = Ok rcpts →
  thread_ok tr (mkState ts (table st) (disk st) (now st) ({[c]} ∪ drawn st)) c
    (mkThread (mkItem (mkMessage c from to rcpts data (mkTimestamp 0 0)) (now st)) (Writing par)).
Proof.
  intros I [_ Hc] Ha. split; cbn; [done|set_solver|..].
  - intros i r Hr. apply add_rcpts_pending in Ha; [|done]. rewrite Forall_lookup in Ha.
    by rewrite (Ha i r Hr).
  - split; [|done]. intros Ht. destruct Hc.
    apply (i_table _ _ I), elem_of_dom in Ht as [t Ht]. apply (i_threads _ _ I c t Ht).
  - destruct (disk st !! file_of c) eqn:E; [|done]. destruct Hc.
    by apply (i_files _ _ I c).
Qed.

Lemma fresh_thread tr st c : inv tr st → fresh st c → threads st !! c = None.
Proof.
  intros I [_ Hc]. destruct (threads st !! c) as [t|] eqn:E; [|done].
  destruct Hc. by apply (i_threads _ _ I c t).
Qed.

Lemma refusal_rcpts st al to rcpts : refusal st al to = Ok rcpts → add_rcpts al to [] = Ok rcpts.
Proof. unfold refusal. by destruct (full st). Qed.

Lemma fresh_slash st c : fresh st c → "/"%char ∉ c.
Proof.
  intros [[v ->] _] Hs. pose proof (generateNewID_chars big v) as Hc.
  rewrite Forall_forall in Hc. by destruct (Hc _ Hs).
Qed.

(** The new state, up to the threads. *)
Lemma inv_start tr ts st c par from to al rcpts data :
  inv tr st → fresh st c → add_rcpts al to [] = Ok rcpts →
  let st' := put_started (mkState ts (table st) (disk st) (now st) (drawn st)) c par from to rcpts data in
  links (threads st') → dom (threads st) ⊆ dom ts →
  (∀ id t, ts !! id = Some t → thread_ok (Silent :: tr) st id t) →
  inv (Silent :: tr) st'.
Proof.
  intros I Hf Ha st' Hl Hdom Hts. split; cbn [threads table disk now drawn st' put_started].
  - intros id t. destruct (decide (id = c)) as [->|Hne].
    + rewrite lookup_insert_eq. intros [= <-].
      eapply thread_ok_frame; [..|by eapply (started_ok tr st ∅)]; cbn; [set_solver|done..].
    + rewrite lookup_insert_ne by done. intros Ht.
      eapply thread_ok_frame; [..|by apply Hts]; cbn; [done|done|set_solver|done|done].
  - exact Hl.
  - eapply files_more; [..|apply I]; set_solver.
  - intros id [->%elem_of_singleton|Hid]%elem_of_union; [by eapply fresh_slash|by apply (i_drawn _ _ I)].
  - rewrite dom_insert. pose proof (i_table _ _ I). set_solver.
  - apply quiet_kept; [done|apply I].
  - eapply (removed_more tr Silent st); [done| |apply I]. done.
Qed.

Lemma more_threads tr ev st : inv tr st →
  ∀ id t, threads st !! id = Some t → thread_ok (ev :: tr) st id t.
Proof.
  intros I id t Ht. eapply thread_ok_frame; [..|by apply (i_threads _ _ I)]; try done. set_solver.
Qed.

(** *** The cases *)

Lemma step_put_writes tr st id t par d it fs :
  inv tr st → threads st !! id = Some t → phase_of t = Writing par → disk_answers d (disk st) →
  WriteTo d (disk st) (item_of t) (path qu) = (it, fs, None) →
  inv (Silent :: tr) (set_thread (set_disk st fs) id (mkThread it (Inserting par))).
Proof.
  intros I Ht Hp Hd E. destruct (more_threads tr Silent st I id t Ht) as [Ti Td Tb Tt Tp].
  destruct (WriteTo_disk _ _ _ _ _ _ Hd E) as (-> & out & Ho & ->).
  assert (Hw : written_or_not (disk st) (item_of t) (<[file_of (ID (msg (item_of t))) := out]> (disk st)))
    by (right; eauto).
  unfold phase_ok in Tp. rewrite Hp in Tp.
  apply (inv_thread tr Silent st id t); rewrite ?Hp; try done.
  - intros id' Hne. apply (written_others _ _ _ _ Hw). congruence.
  - eapply written_files; [by rewrite Ti|done|done|].
    eapply files_more; [..|apply I]; set_solver.
  - eapply written_preserved; [done|]. intros f Hf. apply stored_file in Hf.
    rewrite Ti, Tp in Hf. by destruct Hf.
  - cbn. exists (stamped (item_of t)). split; [|by split; [|intros ??]].
    rewrite <- Ti. by apply stored_written.
Qed.

Lemma step_rcpt_saved tr st id t todo w d it fs err :
  inv tr st → threads st !! id = Some t → phase_of t = Sending todo (S w) → disk_answers d (disk st) →
  WriteTo d (disk st) (item_of t) (path qu) = (it, fs, err) →
  inv (Silent :: tr) (set_thread (set_disk st fs) id (mkThread it (Sending todo w))).
Proof.
  intros I Ht Hp Hd E. destruct (more_threads tr Silent st I id t Ht) as [Ti Td Tb Tt Tp].
  assert (Hw : it = stamped (item_of t) ∧ written_or_not (disk st) (item_of t) fs).
  { destruct (WriteTo_disk _ _ _ _ _ _ Hd E) as [-> Hw]. split; [done|].
    destruct err; [by left|]. right. destruct Hw as (out & ? & ->). eauto. }
  destruct Hw as [-> Hw]. unfold phase_ok in Tp. rewrite Hp in Tp. destruct Tp as (Ts & Tn & Tr).
  apply (inv_thread tr Silent st id t); rewrite ?Hp; try done.
  - intros id' Hne. apply (written_others _ _ _ _ Hw). congruence.
  - eapply written_files; [by rewrite Ti|done|done|].
    eapply files_more; [..|apply I]; set_solver.
  - eapply written_preserved; [done|]. intros f Hf. rewrite Ti in Hf. by eapply saved_key.
  - cbn. split; [|done]. rewrite <- Ti in Ts |- *. by eapply saved_written.
Qed.

Lemma after_attempt_key rcpt r : rcpt_key (after_attempt rcpt r) = rcpt_key rcpt.
Proof. by destruct r as [[err|] []]. Qed.

Lemma tried_key it i rcpt r :
  Rcpt (msg it) !! i = Some rcpt →
  mail_key (set_rcpts it (<[i := after_attempt rcpt r]> (Rcpt (msg it)))) = mail_key it.
Proof.
  intros Hr. unfold mail_key, set_rcpts. cbn. f_equal.
  rewrite list_fmap_insert, after_attempt_key. apply list_insert_id. by rewrite list_lookup_fmap, Hr.
Qed.

Lemma tried_backed tr it i rcpt r :
  Rcpt (msg it) !! i = Some rcpt → Rstatus rcpt = PENDING → backed tr it →
  backed (Attempt (ID (msg it)) i r :: tr)
    (set_rcpts it (<[i := after_attempt rcpt r]> (Rcpt (msg it)))).
Proof.
  intros Hr Hp Hb j rj Hj. cbn in Hj |- *. destruct (decide (j = i)) as [->|Hne].
  - rewrite list_lookup_insert_eq in Hj by (by eapply lookup_lt_Some). injection Hj as <-.
    destruct r as [[err|] b]; [destruct b|]; cbn.
    + by left.
    + by rewrite Hp.
    + exists b. by left.
  - rewrite list_lookup_insert_ne in Hj by done.
    refine (backed_more tr _ it _ Hb j rj Hj). set_solver.
Qed.

Lemma step_rcpt_tried tr st id t before i after w rcpt r :
  inv tr st → threads st !! id = Some t → phase_of t = Sending (before ++ i :: after) w →
  Rcpt (msg (item_of t)) !! i = Some rcpt →
  inv (Attempt id i r :: tr) (set_thread st id (mkThread
    (set_rcpts (item_of t) (<[i := after_attempt rcpt r]> (Rcpt (msg (item_of t)))))
    (Sending (before ++ after) (S w)))).
Proof.
  intros I Ht Hp Hr. destruct (i_threads tr st I id t Ht) as [Ti Td Tb Tt Tp].
  unfold phase_ok in Tp. rewrite Hp in Tp. destruct Tp as ((f & Hf & [Hk Hs]) & Tn & Tr).
  destruct (Tr i) as (rcpt' & Hr' & Hpend); [set_solver|].
  rewrite Hr in Hr'. injection Hr' as <-.
  apply NoDup_app in Tn as (Nb & Nd & Na). apply NoDup_cons in Na as [Ni Na].
  apply (inv_thread tr _ st id t _ (disk st)); rewrite ?Hp; try done.
  - eapply files_more; [..|apply I]; set_solver.
  - apply preserved_refl.
  - by apply tried_key.
  - rewrite <- Ti. by apply tried_backed.
  - cbn. split_and!.
    + exists f. split; [done|]. split; [by rewrite tried_key|].
      intros j rj Hj Hst. cbn. destruct (decide (j = i)) as [->|Hne].
      * specialize (Hs i rj Hj Hst). congruence.
      * rewrite list_lookup_insert_ne by done. by apply Hs.
    + apply NoDup_app. split_and!; [done| |done]. intros x Hx Hx'. by apply (Nd x Hx); right.
    + intros j Hj. assert (Hne : j ≠ i).
      { intros ->. apply elem_of_app in Hj as [Hj|Hj]; [|done]. by apply (Nd i Hj); left. }
      rewrite list_lookup_insert_ne by done. apply Tr. set_solver.
Qed.

Lemma step_put_fails tr st id t par d it fs err :
  inv tr st → threads st !! id = Some t → phase_of t = Writing par → disk_answers d (disk st) →
  WriteTo d (disk st) (item_of t) (path qu) = (it, fs, Some err) →
  inv (match par with None => Refused (ErrWrite err) | Some p => NotifyFailed p (ErrWrite err) end :: tr)
    (put_failed st id par fs).
Proof.
  intros I Ht Hp Hd E. destruct (WriteTo_disk _ _ _ _ _ _ Hd E) as [_ Hs].
  set (ev := match par with None => _ | Some p => _ end).
  assert (Hq : quiet ev) by (by unfold ev; destruct par).
  assert (Hpr : preserved (disk st) fs) by (intros k f Hf; exists f; by rewrite (stored_same (disk st))).
  replace (put_failed st id par fs) with
    (mkState (resume (parent_of (phase_of t)) (partial_alter (λ _, None) id (threads st)))
       (table st) fs (now st) (drawn st)) by (by rewrite Hp).
  destruct (i_threads tr st I id t Ht) as [Ti Td Tb Tt Tp]. rewrite Hp in Tt.
  apply inv_return; [done|done|by rewrite Hp|done|intros k _; apply Hs|done|..].
  - intros Hid. by apply Tt in Hid.
  - intros k Hk. rewrite Hs in Hk. destruct (i_files _ _ I k Hk) as (? & f & ? & ? & ?).
    split; [done|]. exists f. rewrite (stored_same (disk st)) by done. split_and!; [done..|].
    eapply backed_more; [|done]. set_solver.
  - eapply quiet_kept; [done|]. eapply kept_preserved; [done|apply I].
  - intros it' [E'|Hit]%elem_of_cons; [|done]. by rewrite <- E' in Hq.
  - rewrite Hp. intros p tp [= ->] Htp Hdsn Hid _. right. exists (ErrWrite err). rewrite Hid. by left.
Qed.

Lemma step_put_inserts tr st id t par :
  inv tr st → threads st !! id = Some t → phase_of t = Inserting par →
  inv (Accepted (item_of t) :: tr) (put_done st id par (item_of t)).
Proof.
  intros I Ht Hp.
  replace (put_done st id par (item_of t)) with
    (mkState (resume (parent_of (phase_of t))
       (partial_alter (λ _, Some (mkThread (item_of t) Looping)) id (threads st)))
       ({[id]} ∪ table st) (disk st) (now st) (drawn st)) by (by rewrite Hp).
  destruct (more_threads tr (Accepted (item_of t)) st I id t Ht) as [Ti Td Tb Tt Tp].
  unfold phase_ok in Tp. rewrite Hp in Tp.
  apply inv_return; [done|done|by rewrite Hp|..].
  - intros t' [= <-]. split; [done|]. split; [done|]. split; cbn; [done..| |done]. set_solver.
  - done.
  - intros id' Hne. set_solver.
  - eauto.
  - eapply files_more; [..|apply I]; set_solver.
  - intros it [E|Hit]%elem_of_cons.
    + injection E as ->. left. destruct Tp as (f & Hf & [Hk _]). exists f. by rewrite Ti.
    + destruct (i_kept _ _ I it Hit) as [?|(it' & ? & ?)]; [by left|right].
      exists it'. split; [by right|done].
  - intros it [E|Hit]%elem_of_cons; [done|done].
  - intros p tp _ _ Hdsn _ _. left. exists (item_of t). split; [by left|done].
Qed.

Lemma step_file_removed tr st id t :
  inv tr st → threads st !! id = Some t → phase_of t = Unlinking →
  inv (Removed (item_of t) :: tr)
    (set_thread (set_disk st (delete (file_of id) (disk st))) id (mkThread (item_of t) Deleting)).
Proof.
  intros I Ht Hp. set (ev := Removed (item_of t)).
  destruct (more_threads tr ev st I id t Ht) as [Ti Td Tb Tt Tp].
  unfold phase_ok in Tp. rewrite Hp in Tp. destruct Tp as (Ts & To & Tn).
  assert (Hoth : ∀ k, k ≠ id → delete (file_of id) (disk st) !! file_of k = disk st !! file_of k).
  { intros k Hne. apply lookup_delete_ne. intros E. by apply file_of_inj in E. }
  assert (Hst : ∀ k f, k ≠ id → stored (disk st) k f → stored (delete (file_of id) (disk st)) k f).
  { intros k f Hne. unfold stored, ItemFromFile, ReadTextMessage, ReadFile. by rewrite Hoth. }
  split; cbn [threads drawn table disk set_thread set_disk].
  - intros k t0. destruct (decide (k = id)) as [->|Hne].
    + rewrite lookup_insert_eq. intros [= <-]. split; cbn; [done..| |done]. rewrite Tt, Hp. done.
    + rewrite lookup_insert_ne by done. intros Ht0.
      eapply thread_ok_frame; [..|by apply (i_threads _ _ I)]; cbn; [set_solver|done|done|by apply Hoth|done].
  - apply (links_insert _ id t); rewrite ?Hp; try done. apply I.
  - intros k Hk. destruct (decide (k = id)) as [->|Hne].
    { rewrite lookup_delete_eq in Hk. by destruct Hk. }
    rewrite Hoth in Hk by done. destruct (i_files _ _ I k Hk) as (? & f & ? & ? & ?).
    split; [done|]. exists f. split_and!; [by apply Hst|done|]. eapply backed_more; [|done]. set_solver.
  - apply I.
  - rewrite dom_insert. pose proof (i_table _ _ I). set_solver.
  - intros it [E|Hit]%elem_of_cons; [done|]. destruct (i_kept _ _ I it Hit) as [(f & Hf & Hk)|(it' & ? & ?)].
    + destruct (decide (ID (msg it) = id)) as [Hid|Hne]; [|left; exists f; by split; [apply Hst|]].
      right. exists (item_of t). split; [by left|]. rewrite Hid in Hf. rewrite <- Hk.
      symmetry. by eapply saved_key.
    + right. exists it'. split; [by right|done].
  - intros it [E|Hit]%elem_of_cons; [injection E as ->; done|].
    eapply (dealt_more tr _ st); [set_solver|done|]. by apply (i_removed _ _ I).
Qed.

Lemma step_entry_removed tr st id t :
  inv tr st → threads st !! id = Some t → phase_of t = Deleting →
  inv (Silent :: tr) (forgotten st id).
Proof.
  intros I Ht Hp.
  replace (forgotten st id) with
    (mkState (resume (parent_of (phase_of t)) (partial_alter (λ _, None) id (threads st)))
       (table st ∖ {[id]}) (disk st) (now st) (drawn st)) by (by rewrite Hp).
  apply inv_return; [done|done|by rewrite Hp|done|done|set_solver|set_solver|..].
  - eapply files_more; [..|apply I]; set_solver.
  - apply quiet_kept; [done|apply I].
  - by intros it [E|Hit]%elem_of_cons.
  - by rewrite Hp.
Qed.

Lemma step_end_notifies tr st id t al rcpts child id1 id2 date :
  inv tr st → threads st !! id = Some t → phase_of t = Ending →
  refusal st al [From (msg (item_of t))] = Ok rcpts → fresh st child →
  inv (Silent :: tr)
    (put_started (set_thread st id (mkThread (item_of t) (Notifying child))) child (Some id)
       "<>" [From (msg (item_of t))] rcpts
       (deliveryStatusNotification id1 id2 date (dsn_domain qu (msg (item_of t))) (msg (item_of t)))).
Proof.
  intros I Ht Hp Hr Hf. apply refusal_rcpts in Hr.
  refine (inv_start tr (<[id := mkThread (item_of t) (Notifying child)]> (threads st)) st child
    (Some id) _ _ al rcpts _ I Hf Hr _ _ _).
  - apply links_notify; [apply I|done|done|by eapply fresh_thread|].
    split; [done|]. split; [done|]. by eexists _, _, _.
  - rewrite dom_insert. set_solver.
  - intros k t0. destruct (decide (k = id)) as [->|Hne].
    + rewrite lookup_insert_eq. intros [= <-].
      destruct (more_threads tr Silent st I id t Ht) as [Ti Td Tb Tt Tp].
      unfold phase_ok in Tp. rewrite Hp in Tt, Tp. split; done.
    + rewrite lookup_insert_ne by done. by apply more_threads.
Qed.

(** Time passes, or mail is refused. *)
Lemma inv_later tr ev st now' :
  inv tr st → quiet ev → (now st ≤ now')%Z →
  inv (ev :: tr) (mkState (threads st) (table st) (disk st) now' (drawn st)).
Proof.
  intros I Hq Hn. split; cbn.
  - intros id t Ht. eapply thread_ok_frame; [..|by apply (i_threads _ _ I)]; try done. set_solver.
  - apply I.
  - eapply files_more; [..|apply I]; set_solver.
  - apply I.
  - apply I.
  - apply quiet_kept; [done|apply I].
  - eapply (removed_more tr ev st); [done|done|apply I].
Qed.

(** *** Crashes *)

Lemma torn_inv tr dr ts fs fs' :
  torn ts fs fs' → files_inv tr dr fs →
  (∀ id t, ts !! id = Some t → ID (msg (item_of t)) = id ∧ id ∈ dr ∧ backed tr (item_of t) ∧
     (is_writing (phase_of t) = true → ∀ f, stored fs id f → mail_key f = mail_key (item_of t))) →
  files_inv tr dr fs' ∧ preserved fs fs'.
Proof.
  induction 1 as [fs|fs id t d fs1 fs2 Ht Hw Hd Hin _ IH]; intros Hf Hts.
  { split; [done|]. apply preserved_refl. }
  apply write_trace_disk in Hin; [|done].
  destruct (Hts id t Ht) as (Hi & Hdr & Hb & Hk).
  assert (Hp : preserved fs fs1).
  { eapply written_preserved; [done|]. rewrite Hi. by apply Hk. }
  destruct IH as [Hf2 Hp2]; [by eapply written_files; [by rewrite Hi|..]| |].
  - intros id' t' Ht'. destruct (Hts id' t' Ht') as (Hi' & Hdr' & Hb' & Hk').
    split_and!; [done..|]. intros Hw' f Hs.
    destruct (decide (id' = id)) as [->|Hne].
    + rewrite Ht in Ht'. injection Ht' as <-. destruct Hin as [Hsame|(out & Ho & ->)].
      * apply Hk; [done|]. by rewrite (stored_same fs) in Hs.
      * rewrite <- Hi in Hs. by rewrite (stored_inj _ _ _ _ Hs (stored_written _ _ _ Ho)).
    + apply Hk'; [done|]. destruct Hin as [Hsame|(out & Ho & ->)].
      * by rewrite (stored_same fs) in Hs.
      * rewrite stored_ne in Hs by congruence. done.
  - split; [done|]. by eapply preserved_trans.
Qed.

(** What [Load] puts in the map is what the files have. *)
Lemma load_files_sound fault fs files m started id it :
  (∀ f, f ∈ files → ∃ id, f = file_of id) →
  (∀ id it, stored fs id it → ID (msg it) = id) →
  (∀ id it, m !! id = Some it → stored fs id it) →
  (load_files fault fs files m started).1 !! id = Some it → stored fs id it.
Proof.
  intros Hf Hid. revert m started. induction files as [|f files IH]; intros m started Hm; [apply Hm|].
  cbn. assert (Hf' : ∀ f, f ∈ files → ∃ id, f = file_of id) by set_solver.
  destruct (Hf f) as [k ->]; [by left|].
  destruct (ItemFromFile fault fs (file_of k)) as [it0|] eqn:E; [|by apply IH].
  assert (Hs : stored fs k it0).
  { revert E. unfold stored, ItemFromFile, ReadTextMessage, ReadFile.
    destruct (fs !! file_of k); [|done]. by destruct (fault _). }
  apply IH; [done|]. intros k' it'. rewrite (Hid k it0 Hs).
  destruct (decide (k' = k)) as [->|Hne]; [rewrite lookup_insert_eq; by intros [= <-]|].
  rewrite lookup_insert_ne by done. apply Hm.
Qed.

Lemma Load_sound fault fs id it :
  (∀ id it, stored fs id it → ID (msg it) = id) →
  q (Load fault fs (set_q qu ∅)).1 !! id = Some it → stored fs id it.
Proof.
  intros Hid. unfold Load. destruct (load_files _ _ _ _ _) as [m st] eqn:E. cbn. intros Hm.
  apply (f_equal (λ p, p.1 !! id)) in E. cbn in E. rewrite Hm in E.
  eapply load_files_sound; [..|exact E]; [|done|done].
  intros f Hf. apply elem_of_glob_items in Hf as (i & -> & _). by exists i.
Qed.

Lemma step_crashes tr st fs fault now' :
  inv tr st → torn (threads st) (disk st) fs → (now st ≤ now')%Z →
  inv (Crashed :: tr) (restarted st fault fs now').
Proof.
  intros I Ht Hn. destruct (torn_inv (Crashed :: tr) (drawn st) _ _ _ Ht) as [Hf Hp].
  { eapply files_more; [..|apply I]; set_solver. }
  { intros id t Hid. destruct (more_threads tr Crashed st I id t Hid) as [Ti Td Tb Tt Tp].
    split_and!; [done..|]. intros Hw f Hs. unfold phase_ok in Tp. destruct (phase_of t) as [| | |? []| | | | |];
      try done; [|destruct Tp as [Tp _]; by eapply saved_key].
    apply stored_file in Hs. rewrite Tp in Hs. by destruct Hs. }
  assert (Hids : ∀ id it, stored fs id it → ID (msg it) = id).
  { intros id it Hs. destruct (Hf id (stored_file _ _ _ Hs)) as (_ & f & Hs' & Hi & _).
    by rewrite (stored_inj _ _ _ _ Hs Hs'). }
  unfold restarted. set (loaded := q _).
  assert (Hl : ∀ id it, loaded !! id = Some it → stored fs id it)
    by (intros id it; by apply Load_sound).
  split; cbn [threads table disk now drawn].
  - intros id t. rewrite lookup_fmap. destruct (loaded !! id) as [it|] eqn:El; [|done].
    cbn. intros [= <-]. apply Hl in El as Hs. destruct (Hf id (stored_file _ _ _ Hs)) as (Hd & f & Hs' & Hi & Hb).
    rewrite (stored_inj _ _ _ _ Hs Hs') in *. split; cbn; [done..| |].
    + split; [done|]. intros _. by apply elem_of_dom.
    + exists f. split; [done|]. split; [done|by intros ??].
  - split; intros c tc p; rewrite lookup_fmap; destruct (loaded !! c); try done; by intros [= <-].
  - done.
  - apply I.
  - by rewrite dom_fmap.
  - eapply kept_preserved; [done|]. apply quiet_kept; [done|apply I].
  - eapply (removed_more tr Crashed st); [done|done|apply I].
Qed.

(** *** Every state *)

Ltac at_phase I Ht Hp :=
  let Tp := fresh "Tp" in
  pose proof (t_phase _ _ _ _ (more_threads _ Silent _ I _ _ Ht)) as Tp;
  unfold phase_ok in Tp; rewrite Hp in Tp;
  apply inv_phase; rewrite ?Hp; try done; cbn.

Lemma pending_lookup m i :
  i ∈ pending m → ∃ r, Rcpt m !! i = Some r ∧ Rstatus r = PENDING.
Proof. intros (_ & r & Hr & Hp)%elem_of_pending_from. rewrite Nat.sub_0_r in Hr. eauto. Qed.

Lemma inv_step tr st ev st' : inv tr st → step st ev st' → inv (ev :: tr) st'.
Proof.
  intros I S. destruct S as [al to err Hr|id al from to rcpts data Hr Hf|id t par d it fs Ht Hp Hd E|
    id t par d it fs err Ht Hp Hd E|id t par Ht Hp|id t Ht Hp Hn|id t Ht Hp Hn|
    id t before i after w c rcpt Ht Hp Hr r|id t todo w d it fs err Ht Hp Hd E|id t Ht Hp Hc|
    id t rnd Ht Hp Hc Hr|id t u Ht Hp Hu|id t Ht Hp Hn|id t al err Ht Hp Hn Hr|
    id t al rcpts child id1 id2 date Ht Hp Hn Hr Hf|id t Ht Hp|id t Ht Hp|id t Ht Hp|n Hn|fs fault n Ht Hn].
  - destruct st. by apply (inv_later tr (Refused err) _ _ I).
  - refine (inv_start tr (threads st) st id None _ _ al rcpts _ I Hf (refusal_rcpts _ _ _ _ Hr) _ _ _).
    + apply links_start; [apply I|exact (fresh_thread _ _ _ I Hf)|done|done].
    + done.
    + by apply more_threads.
  - by eapply step_put_writes.
  - by eapply step_put_fails.
  - by eapply step_put_inserts.
  - at_phase I Ht Hp. split; [done|]. split; [apply NoDup_pending_from|apply pending_lookup].
  - at_phase I Ht Hp. split; [done|by right].
  - by apply step_rcpt_tried.
  - by eapply step_rcpt_saved.
  - at_phase I Ht Hp. split; [apply Tp|left; by apply countRcpt_zero].
  - at_phase I Ht Hp. apply Tp.
  - at_phase I Ht Hp.
  - at_phase I Ht Hp. split_and!; [apply Tp..|]. intros Hd. congruence.
  - at_phase I Ht Hp. split_and!; [apply Tp..|]. intros _. right. exists err.
    rewrite (t_id _ _ _ _ (i_threads _ _ I _ _ Ht)). by left.
  - by eapply step_end_notifies.
  - by apply step_file_removed.
  - at_phase I Ht Hp.
  - by eapply step_entry_removed.
  - by apply inv_later.
  - by apply step_crashes.
Qed.

Lemma run_inv tr st : run tr st → inv tr st.
Proof.
  induction 1 as [fs t Hf|tr st ev st' _ IH S]; [|by eapply inv_step].
  split; cbn.
  - intros id th. by rewrite lookup_empty.
  - split; intros ????; by rewrite lookup_empty.
  - intros id [b Hb]. by rewrite Hf in Hb.
  - intros id Hid. set_solver.
  - set_solver.
  - by intros it ?%elem_of_nil.
  - by intros it ?%elem_of_nil.
Qed.

(** ** What it means for the mail *)

Lemma needs_dsn_unsent m r :
  r ∈ Rcpt m → Rstatus r ≠ SENT → From m ≠ "<>" → needs_dsn m = true.
Proof.
  intros Hr Hs Hf. unfold needs_dsn. rewrite (bool_decide_eq_false_2 (From m = _)) by done.
  rewrite andb_true_r. apply bool_decide_eq_true_2. unfold countRcpt.
  destruct (filter _ (Rcpt m)) as [|r' l] eqn:E; [|simpl; lia]. exfalso.
  assert (Hin : r ∈ filter (λ r, Rstatus r ∈ [FAILED; PENDING]) (Rcpt m)).
  { apply list_elem_of_filter. split; [|done]. destruct (Rstatus r); set_solver. }
  rewrite E in Hin. by apply elem_of_nil in Hin.
Qed.

(** The sender hears of a recipient that did not get the message. *)
Definition reported (tr : list event) (it : Item) (r : Recipient) : Prop :=
  From (msg it) = "<>" ∨
  (∃ dsn, Accepted dsn ∈ tr ∧ From (msg dsn) = "<>" ∧ To (msg dsn) = [From (msg it)] ∧
     infix ("  - " ++ OriginalAddress r ++ [LF]) (Data (msg dsn))) ∨
  ∃ err, NotifyFailed (ID (msg it)) err ∈ tr.

Lemma notified_reported tr it r :
  notified tr it → r ∈ Rcpt (msg it) → Rstatus r ≠ SENT → reported tr it r.
Proof.
  intros Hn Hr Hs. destruct (decide (From (msg it) = "<>")) as [Hf|Hf]; [by left|right].
  destruct (Hn (needs_dsn_unsent _ r Hr Hs Hf)) as [(dsn & Ha & Hfr & Hto & id1 & id2 & date & Hd)|?];
    [left|by right].
  exists dsn. split_and!; [done..|]. rewrite Hd. by apply dsn_reports.
Qed.

(** What became of a recipient. *)
Definition settled (tr : list event) (st : State) (it : Item) (i : nat) (r : Recipient) : Prop :=
  (∃ p, Attempt (ID (msg it)) i (None, p) ∈ tr) ∨
  ((∃ err, Attempt (ID (msg it)) i (Some err, true) ∈ tr) ∨
   (GiveUpAfter qu ≤ now st - CreatedAt it)%Z) ∧ reported tr it r.

Lemma dealt_with_settled tr st it i r :
  dealt_with tr st it → Rcpt (msg it) !! i = Some r → settled tr st it i r.
Proof.
  intros (Hb & Ho & Hn) Hr. specialize (Hb i r Hr). destruct (Rstatus r) eqn:Es; [|by left|].
  - right. split; [|eapply notified_reported; [done|by eapply list_elem_of_lookup_2|congruence]].
    right. destruct Ho as [Ho|?]; [|done].
    unfold all_settled in Ho. rewrite Forall_lookup in Ho. by destruct (Ho i r Hr).
  - right. split; [|eapply notified_reported; [done|by eapply list_elem_of_lookup_2|congruence]].
    left. eauto.
Qed.

Lemma same_key_rcpt it it' i r :
  mail_key it' = mail_key it → Rcpt (msg it) !! i = Some r →
  ∃ r', Rcpt (msg it') !! i = Some r' ∧ rcpt_key r' = rcpt_key r.
Proof.
  intros Hk Hr. apply (f_equal (λ k, k.2 !! i)) in Hk. cbn in Hk.
  rewrite !list_lookup_fmap, Hr in Hk. destruct (Rcpt (msg it') !! i) as [r'|]; [|done].
  injection Hk as Hk. exists r'. split; [done|]. unfold rcpt_key. congruence.
Qed.

Lemma settled_key tr st it it' i r r' :
  mail_key it' = mail_key it → rcpt_key r' = rcpt_key r →
  settled tr st it' i r' → settled tr st it i r.
Proof.
  unfold settled, reported, mail_key, rcpt_key. intros Hk Hr.
  injection Hk as -> -> _ _ -> _. injection Hr as _ _ -> _. done.
Qed.

(** No mail that was accepted is ever lost, whatever clients, couriers, disks
    and the clock do, in whatever order the goroutines run, and wherever the
    process is stopped, any number of times: at any moment its file is on the
    disk with the same sender, recipients and contents, or else each recipient
    got it (a courier took it), or failed for good or was given up after
    [GiveUpAfter], and then the sender was told in a notification that was
    accepted as well, which names the recipient, unless queueing it failed or
    the mail has the null sender. *)
Theorem mail_accounted tr st it :
  run tr st → Accepted it ∈ tr →
  (∃ f, stored (disk st) (ID (msg it)) f ∧ mail_key f = mail_key it) ∨
  (∀ i r, Rcpt (msg it) !! i = Some r → settled tr st it i r).
Proof.
  intros R Ha. apply run_inv in R as I.
  destruct (i_kept _ _ I it Ha) as [?|(it' & Hr & Hk)]; [by left|right].
  intros i r Hi. destruct (same_key_rcpt _ _ _ _ Hk Hi) as (r' & Hr' & Hkr).
  eapply settled_key; [done..|]. apply dealt_with_settled; [by apply (i_removed _ _ I)|done].
Qed.

(** C8: Nobody is sent a message again once the result is on the disk: an attempt
    is only made for a recipient that is pending in the file of the item,
    whatever happened before, crashes included. *)
Theorem no_resend tr st id i r st' :
  run tr st → step st (Attempt id i r) st' →
  ∃ f rcpt, stored (disk st) id f ∧ Rcpt (msg f) !! i = Some rcpt ∧ Rstatus rcpt = PENDING.
Proof.
  intros R S. apply run_inv in R as I. remember (Attempt id i r) as ev eqn:Eev.
  destruct S as [| | |id' t par ? ? ? ? ? ? ? ?| | | |id' t before i' after w c rcpt Ht Hp Hr r'| | | | | | | | | | | |];
    try done; [by destruct par|]. injection Eev as -> -> _.
  pose proof (t_phase _ _ _ _ (i_threads _ _ I _ _ Ht)) as Tp. unfold phase_ok in Tp. rewrite Hp in Tp.
  destruct Tp as ((f & Hf & [Hk Hs]) & _ & Tr). destruct (Tr i) as (r0 & Hr0 & Hp0); [set_solver|].
  destruct (same_key_rcpt (item_of t) f i r0 Hk Hr0) as (rf & Hrf & _).
  exists f, rf. split_and!; [done..|]. destruct (decide (Rstatus rf = PENDING)) as [|Hne]; [done|].
  specialize (Hs i rf Hrf Hne). congruence.
Qed.

(** After a restart in which the files can be read, all the mail on the disk is
    being sent again, from the results that were saved. *)
Theorem restart_resumes tr st fs now' id f :
  run tr st → torn (threads st) (disk st) fs → (now st ≤ now')%Z → stored fs id f →
  let st' := restarted st (λ _, None) fs now' in
  threads st' !! id = Some (mkThread f Looping) ∧ id ∈ table st'.
Proof.
  intros R Ht Hn Hs st'.
  assert (I : inv (Crashed :: tr) st') by (eapply run_inv, run_step; [done|by apply crashes]).
  destruct (i_files _ _ I id (stored_file _ _ _ Hs)) as (Hd & _).
  assert (Hl : q (Load (λ _, None) fs (set_q qu ∅)).1 !! id = Some f).
  { rewrite Load_lookup; [|intros k m Hm|done|by apply (i_drawn _ _ I)].
    - change (path (set_q qu ∅)) with (path qu). unfold stored, QueueConc.file_of in Hs. by rewrite Hs.
    - assert (Hk : stored fs k (mkItem m (timeFromProto (CreatedAtTs m)))).
      { unfold stored, ItemFromFile, QueueConc.file_of.
        change (path (set_q qu ∅)) with (path qu) in Hm. by rewrite Hm. }
      destruct (i_files _ _ I k (stored_file _ _ _ Hk)) as (_ & f' & Hf' & Hi & _).
      by rewrite <- Hi, (stored_inj _ _ _ _ Hf' Hk). }
  cbn. rewrite lookup_fmap, Hl. split; [done|]. by apply elem_of_dom.
Qed.

(** ** How large the queue can be *)

(** The [Put]s that are under way. *)
Definition in_flight (st : State) : gset bytes := dom (threads st) ∖ table st.

(** Runs in which at most [k] [Put]s are under way at a time; [n] is the number of
    items that were loaded when the process was last started. *)
Inductive calm (k : nat) : nat → list event → State → Prop :=
| calm_boot fs t : no_items qu fs → calm k 0 [] (boot fs t)
| calm_step n tr st ev st' :
    calm k n tr st → step st ev st' → ev ≠ Crashed → size (in_flight st') ≤ k →
    calm k n (ev :: tr) st'
| calm_crash n tr st st' :
    calm k n tr st → step st Crashed st' → calm k (size (threads st')) (Crashed :: tr) st'.

Lemma calm_run k n tr st : calm k n tr st → run tr st.
Proof. induction 1; [by constructor|by econstructor..]. Qed.

Lemma dom_resume par ts : dom (resume par ts) = dom ts.
Proof. destruct par; [apply dom_alter_L|done]. Qed.

Lemma refusal_room st al to rcpts :
  refusal st al to = Ok rcpts → (Z.of_nat (size (table st)) < MaxItems qu)%Z.
Proof. unfold refusal, QueueConc.full. by destruct (Z.leb_spec (MaxItems qu) (Z.of_nat (size (table st)))). Qed.

Lemma step_size st ev st' :
  step st ev st' → ev ≠ Crashed →
  dom (threads st') ⊆ dom (threads st) ∨ (Z.of_nat (size (table st')) < MaxItems qu)%Z.
Proof.
  assert (Hset : ∀ st id t t', threads st !! id = Some t →
    dom (threads (set_thread st id t')) ⊆ dom (threads st)).
  { intros s id t t' Ht%elem_of_dom_2. cbn. rewrite dom_insert. set_solver. }
  destruct 1; intros Hc; try (left; by eapply Hset).
  - by left.
  - right. by eapply refusal_room.
  - left. by eapply (Hset (set_disk st fs)).
  - left. cbn. rewrite dom_resume, dom_delete. set_solver.
  - left. cbn. rewrite dom_resume, dom_insert. apply elem_of_dom_2 in H4. set_solver.
  - left. by eapply (Hset (set_disk st fs)).
  - right. by eapply refusal_room.
  - left. by eapply (Hset (set_disk st _)).
  - left. cbn. rewrite dom_delete. set_solver.
  - by left.
  - done.
Qed.

(** C29: How far the queue goes over its limit: [Put] looks at the length before it
    writes and inserts, so that several at a time can find room for one; but
    with at most [k] of them at a time the queue never has more than
    [MaxItems + k - 1] items, or those that were found on the disk when the
    process was last started, if that is more: loading does not look at the
    limit.  The run may have any number of crashes and restarts. *)
Theorem queue_bounded k n tr st :
  calm k n tr st →
  (Z.of_nat (size (table st)) ≤ Z.max (Z.of_nat n) (MaxItems qu + Z.of_nat k - 1))%Z.
Proof.
  intros C. assert (Hall : (Z.of_nat (size (dom (threads st))) ≤
    Z.max (Z.of_nat n) (MaxItems qu + Z.of_nat k - 1))%Z).
  { induction C as [fs t Hf|n tr st ev st' C IH S Hc Hk|n tr st st' C IH S]; [..|rewrite size_dom; lia].
    - cbn. rewrite dom_empty_L, size_empty. lia.
    - assert (Hi : inv (ev :: tr) st') by (eapply run_inv, run_step; [by eapply calm_run|done]).
      destruct (step_size st ev st' S Hc) as [Hd|Hd]; [apply subseteq_size in Hd; lia|].
      pose proof (i_table _ _ Hi) as Ht. unfold in_flight in Hk.
      rewrite size_difference in Hk by done. lia. }
  pose proof (i_table _ _ (run_inv _ _ (calm_run _ _ _ _ C))) as Ht. apply subseteq_size in Ht. lia.
Qed.

(** ** The operations of [Queue.v] as runs *)

(** The map [q.q]: the items that its pointers lead to. *)
Definition view (st : State) : Queue :=
  set_q qu (omap (λ t, if in_table (phase_of t) then Some (item_of t) else None) (threads st)).

Lemma view_lookup st id :
  q (view st) !! id = t ← threads st !! id; if in_table (phase_of t) then Some (item_of t) else None.
Proof. cbn. apply lookup_omap. Qed.

Lemma view_Len tr st : inv tr st → Len (view st) = Z.of_nat (size (table st)).
Proof.
  intros I. unfold Len. rewrite <- size_dom. do 2 f_equal. apply set_eq. intros id.
  rewrite elem_of_dom, view_lookup. split.
  - intros [it E]. destruct (threads st !! id) as [t|] eqn:Ht; [|done]. cbn in E.
    apply (t_table _ _ _ _ (i_threads _ _ I _ _ Ht)). by destruct (in_table _).
  - intros Hid. destruct (proj1 (elem_of_dom _ _) (i_table _ _ I id Hid)) as [t Ht].
    rewrite Ht. cbn. rewrite (proj1 (t_table _ _ _ _ (i_threads _ _ I _ _ Ht)) Hid). eauto.
Qed.

Lemma view_eq st st' :
  (∀ id, q (view st') !! id = q (view st) !! id) → view st' = view st.
Proof. intros E. unfold view in *. f_equal. by apply map_eq. Qed.

(** [Put] of [Queue.v], in a state where it runs alone, is a run of these steps,
    with the same result, map and disk. *)
Theorem Put_simulated tr st e from to data qu' fs' r :
  run tr st → fresh st (new_id e) → put_time e = now st → disk_answers (put_disk e) (disk st) →
  Put e (disk st) (view st) from to data = (qu', fs', r) →
  ∃ evs st', run (evs ++ tr) st' ∧ disk st' = fs' ∧ view st' = qu' ∧
    match r with
    | Err err => head evs = Some (Refused err)
    | Ok id => ∃ it, head evs = Some (Accepted it) ∧ q qu' !! id = Some it
    end.
Proof.
  intros R Hf Ht Hd. pose proof (run_inv _ _ R) as I. unfold Put.
  rewrite (view_Len _ _ I). change (MaxItems (view st)) with (MaxItems qu).
  change (aliases (view st)) with (aliases qu).
  destruct (full st) eqn:Efull; unfold QueueConc.full in Efull; rewrite Efull.
  { intros [= <- <- <-]. exists [Refused errQueueFull], st. split_and!; [|done..].
    eapply run_step; [done|]. eapply (put_refused _ _ _ (aliases qu) to).
    unfold refusal, QueueConc.full. by rewrite Efull. }
  destruct (add_rcpts (aliases qu) to []) as [rcpts|err] eqn:Ea.
  2: { intros [= <- <- <-]. exists [Refused err], st. split_and!; [|done..].
    eapply run_step; [done|]. eapply (put_refused _ _ _ (aliases qu) to).
    unfold refusal, QueueConc.full. by rewrite Efull. }
  rewrite Ht. set (it0 := mkItem _ _).
  set (st1 := put_started st (new_id e) None from to rcpts data).
  assert (R1 : run (Silent :: tr) st1).
  { eapply run_step; [done|]. eapply (put_starts _ _ _ _ (aliases qu)); [|done].
    unfold refusal, QueueConc.full. by rewrite Efull. }
  assert (T1 : threads st1 !! new_id e = Some (mkThread it0 (Writing None)))
    by apply lookup_insert_eq.
  pose proof (fresh_thread _ _ _ I Hf) as Hnew.
  destruct (WriteTo _ _ _ _) as [[it fs] [err|]] eqn:E.
  - intros [= <- <- <-]. exists [Refused (ErrWrite err); Silent], (put_failed st1 (new_id e) None fs).
    split_and!; [|done| |done].
    + eapply run_step; [exact R1|]. exact (put_write_fails big qu st1 _ _ None _ _ _ _ T1 eq_refl Hd E).
    + apply view_eq. intros id. rewrite !view_lookup. cbn. by rewrite delete_insert_id.
  - intros [= <- <- <-]. apply WriteTo_item in E as Hit.
    set (st2 := set_thread (set_disk st1 fs) (new_id e) (mkThread it (Inserting None))).
    exists [Accepted it; Silent; Silent], (put_done st2 (new_id e) None it).
    assert (R2 : run (Silent :: Silent :: tr) st2).
    { eapply run_step; [exact R1|]. exact (put_writes big qu st1 _ _ None _ _ _ T1 eq_refl Hd E). }
    assert (T2 : threads st2 !! new_id e = Some (mkThread it (Inserting None)))
      by apply lookup_insert_eq.
    assert (Hid : ID (msg it) = new_id e) by (by rewrite Hit).
    split_and!; [|done| |].
    + eapply run_step; [exact R2|]. exact (put_inserts big qu st2 _ _ None T2 eq_refl).
    + unfold view. cbn. f_equal. rewrite !insert_insert_eq, Hid.
      by rewrite (omap_insert_Some _ _ _ _ it) by done.
    + exists it. split; [done|]. cbn. by rewrite lookup_insert_eq.
Qed.

(** An attempt and its write, likewise. *)
Theorem sendOneRcpt_simulated tr st id t before i after w c d rcpt it fs :
  run tr st → threads st !! id = Some t → phase_of t = Sending (before ++ i :: after) w →
  Rcpt (msg (item_of t)) !! i = Some rcpt → disk_answers d (disk st) →
  sendOneRcpt c d (disk st) qu (item_of t) i = (it, fs) →
  run (Silent :: Attempt id i (deliver c qu (msg (item_of t)) rcpt) :: tr)
    (set_thread (set_disk st fs) id (mkThread it (Sending (before ++ after) w))).
Proof.
  intros R Ht Hp Hr Hd. unfold sendOneRcpt. rewrite Hr.
  destruct (WriteTo _ _ _ _) as [[it' fs'] err] eqn:E. intros [= <- <-].
  set (r := deliver _ _ _ _) in *.
  pose proof (run_step big qu _ _ _ _ R (rcpt_tried big qu st id t before i after w c rcpt Ht Hp Hr)) as R1.
  fold r in R1. cbv zeta in R1. set (st1 := set_thread st id _) in R1.
  replace (set_thread (set_disk st fs') id (mkThread it' (Sending (before ++ after) w)))
    with (set_thread (set_disk st1 fs') id (mkThread it' (Sending (before ++ after) w))).
  - eapply run_step; [exact R1|].
    eapply (rcpt_saved big qu st1 id _ _ w d it' fs' err); [apply lookup_insert_eq|done|done|exact E].
  - unfold set_thread, st1. cbn. f_equal. apply insert_insert_eq.
Qed.

(** And [Remove], which ends an item. *)
Theorem Remove_simulated tr st id t rm_err qu' fs' :
  run tr st → threads st !! id = Some t → phase_of t = Unlinking →
  Remove rm_err (disk st) (view st) id = (qu', fs') →
  ∃ st', run (Silent :: match rm_err with Some _ => RemoveFailed id | None => Removed (item_of t) end :: tr) st' ∧
    disk st' = fs' ∧ view st' = qu'.
Proof.
  intros R Ht Hp. unfold Remove. intros [= <- <-].
  set (st1 := set_thread (set_disk st (match rm_err with Some _ => disk st | None => delete (file_of id) (disk st) end)) id
                (mkThread (item_of t) Deleting)).
  exists (forgotten st1 id). split_and!.
  - eapply run_step; [|eapply entry_removed; [apply lookup_insert_eq|done]].
    eapply run_step; [exact R|]. destruct rm_err.
    + by apply (file_kept big qu st id t).
    + by apply (file_removed big qu st id t).
  - by destruct rm_err.
  - unfold view. cbn. f_equal. by rewrite delete_insert_eq, omap_delete.
Qed.

End Steps.

(** ** Examples *)

Module Example.
Import AsciiOnly CountableText QueueProps.Example.

#[local] Abbreviation run := (run false queue).
#[local] Abbreviation step := (step false queue).

Definition id1 : bytes := generateNewID false 1.

Definition rcpts : list Recipient := [mkRecipient "juan@dom" EMAIL PENDING [] "juan@dom" []].

Definition item1 : Item :=
  mkItem (mkMessage id1 "ana@dom" ["juan@dom"] rcpts "Hello" (mkTimestamp 5 123)) 5000000123.

Definition started : State :=
  put_started (boot ∅ 5000000123) id1 None "ana@dom" ["juan@dom"] rcpts "Hello".

Definition accepted (fs : FS) : State :=
  put_done (set_thread (set_disk started fs) id1 (mkThread item1 (Inserting None))) id1 None item1.

Lemma temp_name fs : fs !! ("/q/.t" : bytes) = None → disk_answers queue (good_disk "/q/.t") fs.
Proof. intros Hf. split; [exact Hf|]. intros id E. discriminate E. Qed.

Lemma starts : run [Silent] started.
Proof.
  eapply run_step; [apply (run_boot _ _ ∅ 5000000123); intros id; apply lookup_empty|].
  apply (put_starts _ _ _ id1 (aliases queue)).
  - vm_compute. reflexivity.
  - split; [by eexists|]. apply not_elem_of_empty.
Qed.

Lemma accepts : ∃ fs, run [Accepted item1; Silent; Silent] (accepted fs).
Proof.
  destruct (WriteTo (good_disk "/q/.t") ∅ (mkItem (mkMessage id1 "ana@dom" ["juan@dom"] rcpts "Hello"
    (mkTimestamp 0 0)) 5000000123) (path queue)) as [[it fs] err] eqn:E.
  assert (Herr : err = None).
  { apply (f_equal snd) in E. cbn in E. by rewrite <- E. }
  subst err. apply WriteTo_item in E as Hit. exists fs.
  assert (Hi : it = item1) by (rewrite Hit; vm_compute; reflexivity). clear Hit. subst it.
  eapply run_step.
  - eapply run_step; [exact starts|].
    eapply (put_writes _ _ started id1 _ None (good_disk "/q/.t") item1 fs).
    + apply lookup_insert_eq.
    + reflexivity.
    + apply temp_name, lookup_empty.
    + exact E.
  - refine (put_inserts _ _ _ id1 (mkThread item1 (Inserting None)) None _ _); [|reflexivity].
    apply lookup_insert_eq.
Qed.

(** Accepted, and then the machine stops. *)
Lemma mail_accounted_witness : ∃ tr st,
  run tr st ∧ Accepted item1 ∈ tr ∧ Crashed ∈ tr ∧
  ((∃ f, stored queue (disk st) id1 f ∧ mail_key f = mail_key item1) ∨
   ∀ i r, Rcpt (msg item1) !! i = Some r → settled queue tr st item1 i r).
Proof.
  destruct accepts as [fs R].
  assert (R' : run [Crashed; Accepted item1; Silent; Silent]
    (restarted queue (accepted fs) (λ _, None) fs 6000000000)).
  { eapply run_step; [exact R|]. apply crashes; [apply torn_none|done]. }
  eexists _, _. split; [exact R'|]. split; [right; left|]. split; [left|].
  refine (mail_accounted false queue _ _ item1 R' _). right. left.
Defined.

Definition sending (fs : FS) : State :=
  set_thread (accepted fs) id1 (mkThread item1 (Sending [0] 0)).

Definition tried (fs : FS) : State :=
  set_thread (sending fs) id1 (mkThread
    (set_rcpts item1 [mkRecipient "juan@dom" EMAIL SENT [] "juan@dom" []]) (Sending [] 1)).

Lemma tries fs : step (sending fs) (Attempt id1 0 (None, false)) (tried fs).
Proof.
  exact (rcpt_tried false queue (sending fs) id1 (mkThread item1 (Sending [0] 0)) [] 0 [] 0
    (λ _, (None, false)) (mkRecipient "juan@dom" EMAIL PENDING [] "juan@dom" [])
    (lookup_insert_eq _ _ _) eq_refl eq_refl).
Qed.

Lemma no_resend_witness : ∃ fs f rcpt,
  step (sending fs) (Attempt id1 0 (None, false)) (tried fs) ∧
  stored queue fs id1 f ∧ Rcpt (msg f) !! 0 = Some rcpt ∧ Rstatus rcpt = PENDING.
Proof.
  destruct accepts as [fs R]. exists fs.
  assert (R' : run [Silent; Accepted item1; Silent; Silent] (sending fs)).
  { eapply run_step; [exact R|].
    refine (loop_sends _ _ _ id1 (mkThread item1 Looping) _ _ _); [|reflexivity|reflexivity].
    apply lookup_insert_eq. }
  destruct (no_resend false queue _ _ id1 0 (None, false) (tried fs) R' (tries fs))
    as (f & rcpt & Hf & Hr & Hp).
  exists f, rcpt. split; [apply tries|]. split; [exact Hf|]. split; [exact Hr|exact Hp].
Defined.

(** Three clients at a time, with room for two messages. *)

Lemma write_works fs it : fs !! ("/q/.t" : bytes) = None →
  ∃ fs', WriteTo (good_disk "/q/.t") fs it "/q" = (stamped it, fs', None) ∧
    fs' !! ("/q/.t" : bytes) = None.
Proof.
  intros Hf. destruct (WriteTo (good_disk "/q/.t") fs it "/q") as [[it' fs'] err] eqn:E.
  apply WriteTo_item in E as Hit. exists fs'.
  assert (Herr : err = None) by (apply (f_equal snd) in E; cbn in E; by rewrite <- E).
  subst err it'. split; [done|].
  destruct (WriteTo_disk queue _ _ _ _ _ _ (temp_name fs Hf) E) as (_ & out & _ & ->).
  by rewrite lookup_insert_ne by done.
Qed.

Definition client (v : N) : bytes := generateNewID false v.

Definition item_ (v : N) : Item :=
  mkItem (mkMessage (client v) "ana@dom" ["juan@dom"] rcpts "Hello" (mkTimestamp 0 0)) 5000000123.

Definition begin (v : N) (st : State) : State :=
  put_started st (client v) None "ana@dom" ["juan@dom"] rcpts "Hello".

Definition write (v : N) (fs : FS) (st : State) : State :=
  set_thread (set_disk st fs) (client v) (mkThread (stamped (item_ v)) (Inserting None)).

Definition insert (v : N) (st : State) : State := put_done st (client v) None (stamped (item_ v)).

Lemma begin_step v st :
  full queue st = false → client v ∉ drawn st → now st = 5000000123%Z → step st Silent (begin v st).
Proof.
  intros Hf Hd Hn. apply (put_starts _ _ _ _ (aliases queue)).
  - unfold refusal. rewrite Hf. vm_compute. reflexivity.
  - split; [by eexists|done].
Qed.

Lemma write_step v fs fs' st :
  threads st !! client v = Some (mkThread (item_ v) (Writing None)) → disk st = fs →
  fs !! ("/q/.t" : bytes) = None →
  WriteTo (good_disk "/q/.t") fs (item_ v) "/q" = (stamped (item_ v), fs', None) →
  step st Silent (write v fs' st).
Proof.
  intros Ht <- Hf E. eapply (put_writes _ _ st); [exact Ht|reflexivity|by apply temp_name|exact E].
Qed.

Lemma insert_step v st :
  threads st !! client v = Some (mkThread (stamped (item_ v)) (Inserting None)) →
  step st (Accepted (stamped (item_ v))) (insert v st).
Proof. intros Ht. exact (put_inserts _ _ st _ _ None Ht eq_refl). Qed.

Ltac calmly step :=
  eapply calm_step;
  [| apply step; [try done; try (apply (bool_decide_eq_true_1 _); vm_compute; reflexivity);
                  vm_compute; reflexivity ..] | done
   | apply (bool_decide_eq_true_1 _); vm_compute; reflexivity].

Ltac calm_write step F E :=
  eapply calm_step;
  [| apply step; [vm_compute; reflexivity|reflexivity|exact F|exact E] | done
   | apply (bool_decide_eq_true_1 _); vm_compute; reflexivity].

Lemma three_puts : ∃ tr st, calm false queue 3 0 tr st ∧ size (table st) = 3.
Proof.
  assert (F0 : (∅ : FS) !! ("/q/.t" : bytes) = None) by apply lookup_empty.
  destruct (write_works ∅ (item_ 1) F0) as (fs1 & E1 & F1).
  destruct (write_works fs1 (item_ 2) F1) as (fs2 & E2 & F2).
  destruct (write_works fs2 (item_ 3) F2) as (fs3 & E3 & F3).
  exists [Accepted (stamped (item_ 3)); Accepted (stamped (item_ 2)); Accepted (stamped (item_ 1));
    Silent; Silent; Silent; Silent; Silent; Silent],
    (insert 3 (insert 2 (insert 1 (write 3 fs3 (write 2 fs2 (write 1 fs1
      (begin 3 (begin 2 (begin 1 (boot ∅ 5000000123)))))))))).
  split; [|vm_compute; reflexivity].
  do 3 calmly insert_step.
  calm_write (write_step 3 fs2 fs3) F2 E3. calm_write (write_step 2 fs1 fs2) F1 E2.
  calm_write (write_step 1 ∅ fs1) F0 E1.
  do 3 calmly begin_step.
  apply calm_boot. intros id. apply lookup_empty.
Qed.

(** The queue has more items than its limit, as [queue_bounded] allows. *)
Lemma queue_bounded_witness : ∃ tr st,
  calm false queue 3 0 tr st ∧ MaxItems queue = 2%Z ∧ size (table st) = 3 ∧
  (Z.of_nat (size (table st)) ≤ 4)%Z.
Proof.
  destruct three_puts as (tr & st & C & Hs). exists tr, st.
  split; [exact C|]. split; [reflexivity|]. split; [exact Hs|].
  exact (queue_bounded false queue 3 0 tr st C).
Defined.

End Example.

End QueueConcProps.
