(* ===== verification/QueueOrigin.v ===== *)
(** Where the items of the queue come from: every item, in memory or on the
    disk, is one that a [Put] started, with the results of attempts added. *)

From S2P Require Import Prelude GoStrings Envelope Aliases Store Auth Queue QueueProps.
From S2P Require Import QueueConc QueueConcProps.
#[local] Open Scope go_scope.

Module QueueOrigin.
Import Safeio Protoio Queue QueueProps QueueConc QueueConcProps.

Section Origin.
Context `{Unicode, Precis, AliasWorld, NetMail, ProtoText Message}.
Context (big : bool) (qu : Queue).

#[local] Abbreviation stored := (stored qu).
#[local] Abbreviation fresh := (fresh big).
#[local] Abbreviation refusal := (refusal qu).
#[local] Abbreviation is_dsn := (is_dsn qu).
#[local] Abbreviation step := (step big qu).
#[local] Abbreviation run := (run big qu).
#[local] Abbreviation inv := (inv qu).

(** An item that is in the state, but for the results. *)
Definition source (st : State) (it : Item) : Prop :=
  (∃ id t, threads st !! id = Some t ∧ mail_key it = mail_key (item_of t)) ∨
  (∃ id f, stored (disk st) id f ∧ mail_key it = mail_key f).

(** The thread of a [Put] that has just begun: a client's, or that of a
    notification. *)
Inductive started (st : State) (id : bytes) : thread → Prop :=
| started_client al from to rcpts data :
    refusal st al to = Ok rcpts → fresh st id →
    started st id (mkThread (mkItem (mkMessage id from to rcpts data (mkTimestamp 0 0)) (now st))
      (Writing None))
| started_dsn p tp al it :
    threads st !! p = Some tp → needs_dsn (msg (item_of tp)) = true →
    refusal st al [From (msg (item_of tp))] = Ok (Rcpt (msg it)) → fresh st id →
    ID (msg it) = id → is_dsn (item_of tp) it →
    started st id (mkThread it (Writing (Some p))).

Lemma source_thread st id t it :
  threads st !! id = Some t → mail_key it = mail_key (item_of t) → source st it.
Proof. left; eauto. Qed.

Lemma source_file st id f : stored (disk st) id f → source st f.
Proof. right; eauto. Qed.

#[local] Hint Resolve source_thread source_file : core.

(** What a step says of the items of the new state. *)
Definition traced (st : State) (ev : event) (st' : State) : Prop :=
  (∀ id t, threads st' !! id = Some t → source st (item_of t) ∨ started st id t) ∧
  (∀ id f, stored (disk st') id f → source st f) ∧
  (∀ it, ev = Accepted it → source st it).

(** A step of one thread, which may have written its item. *)
Lemma traced_thread st ev id t it p fs :
  threads st !! id = Some t → mail_key it = mail_key (item_of t) →
  (∀ k f, stored fs k f → stored (disk st) k f ∨ mail_key f = mail_key (item_of t)) →
  (∀ it', ev = Accepted it' → source st it') →
  traced st ev (set_thread (set_disk st fs) id (mkThread it p)).
Proof.
  intros Ht Hk Hfs Hev. split; [|split; [|done]].
  - intros k t'. cbn. destruct (decide (k = id)) as [->|Hne].
    + rewrite lookup_insert_eq. intros [= <-]. left. eauto.
    + rewrite lookup_insert_ne by done. intros Hk'. left. eauto.
  - intros k f Hf. destruct (Hfs k f Hf); eauto.
Qed.

Lemma drawn_step st ev st' : step st ev st' → drawn st ⊆ drawn st'.
Proof. destruct 1; cbn; set_solver. Qed.

Context `{!ProtoTextOk Message}.

Lemma written_source fs it fs' k f :
  written_or_not qu fs it fs' → stored fs' k f → stored fs k f ∨ mail_key f = mail_key it.
Proof.
  intros [Hs|(out & Ho & ->)] Hf; [left; by rewrite <- (stored_same qu fs fs')|].
  destruct (decide (k = ID (msg it))) as [->|Hne].
  - right. by rewrite (stored_inj qu _ _ _ _ Hf (stored_written qu _ _ _ Ho)).
  - left. by rewrite stored_ne in Hf.
Qed.

Lemma WriteTo_source d fs it it' fs' err k f :
  disk_answers qu d fs → WriteTo d fs it (path qu) = (it', fs', err) →
  stored fs' k f → stored fs k f ∨ mail_key f = mail_key it.
Proof.
  intros Hd E. destruct (WriteTo_disk qu _ _ _ _ _ _ Hd E) as [-> Hw].
  apply written_source. destruct err; [by left|]. right. destruct Hw as (out & ? & ->). eauto.
Qed.

Lemma WriteTo_key d fs it it' fs' err :
  WriteTo d fs it (path qu) = (it', fs', err) → mail_key it' = mail_key it.
Proof. intros E. by rewrite (WriteTo_item _ _ _ _ _ _ _ E). Qed.

Lemma torn_source st fs fs' k f :
  torn qu (threads st) fs fs' → (∀ k f, stored fs k f → source st f) → stored fs' k f → source st f.
Proof.
  intros Ht Hfs. revert k f. induction Ht as [fs|fs id t d fs1 fs2 Ht Hw Hd Hin _ IH]; [done|].
  apply IH. intros k f Hf. apply (write_trace_disk qu) in Hin; [|done].
  destruct (written_source _ _ _ _ _ Hin Hf); eauto.
Qed.

(** The thread that goes on when a [Put] returns has the same item. *)
Lemma resume_item par ts k t :
  resume par ts !! k = Some t → ∃ t0, ts !! k = Some t0 ∧ item_of t = item_of t0.
Proof.
  destruct par as [p|]; cbn; [|eauto]. destruct (decide (k = p)) as [->|Hne].
  - rewrite lookup_alter_eq. destruct (ts !! p); [|done]. intros [= <-]. eauto.
  - rewrite lookup_alter_ne by done. eauto.
Qed.

Lemma traced_return st ev par ts tb fs n dr :
  (∀ k t, ts !! k = Some t → source st (item_of t)) → (∀ k f, stored fs k f → source st f) →
  (∀ it, ev = Accepted it → source st it) → traced st ev (mkState (resume par ts) tb fs n dr).
Proof.
  intros Hts Hfs Hev. split; [|done]. intros k t Hk. cbn in Hk.
  apply resume_item in Hk as (t0 & Hk & ->). left. by eapply Hts.
Qed.

Lemma traced_start st ts id par from to rcpts data :
  (∀ k t, ts !! k = Some t → source st (item_of t)) →
  started st id (mkThread (mkItem (mkMessage id from to rcpts data (mkTimestamp 0 0)) (now st))
    (Writing par)) →
  traced st Silent
    (put_started (mkState ts (table st) (disk st) (now st) (drawn st)) id par from to rcpts data).
Proof.
  intros Hts Hs. split; [|split; [eauto|done]]. intros k t. cbn.
  destruct (decide (k = id)) as [->|Hne]; [rewrite lookup_insert_eq; intros [= <-]; by right|].
  rewrite lookup_insert_ne by done. intros Hk. left. by eapply Hts.
Qed.

(** Where the process stops, what is loaded was on the disk. *)
Lemma traced_crash tr st fs fault now' :
  inv tr st → torn qu (threads st) (disk st) fs → (now st ≤ now')%Z →
  traced st Crashed (restarted qu st fault fs now').
Proof.
  intros I Ht Hn. pose proof (step_crashes qu tr st fs fault now' I Ht Hn) as I'.
  assert (Hfs : ∀ k f, stored fs k f → source st f)
    by (intros k f; by apply (torn_source st (disk st)); eauto).
  split; [|split; [exact Hfs|done]]. intros id t. cbn. rewrite lookup_fmap.
  destruct (_ !! id) as [it|] eqn:El; [|done]. intros [= <-]. left. cbn. apply (Hfs id).
  refine (Load_sound qu fault fs id it _ El). intros k f Hf.
  destruct (i_files qu _ _ I' k (stored_file qu _ _ _ Hf)) as (_ & f' & Hf' & Hi & _).
  by rewrite (stored_inj qu _ _ _ _ Hf Hf').
Qed.

Lemma step_traced tr st ev st' : inv tr st → step st ev st' → traced st ev st'.
Proof.
  intros I S.
  assert (Hid : ∀ ev id t p, ev = Silent ∨ (∃ e, ev = NotifyFailed id e) ∨ ev = RemoveFailed id →
    threads st !! id = Some t → traced st ev (set_thread st id (mkThread (item_of t) p))).
  { intros ev0 id t p Hev Ht. apply (traced_thread st ev0 id t (item_of t) p (disk st));
      [done|done|by left|]. intros it ->. naive_solver. }
  destruct S as [al to err Hr|id al from to rcpts data Hr Hf|id t par d it fs Ht Hp Hd E|
    id t par d it fs err Ht Hp Hd E|id t par Ht Hp|id t Ht Hp Hn|id t Ht Hp Hn|
    id t before i after w c rcpt Ht Hp Hr r|id t todo w d it fs err Ht Hp Hd E|id t Ht Hp Hc|
    id t rnd Ht Hp Hc Hr|id t u Ht Hp Hu|id t Ht Hp Hn|id t al err Ht Hp Hn Hr|
    id t al rcpts child id1 id2 date Ht Hp Hn Hr Hf|id t Ht Hp|id t Ht Hp|id t Ht Hp|n Hn|fs fault n Ht Hn];
    try (apply Hid; by eauto).
  - split; [eauto|]. split; [eauto|done].
  - destruct st. apply traced_start; [eauto|]. by eapply started_client.
  - apply (traced_thread _ _ id t); [done|by eapply WriteTo_key|intros ??; by eapply WriteTo_source|done].
  - apply traced_return; [|intros k f Hf; destruct (WriteTo_source _ _ _ _ _ _ _ _ Hd E Hf); eauto|by destruct par].
    intros k t' [_ Hk]%lookup_delete_Some. eauto.
  - apply traced_return; [|eauto|intros it [= <-]; eauto].
    intros k t'. destruct (decide (k = id)) as [->|Hne]; [rewrite lookup_insert_eq; intros [= <-]; eauto|].
    rewrite lookup_insert_ne by done. eauto.
  - apply (traced_thread st _ id t _ _ (disk st)); [done|by apply tried_key|by left|done].
  - apply (traced_thread _ _ id t); [done|by eapply WriteTo_key|intros ??; by eapply WriteTo_source|done].
  - apply (traced_start st); [|eapply started_dsn; [done..|]; repeat (split; [done|]); eauto].
    intros k t'. destruct (decide (k = id)) as [->|Hne]; [rewrite lookup_insert_eq; intros [= <-]; eauto|].
    rewrite lookup_insert_ne by done. eauto.
  - apply (traced_thread _ _ id t); [done|done| |done]. intros k f Hf. left.
    destruct (decide (k = id)) as [->|Hne].
    + apply stored_file in Hf. rewrite lookup_delete_eq in Hf. by destruct Hf.
    + revert Hf. unfold QueueConcProps.stored, ItemFromFile, ReadTextMessage, ReadFile.
      rewrite lookup_delete_ne; [done|]. intros E. by apply file_of_inj in E.
  - split; [|split; [eauto|done]]. intros k t' Hk. cbn in Hk.
    apply lookup_delete_Some in Hk as [_ Hk]. eauto.
  - split; [eauto|]. split; [eauto|done].
  - by eapply traced_crash.
Qed.

(** ** Properties of items *)

(** [P] holds of every item there is, and of those that were accepted. *)
Record everywhere (P : Item → Prop) (tr : list event) (st : State) : Prop := {
  e_threads : ∀ id t, threads st !! id = Some t → P (item_of t);
  e_files : ∀ id f, stored (disk st) id f → P f;
  e_accepted : ∀ it, Accepted it ∈ tr → P it;
}.

(** A property of what does not change. *)
Class Keyed (P : Item → Prop) : Prop :=
  keyed it it' : mail_key it' = mail_key it → P it → P it'.

Lemma everywhere_mono (P P' : Item → Prop) tr st :
  (∀ it, P it → P' it) → everywhere P tr st → everywhere P' tr st.
Proof. intros HP []. split; eauto. Qed.

Lemma source_everywhere P `{!Keyed P} tr st it : everywhere P tr st → source st it → P it.
Proof.
  intros [Et Ef _] [(id & t & Ht & Hk)|(id & f & Hf & Hk)]; eapply keyed; eauto.
Qed.

(** It holds for ever, if it holds of what a [Put] starts with. *)
Lemma everywhere_step P `{!Keyed P} tr st ev st' :
  inv tr st → step st ev st' → everywhere P tr st →
  (∀ id t, threads st' !! id = Some t → started st id t → P (item_of t)) →
  everywhere P (ev :: tr) st'.
Proof.
  intros I S E Hnew. destruct (step_traced _ _ _ _ I S) as (Ht & Hf & Ha). split.
  - intros id t Hid. destruct (Ht id t Hid); [by eapply source_everywhere|eauto].
  - intros id f Hid. by eapply source_everywhere; [..|eapply Hf].
  - intros it [<-|Hit]%elem_of_cons; [by eapply source_everywhere; [..|apply Ha]|by apply E].
Qed.

Lemma reached tr st : run tr st → inv tr st.
Proof. exact (run_inv big qu (ProtoTextOk0 := ProtoTextOk0) tr st). Qed.

(** The names of all items were drawn. *)
Lemma everywhere_drawn tr st : run tr st → everywhere (λ it, ID (msg it) ∈ drawn st) tr st.
Proof.
  intros R. pose proof (reached _ _ R) as I. split.
  - intros id t Ht. destruct (i_threads _ _ _ I id t Ht) as [-> ? _ _ _]. done.
  - intros id f Hf. destruct (i_files _ _ _ I id (stored_file qu _ _ _ Hf)) as (Hd & f' & Hf' & Hi & _).
    by rewrite (stored_inj qu _ _ _ _ Hf Hf'), Hi.
  - clear I. induction R as [|tr st ev st' R IH S]; [by intros it ?%elem_of_nil|].
    intros it [<-|Hit]%elem_of_cons; [|by eapply drawn_step; eauto].
    pose proof (reached _ _ R) as I. eapply (drawn_step _ _ _ S).
    inversion S; subst; try done; [by destruct parent|].
    match goal with Ht : threads st !! _ = Some _ |- _ =>
      by destruct (i_threads _ _ _ I _ _ Ht) as [-> ? _ _ _] end.
Qed.

End Origin.
End QueueOrigin.
