(* ===== verification/Integration.v ===== *)
(** The server put together: the queue behind the SMTP connections, and what
    this gives a client that was answered with a 250.

    [Queue.v] implements the interface [MailQueue] that the connections of
    [Conn.v] are written against. *)

From S2P Require Import Prelude GoStrings Envelope DotReader Aliases Store.
From S2P Require Import DomainInfo Auth Haproxy Conn ConnProps Queue QueueProps.
#[local] Open Scope go_scope.

Module Integration.
Import DotReader Safeio Protoio.

(** The queue, its disk, and what the outside gives to each [Put]. *)
Record qstate := mkQstate {
  qs : Queue.Queue;
  qfs : FS;
  qenvs : nat → Queue.put_env;
  qn : nat;
}.

Section Integration.
Context `{Unicode, Precis, NetMail, NetIP, AliasWorld, Smtpsrv.ErrorText}.
Context `{ProtoText DomainInfo.Domain, ProtoText Queue.Message}.
Context {B : Type} `{Auth.Backend B}.
Context {Signer VerifyResult : Type} `{Dkim Signer VerifyResult}.

(** The wording of the errors of [Put]. *)
Variable put_error_text : Queue.put_error → bytes.

#[local] Instance queue_mailqueue : MailQueue qstate :=
  {| q_Put st from to data :=
       let '(qu, fs, r) :=
         Queue.Put (qenvs st (qn st)) (qfs st) (qs st) from to data in
       (mkQstate qu fs (qenvs st) (S (qn st)),
        match r with
        | Ok id => Ok id
        | Err err => Err (put_error_text err)
        end) |}.

#[local] Abbreviation Conn := (Smtpsrv.Conn (B := B) (Q := qstate)
  (Signer := Signer) (VerifyResult := VerifyResult)).

(** The disk is ready for the next [Put]: the temporary file is new, and the
    id is a file name. *)
Definition ready (st : qstate) : Prop :=
  let e := qenvs st (qn st) in
  QueueProps.files_ok (qfs st) (Queue.path (qs st)) ∧
  QueueProps.disk_ok (Queue.put_disk e) (qfs st) (Queue.path (qs st))
    (Queue.new_id e) ∧
  "/"%char ∉ Queue.new_id e.

(** C2: A 250 after DATA is a promise that is kept: the message is then on
    the disk, so that after a crash a queue loaded from the directory has an
    item with the sender, the recipients (those the aliases give, all of them
    still to be sent to) and the contents: what the client sent, unchanged,
    after a block of header fields, a Received one among them. *)
Theorem accepted_mail_is_durable `{!ProtoTextOk Queue.Message} e (c c' : Conn) msg
    al loc :
  ready (Smtpsrv.queue c) →
  Smtpsrv.DATA e c = (c', Smtpsrv.Reply 250 msg) →
  let dir := Queue.path (qs (Smtpsrv.queue c)) in
  let reloaded := (Queue.Load (λ _, None) (qfs (Smtpsrv.queue c'))
                     (Queue.New dir loc al None).1).1 in
  ∃ id item payload hook above below,
    Queue.q reloaded !! id = Some item ∧
    Queue.From (Queue.msg item) = Smtpsrv.mailFrom c ∧
    Queue.To (Queue.msg item) = Smtpsrv.rcptTo c ∧
    Queue.add_rcpts (Queue.aliases (qs (Smtpsrv.queue c))) (Smtpsrv.rcptTo c) []
      = Ok (Queue.Rcpt (Queue.msg item)) ∧
    Forall (λ r, Queue.Rstatus r = Queue.PENDING) (Queue.Rcpt (Queue.msg item)) ∧
    (readUntilDot (Smtpsrv.rd c) (Smtpsrv.maxDataSize (Smtpsrv.cfg c))).1
      = (payload, None) ∧
    Queue.Data (Queue.msg item) =
      hook ++ ConnProps.fields
        (above ++ ("Received", Smtpsrv.received_value e c) :: below) ++ payload.
Proof.
  intros (Hok & Hd & Hid) HD dir reloaded.
  destruct (proj1 (ConnProps.DATA_queued e c c' 250 msg HD) eq_refl)
    as (payload & Hp & hook & above & below & id & _ & HP & _).
  simpl in HP.
  destruct (Queue.Put _ _ _ _ _ _) as [[qu fs] r] eqn:EP.
  injection HP as Hq Hr. destruct r as [id'|err]; [|done].
  destruct (QueueProps.reload_put _ _ _ _ _ _ _ _ _ al loc Hok Hd Hid EP)
    as (_ & (item & Hl & _ & Hf & Ht & Hda & _ & Hrc & Hpe) & _).
  exists id', item, payload, hook, above, below.
  unfold reloaded, dir. rewrite <- Hq. simpl. done.
Qed.

End Integration.

(** ** Example *)

Import AsciiOnly CountableText ConnProps.Example QueueProps.Example.

#[local] Existing Instances ConnProps.Example.net_mail
  ConnProps.Example.alias_world DomainInfo.Domain_countable
  QueueProps.Message_countable.

Definition example_state : qstate :=
  mkQstate queue ∅ (λ _, put_e) 0.

(** A client that has given its envelope and is sending the message. *)
Definition example_conn :
  Smtpsrv.Conn (B := backend) (Q := qstate) (Signer := unit) (VerifyResult := unit) :=
  let c := Smtpsrv.new_conn config "mx.dom" (TCPAddr "1.2.3.4" 99)
    (mkReader (lines ["Subject: hi"; ""; "hello"; "."]) EndEOF)
    (mkWriter [] None None) [] (DomainInfo.mkDB (mkStore "/d") ∅) ∅
    example_state in
  Smtpsrv.set_rcptTo (Smtpsrv.set_mailFrom (Smtpsrv.set_ehlo c "client" true)
    "a@b.com") ["ana@dom"].

Lemma accepted_mail_is_durable_witness :
  let r := Smtpsrv.DATA (H7 := queue_mailqueue (λ _, [])) example_env example_conn in
  r.2 = Smtpsrv.Reply 250 "2.0.0 You offer the Amulet of Yendor to Anhur..." ∧
  ∃ id item,
    Queue.q (Queue.Load (λ _, None) (qfs (Smtpsrv.queue r.1))
      (Queue.New "/q" None (Queue.aliases queue) None).1).1 !! id = Some item ∧
    Queue.From (Queue.msg item) = "a@b.com" ∧
    Queue.To (Queue.msg item) = ["ana@dom"].
Proof.
  intros r.
  assert (Hr : r.2 = Smtpsrv.Reply 250
    "2.0.0 You offer the Amulet of Yendor to Anhur...") by (vm_compute; reflexivity).
  split; [exact Hr|].
  destruct (accepted_mail_is_durable (λ _, []) example_env example_conn r.1
    "2.0.0 You offer the Amulet of Yendor to Anhur..." (Queue.aliases queue) None)
    as (id & item & _ & _ & _ & _ & Hl & Hf & Ht & _).
  - split; [|split].
    + intros id m. unfold ReadTextMessage, ReadFile. simpl.
      by rewrite lookup_empty.
    + split; [reflexivity|discriminate].
    + by apply (bool_decide_eq_true_1 _).
  - exact (pair_snd r _ Hr).
  - exists id, item. split; [exact Hl|]. split; [exact Hf|exact Ht].
Defined.

End Integration.
