(* ===== verification/Sts.v ===== *)
(** MTA-STS: package [internal/sts].  Policies, how they are fetched, matched
    against a mail server, and cached on disk. *)

From S2P Require Import Prelude GoStrings Envelope Aliases Store.
#[local] Open Scope go_scope.

Module Sts.
Import Safeio Protoio.

(** ** Policies *)

Definition Second : Z := 1000000000.

Definition Mode : Type := bytes.
Definition Enforce : bytes := "enforce".
Definition Testing : bytes := "testing".
Definition None_ : bytes := "none".

(** [MaxAge] is a [time.Duration], in nanoseconds. *)
Record Policy := mkPolicy {
  Version : bytes;
  PMode : bytes;
  MXs : list bytes;
  MaxAge : Z;
}.

#[export] Instance Policy_eq_dec : EqDecision Policy.
Proof. solve_decision. Defined.

Inductive error :=
| ErrUnknownVersion
| ErrInvalidMaxAge
| ErrInvalidMode
| ErrInvalidMX
| ErrInvalidMediaType
| ErrNoRecord
| ErrStatus (code : Z)
| ErrIDNA
| ErrScanner (msg : bytes)
| ErrNet (msg : bytes)
| errExpired
| ErrFile (msg : bytes)
| ErrJSON (msg : bytes)
| ErrPanic.

#[export] Instance sts_error_eq_dec : EqDecision error.
Proof. solve_decision. Defined.

(** One line of the policy. *)
Definition parse_line (p : Policy) (line : bytes) : Policy :=
  match SplitN2 line ":" with
  | [k; v] =>
    let key := TrimSpace k in
    let value := TrimSpace v in
    if key == "version" then mkPolicy value (PMode p) (MXs p) (MaxAge p)
    else if key == "mode" then mkPolicy (Version p) value (MXs p) (MaxAge p)
    else if key == "max_age" then
      mkPolicy (Version p) (PMode p) (MXs p) (wrap64 ((Atoi value).1 * Second))
    else if key == "mx" then
      mkPolicy (Version p) (PMode p) (MXs p ++ [value]) (MaxAge p)
    else p
  | _ => p
  end.

Definition parsePolicy (raw : bytes) : res error Policy :=
  let '(lines, serr) := Aliases.scan_lines raw None in
  let p := foldl parse_line (mkPolicy [] [] [] 0) lines in
  match serr with
  | Some e => Err (ErrScanner e)
  | None => Ok p
  end.

Definition Check (p : Policy) : option error :=
  if Version p != "STSv1" then Some ErrUnknownVersion
  else if (MaxAge p <=? 0)%Z || (31557600 * Second <? MaxAge p)%Z
  then Some ErrInvalidMaxAge
  else if (PMode p != Enforce) && (PMode p != Testing) && (PMode p != None_)
  then Some ErrInvalidMode
  else if length (MXs p) == 0 then Some ErrInvalidMX
  else None.

Section Match.
Context `{Unicode, Precis}.

Definition domainToASCII (domain : bytes) : bytes * bool :=
  let domain := TrimSuffix domain "." in
  let domain := ToLower domain in
  idna_ToASCII domain.

Definition matchDomain (domain pattern : bytes) : bool :=
  let '(domain, dErr) := domainToASCII domain in
  let '(pattern, pErr) := domainToASCII pattern in
  if dErr || pErr then false
  else if domain == pattern then true
  else if HasPrefix pattern "*." then
    match SplitN2 domain "." with
    | [_; rest] => rest == drop 2 pattern
    | _ => false
    end
  else false.

Definition MXIsAllowed (p : Policy) (mx : bytes) : bool :=
  if PMode p != Enforce then true
  else existsb (matchDomain mx) (MXs p).

End Match.

(** ** Fetching *)

Record response := mkResponse {
  StatusCode : Z;
  (** The media type of the Content-type header, or the error of
      [mime.ParseMediaType]. *)
  media_type : res bytes bytes;
  body : bytes;
}.

(** The network: HTTPS, where a redirect is an error (the client is set up
    with [rejectRedirect]), and DNS. *)
Record net := mkNet {
  http_Get : bytes → res bytes response;
  lookupTXT : bytes → res bytes (list bytes);
}.

Definition maxBody : nat := 10 * 1024.

Definition httpGet (n : net) (url : bytes) : res error bytes :=
  match http_Get n url with
  | Err e => Err (ErrNet e)
  | Ok resp =>
    if (StatusCode resp =? 200)%Z then
      match media_type resp with
      | Err e => Err (ErrNet e)
      | Ok mt =>
        if mt != "text/plain" then Err ErrInvalidMediaType
        else Ok (take maxBody (body resp))
      end
    else Err (ErrStatus (StatusCode resp))
  end.

Definition hasSTSRecord (n : net) (domain : bytes) : res error bool :=
  match lookupTXT n ("_mta-sts." ++ domain) with
  | Err e => Err (ErrNet e)
  | Ok txts => Ok (existsb (λ txt, HasPrefix txt "v=STSv1;") txts)
  end.

(** [fake] is [fakeURLForTesting], empty in production. *)
Definition urlForDomain (fake domain : bytes) : bytes :=
  if fake != "" then fake ++ "/" ++ domain
  else "https://mta-sts." ++ domain ++ "/.well-known/mta-sts.txt".

Definition UncheckedFetch `{Precis} (fake : bytes) (n : net) (domain : bytes) :
  res error Policy :=
  let '(domain, err) := idna_ToASCII domain in
  if (err : bool) then Err ErrIDNA
  else
    ok ← hasSTSRecord n domain;
    if negb ok then Err ErrNoRecord
    else
      raw ← httpGet n (urlForDomain fake domain);
      parsePolicy raw.

Definition Fetch `{Precis} (fake : bytes) (n : net) (domain : bytes) :
  res error Policy :=
  p ← UncheckedFetch fake n domain;
  match Check p with
  | Some err => Err err
  | None => Ok p
  end.

(** ** The cache *)

(** Policies are saved as JSON ([encoding/json]). *)
Class PolicyJSON := {
  json_Marshal : Policy → res bytes bytes;
  json_Unmarshal : bytes → res bytes Policy;
}.

Record PolicyCache := mkCache { cdir : bytes }.

Definition NewCache (dir : bytes) (mkdir_err : option bytes) :
  PolicyCache * option bytes := (mkCache dir, mkdir_err).

(** The disk: contents and modification times. *)
Record cdisk := mkCdisk {
  cfs : FS;
  mtime : gmap bytes Z;
}.

Definition pathPrefix : bytes := "pol:".

(** It panics on a slash: no result. *)
Definition domainPath (c : PolicyCache) (domain : bytes) : option bytes :=
  if Contains domain "/" then None
  else Some (cdir c ++ "/" ++ pathPrefix ++ domain).

Section Cache.
Context `{Unicode, Precis, PolicyJSON}.

(** [fault]: the error of [os.Stat] or [os.ReadFile] on a file. *)
Definition load (fault : bytes → option bytes) (now : Z) (c : PolicyCache)
    (d : cdisk) (domain : bytes) : res error Policy :=
  match domainPath c domain with
  | None => Err ErrPanic
  | Some fname =>
    match cfs d !! fname, fault fname with
    | None, _ => Err (ErrFile "file does not exist")
    | Some _, Some e => Err (ErrFile e)
    | Some data, None =>
      if (0 <? now - default 0 (mtime d !! fname))%Z then Err errExpired
      else
        match json_Unmarshal data with
        | Err e => Err (ErrJSON e)
        | Ok p =>
          match Check p with
          | Some err => Err err
          | None => Ok p
          end
        end
    end
  end.

(** [chtime_err] is the error of [os.Chtimes], the operation that runs on the
    temporary file before it is renamed. *)
Definition store (sc : syscalls) (chtime_err : option bytes) (now : Z)
    (c : PolicyCache) (d : cdisk) (domain : bytes) (p : Policy) :
  cdisk * option error :=
  match json_Marshal p with
  | Err e => (d, Some (ErrJSON e))
  | Ok data =>
    let expires := (now + MaxAge p)%Z in
    match domainPath c domain with
    | None => (d, Some ErrPanic)
    | Some fname =>
      let chTime : FileOp := λ _ fs, (fs, chtime_err) in
      let '(_, fs, err) := WriteFile sc (cfs d) fname data [chTime] in
      match err with
      | Some e => (mkCdisk fs (mtime d), Some (ErrFile e))
      | None => (mkCdisk fs (<[fname := expires]> (mtime d)), None)
      end
    end
  end.

(** What the outside gives to one operation of the cache. *)
Record cenv := mkCenv {
  cfault : bytes → option bytes;
  cnow : Z;
  cnet : net;
  ccalls : syscalls;
  cchtime : option bytes;
}.

(** [PolicyCache.Fetch]; an error of [store] is only logged. *)
Definition CacheFetch (e : cenv) (c : PolicyCache) (d : cdisk)
    (domain : bytes) : cdisk * res error Policy :=
  match load (cfault e) (cnow e) c d domain with
  | Ok p => (d, Ok p)
  | Err ErrPanic => (d, Err ErrPanic)
  | Err _ =>
    match Fetch [] (cnet e) domain with
    | Err err => (d, Err err)
    | Ok p =>
      let '(d, _) := store (ccalls e) (cchtime e) (cnow e) c d domain p in
      (d, Ok p)
    end
  end.

(** [refresh], given the environment of each entry. *)
Fixpoint refresh_entries (es : nat → cenv) (i : nat) (c : PolicyCache)
    (d : cdisk) (names : list bytes) : cdisk :=
  match names with
  | [] => d
  | name :: names =>
    match strip_prefix pathPrefix name with
    | None => refresh_entries es i c d names
    | Some domain =>
      let e := es i in
      match Fetch [] (cnet e) domain with
      | Err _ => refresh_entries es (S i) c d names
      | Ok p =>
        let '(d, _) := store (ccalls e) (cchtime e) (cnow e) c d domain p in
        refresh_entries es (S i) c d names
      end
    end
  end.

Definition refresh (es : nat → cenv) (dir_err : option bytes)
    (c : PolicyCache) (d : cdisk) : cdisk :=
  match dir_err with
  | Some _ => d
  | None => refresh_entries es 0 c d (ReadDir (cfs d) (cdir c))
  end.

End Cache.

(** ** Matching *)

Section Props.
Context `{Unicode, Precis}.

(** A mail server matches a pattern exactly when both can be put in ASCII
    form and then either they are equal, or the pattern is a wildcard for the
    first label only: [*.rest] matches [label.rest], and neither [rest] itself
    nor names with more labels. *)
Theorem matchDomain_iff domain pattern d p :
  domainToASCII domain = (d, false) → domainToASCII pattern = (p, false) →
  matchDomain domain pattern = true ↔
  d = p ∨ ∃ label rest, p = "*." ++ rest ∧ d = label ++ "." ++ rest ∧
                        (DOT ∉ label).
Proof.
  intros Hd Hp. unfold matchDomain. rewrite Hd, Hp. simpl.
  case_bool_decide as Heq; [split; [by left|done]|].
  destruct (HasPrefix p "*.") eqn:Ep.
  - apply HasPrefix_spec in Ep as [rest ->]. unfold SplitN2.
    destruct (Cut d ".") as [[label r]|] eqn:Ec.
    + apply Cut_byte_Some in Ec as [-> Hl]. rewrite bool_decide_eq_true. simpl.
      split.
      * intros ->. right. by exists label, (drop 0 rest).
      * intros [E|(label' & rest' & [= <-] & E & Hl')]; [done|].
        assert (Cut (label ++ DOT :: r) [DOT] = Some (label', rest)) as HC.
        { etransitivity; [|apply (Cut_byte_app label' rest DOT Hl')].
          f_equal. exact E. }
        rewrite Cut_byte_app in HC by done.
        injection HC as _ ->. by rewrite drop_0.
    + split; [done|]. intros [E|(label & rest' & _ & -> & _)]; [done|].
      apply Cut_byte_None in Ec. destruct Ec. simpl.
      apply elem_of_app. right. left.
  - split; [done|]. intros [E|(label & rest & -> & _)]; [done|].
    pose proof (HasPrefix_app "*." rest) as HP. simpl in HP. congruence.
Qed.

(** ** The cache *)

Context `{PolicyJSON}.

(** What RFC 8461 requires of a policy. *)
Definition valid (p : Policy) : Prop :=
  Version p = "STSv1" ∧ (0 < MaxAge p ≤ 31557600 * Second)%Z ∧
  (PMode p = Enforce ∨ PMode p = Testing ∨ PMode p = None_) ∧ MXs p ≠ [].

Lemma Check_valid p : Check p = None → valid p.
Proof.
  unfold Check. destruct (bool_decide (Version p = _)) eqn:Ev; [|done]. simpl.
  apply bool_decide_eq_true in Ev.
  destruct (Z.leb_spec (MaxAge p) 0); [done|]. simpl.
  destruct (Z.ltb_spec (31557600 * Second) (MaxAge p)); [done|].
  destruct (_ && _) eqn:Em; [done|].
  destruct (length (MXs p) == 0) eqn:Hl; [done|]. intros _.
  split; [done|]. split; [done|]. split.
  - repeat case_bool_decide; naive_solver.
  - intros E. by rewrite E in Hl.
Qed.

Lemma chTime_preserves e : preserves (λ (_ : bytes) fs, (fs, e)).
Proof. by intros tmp fs. Qed.

(** Every policy that the cache gives is valid; one that comes from the
    disk has not expired, and one that was stored is given back unchanged, in
    place of any older one, until its own maximum age has passed and not
    after. *)
Theorem cache_sound e c d domain :
  (∀ d' p, CacheFetch e c d domain = (d', Ok p) → valid p) ∧
  (∀ fault now p, load fault now c d domain = Ok p →
     ∃ fname, domainPath c domain = Some fname ∧
              (now ≤ default 0 (mtime d !! fname))%Z) ∧
  (∀ sc now p d' fname out,
     domainPath c domain = Some fname → temp_ok sc (cfs d) fname →
     Check p = None → json_Marshal p = Ok out → json_Unmarshal out = Ok p →
     store sc None now c d domain p = (d', None) →
     ∀ later, load (λ _, None) later c d' domain =
       if (later <=? now + MaxAge p)%Z then Ok p else Err errExpired).
Proof.
  split; [|split].
  - intros d' p Hf. apply Check_valid. revert Hf. unfold CacheFetch.
    destruct (load _ _ _ _ _) as [p0|err] eqn:El.
    + intros [= _ <-]. revert El. unfold load. intros El.
      repeat case_match; simplify_eq; done.
    + assert (HF : ∀ (d1 : cdisk) p1, match Fetch [] (cnet e) domain with
        | Err err => (d, Err err)
        | Ok p =>
          let '(d, _) := store (ccalls e) (cchtime e) (cnow e) c d domain p in
          (d, Ok p)
        end = (d1, Ok p1) → Check p1 = None).
      { intros d1 p1. unfold Fetch.
        destruct (UncheckedFetch _ _ _) as [p0|]; [|done]. simpl.
        destruct (Check p0) eqn:Ec; [done|].
        destruct (store _ _ _ _ _ _ _). by intros [= _ <-]. }
      destruct err; try apply HF; done.
  - intros fault now p. unfold load.
    destruct (domainPath c domain) as [fname|]; [|done].
    destruct (cfs d !! fname); [|done]. destruct (fault fname); [done|].
    destruct (Z.ltb_spec 0 (now - default 0%Z (mtime d !! fname))); [done|].
    intros _. exists fname. split; [done|]. lia.
  - intros sc now p d' fname out Hdp Ht Hc Hm Hu. unfold store.
    rewrite Hm, Hdp.
    destruct (WriteFile _ _ _ _ _) as [[tr fs] err] eqn:EW.
    destruct err; [done|]. intros [= <-] later.
    apply WriteFile_cases in EW as [_ ->];
      [|apply Forall_singleton, chTime_preserves|done].
    unfold load. simpl. rewrite Hdp, !lookup_insert_eq. simpl.
    destruct (Z.ltb_spec 0 (later - (now + MaxAge p)));
      destruct (Z.leb_spec later (now + MaxAge p)); try lia; [done|].
    by rewrite Hu, Hc.
Qed.

End Props.

(** A [max_age] far above the limit of one year is accepted: the
    multiplication by [time.Second] wraps around to less than a second. *)
Lemma max_age_overflow :
  let p := mkPolicy "STSv1" Enforce ["mx"] 0 in
  let p' := parse_line p "max_age: 18446744074" in
  MaxAge p' = 290448384%Z ∧ Check p' = None.
Proof. split; reflexivity. Qed.

(** ** Examples *)

Import AsciiOnly.

Lemma matchDomain_iff_witness :
  matchDomain "Mail.Example.com." "*.example.com" = true ∧
  matchDomain "a.b.example.com" "*.example.com" = false.
Proof.
  split; [|reflexivity].
  apply (matchDomain_iff "Mail.Example.com." "*.example.com"
    "mail.example.com" "*.example.com"); [reflexivity|reflexivity|].
  right. exists "mail", "example.com". split; [reflexivity|].
  split; [reflexivity|]. by apply (bool_decide_eq_true_1 _).
Defined.

End Sts.
