(* ===== verification/StsCache.v ===== *)
(** The cache of MTA-STS policies over time: fetches by the couriers, the
    background refresh ([PeriodicallyRefresh] of internal/sts) and crashes, in
    any order.  All that any of them does to the disk is to fetch the policy of a
    domain and store it, [update]. *)

From S2P Require Import Prelude GoStrings Envelope Aliases Store Sts.
#[local] Open Scope go_scope.

Module StsCache.
Import Safeio Protoio Sts.

Section StsCache.
Context `{Unicode, Precis, PolicyJSON}.

(** One entry of [refresh], and the part of [PolicyCache.Fetch] that is reached
    when the cache does not have the policy. *)
Definition update (e : cenv) (c : PolicyCache) (d : cdisk) (domain : bytes) : cdisk :=
  match Fetch [] (cnet e) domain with
  | Err _ => d
  | Ok p => (store (ccalls e) (cchtime e) (cnow e) c d domain p).1
  end.

(** [PeriodicallyRefresh], for as many rounds as the program runs. *)
Definition PeriodicallyRefresh (rounds : list ((nat → cenv) * option bytes))
    (c : PolicyCache) (d : cdisk) : cdisk :=
  foldl (λ d r, refresh r.1 r.2 c d) d rounds.

Definition updates (c : PolicyCache) (d : cdisk) (us : list (cenv * bytes)) : cdisk :=
  foldl (λ d u, update u.1 c d u.2) d us.

Lemma updates_app c d us vs : updates c d (us ++ vs) = updates c (updates c d us) vs.
Proof. apply foldl_app. Qed.

Lemma CacheFetch_updates e c d domain :
  ∃ us, (CacheFetch e c d domain).1 = updates c d us ∧ (us = [] ∨ us = [(e, domain)]).
Proof.
  assert (HU : (match Fetch [] (cnet e) domain with
    | Err err => (d, Err err)
    | Ok p => let '(d, _) := store (ccalls e) (cchtime e) (cnow e) c d domain p in (d, Ok p)
    end).1 = updates c d [(e, domain)]).
  { unfold updates, update. simpl. destruct (Fetch [] (cnet e) domain); [|done].
    by destruct (store _ _ _ _ _ _ _). }
  unfold CacheFetch. destruct (load _ _ _ _ _) as [p|err]; [exists []; auto|].
  destruct err; try (exists [(e, domain)]; split; [exact HU|by right]). exists []. auto.
Qed.

Lemma refresh_entries_updates es i c d names :
  ∃ us, refresh_entries es i c d names = updates c d us ∧
    Forall (λ u, ∃ j, u.1 = es j) us.
Proof.
  revert i d. induction names as [|name names IH]; intros i d; [by exists []|].
  cbn [refresh_entries].
  destruct (strip_prefix pathPrefix name) as [domain|]; [|apply IH].
  assert (HU : ∀ d', d' = updates c d [(es i, domain)] →
    ∃ us, refresh_entries es (S i) c d' names = updates c d us ∧ Forall (λ u, ∃ j, u.1 = es j) us).
  { intros d' ->. destruct (IH (S i) (updates c d [(es i, domain)])) as (us & E & Hus).
    exists ((es i, domain) :: us). split; [exact E|]. constructor; [by exists i|done]. }
  unfold updates in HU. cbn [foldl fst snd] in HU. unfold update in HU.
  destruct (Fetch [] (cnet (es i)) domain) as [p|err]; [|by apply HU].
  destruct (store _ _ _ _ _ _ _) as [d' err]. by apply HU.
Qed.

Lemma refresh_updates es derr c d :
  ∃ us, refresh es derr c d = updates c d us ∧ Forall (λ u, ∃ j, u.1 = es j) us.
Proof.
  unfold refresh. destruct derr; [by exists []|]. apply refresh_entries_updates.
Qed.

(** The background refresh is a sequence of updates. *)
Lemma PeriodicallyRefresh_updates rounds c d :
  ∃ us, PeriodicallyRefresh rounds c d = updates c d us.
Proof.
  revert d. induction rounds as [|[es derr] rounds IH]; intros d; simpl; [by exists []|].
  destruct (refresh_updates es derr c d) as (us & -> & _).
  destruct (IH (updates c d us)) as (vs & E). exists (us ++ vs). by rewrite updates_app.
Qed.

(** ** The disk over time *)

Definition is_policy (c : PolicyCache) (fname : bytes) : Prop :=
  ∃ domain, domainPath c domain = Some fname.

(** Temporary files are new, and do not have the name of a policy. *)
Definition temp_new (c : PolicyCache) (e : cenv) (d : cdisk) : Prop :=
  match create_temp (ccalls e) with
  | Ok tmp => cfs d !! tmp = None ∧ ¬ is_policy c tmp
  | Err _ => True
  end.

(** What happened to a cache that was empty at first: updates, by any number of
    goroutines, the last one first; and crashes, or other programs, which may
    leave other files behind. *)
Inductive history (c : PolicyCache) : list (cenv * bytes) → cdisk → Prop :=
| history_start d : (∀ fname, is_policy c fname → cfs d !! fname = None) → history c [] d
| history_update us d e domain :
    history c us d → temp_new c e d → history c ((e, domain) :: us) (update e c d domain)
| history_other us d fs :
    history c us d → (∀ fname, is_policy c fname → fs !! fname = cfs d !! fname) →
    history c us (mkCdisk fs (mtime d)).

Lemma domainPath_inj c domain domain' fname :
  domainPath c domain = Some fname → domainPath c domain' = Some fname → domain = domain'.
Proof.
  unfold domainPath. destruct (Contains domain "/"), (Contains domain' "/"); try done.
  intros E1 E2. rewrite <- E2 in E1. apply (inj Some), app_inv_head in E1.
  by do 2 apply app_inv_head in E1.
Qed.

(** The file of a domain has a policy that was fetched for it, with the time at
    which that expires. *)
Definition fetched (us : list (cenv * bytes)) (d : cdisk) (domain fname data : bytes) : Prop :=
  ∃ e p, (e, domain) ∈ us ∧ Fetch [] (cnet e) domain = Ok p ∧ json_Marshal p = Ok data ∧
    default 0%Z (mtime d !! fname) = (cnow e + MaxAge p)%Z.

Lemma fetched_more u us d d' domain fname data :
  mtime d' !! fname = mtime d !! fname → fetched us d domain fname data →
  fetched (u :: us) d' domain fname data.
Proof.
  intros E (e & p & Hin & HF & Hj & Hm). exists e, p. split; [by right|]. by rewrite E.
Qed.

(** One [store]: the file is as it was, or has the new policy. *)
Lemma store_cases sc chtime now c d domain p d' err :
  (match create_temp sc with Ok tmp => cfs d !! tmp = None ∧ ¬ is_policy c tmp | Err _ => True end) →
  store sc chtime now c d domain p = (d', err) →
  (mtime d' = mtime d ∧ ∀ fname, is_policy c fname → cfs d' !! fname = cfs d !! fname) ∨
  ∃ fname data, domainPath c domain = Some fname ∧ json_Marshal p = Ok data ∧
    d' = mkCdisk (<[fname := data]> (cfs d)) (<[fname := (now + MaxAge p)%Z]> (mtime d)).
Proof.
  intros Ht. unfold store. destruct (json_Marshal p) as [data|e] eqn:Ej; [|intros [= <- _]; by left].
  destruct (domainPath c domain) as [fname|] eqn:Ed; [|intros [= <- _]; by left].
  destruct (WriteFile _ _ _ _ _) as [[tr fs'] werr] eqn:EW.
  apply WriteFile_cases in EW as [_ EW]; [|apply Forall_singleton, chTime_preserves|].
  2: { unfold temp_ok. destruct (create_temp sc); [|done]. destruct Ht as [Ht1 Ht2].
       split; [done|]. intros ->. apply Ht2. by exists domain. }
  destruct werr as [we|]; intros [= <- _]; [left|right; exists fname, data; by rewrite EW].
  split; [done|]. intros f Hf. simpl. destruct EW as [->|(_ & tmp & Et & ->)]; [done|].
  rewrite Et in Ht. destruct Ht as [_ Ht]. rewrite lookup_insert_ne; [done|]. by intros ->.
Qed.

Lemma history_inv c us d domain fname data :
  history c us d → domainPath c domain = Some fname → cfs d !! fname = Some data →
  fetched us d domain fname data.
Proof.
  intros Hh. revert domain fname data. induction Hh as [d Hd|us d e dom Hh IH Ht|us d fs Hh IH Hfs];
    intros domain fname data Hp Hf.
  - rewrite Hd in Hf by (by exists domain). done.
  - unfold update in *. destruct (Fetch [] (cnet e) dom) as [p|err] eqn:EF.
    2: { eapply fetched_more; [done|]. by apply IH. }
    destruct (store _ _ _ _ _ _ _) as [d' err] eqn:ES. simpl in *.
    destruct (store_cases _ _ _ _ _ _ _ _ _ Ht ES) as [[Em Ef]|(f & out & Hd & Hj & ->)].
    + eapply fetched_more; [by rewrite Em|]. apply IH; [done|]. rewrite <- Ef; [done|by exists domain].
    + destruct (decide (fname = f)) as [->|Hne].
      * rewrite (domainPath_inj c dom domain f Hd Hp) in EF. simpl in Hf. rewrite lookup_insert_eq in Hf.
        injection Hf as <-. rewrite (domainPath_inj c dom domain f Hd Hp).
        exists e, p. split; [by left|]. split; [done|]. split; [done|]. simpl. by rewrite lookup_insert_eq.
      * simpl in Hf. rewrite lookup_insert_ne in Hf by done.
        eapply fetched_more; [|by apply IH]. simpl. by rewrite lookup_insert_ne.
  - eapply (IH domain fname data Hp). simpl in Hf. rewrite <- Hfs; [done|by exists domain].
Qed.

(** C27: Every policy that the cache gives is valid, and was published by the
    domain itself: it has just been fetched from it, or it was read from a file
    that holds, as it was encoded, what was fetched from that same domain at an
    earlier moment, no longer ago than its own maximum age; whatever fetches,
    background refreshes, failures of the disk and crashes happened before. *)
Theorem cached_policy_published c us d e domain d' p :
  history c us d → CacheFetch e c d domain = (d', Ok p) →
  valid p ∧
  (Fetch [] (cnet e) domain = Ok p ∨
   ∃ e0 p0 data, (e0, domain) ∈ us ∧ Fetch [] (cnet e0) domain = Ok p0 ∧
     json_Marshal p0 = Ok data ∧ json_Unmarshal data = Ok p ∧
     (cnow e ≤ cnow e0 + MaxAge p0)%Z).
Proof.
  intros Hh HC. unfold CacheFetch in HC.
  assert (HN : ∀ d1 p1, match Fetch [] (cnet e) domain with
    | Err err => (d, Err err)
    | Ok p => let '(d, _) := store (ccalls e) (cchtime e) (cnow e) c d domain p in (d, Ok p)
    end = (d1, Ok p1) → valid p1 ∧ Fetch [] (cnet e) domain = Ok p1).
  { intros d1 p1. destruct (Fetch [] (cnet e) domain) as [p2|] eqn:EF; [|done].
    destruct (store _ _ _ _ _ _ _). intros [= _ <-]. split; [|done]. apply Check_valid.
    unfold Fetch in EF. destruct (UncheckedFetch _ _ _) as [p3|]; [|done]. simpl in EF.
    destruct (Check p3) eqn:Ec; [done|]. by injection EF as <-. }
  destruct (load _ _ _ _ _) as [p0|err] eqn:El.
  - injection HC as <- <-. unfold load in El. destruct (domainPath c domain) as [fname|] eqn:Ed; [|done].
    destruct (cfs d !! fname) as [data|] eqn:Ef; [|done]. destruct (cfault e fname); [done|].
    destruct (Z.ltb_spec 0 (cnow e - default 0%Z (mtime d !! fname))) as [|Hn]; [done|].
    destruct (json_Unmarshal data) as [p1|] eqn:Ej; [|done]. destruct (Check p1) eqn:Ec; [done|].
    injection El as <-. split; [by apply Check_valid|right].
    destruct (history_inv c us d domain fname data Hh Ed Ef) as (e0 & p2 & Hin & HF & Hm & Ht).
    exists e0, p2, data. split_and!; [done..|lia].
  - destruct err; try (destruct (HN _ _ HC) as [Hv HF]; split; [exact Hv|left; exact HF]). done.
Qed.

End StsCache.

(** ** Example *)

Module Example.
Import AsciiOnly.

Definition policy : Policy := mkPolicy "STSv1" Enforce ["mx.example.com"] (100 * Second).

#[local] Instance json : PolicyJSON :=
  {| json_Marshal (p : Policy) := Ok (PMode p);
     json_Unmarshal (b : bytes) := Ok (mkPolicy "STSv1" b ["mx.example.com"] (100 * Second)) |}.

(** The domain publishes its policy, and then its web server is gone. *)
Definition published : net :=
  {| http_Get _ := Ok (mkResponse 200 (Ok "text/plain")
       ("version: STSv1" ++ [LF] ++ "mode: enforce" ++ [LF] ++ "mx: mx.example.com" ++ [LF] ++
        "max_age: 100" ++ [LF]));
     lookupTXT _ := Ok ["v=STSv1; id=1" : bytes] |}.

Definition gone : net := {| http_Get _ := Err "no route"; lookupTXT _ := Err "no answer" |}.

Definition at_time (t : Z) (n : net) : cenv :=
  mkCenv (λ _, None) t n (working_calls "/sts/.tmp") None.

Definition cache : PolicyCache := mkCache "/sts".

Definition disk : cdisk := update (at_time 0 published) cache (mkCdisk ∅ ∅) "example.com".

Lemma disk_history : history cache [(at_time 0 published, "example.com" : bytes)] disk.
Proof.
  apply history_update; [apply history_start; intros f _; apply lookup_empty|].
  split; [reflexivity|]. intros [domain Hd]. unfold domainPath in Hd.
  destruct (Contains domain "/"); [done|]. discriminate Hd.
Qed.

Lemma cached_policy_published_witness :
  ∃ d' p, CacheFetch (at_time (50 * Second) gone) cache disk "example.com" = (d', Ok p) ∧ valid p.
Proof.
  destruct (CacheFetch (at_time (50 * Second) gone) cache disk "example.com") as [d' r] eqn:E.
  assert (Hr : r = Ok policy) by (apply (f_equal snd) in E; cbn [snd] in E; rewrite <- E; vm_compute; reflexivity).
  rewrite Hr in E. exists d', policy. split; [rewrite Hr; reflexivity|].
  destruct (cached_policy_published cache _ disk _ "example.com" d' policy disk_history E) as [Hv _].
  exact Hv.
Defined.

End Example.
End StsCache.
