(* ===== verification/SmtpClient.v ===== *)
(** The SMTP client: package [internal/smtp], on top of the standard library's
    [net/smtp.Client] and [net/textproto.Conn], whose behaviour on the wire is
    written out here as far as the client uses it.

    A connection is the stream of bytes that the server sends, and the writes
    that get through to it; everything that is sent is recorded, with the
    channel it travelled on. *)

From S2P Require Import Prelude GoStrings Envelope DotReader.
#[local] Open Scope go_scope.

Module SmtpClient.
Import DotReader.

(** ** Connections *)

Inductive error :=
| TextError (code : Z) (msg : bytes)      (* [*textproto.Error] *)
| ProtocolError (msg : bytes)             (* [textproto.ProtocolError] *)
| IOError (e : stream_end)
| WriteError (msg : bytes).

#[export] Instance stream_end_eq_dec : EqDecision stream_end.
Proof. solve_decision. Defined.

#[export] Instance client_error_eq_dec : EqDecision error.
Proof. solve_decision. Defined.

Section Client.
(** [x509.Certificate]. *)
Context {Cert : Type}.

(** What is used of [tls.ConnectionState].  A client always has the server's
    certificate: [PeerCertificates] is [leaf :: others]. *)
Record ConnectionState := mkConnectionState {
  ServerName : bytes;
  leaf : Cert;
  others : list Cert;
}.

Inductive channel :=
| Plain
| Tls (cs : ConnectionState).

(** A direction each: what can be read, how many more writes get through
    ([None]: all), and how much of the write that fails does. *)
Record io := mkIo {
  rd : reader;
  alive : option nat;
  partial : nat;
}.

Record packet := mkPacket {
  p_host : bytes;
  p_chan : channel;
  p_text : bytes;
}.

(** [tls_io] is the outcome of the TLS handshake that STARTTLS leads to: the
    certificates of the server and the new connection. *)
Record Client := mkClient {
  host : bytes;
  chan : channel;
  cio : io;
  tls_io : res bytes (Cert * list Cert * io);
  localName : bytes;
  didHello : bool;
  helloError : option error;
  ext : option (gmap bytes bytes);
  sent : list packet;
}.

Definition set_io (c : Client) (i : io) : Client :=
  mkClient (host c) (chan c) i (tls_io c) (localName c) (didHello c)
    (helloError c) (ext c) (sent c).
Definition set_sent (c : Client) (s : list packet) : Client :=
  mkClient (host c) (chan c) (cio c) (tls_io c) (localName c) (didHello c)
    (helloError c) (ext c) s.
Definition set_ext (c : Client) (e : option (gmap bytes bytes)) : Client :=
  mkClient (host c) (chan c) (cio c) (tls_io c) (localName c) (didHello c)
    (helloError c) e (sent c).
Definition set_hello (c : Client) (name : bytes) (did : bool)
    (err : option error) : Client :=
  mkClient (host c) (chan c) (cio c) (tls_io c) name did err (ext c) (sent c).
Definition set_chan (c : Client) (ch : channel) (i : io) : Client :=
  mkClient (host c) ch i (tls_io c) (localName c) (didHello c)
    (helloError c) (ext c) (sent c).

(** ** [net/textproto] *)

(** Write and flush; after a failure, nothing gets through any more. *)
Definition write (t : bytes) (c : Client) : Client * option error :=
  let i := cio c in
  let log t := sent c ++ [mkPacket (host c) (chan c) t] in
  match alive i with
  | None => (set_sent c (log t), None)
  | Some (S n) => (set_sent (set_io c (mkIo (rd i) (Some n) (partial i))) (log t),
                   None)
  | Some 0 => (set_sent (set_io c (mkIo (rd i) (Some 0) 0))
                 (log (take (partial i) t)), Some (WriteError "write: broken pipe"))
  end.

(** [Reader.ReadLine] *)
Definition ReadLine (r : reader) : reader * res error bytes :=
  match pending r with
  | [] => (r, Err (IOError (ending r)))
  | _ =>
    match Cut (pending r) [LF] with
    | Some (l, rest) => (mkReader rest (ending r), Ok (TrimSuffix l [CR]))
    | None => (mkReader [] (ending r), Ok (pending r))
    end
  end.

Definition expected (expectCode code : Z) : bool :=
  if ((1 <=? expectCode) && (expectCode <? 10))%Z then (code / 100 =? expectCode)%Z
  else if ((10 <=? expectCode) && (expectCode <? 100))%Z then
    (code / 10 =? expectCode)%Z
  else if ((100 <=? expectCode) && (expectCode <? 1000))%Z then
    (code =? expectCode)%Z
  else true.

Record codeline := mkCodeline {
  cl_code : Z;
  cl_continued : bool;
  cl_msg : bytes;
  cl_err : option error;
}.

(** [parseCodeLine] *)
Definition parseCodeLine (line : bytes) (expectCode : Z) : codeline :=
  match line with
  | a :: b :: c :: d :: message =>
    if (d != SP) && (d != "-"%char) then
      mkCodeline 0 false [] (Some (ProtocolError ("short response: " ++ line)))
    else
      let continued := d == "-"%char in
      let '(code, err) := Atoi [a; b; c] in
      if (err != None) || (code <? 100)%Z then
        mkCodeline code continued []
          (Some (ProtocolError ("invalid response code: " ++ line)))
      else
        mkCodeline code continued message
          (if expected expectCode code then None
           else Some (TextError code message))
  | _ =>
    mkCodeline 0 false [] (Some (ProtocolError ("short response: " ++ line)))
  end.

(** The loop of [ReadResponse]; each turn reads a line, so that the number of
    pending bytes is enough for [n]. *)
Fixpoint read_more (n : nat) (r : reader) (code : Z) (message : bytes) :
  reader * res error bytes :=
  match ReadLine r with
  | (r, Err e) => (r, Err e)
  | (r, Ok line) =>
    let cl := parseCodeLine line 0 in
    let bad := (cl_err cl != None) || (cl_code cl != code) in
    let message := if bad then message ++ [LF] ++ TrimRight line CRLF
                   else message ++ [LF] ++ cl_msg cl in
    if bad || cl_continued cl then
      match n with
      | S n => read_more n r code message
      | O => (r, Err (IOError (ending r)))
      end
    else (r, Ok message)
  end.

(** [Reader.ReadResponse] *)
Definition read_response (expectCode : Z) (r : reader) :
  reader * res error (Z * bytes) :=
  match ReadLine r with
  | (r, Err e) => (r, Err e)
  | (r, Ok line) =>
    let cl := parseCodeLine line expectCode in
    let '(r, more) := if cl_continued cl
                      then read_more (length (pending r)) r (cl_code cl) (cl_msg cl)
                      else (r, Ok (cl_msg cl)) in
    (r, match more with
        | Err e => Err e
        | Ok message =>
          match cl_err cl with
          | None => Ok (cl_code cl, message)
          | Some err =>
            if cl_continued cl && (message != [])
            then Err (TextError (cl_code cl) message) else Err err
          end
        end)
  end.

Definition ReadResponse (expectCode : Z) (c : Client) :
  Client * res error (Z * bytes) :=
  let i := cio c in
  let '(r, res) := read_response expectCode (rd i) in
  (set_io c (mkIo r (alive i) (partial i)), res).

(** The dot writer. *)
Inductive wstate := wstateBegin | wstateBeginLine | wstateCR | wstateData.

Definition dot_byte (st : wstate) (c : ascii) : bytes * wstate :=
  match st with
  | wstateCR => ([c], if c == LF then wstateBeginLine else wstateData)
  | _ =>
    let stuffed := match st with
                   | wstateData => []
                   | _ => if c == DOT then [DOT] else []
                   end in
    if c == LF then (stuffed ++ [CR; c], wstateBeginLine)
    else (stuffed ++ [c], if c == CR then wstateCR else wstateData)
  end.

Fixpoint dot_bytes (st : wstate) (data : bytes) : bytes * wstate :=
  match data with
  | [] => ([], st)
  | c :: data =>
    let '(out, st) := dot_byte st c in
    let '(outs, st) := dot_bytes st data in
    (out ++ outs, st)
  end.

Definition dot_close (st : wstate) : bytes :=
  match st with
  | wstateBeginLine => DOT :: CRLF
  | wstateCR => LF :: DOT :: CRLF
  | _ => CRLF ++ DOT :: CRLF
  end.

(** All that is sent for a payload. *)
Definition dot_wire (data : bytes) : bytes :=
  let '(out, st) := dot_bytes wstateBegin data in out ++ dot_close st.

(** ** [net/smtp] and [internal/smtp] *)

(** [io.LimitedReader]: 2 MiB. *)
Definition replyLimit : N := 2 * 1024 * 1024.

Definition limited (limit : N) (r : reader) : reader :=
  if (N.of_nat (length (pending r)) <? limit)%N then r
  else mkReader (take (N.to_nat limit) (pending r)) EndEOF.

(** [NewClient]: reads the greeting, then limits what is read. *)
Definition NewClient (host : bytes) (i : io) (t : res bytes (Cert * list Cert * io)) :
  Client * option error :=
  let c := mkClient host Plain i t "localhost" false None None [] in
  match ReadResponse 220 c with
  | (c, Err e) => (c, Some e)
  | (c, Ok _) =>
    let i := cio c in
    (set_io c (mkIo (limited replyLimit (rd i)) (alive i) (partial i)), None)
  end.

Definition cmd (expectCode : Z) (line : bytes) (c : Client) :
  Client * res error (Z * bytes) :=
  match write (line ++ CRLF) c with
  | (c, Some e) => (c, Err e)
  | (c, None) => ReadResponse expectCode c
  end.

(** The extensions of an EHLO response. *)
Definition parse_ext (msg : bytes) : gmap bytes bytes :=
  foldl (λ m line,
    match Cut line " " with
    | Some (k, v) => <[k := v]> m
    | None => <[line := []]> m
    end) ∅ (drop 1 (Split msg [LF])).

Definition ehlo (c : Client) : Client * option error :=
  match cmd 250 ("EHLO " ++ localName c) c with
  | (c, Err e) => (c, Some e)
  | (c, Ok (_, msg)) => (set_ext c (Some (parse_ext msg)), None)
  end.

Definition helo (c : Client) : Client * option error :=
  match cmd 250 ("HELO " ++ localName c) (set_ext c None) with
  | (c, Err e) => (c, Some e)
  | (c, Ok _) => (c, None)
  end.

Definition hello (c : Client) : Client * option error :=
  if didHello c then (c, helloError c)
  else
    let c := set_hello c (localName c) true (helloError c) in
    match ehlo c with
    | (c, None) => (c, helloError c)
    | (c, Some _) =>
      let '(c, err) := helo c in
      (set_hello c (localName c) true err, err)
    end.

(** [Client.Hello]: a name with a line break is refused. *)
Definition Hello (name : bytes) (c : Client) : Client * option error :=
  if Contains name [LF] || Contains name [CR] then
    (c, Some (ProtocolError "smtp: A line must not contain CR or LF"))
  else if didHello c then
    (c, Some (ProtocolError "smtp: Hello called after other methods"))
  else hello (set_hello c name (didHello c) (helloError c)).

Definition Extension (name : bytes) (c : Client) : Client * bool :=
  match hello c with
  | (c, Some _) => (c, false)
  | (c, None) =>
    (c, match ext c with
        | None => false
        | Some m => bool_decide (is_Some (m !! name))
        end)
  end.

(** [Client.StartTLS], given the [ServerName] of the configuration: the
    handshake takes place on the first write to the new connection.  Its
    reader is a new one. *)
Definition StartTLS (serverName : bytes) (c : Client) : Client * option error :=
  match hello c with
  | (c, Some e) => (c, Some e)
  | (c, None) =>
    match cmd 220 "STARTTLS" c with
    | (c, Err e) => (c, Some e)
    | (c, Ok _) =>
      match tls_io c with
      | Err e => (c, Some (WriteError e))
      | Ok (crt, crts, i) =>
        ehlo (set_chan c (Tls (mkConnectionState serverName crt crts)) i)
      end
    end
  end.

(** [isASCII] *)
Definition isASCII (s : bytes) : bool :=
  forallb (λ r, negb (N.ltb 127 r)) (Utf8.runes s).

Context `{Precis}.

Definition prepareForSMTPUTF8 (addr : bytes) (c : Client) :
  Client * (bytes * bool * option error) :=
  if isASCII addr then (c, (addr, false, None))
  else
    match Extension "SMTPUTF8" c with
    | (c, true) => (c, (addr, true, None))
    | (c, false) =>
      let '(user, domain) := Envelope.Split addr in
      if negb (isASCII user) then
        (c, (addr, true, Some (TextError 599
          "local part is not ASCII but server does not support SMTPUTF8")))
      else
        let '(domain, err) := idna_ToASCII domain in
        if (err : bool) then
          (c, (addr, true,
               Some (TextError 599 "non-ASCII domain is not IDNA safe")))
        else (c, (user ++ "@" ++ domain, false, None))
    end.

Definition MailAndRcpt (from to : bytes) (c : Client) : Client * option error :=
  match prepareForSMTPUTF8 from c with
  | (c, (_, _, Some e)) => (c, Some e)
  | (c, (from, fromNeeds, None)) =>
    match prepareForSMTPUTF8 to c with
    | (c, (_, _, Some e)) => (c, Some e)
    | (c, (to, toNeeds, None)) =>
      let smtputf8Needed := fromNeeds || toNeeds in
      let '(c, ok) := Extension "8BITMIME" c in
      let line := "MAIL FROM:<" ++ from ++ ">" in
      let line := if ok then line ++ " BODY=8BITMIME" else line in
      let line := if smtputf8Needed then line ++ " SMTPUTF8" else line in
      match cmd 250 line c with
      | (c, Err e) => (c, Some e)
      | (c, Ok _) =>
        match cmd 25 ("RCPT TO:<" ++ to ++ ">") c with
        | (c, Err e) => (c, Some e)
        | (c, Ok _) => (c, None)
        end
      end
    end
  end.

Definition IsPermanent (e : error) : bool :=
  match e with
  | TextError code _ => ((500 <=? code) && (code <? 600))%Z
  | _ => false
  end.

Definition Data (c : Client) : Client * option error :=
  match cmd 354 "DATA" c with
  | (c, Err e) => (c, Some e)
  | (c, Ok _) => (c, None)
  end.

(** [Write] on the dot writer.  What is written goes through a buffer of 4096
    bytes, which is sent when a byte finds it full; the rest is left for
    [Close]. *)
Definition bufSize : nat := 4096.

Definition Write (data : bytes) (c : Client) : Client * (option error * bytes) :=
  let '(out, st) := dot_bytes wstateBegin data in
  let k := (length out - 1) / bufSize * bufSize in
  let rest := drop k out ++ dot_close st in
  if k == 0 then (c, (None, rest))
  else let '(c, err) := write (take k out) c in (c, (err, rest)).

(** [Close]: the error of the last write is not looked at. *)
Definition Close (rest : bytes) (c : Client) : Client * option error :=
  let '(c, _) := write rest c in
  match ReadResponse 250 c with
  | (c, Err e) => (c, Some e)
  | (c, Ok _) => (c, None)
  end.

Definition Quit (c : Client) : Client * option error :=
  let '(c, _) := hello c in
  match cmd 221 "QUIT" c with
  | (c, Err e) => (c, Some e)
  | (c, Ok _) => (c, None)
  end.

End Client.

Arguments ConnectionState : clear implicits.
Arguments channel : clear implicits.
Arguments packet : clear implicits.
Arguments Client : clear implicits.

(** ** Reading responses *)

Lemma ReadLine_shorter r r' l :
  ReadLine r = (r', Ok l) → length (pending r') < length (pending r).
Proof.
  unfold ReadLine. destruct (pending r) as [|c s] eqn:E; [done|].
  destruct (Cut (c :: s) [LF]) as [[a b]|] eqn:EC; intros [= <- <-]; simpl;
    [|lia].
  apply Cut_length in EC; [simpl in EC; lia|done].
Qed.

(** The loop of [ReadResponse] has a turn for each line there can be. *)
Lemma read_more_enough n m r code message :
  length (pending r) ≤ n → length (pending r) ≤ m →
  read_more n r code message = read_more m r code message.
Proof.
  revert m r message. induction n as [|n IH]; intros m r message Hn Hm;
    destruct m as [|m]; simpl; try done;
    destruct (ReadLine r) as [r' [line|e]] eqn:E; try done;
    apply ReadLine_shorter in E; try lia.
  case_match; [|done]. apply IH; lia.
Qed.

(** ** The dot writer *)

Lemma dot_bytes_app st a b :
  dot_bytes st (a ++ b) =
  let '(out, st) := dot_bytes st a in
  let '(out', st) := dot_bytes st b in (out ++ out', st).
Proof.
  revert st. induction a as [|c a IH]; intros st; simpl.
  - by destruct (dot_bytes st b).
  - destruct (dot_byte st c) as [o st1]. rewrite IH.
    destruct (dot_bytes st1 a) as [oa st2]. destruct (dot_bytes st2 b).
    by rewrite app_assoc.
Qed.

Lemma dot_bytes_data l : clean l → dot_bytes wstateData l = (l, wstateData).
Proof.
  intros [Hcr Hlf]. induction l as [|c l IH]; [done|]. simpl.
  rewrite !bool_decide_eq_false_2 by set_solver.
  rewrite IH by set_solver. done.
Qed.

(** One line: it is dot-stuffed and ends in CRLF. *)
Lemma dot_bytes_line st l :
  st = wstateBegin ∨ st = wstateBeginLine → clean l →
  dot_bytes st (l ++ [LF]) = (stuff l ++ CRLF, wstateBeginLine).
Proof.
  intros Hst Hl. rewrite dot_bytes_app. destruct l as [|c l].
  - by destruct Hst as [-> | ->].
  - assert (clean l) as Hl' by (destruct Hl; split; set_solver).
    assert (dot_byte st c = (if c == DOT then [DOT; c] else [c], wstateData)) as E.
    { destruct Hl. unfold dot_byte. destruct Hst as [-> | ->];
        rewrite !(bool_decide_eq_false_2 (c = LF)),
          !(bool_decide_eq_false_2 (c = CR)) by set_solver;
        by destruct (bool_decide (c = DOT)). }
    simpl. rewrite E, dot_bytes_data by done.
    change (dot_bytes wstateData [LF]) with ([CR; LF], wstateBeginLine).
    by destruct (bool_decide (c = DOT)).
Qed.

(** A text of lines travels as the dot-stuffed lines and the terminator, just
    as the server's reader wants it. *)
Lemma dot_wire_lines ls :
  Forall clean ls → ls ≠ [] →
  dot_wire (concat ((λ l, l ++ [LF]) <$> ls)) = wire (stuff <$> ls).
Proof.
  intros Hls Hne.
  assert (∀ st, st = wstateBegin ∨ st = wstateBeginLine →
    dot_bytes st (concat ((λ l, l ++ [LF]) <$> ls))
      = (enc_lines (stuff <$> ls), wstateBeginLine)) as Hlines.
  { clear -Hls Hne. induction Hls as [|l ls Hl Hls IH]; [done|].
    intros st Hst. rewrite fmap_cons, concat_cons, dot_bytes_app,
      dot_bytes_line by done.
    destruct ls as [|l' ls]; [done|]. rewrite IH by (done || by right). done. }
  unfold dot_wire, wire. rewrite Hlines by by left. done.
Qed.

End SmtpClient.
