(* ===== verification/Courier.v ===== *)
(** The couriers: package [internal/courier].

    [SMTP] delivers to remote servers, [MDA] to local users through an
    external program.  The network answers through the list of connections of
    a [world], which also holds what they change: the domain information
    database and the cache of MTA-STS policies. *)

From S2P Require Import Prelude GoStrings Envelope DotReader Store DomainInfo.
From S2P Require Import Sts SmtpClient.
#[local] Open Scope go_scope.

(** [Certificate.Verify]: the error for a server name and intermediates. *)
Class X509 (Cert : Type) := {
  x509_Verify : Cert → bytes → list Cert → option bytes;
}.

Module Courier.
Import Safeio Protoio.

(** ** Data *)

Record SMTP := mkSMTP {
  HelloDomain : bytes;
  smtpPort : bytes;
  STSCache : option Sts.PolicyCache;
}.

(** The errors of [net.LookupMX]: an error of the DNS says whether the name
    was not found and whether it is temporary. *)
Inductive mx_error :=
| MXDNSError (IsNotFound Temporary : bool) (msg : bytes)
| MXOtherError (msg : bytes).

Inductive lookup_error :=
| LookupIDNA
| LookupMX (e : mx_error).

(** The errors of [attempt.deliver], by the format string that makes them. *)
Inductive failure :=
| CouldNotDial (e : bytes)
| ErrorCreatingClient (e : SmtpClient.error)
| ErrorSayingHello (e : SmtpClient.error)
| SecLevelCheckFailed (level : DomainInfo.SecLevel)
| InvalidLevelForSTS (level : DomainInfo.SecLevel)
| MailRcptFailed (e : SmtpClient.error)
| DataFailed (e : SmtpClient.error)
| DataWriting (e : SmtpClient.error)
| DataClosing (e : SmtpClient.error).

(** The errors of [Deliver] and [Forward]. *)
Inductive derror :=
| CouldNotFindServer (e : option lookup_error)
| Failed (f : failure)
| AllMXsFailed (last : option failure)
| AllServersFailed (last : option failure).

(** An error, if any, and whether it is permanent. *)
Definition aresult : Type := option failure * bool.
Definition result : Type := option derror * bool.

Section SMTP.
Context {Cert : Type} `{X509 Cert, Precis, Unicode}.
Context `{!Sts.PolicyJSON, !ProtoText DomainInfo.Domain}.

(** A connection that was established, and the disk while it is in use. *)
Record netconn := mkNetconn {
  nc_io : SmtpClient.io;
  nc_tls : res bytes (Cert * list Cert * SmtpClient.io);
  nc_disk : syscalls;
}.

(** [dials] are the outcomes of the dials to come; [dialed] the addresses of
    those that were made, [wire] all that was sent on the connections. *)
Record world := mkWorld {
  dials : list (res bytes netconn);
  dialed : list bytes;
  wire : list (SmtpClient.packet Cert);
  dinfo : DomainInfo.DB;
  dinfo_fs : FS;
}.

Definition dial (w : world) (addr : bytes) : world * res bytes netconn :=
  match dials w with
  | [] => (mkWorld [] (dialed w ++ [addr]) (wire w) (dinfo w) (dinfo_fs w),
           Err "dial tcp: i/o timeout")
  | d :: ds =>
    (mkWorld ds (dialed w ++ [addr]) (wire w) (dinfo w) (dinfo_fs w), d)
  end.

(** What a client sent is on the wire. *)
Definition add_wire (w : world) (c : SmtpClient.Client Cert) : world :=
  mkWorld (dials w) (dialed w) (wire w ++ SmtpClient.sent c) (dinfo w)
    (dinfo_fs w).

(** ** One attempt *)

Record attempt := mkAttempt {
  courier : SMTP;
  afrom : bytes;
  ato : bytes;
  adata : bytes;
  toDomain : bytes;
  stsPolicy : option Sts.Policy;
}.

(** [verifyConnection] *)
Definition verifyConnection (cs : SmtpClient.ConnectionState Cert) :
  DomainInfo.SecLevel :=
  match x509_Verify (SmtpClient.leaf cs) (SmtpClient.ServerName cs)
          (SmtpClient.others cs) with
  | Some _ => DomainInfo.TLS_INSECURE
  | None => DomainInfo.TLS_SECURE
  end.

(** [secLevel]: the level of the channel that is in use. *)
Definition chan_level (ch : SmtpClient.channel Cert) : DomainInfo.SecLevel :=
  match ch with
  | SmtpClient.Plain => DomainInfo.PLAIN
  | SmtpClient.Tls cs => verifyConnection cs
  end.

(** The end of [deliver], from MAIL on. *)
Definition send_mail (a : attempt) (c : SmtpClient.Client Cert) :
  SmtpClient.Client Cert * aresult :=
  match SmtpClient.MailAndRcpt (afrom a) (ato a) c with
  | (c, Some e) => (c, (Some (MailRcptFailed e), SmtpClient.IsPermanent e))
  | (c, None) =>
    match SmtpClient.Data c with
    | (c, Some e) => (c, (Some (DataFailed e), SmtpClient.IsPermanent e))
    | (c, None) =>
      match SmtpClient.Write (adata a) c with
      | (c, (Some e, _)) => (c, (Some (DataWriting e), SmtpClient.IsPermanent e))
      | (c, (None, rest)) =>
        match SmtpClient.Close rest c with
        | (c, Some e) => (c, (Some (DataClosing e), SmtpClient.IsPermanent e))
        | (c, None) => ((SmtpClient.Quit c).1, (None, false))
        end
      end
    end
  end.

(** The security checks, once the channel is set up. *)
Definition checked_send (a : attempt) (disk : syscalls) (w : world)
    (c : SmtpClient.Client Cert) : world * aresult :=
  let secLevel := chan_level (SmtpClient.chan c) in
  let '(ok, db, (fs, _)) :=
    DomainInfo.OutgoingSecLevel disk (dinfo_fs w) (dinfo w) (toDomain a)
      secLevel in
  let w := mkWorld (dials w) (dialed w) (wire w) db fs in
  if negb ok then
    (add_wire w c, (Some (SecLevelCheckFailed secLevel), false))
  else
    let enforce := match stsPolicy a with
                   | Some p => Sts.PMode p == Sts.Enforce
                   | None => false
                   end in
    if enforce && (secLevel != DomainInfo.TLS_SECURE) then
      (add_wire w c, (Some (InvalidLevelForSTS secLevel), false))
    else
      let '(c, r) := send_mail a c in (add_wire w c, r).

(** From the label [retry] on; no result stands for [goto retry]. *)
Definition deliver_once (a : attempt) (mx : bytes) (skipTLS : bool) (w : world) :
  world * option aresult :=
  match dial w (mx ++ ":" ++ smtpPort (courier a)) with
  | (w, Err e) => (w, Some (Some (CouldNotDial e), false))
  | (w, Ok nc) =>
    match SmtpClient.NewClient mx (nc_io nc) (nc_tls nc) with
    | (c, Some e) => (add_wire w c, Some (Some (ErrorCreatingClient e), false))
    | (c, None) =>
      match SmtpClient.Hello (HelloDomain (courier a)) c with
      | (c, Some e) => (add_wire w c, Some (Some (ErrorSayingHello e), false))
      | (c, None) =>
        let '(c, ok) := SmtpClient.Extension "STARTTLS" c in
        if ok && negb skipTLS then
          match SmtpClient.StartTLS mx c with
          | (c, Some _) => (add_wire w c, None)
          | (c, None) =>
            let '(w, r) := checked_send a (nc_disk nc) w c in (w, Some r)
          end
        else let '(w, r) := checked_send a (nc_disk nc) w c in (w, Some r)
      end
    end
  end.

(** [attempt.deliver]: the second time TLS is skipped, so there is no
    third ([skipTLS_final] below). *)
Definition deliver (a : attempt) (mx : bytes) (w : world) : world * aresult :=
  match deliver_once a mx false w with
  | (w, Some r) => (w, r)
  | (w, None) =>
    match deliver_once a mx true w with
    | (w, Some r) => (w, r)
    | (w, None) => (w, (Some (CouldNotDial "unreachable"), false))
    end
  end.

(** ** Couriers *)

(** The loops of [Deliver] and [Forward]: [inr] when all failed. *)
Fixpoint deliver_loop (a : attempt) (allowed : bytes → bool) (mxs : list bytes)
    (last : option failure) (w : world) : world * (aresult + option failure) :=
  match mxs with
  | [] => (w, inr last)
  | mx :: mxs =>
    if negb (allowed mx) then deliver_loop a allowed mxs last w
    else
      match deliver a mx w with
      | (w, (None, _)) => (w, inl (None, false))
      | (w, (Some err, true)) => (w, inl (Some err, true))
      | (w, (Some err, false)) => deliver_loop a allowed mxs (Some err) w
      end
  end.

Definition allowed_by (policy : option Sts.Policy) (mx : bytes) : bool :=
  match policy with
  | None => true
  | Some p => Sts.MXIsAllowed p mx
  end.

Definition lookupMXs (netLookupMX : bytes → res mx_error (list bytes))
    (domain : bytes) : list bytes * option lookup_error * bool :=
  let '(domain, err) := idna_ToASCII domain in
  if (err : bool) then ([], Some LookupIDNA, true)
  else
    let cap (mxs : list bytes) := (take 5 mxs, None, true) in
    match netLookupMX domain with
    | Err (MXOtherError _ as err) => ([], Some (LookupMX err), false)
    | Err (MXDNSError true _ _) => cap [domain]
    | Err (MXDNSError false temporary _ as err) =>
      ([], Some (LookupMX err), negb temporary)
    | Ok hosts => cap hosts
    end.

(** [fetchSTSPolicy]; the cache panics on some names: no result. *)
Definition fetchSTSPolicy (s : SMTP) (e : Sts.cenv) (d : Sts.cdisk)
    (domain : bytes) : Sts.cdisk * option (option Sts.Policy) :=
  match STSCache s with
  | None => (d, Some None)
  | Some cache =>
    match Sts.CacheFetch e cache d domain with
    | (d, Err Sts.ErrPanic) => (d, None)
    | (d, Err _) => (d, Some None)
    | (d, Ok p) => (d, Some (Some p))
    end
  end.

(** [smtp.Client.Mail] adds the <> when the address is empty. *)
Definition sender (from : bytes) : bytes := if from == "<>" then "" else from.

(** [SMTP.Deliver]; no result when it panics. *)
Definition Deliver (s : SMTP) (netLookupMX : bytes → res mx_error (list bytes))
    (e : Sts.cenv) (d : Sts.cdisk) (w : world) (from to data : bytes) :
  world * Sts.cdisk * option result :=
  let domain := Envelope.DomainOf to in
  match lookupMXs netLookupMX domain with
  | (_, Some err, perm) => (w, d, Some (Some (CouldNotFindServer (Some err)), perm))
  | ([], None, perm) => (w, d, Some (Some (CouldNotFindServer None), perm))
  | (mxs, None, _) =>
    match fetchSTSPolicy s e d domain with
    | (d, None) => (w, d, None)
    | (d, Some policy) =>
      let a := mkAttempt s (sender from) to data domain policy in
      match deliver_loop a (allowed_by policy) mxs None w with
      | (w, inl (err, perm)) => (w, d, Some (Failed <$> err, perm))
      | (w, inr last) => (w, d, Some (Some (AllMXsFailed last), false))
      end
    end
  end.

(** [SMTP.Forward] *)
Definition Forward (s : SMTP) (w : world) (from to data : bytes)
    (servers : list bytes) : world * result :=
  let a := mkAttempt s (sender from) to data (Envelope.DomainOf to) None in
  match deliver_loop a (λ _, true) servers None w with
  | (w, inl (err, perm)) => (w, (Failed <$> err, perm))
  | (w, inr last) => (w, (Some (AllServersFailed last), false))
  end.

End SMTP.

Arguments netconn : clear implicits.
Arguments world : clear implicits.

(** ** The MDA courier *)

Record MDA := mkMDA {
  Binary : bytes;
  Args : list bytes;
  Timeout : Z;
}.

(** What [sanitizeForMDA] removes. *)
Definition mda_unsafe : bytes := "/;" ++ [DQUOTE] ++ "'\|*&$%()[]{}`!".

Definition sanitizeForMDA (s : bytes) : bytes :=
  let valid (r : N) : option N :=
    if IsSpace r || IsControl r || ContainsRune mda_unsafe r
    then None else Some r in
  Map valid s.

(** [strings.Replacer]: at each position, the first pair that matches;
    [skip] bytes were already replaced. *)
Fixpoint Replace (pairs : list (bytes * bytes)) (skip : nat) (s : bytes) : bytes :=
  match s with
  | [] => []
  | c :: s' =>
    match skip with
    | S skip => Replace pairs skip s'
    | O =>
      match List.find (λ p, HasPrefix s p.1) pairs with
      | Some (old, new) => new ++ Replace pairs (length old - 1) s'
      | None => c :: Replace pairs 0 s'
      end
    end
  end.

(** How the program ended. *)
Inductive exec_result :=
| ExecOk
| ExecTimeout
| ExecExit (status : Z) (output : bytes)
| ExecError (msg output : bytes).

Inductive mda_error :=
| errTimeout
| DeliveryFailed (r : exec_result)
| errForwardNotSupported.

Definition mda_pairs (from to : bytes) : list (bytes * bytes) :=
  [("%from%", from);
   ("%from_user%", Envelope.UserOf from);
   ("%from_domain%", Envelope.DomainOf from);
   ("%to%", to);
   ("%to_user%", Envelope.UserOf to);
   ("%to_domain%", Envelope.DomainOf to)].

(** [MDA.Deliver], given the system that runs the program with arguments and
    standard input, for at most some time. *)
Definition MDA_Deliver (exec : bytes → list bytes → Z → bytes → exec_result)
    (p : MDA) (from to data : bytes) : option mda_error * bool :=
  let from := sanitizeForMDA from in
  let to := sanitizeForMDA to in
  let args := Replace (mda_pairs from to) 0 <$> Args p in
  match exec (Binary p) args (Timeout p) (Normalize.ToCRLF data) with
  | ExecTimeout => (Some errTimeout, false)
  | ExecOk => (None, false)
  | ExecExit status _ as r => (Some (DeliveryFailed r), (status != 75%Z))
  | ExecError _ _ as r => (Some (DeliveryFailed r), true)
  end.

Definition MDA_Forward (p : MDA) (from to data : bytes) (servers : list bytes) :
  option mda_error * bool := (Some errForwardNotSupported, true).

End Courier.
