(* ===== verification/CourierProps.v ===== *)
(** Properties of the couriers: on which channels mail travels, how much is
    tried, when a delivery counts as done, and what the MDA gets. *)

From S2P Require Import Prelude GoStrings Envelope DotReader Store DomainInfo.
From S2P Require Import Sts SmtpClient Courier.
#[local] Open Scope go_scope.

Module CourierProps.
Import Safeio Protoio Courier.
Import SmtpClient(p_host, p_chan, p_text, packet, Client, chan, host, localName).

Section Emits.
Context {Cert : Type}.

(** ** What a client sends *)

(** From [c] to [c'] the client stays on its channel, and all that it sends
    there satisfies [T]. *)
Definition emits (T : bytes → Prop) (c c' : Client Cert) : Prop :=
  host c' = host c ∧ chan c' = chan c ∧ localName c' = localName c ∧
  ∃ ps, SmtpClient.sent c' = SmtpClient.sent c ++ ps ∧
    Forall (λ p, p_host p = host c ∧ p_chan p = chan c ∧ T (p_text p)) ps.

#[local] Instance emits_refl T : Reflexive (emits T).
Proof.
  intros c. repeat split. exists []. by rewrite (right_id_L [] (++)).
Qed.

#[local] Instance emits_trans T : Transitive (emits T).
Proof.
  intros c1 c2 c3 (h1 & ch1 & n1 & ps1 & E1 & F1) (h2 & ch2 & n2 & ps2 & E2 & F2).
  split_and!; [congruence..|]. exists (ps1 ++ ps2).
  rewrite E2, E1, app_assoc. split; [done|].
  apply Forall_app. split; [done|]. by rewrite h1, ch1 in F2.
Qed.

Lemma emits_weaken (T U : bytes → Prop) c c' :
  (∀ t, T t → U t) → emits T c c' → emits U c c'.
Proof.
  intros HTU (? & ? & ? & ps & ? & F). split_and!; [done..|]. exists ps.
  split; [done|]. eapply Forall_impl; [exact F|]. naive_solver.
Qed.

(** A change of the client that sends nothing. *)
Lemma emits_quiet T c c' :
  host c' = host c → chan c' = chan c → localName c' = localName c →
  SmtpClient.sent c' = SmtpClient.sent c → emits T c c'.
Proof.
  intros ? ? ? E. split_and!; [done..|]. exists [].
  by rewrite E, (right_id_L [] (++)).
Qed.

Lemma write_emits (T : bytes → Prop) t (c : Client Cert) :
  (∀ k, T (take k t)) → emits T c (SmtpClient.write t c).1.
Proof.
  intros HT. unfold SmtpClient.write.
  assert (T t) as Ht by (rewrite <- (take_ge t (length t)) by done; apply HT).
  destruct (SmtpClient.alive (SmtpClient.cio c)) as [[|n]|]; simpl;
    (split_and!; [done..|]); eexists; (split; [done|]);
    repeat constructor; simpl; auto.
Qed.

Lemma ReadResponse_emits T code (c : Client Cert) :
  emits T c (SmtpClient.ReadResponse code c).1.
Proof.
  unfold SmtpClient.ReadResponse. destruct (SmtpClient.read_response _ _).
  by apply emits_quiet.
Qed.

(** The texts of a command line, cut short or not. *)
Definition line_text (line t : bytes) : Prop := t `prefix_of` line ++ CRLF.

Lemma line_text_take line k : line_text line (take k (line ++ CRLF)).
Proof. exists (drop k (line ++ CRLF)). by rewrite take_drop. Qed.

Lemma cmd_emits (T : bytes → Prop) code line (c : Client Cert) :
  (∀ t, line_text line t → T t) → emits T c (SmtpClient.cmd code line c).1.
Proof.
  intros HT. unfold SmtpClient.cmd.
  pose proof (write_emits T (line ++ CRLF) c) as Hw.
  destruct (SmtpClient.write _ _) as [c1 [e|]]; simpl in *.
  - apply Hw. intros k. apply HT, line_text_take.
  - etrans; [apply Hw; intros k; apply HT, line_text_take|].
    apply ReadResponse_emits.
Qed.

(** The lines that come before any mail. *)
Definition hello_text (name t : bytes) : Prop :=
  line_text ("EHLO " ++ name) t ∨ line_text ("HELO " ++ name) t ∨
  line_text "STARTTLS" t.

Lemma ehlo_emits (c : Client Cert) :
  emits (hello_text (localName c)) c (SmtpClient.ehlo c).1.
Proof.
  unfold SmtpClient.ehlo.
  pose proof (cmd_emits (hello_text (localName c)) 250
    ("EHLO " ++ localName c) c ltac:(intros; by left)) as Hc.
  destruct (SmtpClient.cmd _ _ _) as [c1 [[code msg]|e]]; simpl in *; [|done].
  etrans; [exact Hc|]. by apply emits_quiet.
Qed.

Lemma helo_emits (c : Client Cert) :
  emits (hello_text (localName c)) c (SmtpClient.helo c).1.
Proof.
  unfold SmtpClient.helo.
  pose proof (cmd_emits (hello_text (localName c)) 250
    ("HELO " ++ localName c) (SmtpClient.set_ext c None)
    ltac:(intros; right; by left)) as Hc.
  destruct (SmtpClient.cmd _ _ _) as [c1 [r|e]]; simpl in *;
    (etrans; [by apply (emits_quiet _ c (SmtpClient.set_ext c None))|exact Hc]).
Qed.

Lemma hello_emits (c : Client Cert) :
  emits (hello_text (localName c)) c (SmtpClient.hello c).1.
Proof.
  unfold SmtpClient.hello. destruct (SmtpClient.didHello c); [done|].
  set (c0 := SmtpClient.set_hello c _ _ _).
  assert (emits (hello_text (localName c)) c c0) as H0 by by apply emits_quiet.
  pose proof (ehlo_emits c0) as He.
  destruct (SmtpClient.ehlo c0) as [c1 [e|]]; simpl in *; [|by etrans].
  pose proof (helo_emits c1) as Hh.
  destruct (SmtpClient.helo c1) as [c2 err]; simpl in *.
  destruct He as (h1 & ch1 & n1 & He). rewrite n1 in Hh. simpl in Hh.
  etrans; [exact H0|]. etrans; [split_and!; [exact h1|exact ch1|exact n1|exact He]|].
  etrans; [exact Hh|]. by apply emits_quiet.
Qed.

Lemma Extension_emits name (c : Client Cert) :
  emits (hello_text (localName c)) c (SmtpClient.Extension name c).1.
Proof.
  unfold SmtpClient.Extension. pose proof (hello_emits c) as Hh.
  by destruct (SmtpClient.hello c) as [c1 [e|]].
Qed.

(** From MAIL on, anything may be sent, on the same channel. *)
Definition stays (c c' : Client Cert) : Prop := emits (λ _, True) c c'.

#[local] Instance stays_refl : Reflexive stays := emits_refl _.
#[local] Instance stays_trans : Transitive stays := emits_trans _.

Lemma emits_stays T c c' : emits T c c' → stays c c'.
Proof. by apply emits_weaken. Qed.

Lemma cmd_stays code line (c : Client Cert) :
  stays c (SmtpClient.cmd code line c).1.
Proof. by apply cmd_emits. Qed.

Context `{Precis}.

Lemma prepare_stays addr (c : Client Cert) :
  stays c (SmtpClient.prepareForSMTPUTF8 addr c).1.
Proof.
  unfold SmtpClient.prepareForSMTPUTF8. case_match; [done|].
  pose proof (emits_stays _ _ _ (Extension_emits "SMTPUTF8" c)) as Hx.
  destruct (SmtpClient.Extension _ c) as [c1 []]; simpl in *; [done|].
  by repeat case_match.
Qed.

Lemma MailAndRcpt_stays from to (c : Client Cert) :
  stays c (SmtpClient.MailAndRcpt from to c).1.
Proof.
  unfold SmtpClient.MailAndRcpt.
  pose proof (prepare_stays from c) as H1.
  destruct (SmtpClient.prepareForSMTPUTF8 from c) as [c1 [[f n1] [e|]]]; [done|].
  pose proof (prepare_stays to c1) as H2.
  destruct (SmtpClient.prepareForSMTPUTF8 to c1) as [c2 [[t n2] [e|]]];
    simpl in *; [by etrans|].
  pose proof (emits_stays _ _ _ (Extension_emits "8BITMIME" c2)) as H3.
  destruct (SmtpClient.Extension _ c2) as [c3 ok]; simpl in *.
  match goal with |- context [SmtpClient.cmd 250 ?l c3] =>
    pose proof (cmd_stays 250 l c3) as H4;
    destruct (SmtpClient.cmd 250 l c3) as [c4 [r4|e4]] end;
    simpl in *; [|by repeat (etrans; [eassumption|])].
  pose proof (cmd_stays 25 ("RCPT TO:<" ++ t ++ ">") c4) as H5.
  destruct (SmtpClient.cmd 25 _ c4) as [c5 [r5|e5]]; simpl in *;
    by repeat (etrans; [eassumption|]).
Qed.

Lemma Data_stays (c : Client Cert) : stays c (SmtpClient.Data c).1.
Proof.
  unfold SmtpClient.Data. pose proof (cmd_stays 354 "DATA" c).
  by destruct (SmtpClient.cmd _ _ c) as [c1 []].
Qed.

Lemma Write_stays data (c : Client Cert) : stays c (SmtpClient.Write data c).1.
Proof.
  unfold SmtpClient.Write. destruct (SmtpClient.dot_bytes _ _) as [out st].
  case_match; [done|].
  pose proof (write_emits (λ _, True)
    (take ((length out - 1) / SmtpClient.bufSize * SmtpClient.bufSize) out) c
    ltac:(done)).
  by destruct (SmtpClient.write _ c).
Qed.

Lemma Close_stays rest (c : Client Cert) : stays c (SmtpClient.Close rest c).1.
Proof.
  unfold SmtpClient.Close.
  pose proof (write_emits (λ _, True) rest c ltac:(done)) as H1.
  destruct (SmtpClient.write rest c) as [c1 w].
  pose proof (ReadResponse_emits (λ _, True) 250 c1) as H2.
  by destruct (SmtpClient.ReadResponse 250 c1) as [c2 []]; simpl in *;
    etrans.
Qed.

Lemma Quit_stays (c : Client Cert) : stays c (SmtpClient.Quit c).1.
Proof.
  unfold SmtpClient.Quit.
  pose proof (emits_stays _ _ _ (hello_emits c)) as H1.
  destruct (SmtpClient.hello c) as [c1 e].
  pose proof (cmd_stays 221 "QUIT" c1) as H2.
  by destruct (SmtpClient.cmd _ _ c1) as [c2 []]; simpl in *; etrans.
Qed.

Lemma send_mail_stays a (c : Client Cert) : stays c (send_mail a c).1.
Proof.
  unfold send_mail.
  pose proof (MailAndRcpt_stays (afrom a) (ato a) c) as H1.
  destruct (SmtpClient.MailAndRcpt _ _ c) as [c1 [e|]]; [done|].
  pose proof (Data_stays c1) as H2.
  destruct (SmtpClient.Data c1) as [c2 [e|]]; simpl in *; [by etrans|].
  pose proof (Write_stays (adata a) c2) as H3.
  destruct (SmtpClient.Write _ c2) as [c3 [[e|] rest]]; simpl in *;
    [by repeat (etrans; [eassumption|])|].
  pose proof (Close_stays rest c3) as H4.
  destruct (SmtpClient.Close _ c3) as [c4 [e|]]; simpl in *;
    [by repeat (etrans; [eassumption|])|].
  pose proof (Quit_stays c4).
  by repeat (etrans; [eassumption|]).
Qed.

(** ** Setting up a channel *)

(** A TLS channel is with the host that was asked for. *)
Definition chan_for (h : bytes) (ch : SmtpClient.channel Cert) : Prop :=
  match ch with
  | SmtpClient.Plain => True
  | SmtpClient.Tls cs => SmtpClient.ServerName cs = h
  end.

(** A client that has only greeted the server so far. *)
Definition greeted (name mx : bytes) (c : Client Cert) : Prop :=
  host c = mx ∧ chan_for mx (chan c) ∧
  Forall (λ p, p_host p = mx ∧ hello_text name (p_text p)) (SmtpClient.sent c).

Lemma emits_greeted name mx c c' :
  emits (hello_text name) c c' → greeted name mx c → greeted name mx c'.
Proof.
  intros (h & ch & _ & ps & E & F) (<- & Hch & Hs).
  split; [done|]. rewrite ch, E. split; [done|]. apply Forall_app.
  split; [done|]. eapply Forall_impl; [exact F|]. naive_solver.
Qed.

Lemma NewClient_greeted name mx i t :
  let c := (SmtpClient.NewClient (Cert := Cert) mx i t).1 in
  greeted name mx c ∧ SmtpClient.sent c = [].
Proof.
  unfold SmtpClient.NewClient, SmtpClient.ReadResponse. simpl.
  destruct (SmtpClient.read_response 220 _) as [r [x|e]]; simpl;
    repeat split; constructor.
Qed.

Lemma Hello_greeted name mx (c : Client Cert) :
  greeted name mx c → SmtpClient.sent c = [] →
  let '(c', err) := SmtpClient.Hello name c in
  greeted name mx c' ∧ (err = None → localName c' = name).
Proof.
  intros Hg Hs. unfold SmtpClient.Hello.
  destruct (Contains name [LF] || Contains name [CR]); [done|].
  destruct (SmtpClient.didHello c); [done|].
  set (c0 := SmtpClient.set_hello c name _ _).
  pose proof (hello_emits c0) as He.
  destruct (SmtpClient.hello c0) as [c1 err]; simpl in *.
  pose proof He as (_ & _ & Hn & _). split; [|done].
  eapply emits_greeted; [exact He|]. done.
Qed.

Lemma StartTLS_greeted name mx (c : Client Cert) :
  localName c = name → greeted name mx c →
  greeted name mx (SmtpClient.StartTLS mx c).1.
Proof.
  intros Hn Hg. unfold SmtpClient.StartTLS.
  pose proof (hello_emits c) as H1. rewrite Hn in H1.
  destruct (SmtpClient.hello c) as [c1 [e|]]; simpl in *;
    [by eapply emits_greeted|].
  assert (localName c1 = name) as Hn1 by (destruct H1 as (_ & _ & ? & _); congruence).
  pose proof (cmd_emits (hello_text name) 220 "STARTTLS" c1
    ltac:(intros; right; by right)) as H2.
  destruct (SmtpClient.cmd 220 _ c1) as [c2 [r|e]]; simpl in *;
    (assert (greeted name mx c2) as Hg2
       by (eapply emits_greeted; [exact H2|by eapply emits_greeted])); [|done].
  assert (localName c2 = name) as Hn2 by (destruct H2 as (_ & _ & ? & _); congruence).
  destruct (SmtpClient.tls_io c2) as [[[crt crts] i]|e]; [|done].
  match goal with |- greeted _ _ (SmtpClient.ehlo ?c3).1 =>
    pose proof (ehlo_emits c3) as H3 end.
  simpl in H3. rewrite Hn2 in H3. eapply emits_greeted; [exact H3|].
  by destruct Hg2 as (? & _ & ?).
Qed.

End Emits.

(** ** Where mail goes *)

Section Deliver.
Context {Cert : Type} `{X509 Cert, Precis, Unicode}.
Context `{!Sts.PolicyJSON, !ProtoText DomainInfo.Domain}.

(** The server at the other end has shown a valid certificate for its
    name. *)
Definition authentic (p : packet Cert) : Prop :=
  ∃ cs, p_chan p = SmtpClient.Tls cs ∧
        x509_Verify (SmtpClient.leaf cs) (p_host p) (SmtpClient.others cs) = None.

(** A packet that may carry mail to a domain: its channel is at least as
    secure as those used before, and what the policy asks for. *)
Definition trusted (domain : bytes) (policy : option Sts.Policy)
    (db : DomainInfo.DB) (p : packet Cert) : Prop :=
  (DomainInfo.out_level db domain ≤ chan_level (p_chan p))%Z ∧
  (∀ pol, policy = Some pol → Sts.PMode pol = Sts.Enforce → authentic p).

(** What may be sent to the servers in [M]: greetings, and mail when it is
    trusted. *)
Definition guarded (a : attempt) (M : bytes → Prop) (db : DomainInfo.DB)
    (p : packet Cert) : Prop :=
  M (p_host p) ∧
  (hello_text (HelloDomain (courier a)) (p_text p) ∨
   trusted (toDomain a) (stsPolicy a) db p).

(** The effect of an attempt: what is sent is guarded, and the recorded level
    of the domain does not go down. *)
Definition careful (a : attempt) (M : bytes → Prop) (w w' : world Cert) : Prop :=
  (DomainInfo.out_level (dinfo w) (toDomain a)
     ≤ DomainInfo.out_level (dinfo w') (toDomain a))%Z ∧
  ∃ ps, wire w' = wire w ++ ps ∧ Forall (guarded a M (dinfo w)) ps.

Lemma careful_refl a M w : careful a M w w.
Proof. split; [done|]. exists []. by rewrite (right_id_L [] (++)). Qed.

Lemma careful_trans a M w1 w2 w3 :
  careful a M w1 w2 → careful a M w2 w3 → careful a M w1 w3.
Proof.
  intros (L1 & ps1 & E1 & F1) (L2 & ps2 & E2 & F2). split; [lia|].
  exists (ps1 ++ ps2). rewrite E2, E1, app_assoc. split; [done|].
  apply Forall_app. split; [done|]. eapply Forall_impl; [exact F2|].
  intros p (HM & [Ht|(Hl & Hp)]); (split; [done|]); [by left|right].
  split; [lia|done].
Qed.

Lemma careful_weaken a (M M' : bytes → Prop) w w' :
  (∀ h, M h → M' h) → careful a M w w' → careful a M' w w'.
Proof.
  intros HM (L & ps & E & F). split; [done|]. exists ps. split; [done|].
  eapply Forall_impl; [exact F|]. intros p [? ?]. split; auto.
Qed.

Lemma secure_authentic (p : packet Cert) :
  chan_for (p_host p) (p_chan p) →
  chan_level (p_chan p) = DomainInfo.TLS_SECURE → authentic p.
Proof.
  unfold authentic. destruct (p_chan p) as [|cs]; simpl; [done|].
  intros Hs. unfold verifyConnection. rewrite Hs.
  destruct (x509_Verify _ _ _) eqn:E; [done|]. by exists cs.
Qed.

Lemma greeted_careful a mx (w : world Cert) c :
  greeted (HelloDomain (courier a)) mx c → careful a (eq mx) w (add_wire w c).
Proof.
  intros (_ & _ & Hs). split; [done|]. exists (SmtpClient.sent c).
  split; [done|]. eapply Forall_impl; [exact Hs|].
  intros p [? ?]. by split; [|left].
Qed.

Lemma checked_send_careful a mx disk (w : world Cert) c :
  greeted (HelloDomain (courier a)) mx c →
  careful a (eq mx) w (checked_send a disk w c).1.
Proof.
  intros Hg. unfold checked_send.
  pose proof (DomainInfo.OutgoingSecLevel_levels disk (dinfo_fs w) (dinfo w)
    (toDomain a) (chan_level (chan c))) as HL.
  destruct (DomainInfo.OutgoingSecLevel _ _ _ _ _) as [[ok db] [fs we]].
  destruct HL as (Hok & Hlv & _).
  assert (∀ c', greeted (HelloDomain (courier a)) mx c' →
    careful a (eq mx) w (add_wire (mkWorld (dials w) (dialed w) (wire w) db fs) c'))
    as Hquiet.
  { intros c' Hc'. split; simpl; [lia|].
    by apply (greeted_careful a mx w c' Hc'). }
  destruct ok; simpl; [|by apply Hquiet].
  symmetry in Hok. apply bool_decide_eq_true in Hok.
  match goal with |- context [if ?b then _ else _] => destruct b eqn:Hb end;
    [by apply Hquiet|].
  assert (∀ pol, stsPolicy a = Some pol → Sts.PMode pol = Sts.Enforce →
    chan_level (chan c) = DomainInfo.TLS_SECURE) as Hsts.
  { intros pol Hp Hm. rewrite Hp, Hm in Hb. apply andb_false_iff in Hb as [Hb|Hb].
    - by apply bool_decide_eq_false in Hb.
    - by apply negb_false_iff, bool_decide_eq_true in Hb. }
  pose proof (send_mail_stays a c) as (_ & _ & _ & ps & Esent & Fps).
  destruct (send_mail a c) as [c' r]; simpl in *.
  destruct Hg as (<- & Hch & Hs). split; [simpl; lia|]. simpl.
  exists (SmtpClient.sent c'). split; [done|]. rewrite Esent. apply Forall_app.
  split.
  - eapply Forall_impl; [exact Hs|]. intros p [? ?]. by split; [|left].
  - eapply Forall_impl; [exact Fps|]. intros p (Hh & Hc & _).
    split; [done|]. right. split; [by rewrite Hc|]. intros pol Hp Hm.
    apply secure_authentic; rewrite ?Hh, Hc; [done|by eapply Hsts].
Qed.

(** An attempt, dial included. *)
Lemma deliver_once_careful a mx skipTLS (w : world Cert) :
  let '(w', r) := deliver_once a mx skipTLS w in
  careful a (eq mx) w w' ∧
  dialed w' = dialed w ++ [mx ++ ":" ++ smtpPort (courier a)].
Proof.
  unfold deliver_once, dial.
  set (addr := mx ++ ":" ++ smtpPort (courier a)).
  assert (∀ ds w', careful a (eq mx)
      (mkWorld ds (dialed w ++ [addr]) (wire w) (dinfo w) (dinfo_fs w)) w' →
    careful a (eq mx) w w') as Hw by done.
  destruct (dials w) as [|[nc|e] ds]; [by split; [eapply Hw, careful_refl|]| |
    by split; [eapply Hw, careful_refl|]].
  specialize (Hw ds).
  set (w0 := mkWorld ds _ _ _ _) in *.
  pose proof (NewClient_greeted (HelloDomain (courier a)) mx (nc_io nc) (nc_tls nc))
    as [Hg0 Hs0].
  destruct (SmtpClient.NewClient _ _ _) as [c0 [e|]]; simpl in Hg0, Hs0;
    [by split; [apply Hw, greeted_careful|]|].
  pose proof (Hello_greeted _ _ _ Hg0 Hs0) as Hh.
  destruct (SmtpClient.Hello _ c0) as [c1 [e|]]; destruct Hh as [Hg1 Hn1];
    [by split; [apply Hw, greeted_careful|]|].
  specialize (Hn1 eq_refl).
  pose proof (Extension_emits "STARTTLS" c1) as Hx. rewrite Hn1 in Hx.
  destruct (SmtpClient.Extension _ c1) as [c2 ok]; simpl in Hx.
  assert (localName c2 = HelloDomain (courier a)) as Hn2
    by (destruct Hx as (_ & _ & ? & _); congruence).
  assert (greeted (HelloDomain (courier a)) mx c2) as Hg2
    by by eapply emits_greeted.
  assert (∀ c, dialed (checked_send a (nc_disk nc) w0 c).1 = dialed w0) as Hd.
  { intros c. unfold checked_send.
    destruct (DomainInfo.OutgoingSecLevel _ _ _ _ _) as [[[] db] [fs we]];
      simpl; [|done]. case_match; [done|]. by destruct (send_mail a c). }
  destruct (ok && negb skipTLS).
  - pose proof (StartTLS_greeted _ mx c2 Hn2 Hg2) as Hg3.
    destruct (SmtpClient.StartTLS mx c2) as [c3 [e|]]; simpl in Hg3;
      [by split; [apply Hw, greeted_careful|]|].
    pose proof (checked_send_careful a mx (nc_disk nc) w0 c3 Hg3).
    specialize (Hd c3). destruct (checked_send a _ w0 c3); simpl in *.
    split; [by apply Hw|done].
  - pose proof (checked_send_careful a mx (nc_disk nc) w0 c2 Hg2).
    specialize (Hd c2). destruct (checked_send a _ w0 c2); simpl in *.
    split; [by apply Hw|done].
Qed.

(** Without TLS there is no retry. *)
Lemma skipTLS_final a mx (w : world Cert) :
  is_Some (deliver_once a mx true w).2.
Proof.
  unfold deliver_once. destruct (dial w _) as [w0 [nc|e]]; [|done].
  destruct (SmtpClient.NewClient _ _ _) as [c0 [e|]]; [done|].
  destruct (SmtpClient.Hello _ c0) as [c1 [e|]]; [done|].
  destruct (SmtpClient.Extension _ c1) as [c2 ok].
  rewrite andb_false_r. by destruct (checked_send a _ w0 c2).
Qed.

Lemma deliver_careful a mx (w : world Cert) :
  let w' := (deliver a mx w).1 in
  careful a (eq mx) w w' ∧
  ∃ n, n ≤ 2 ∧
    dialed w' = dialed w ++ replicate n (mx ++ ":" ++ smtpPort (courier a)).
Proof.
  unfold deliver. pose proof (deliver_once_careful a mx false w) as S1.
  destruct (deliver_once a mx false w) as [w1 [r|]]; destruct S1 as [C1 D1].
  { split; [done|]. exists 1. by split; [lia|]. }
  pose proof (deliver_once_careful a mx true w1) as S2.
  destruct (deliver_once a mx true w1) as [w2 r]; destruct S2 as [C2 D2].
  assert (careful a (eq mx) w w2) as C by by eapply careful_trans.
  assert (dialed w2 = dialed w ++ replicate 2 (mx ++ ":" ++ smtpPort (courier a)))
    by by rewrite D2, D1, <- app_assoc.
  destruct r; (split; [done|]); exists 2; by split; [lia|].
Qed.

(** The dials [ds] go through the servers in their order, each at most twice in a
    row. *)
Definition dials_of (port : bytes) (servers ds : list bytes) : Prop :=
  ∃ counts, length counts = length servers ∧ Forall (λ n, n ≤ 2) counts ∧
    ds = concat (zip_with (λ n mx, replicate n (mx ++ ":" ++ port)) counts servers).

Lemma dials_cons port mx servers n ds :
  n ≤ 2 → dials_of port servers ds →
  dials_of port (mx :: servers) (replicate n (mx ++ ":" ++ port) ++ ds).
Proof.
  intros Hn (counts & Hl & Hc & ->). exists (n :: counts).
  split; [by simpl; rewrite Hl|]. split; [by constructor|done].
Qed.

Lemma dials_none port servers : dials_of port servers [].
Proof.
  induction servers as [|mx servers IH]; [by exists []|].
  apply (dials_cons port mx servers 0 []); [lia|done].
Qed.

(** All the attempts. *)
Lemma deliver_loop_careful a allowed mxs last (w : world Cert) :
  let w' := (deliver_loop a allowed mxs last w).1 in
  careful a (λ h, h ∈ mxs ∧ allowed h = true) w w' ∧
  ∃ ds, dialed w' = dialed w ++ ds ∧ dials_of (smtpPort (courier a)) mxs ds.
Proof.
  revert last w. induction mxs as [|mx mxs IH]; intros last w; simpl.
  { split; [apply careful_refl|]. exists []. rewrite (right_id_L [] (++)).
    split; [done|apply dials_none]. }
  assert (IH' : ∀ w1 last, let w' := (deliver_loop a allowed mxs last w1).1 in
    careful a (λ h, h ∈ mx :: mxs ∧ allowed h = true) w1 w' ∧
    ∃ ds, dialed w' = dialed w1 ++ ds ∧ dials_of (smtpPort (courier a)) mxs ds).
  { intros w1 l. destruct (IH l w1) as (C & D). split; [|done].
    eapply careful_weaken; [|exact C]. set_solver. }
  clear IH. destruct (allowed mx) eqn:Ha; simpl.
  - pose proof (deliver_careful a mx w) as (C & n & Hn & D).
    destruct (deliver a mx w) as [w1 [err perm]]; simpl in C, D.
    assert (C1 : careful a (λ h, h ∈ mx :: mxs ∧ allowed h = true) w w1)
      by (eapply careful_weaken; [|exact C]; intros h <-; split; [left|done]).
    assert (Hend : ∃ ds, dialed w1 = dialed w ++ ds ∧
      dials_of (smtpPort (courier a)) (mx :: mxs) ds).
    { eexists. split; [exact D|]. rewrite <- (app_nil_r (replicate _ _)).
      apply dials_cons; [done|apply dials_none]. }
    destruct err as [err|]; [destruct perm|]; try (by split).
    destruct (IH' w1 (Some err)) as (C2 & ds & D2 & Hds).
    split; [by eapply careful_trans|].
    eexists. rewrite D2, D, <- app_assoc. split; [done|]. by apply dials_cons.
  - destruct (IH' w last) as (C2 & ds & D2 & Hds). split; [done|].
    exists ds. split; [done|]. apply (dials_cons _ mx mxs 0 ds); [lia|done].
Qed.

#[local] Arguments deliver_loop : simpl never.

(** ** Finding the servers *)

(** The servers of a domain: its first five MX hosts, or the domain itself when
    the DNS says that it has no MX records. *)
Inductive findable (lookup : bytes → res mx_error (list bytes)) (domain : bytes) :
    list bytes → Prop :=
| by_mx name hosts :
    idna_ToASCII domain = (name, false) → lookup name = Ok hosts → hosts ≠ [] →
    findable lookup domain (take 5 hosts)
| by_address name temporary msg :
    idna_ToASCII domain = (name, false) → lookup name = Err (MXDNSError true temporary msg) →
    findable lookup domain [name].

(** Why there may be none, and whether that is for good: a name that is not
    valid, an empty answer or an error of the DNS that it does not call temporary
    are, another error is not. *)
Inductive unfindable (lookup : bytes → res mx_error (list bytes)) (domain : bytes) :
    option lookup_error → bool → Prop :=
| bad_name name :
    idna_ToASCII domain = (name, true) → unfindable lookup domain (Some LookupIDNA) true
| no_hosts name :
    idna_ToASCII domain = (name, false) → lookup name = Ok [] →
    unfindable lookup domain None true
| dns_error name temporary msg :
    idna_ToASCII domain = (name, false) → lookup name = Err (MXDNSError false temporary msg) →
    unfindable lookup domain (Some (LookupMX (MXDNSError false temporary msg))) (negb temporary)
| other_error name msg :
    idna_ToASCII domain = (name, false) → lookup name = Err (MXOtherError msg) →
    unfindable lookup domain (Some (LookupMX (MXOtherError msg))) false.

Lemma lookupMXs_spec netLookupMX domain :
  match lookupMXs netLookupMX domain with
  | (mx :: mxs, None, _) => findable netLookupMX domain (mx :: mxs)
  | (_, err, perm) => unfindable netLookupMX domain err perm
  end.
Proof.
  unfold lookupMXs. destruct (idna_ToASCII domain) as [name []] eqn:En; [by eapply bad_name|].
  destruct (netLookupMX name) as [[|h hosts]|[[] t msg|msg]] eqn:El.
  - by eapply no_hosts.
  - by apply (by_mx _ _ name (h :: hosts)).
  - by eapply by_address.
  - by eapply dns_error.
  - by eapply other_error.
Qed.

Lemma findable_five netLookupMX domain mxs :
  findable netLookupMX domain mxs → 0 < length mxs ≤ 5.
Proof.
  destruct 1 as [name [|h hosts] _ _ Hn|]; simpl; [done| |lia]. rewrite length_take. lia.
Qed.

(** ** Properties *)

(** C6: Mail only goes to servers it may go to.  Whatever the servers, the DNS
    and the network do, all that [Deliver] sends, but for the greetings
    (EHLO, HELO and STARTTLS), travels on a channel that is at least as secure
    as the best one used for the domain before; and when the domain has an
    MTA-STS policy in enforce mode, nothing goes to a host that the policy
    does not name, and mail goes over TLS only, to a server with a valid
    certificate for the host. *)
Theorem Deliver_trusted s netLookupMX e d (w : world Cert) from to data :
  let domain := Envelope.DomainOf to in
  let policy := (fetchSTSPolicy s e d domain).2 in
  let w' := (Deliver s netLookupMX e d w from to data).1.1 in
  ∃ ps, wire w' = wire w ++ ps ∧
    Forall (λ p,
      (hello_text (HelloDomain s) (p_text p) ∨
       (DomainInfo.out_level (dinfo w) domain ≤ chan_level (p_chan p))%Z ∧
       (∀ pol, policy = Some (Some pol) → Sts.PMode pol = Sts.Enforce →
          authentic p)) ∧
      (∀ pol, policy = Some (Some pol) → Sts.PMode pol = Sts.Enforce →
         existsb (Sts.matchDomain (p_host p)) (Sts.MXs pol) = true)) ps.
Proof.
  simpl. unfold Deliver.
  assert (∃ ps, wire w = wire w ++ ps ∧ ps = []) as (ps0 & E0 & ->)
    by (exists []; by rewrite (right_id_L [] (++))).
  destruct (lookupMXs _ _) as [[[|mx mxs] [err|]] perm]; [by exists []..|].
  destruct (fetchSTSPolicy s e d _) as [d' [policy|]]; [|by exists []]. simpl.
  set (a := mkAttempt s (sender from) to data (Envelope.DomainOf to) policy).
  pose proof (deliver_loop_careful a (allowed_by policy) (mx :: mxs) None w)
    as ((_ & ps & E & F) & _).
  destruct (deliver_loop a _ _ _ w) as [w' [[err p]|last]]; simpl in *;
    (exists ps; split; [done|]; eapply Forall_impl; [exact F|]);
    intros p0 ((_ & Hall) & Hor); (split;
      [destruct Hor as [?|[? Hp]]; [by left|right; split; [done|];
         intros pol [= ->]; by apply Hp]|]);
    intros pol [= ->] Hm; simpl in Hall; unfold Sts.MXIsAllowed in Hall;
    by rewrite (bool_decide_eq_true_2 _ Hm) in Hall.
Qed.

(** C28: The effort of a delivery is bounded: however long the list of mail
    servers that the DNS gives, only the first five of them are dialed, in their
    order and each at most twice in a row, or the domain itself, at most twice,
    when it has no such list; a forward dials each of its servers at most twice, in
    their order. *)
Theorem Deliver_effort s netLookupMX e d (w : world Cert) from to data servers :
  (∃ ds, dialed (Deliver s netLookupMX e d w from to data).1.1 = dialed w ++ ds ∧
     (ds = [] ∨ ∃ mxs, findable netLookupMX (Envelope.DomainOf to) mxs ∧
        0 < length mxs ≤ 5 ∧ dials_of (smtpPort s) mxs ds)) ∧
  (∃ ds, dialed (Forward s w from to data servers).1 = dialed w ++ ds ∧
     dials_of (smtpPort s) servers ds).
Proof.
  split.
  - assert (Hno : ∃ ds, dialed w = dialed w ++ ds ∧
      (ds = [] ∨ ∃ mxs, findable netLookupMX (Envelope.DomainOf to) mxs ∧
        0 < length mxs ≤ 5 ∧ dials_of (smtpPort s) mxs ds))
      by (exists []; rewrite (right_id_L [] (++)); auto).
    unfold Deliver. pose proof (lookupMXs_spec netLookupMX (Envelope.DomainOf to)) as HL.
    destruct (lookupMXs _ _) as [[[|mx mxs] [err|]] perm]; [exact Hno..|].
    destruct (fetchSTSPolicy s e d _) as [d' [policy|]]; [|exact Hno].
    set (a := mkAttempt _ _ _ _ _ _).
    pose proof (deliver_loop_careful a (allowed_by policy) (mx :: mxs) None w)
      as (_ & ds & E & Hds).
    destruct (deliver_loop a _ _ _ w) as [w' [[err p]|last]]; simpl in E;
      exists ds; (split; [done|]); right; exists (mx :: mxs);
      (split; [done|]); (split; [by eapply findable_five|done]).
  - unfold Forward. set (a := mkAttempt _ _ _ _ _ _).
    pose proof (deliver_loop_careful a (λ _, true) servers None w) as (_ & ds & E & Hds).
    destruct (deliver_loop a _ _ _ w) as [w' [[err p]|last]]; simpl in E; by exists ds.
Qed.

(** ** Errors *)

(** The code of the reply that made an attempt fail. *)
Definition reply_code (f : failure) : option Z :=
  match f with
  | MailRcptFailed (SmtpClient.TextError code _)
  | DataFailed (SmtpClient.TextError code _)
  | DataWriting (SmtpClient.TextError code _)
  | DataClosing (SmtpClient.TextError code _) => Some code
  | _ => None
  end.

Definition is_5xx (f : failure) : bool :=
  match reply_code f with
  | Some code => ((500 <=? code) && (code <? 600))%Z
  | None => false
  end.

(** A result is permanent exactly for the 5xx replies. *)
Definition classified (r : aresult) : Prop :=
  r.2 = match r.1 with Some f => is_5xx f | None => false end.

Lemma send_mail_classified a (c : Client Cert) : classified (send_mail a c).2.
Proof.
  unfold send_mail, classified.
  destruct (SmtpClient.MailAndRcpt _ _ c) as [c1 [[]|]]; try done.
  destruct (SmtpClient.Data c1) as [c2 [[]|]]; try done.
  destruct (SmtpClient.Write _ c2) as [c3 [[[]|] rest]]; try done.
  by destruct (SmtpClient.Close _ c3) as [c4 [[]|]].
Qed.

Lemma checked_send_classified a disk (w : world Cert) c :
  classified (checked_send a disk w c).2.
Proof.
  unfold checked_send.
  destruct (DomainInfo.OutgoingSecLevel _ _ _ _ _) as [[[] db] [fs we]]; [|done].
  simpl negb. cbv iota. match goal with |- context [if ?b then _ else _] =>
    destruct b; [done|] end.
  pose proof (send_mail_classified a c). by destruct (send_mail a c).
Qed.

Lemma deliver_once_classified a mx skipTLS (w : world Cert) r :
  (deliver_once a mx skipTLS w).2 = Some r → classified r.
Proof.
  unfold deliver_once. destruct (dial w _) as [w0 [nc|e]]; [|by intros [= <-]].
  destruct (SmtpClient.NewClient _ _ _) as [c0 [e|]]; [by intros [= <-]|].
  destruct (SmtpClient.Hello _ c0) as [c1 [e|]]; [by intros [= <-]|].
  destruct (SmtpClient.Extension _ c1) as [c2 ok].
  destruct (ok && negb skipTLS).
  - destruct (SmtpClient.StartTLS mx c2) as [c3 [e|]]; [done|].
    pose proof (checked_send_classified a (nc_disk nc) w0 c3).
    destruct (checked_send a _ w0 c3). by intros [= <-].
  - pose proof (checked_send_classified a (nc_disk nc) w0 c2).
    destruct (checked_send a _ w0 c2). by intros [= <-].
Qed.

Lemma deliver_classified a mx (w : world Cert) : classified (deliver a mx w).2.
Proof.
  unfold deliver. pose proof (deliver_once_classified a mx false w) as C1.
  destruct (deliver_once a mx false w) as [w1 [r|]]; [by apply C1|].
  pose proof (deliver_once_classified a mx true w1) as C2.
  destruct (deliver_once a mx true w1) as [w2 [r|]]; [by apply C2|done].
Qed.

Lemma deliver_loop_classified a allowed mxs last (w : world Cert) :
  match (deliver_loop a allowed mxs last w).2 with
  | inl r => classified r ∧ (r.1 = None ∨ r.2 = true)
  | inr last' => last' = last ∨ ∃ f, last' = Some f ∧ is_5xx f = false
  end.
Proof.
  revert last w. induction mxs as [|mx mxs IH]; intros last w.
  { by left. }
  unfold deliver_loop; fold (deliver_loop a allowed).
  destruct (allowed mx); simpl negb; cbv iota; [|apply IH].
  pose proof (deliver_classified a mx w) as C.
  destruct (deliver a mx w) as [w1 [[f|] []]]; simpl in C; [by split; [|right]| |
    by split; [|left]..].
  specialize (IH (Some f) w1).
  destruct (deliver_loop a allowed mxs (Some f) w1) as [w2 [r|l]]; [done|].
  simpl in *. right. destruct IH as [-> | ?]; [|done].
  exists f. split; [done|]. unfold classified in C. simpl in C. congruence.
Qed.

(** The cache of policies panics on names with a slash only. *)
Lemma Fetch_no_panic fake n domain :
  Sts.Fetch fake n domain ≠ Err Sts.ErrPanic.
Proof.
  unfold Sts.Fetch, Sts.UncheckedFetch, Sts.hasSTSRecord, Sts.httpGet,
    Sts.parsePolicy, Sts.Check, mbind, res_bind.
  repeat case_match; congruence.
Qed.

Lemma load_panics fault now cache d domain :
  Sts.load fault now cache d domain = Err Sts.ErrPanic ↔ "/"%char ∈ domain.
Proof.
  unfold Sts.load, Sts.domainPath. rewrite Contains_byte.
  destruct (bool_decide _) eqn:Hin.
  - by apply bool_decide_eq_true in Hin.
  - apply bool_decide_eq_false in Hin. split; [|done].
    unfold Sts.Check. repeat case_match; congruence.
Qed.

Lemma CacheFetch_panics e cache d domain :
  (Sts.CacheFetch e cache d domain).2 = Err Sts.ErrPanic ↔ "/"%char ∈ domain.
Proof.
  rewrite <- (load_panics (Sts.cfault e) (Sts.cnow e) cache d domain).
  unfold Sts.CacheFetch.
  pose proof (Fetch_no_panic [] (Sts.cnet e) domain) as HF.
  destruct (Sts.load _ _ cache d domain) as [p|err]; [done|].
  destruct err; try done; (split; [|done]); intros E; exfalso;
    (destruct (Sts.Fetch _ _ _); simpl in E; [|congruence]);
    by destruct (Sts.store _ _ _ _ _ _ _).
Qed.

Lemma fetchSTSPolicy_panics s e d domain :
  (fetchSTSPolicy s e d domain).2 = None ↔
  STSCache s ≠ None ∧ "/"%char ∈ domain.
Proof.
  unfold fetchSTSPolicy. destruct (STSCache s) as [cache|]; [|naive_solver].
  rewrite <- (CacheFetch_panics e cache d domain).
  destruct (Sts.CacheFetch e cache d domain) as [d' [p|err]]; simpl;
    [naive_solver|]. destruct err; naive_solver.
Qed.

(** C12: The outcomes of a delivery.  When no mail server can be found, that is
    permanent if the name of the domain is not valid, if the DNS has an empty list
    of hosts, or if its error is one that it does not call temporary, and not
    otherwise ([unfindable]).  When there is one, an error is permanent exactly when
    a server (or the client, for an address it cannot send) rejected the mail with
    a 5xx code; otherwise it will be tried again.  There is no other outcome but
    for one: with a cache of MTA-STS policies, [Deliver] panics when the domain has
    a slash in it and some mail server. *)
Theorem Deliver_outcomes s netLookupMX e d (w : world Cert) from to data :
  let domain := Envelope.DomainOf to in
  match (Deliver s netLookupMX e d w from to data).2 with
  | None =>
    (∃ mxs, findable netLookupMX domain mxs) ∧ STSCache s ≠ None ∧ "/"%char ∈ domain
  | Some (Some (CouldNotFindServer err), perm) => unfindable netLookupMX domain err perm
  | Some (err, perm) =>
    (∃ mxs, findable netLookupMX domain mxs) ∧
    (STSCache s = None ∨ ("/"%char ∉ domain)) ∧
    match err with
    | None => perm = false
    | Some (Failed f) => perm = true ∧ is_5xx f = true
    | Some (AllMXsFailed last) =>
      perm = false ∧ (∀ f, last = Some f → is_5xx f = false)
    | Some (AllServersFailed _) | Some (CouldNotFindServer _) => False
    end
  end.
Proof.
  simpl. unfold Deliver.
  pose proof (lookupMXs_spec netLookupMX (Envelope.DomainOf to)) as HL.
  destruct (lookupMXs _ _) as [[[|mx mxs] [err|]] perm]; [exact HL..|].
  assert (HF : ∃ mxs, findable netLookupMX (Envelope.DomainOf to) mxs) by eauto. clear HL.
  pose proof (fetchSTSPolicy_panics s e d (Envelope.DomainOf to)) as HP.
  destruct (fetchSTSPolicy s e d _) as [d' [policy|]]; simpl in HP;
    [|split; [done|by apply HP]].
  assert (STSCache s = None ∨ "/"%char ∉ Envelope.DomainOf to) as Hno.
  { destruct (decide ("/"%char ∈ Envelope.DomainOf to)); [|by right].
    left. destruct (STSCache s); [naive_solver|done]. }
  set (a := mkAttempt _ _ _ _ _ _).
  pose proof (deliver_loop_classified a (allowed_by policy) (mx :: mxs) None w) as C.
  destruct (deliver_loop a _ _ _ w) as [w' [[[f|] p]|last]]; simpl in *;
    (split; [done|]); (split; [done|]).
  - destruct C as [C [|Hp]]; [done|]. simpl in Hp. by subst p.
  - by destruct C as [C _].
  - split; [done|]. intros f ->. naive_solver.
Qed.

(** ** A delivery that works *)

Definition sent_text (c : Client Cert) : bytes :=
  concat (p_text <$> SmtpClient.sent c).

(** A client past its hello, all of whose writes get through. *)
Definition working (c : Client Cert) : Prop :=
  SmtpClient.alive (SmtpClient.cio c) = None ∧
  SmtpClient.didHello c = true ∧ SmtpClient.helloError c = None.

Definition client_rd (c : Client Cert) : DotReader.reader :=
  SmtpClient.rd (SmtpClient.cio c).

(** The replies that are read, in order, are the expected ones. *)
Fixpoint replies (codes : list Z) (r r' : DotReader.reader) : Prop :=
  match codes with
  | [] => r' = r
  | code :: codes =>
    ∃ r1 reply, SmtpClient.read_response code r = (r1, Ok reply) ∧
                replies codes r1 r'
  end.

(** The client says [t] and gets these replies. *)
Definition says (t : bytes) (codes : list Z) (c c' : Client Cert) : Prop :=
  working c' ∧ sent_text c' = sent_text c ++ t ∧
  replies codes (client_rd c) (client_rd c').

Lemma replies_app codes codes' r1 r2 r3 :
  replies codes r1 r2 → replies codes' r2 r3 → replies (codes ++ codes') r1 r3.
Proof.
  revert r1. induction codes as [|code codes IH]; simpl; intros r1; [by intros ->|].
  intros (r & reply & E & Hr) Hr'. exists r, reply. split; [done|]. by apply IH.
Qed.

Lemma says_trans t t' codes codes' c1 c2 c3 :
  says t codes c1 c2 → says t' codes' c2 c3 →
  says (t ++ t') (codes ++ codes') c1 c3.
Proof.
  intros (_ & T1 & R1) (W & T2 & R2). split; [done|].
  rewrite T2, T1, app_assoc. split; [done|]. by eapply replies_app.
Qed.

Lemma write_says t (c : Client Cert) :
  working c →
  (SmtpClient.write t c).2 = None ∧ says t [] c (SmtpClient.write t c).1.
Proof.
  intros (Ha & Hd & Hh). unfold SmtpClient.write. rewrite Ha. simpl.
  split; [done|]. split; [done|]. split; [|done].
  unfold sent_text. simpl. rewrite fmap_app. apply concat_snoc.
Qed.

Lemma ReadResponse_says code (c c' : Client Cert) reply :
  working c → SmtpClient.ReadResponse code c = (c', Ok reply) →
  says [] [code] c c'.
Proof.
  intros (Ha & Hd & Hh). unfold SmtpClient.ReadResponse.
  destruct (SmtpClient.read_response _ _) as [r x] eqn:E. intros [= <- ->].
  split; [done|]. split; [by rewrite (right_id_L [] (++))|].
  by exists r, reply.
Qed.

Lemma cmd_says code line (c c' : Client Cert) reply :
  working c → SmtpClient.cmd code line c = (c', Ok reply) →
  says (line ++ CRLF) [code] c c'.
Proof.
  intros Hw. unfold SmtpClient.cmd.
  pose proof (write_says (line ++ CRLF) c Hw) as [Ew Hs].
  destruct (SmtpClient.write _ c) as [c1 e]; simpl in Ew, Hs; subst e.
  intros E. pose proof (says_trans _ _ _ _ _ _ _ Hs
    (ReadResponse_says _ _ _ _ (proj1 Hs) E)) as HH.
  by rewrite (right_id_L [] (++)) in HH.
Qed.

Lemma Extension_working name (c : Client Cert) :
  working c → (SmtpClient.Extension name c).1 = c.
Proof.
  intros (_ & Hd & Hh). unfold SmtpClient.Extension, SmtpClient.hello.
  by rewrite Hd, Hh.
Qed.

Lemma prepare_working addr (c c' : Client Cert) addr' needs err :
  working c → SmtpClient.prepareForSMTPUTF8 addr c = (c', (addr', needs, err)) →
  c' = c ∧ (SmtpClient.isASCII addr = true → addr' = addr ∧ needs = false).
Proof.
  intros Hw. unfold SmtpClient.prepareForSMTPUTF8.
  destruct (SmtpClient.isASCII addr); [naive_solver|].
  pose proof (Extension_working "SMTPUTF8" c Hw) as Ex.
  destruct (SmtpClient.Extension _ c) as [c1 []]; simpl in Ex; subst c1;
    [naive_solver|].
  repeat case_match; naive_solver.
Qed.

(** MAIL and RCPT, with the parameters of MAIL. *)
Definition envelope_text (from params to : bytes) : bytes :=
  ("MAIL FROM:<" ++ from ++ ">" ++ params ++ CRLF)
    ++ "RCPT TO:<" ++ to ++ ">" ++ CRLF.

(** What may follow the sender in MAIL. *)
Definition mail_params : list bytes :=
  ["" : bytes; " BODY=8BITMIME"; " SMTPUTF8"; " BODY=8BITMIME SMTPUTF8"].

Lemma MailAndRcpt_says from to (c c' : Client Cert) :
  working c → SmtpClient.MailAndRcpt from to c = (c', None) →
  ∃ from' params to',
    says (envelope_text from' params to') [250; 25]%Z c c' ∧ params ∈ mail_params ∧
    (SmtpClient.isASCII from = true → from' = from) ∧
    (SmtpClient.isASCII to = true → to' = to).
Proof.
  intros Hw. unfold SmtpClient.MailAndRcpt.
  destruct (SmtpClient.prepareForSMTPUTF8 from c) as [c1 [[f n1] [e|]]] eqn:E1;
    [done|]. apply prepare_working in E1 as [-> Hf]; [|done].
  destruct (SmtpClient.prepareForSMTPUTF8 to c) as [c2 [[t n2] [e|]]] eqn:E2;
    [done|]. apply prepare_working in E2 as [-> Ht]; [|done].
  pose proof (Extension_working "8BITMIME" c Hw) as Ex.
  destruct (SmtpClient.Extension _ c) as [c3 ok]; simpl in Ex; subst c3.
  set (line := if n1 || n2 then _ else _).
  destruct (SmtpClient.cmd 250 line c) as [c4 [r4|e]] eqn:E4; [|done].
  apply cmd_says in E4; [|done].
  destruct (SmtpClient.cmd 25 _ c4) as [c5 [r5|e]] eqn:E5; [|done].
  apply cmd_says in E5; [|by destruct E4]. intros [= <-].
  exists f, ((if ok then " BODY=8BITMIME" else []) ++
             (if n1 || n2 then " SMTPUTF8" else [])), t.
  split; [|split; [destruct ok, (n1 || n2); by apply (bool_decide_eq_true_1 _)|naive_solver]].
  pose proof (says_trans _ _ _ _ _ _ _ E4 E5) as HH. clear -HH. subst line.
  unfold envelope_text.
  destruct ok, (n1 || n2); rewrite <- !app_assoc; rewrite <- !app_assoc in HH;
    exact HH.
Qed.

Lemma Write_Close_says data (c1 c2 c3 : Client Cert) e rest :
  working c1 → SmtpClient.Write data c1 = (c2, (e, rest)) →
  SmtpClient.Close rest c2 = (c3, None) →
  says (SmtpClient.dot_wire data) [250]%Z c1 c3.
Proof.
  intros Hw. unfold SmtpClient.Write, SmtpClient.dot_wire.
  destruct (SmtpClient.dot_bytes _ data) as [out st].
  set (k := (length out - 1) / SmtpClient.bufSize * SmtpClient.bufSize).
  assert (∀ c2, says (take k out) [] c1 c2 →
    SmtpClient.Close (drop k out ++ SmtpClient.dot_close st) c2 = (c3, None) →
    says (out ++ SmtpClient.dot_close st) [250]%Z c1 c3) as Hclose.
  { intros c Hc. unfold SmtpClient.Close.
    set (t := drop k out ++ SmtpClient.dot_close st).
    pose proof (write_says t c (proj1 Hc)) as [_ Hs].
    destruct (SmtpClient.write t c) as [c' e']; simpl in Hs.
    destruct (SmtpClient.ReadResponse 250 c') as [c'' [r|er]] eqn:ER; [|done].
    intros [= <-]. apply ReadResponse_says in ER; [|by destruct Hs].
    pose proof (says_trans _ _ _ _ _ _ _ (says_trans _ _ _ _ _ _ _ Hc Hs) ER) as HH.
    rewrite (right_id_L [] (++)) in HH. subst t.
    by rewrite app_assoc, take_drop in HH. }
  case_bool_decide as Hk.
  - intros [= <- <- <-]. apply Hclose. rewrite Hk, take_0. split; [done|].
    by rewrite (right_id_L [] (++)).
  - pose proof (write_says (take k out) c1 Hw) as [_ Hs].
    destruct (SmtpClient.write _ c1) as [c e']; simpl in Hs.
    intros [= <- <- <-]. by apply Hclose.
Qed.

Lemma Quit_says (c : Client Cert) :
  working c →
  sent_text (SmtpClient.Quit c).1 = sent_text c ++ "QUIT" ++ CRLF.
Proof.
  intros Hw. pose proof Hw as (_ & Hd & Hh).
  unfold SmtpClient.Quit, SmtpClient.hello. rewrite Hd.
  unfold SmtpClient.cmd.
  pose proof (write_says ("QUIT" ++ CRLF) c Hw) as [Ew (_ & Hs & _)].
  destruct (SmtpClient.write _ c) as [c1 e]; simpl in Ew; subst e.
  unfold SmtpClient.ReadResponse.
  by destruct (SmtpClient.read_response _ _) as [r [x|e]].
Qed.

(** What is said in a delivery that counts as done, and what is answered. *)
Lemma send_mail_says a (c c' : Client Cert) :
  working c → send_mail a c = (c', (None, false)) →
  ∃ from params to r,
    sent_text c' = sent_text c ++ envelope_text from params to
      ++ ("DATA" ++ CRLF) ++ SmtpClient.dot_wire (adata a) ++ "QUIT" ++ CRLF ∧
    params ∈ mail_params ∧
    (SmtpClient.isASCII (afrom a) = true → from = afrom a) ∧
    (SmtpClient.isASCII (ato a) = true → to = ato a) ∧
    replies [250; 25; 354; 250]%Z (client_rd c) r.
Proof.
  intros Hw. unfold send_mail.
  destruct (SmtpClient.MailAndRcpt _ _ c) as [c1 [e|]] eqn:E1; [done|].
  apply MailAndRcpt_says in E1 as (from & params & to & S1 & Hp & Hf & Ht); [|done].
  unfold SmtpClient.Data. destruct (SmtpClient.cmd 354 _ c1) as [c2 [r2|e]] eqn:E2;
    [|done]. apply cmd_says in E2; [|by destruct S1].
  destruct (SmtpClient.Write _ c2) as [c3 [[e|] rest]] eqn:E3; [done|].
  destruct (SmtpClient.Close rest c3) as [c4 [e|]] eqn:E4; [done|].
  pose proof (Write_Close_says _ _ _ _ _ _ (proj1 E2) E3 E4) as S3.
  intros [= <-]. pose proof (Quit_says c4 (proj1 S3)) as HQ.
  pose proof (says_trans _ _ _ _ _ _ _ S1 (says_trans _ _ _ _ _ _ _ E2 S3))
    as (_ & HT & HR).
  exists from, params, to, (client_rd c4). rewrite HQ, HT, <- !app_assoc. done.
Qed.

(** A delivery counts as done only when the server took it: it has
    answered 250 to MAIL, 25x to RCPT, 354 to DATA and 250 to the end of the
    message; and what it got, if the connection did not break, is the whole
    envelope and message.  A message in the form the server keeps (lines that
    end in LF, without CR) is read back by [readUntilDot] just as it is, so
    relaying between two servers does not change it. *)
Theorem delivered_intact a (c c' : Client Cert) :
  working c → send_mail a c = (c', (None, false)) →
  ∃ from params to r,
    sent_text c' = sent_text c ++ envelope_text from params to
      ++ ("DATA" ++ CRLF) ++ SmtpClient.dot_wire (adata a) ++ "QUIT" ++ CRLF ∧
    (SmtpClient.isASCII (afrom a) = true → from = afrom a) ∧
    (SmtpClient.isASCII (ato a) = true → to = ato a) ∧
    replies [250; 25; 354; 250]%Z (client_rd c) r ∧
    (∀ ls rest fin max,
       adata a = concat ((λ l, l ++ [LF]) <$> ls) → ls ≠ [] →
       Forall DotReader.clean ls →
       (Z.of_nat (length (SmtpClient.dot_wire (adata a))) ≤ max)%Z →
       DotReader.readUntilDot
         (DotReader.mkReader (SmtpClient.dot_wire (adata a) ++ rest) fin) max
         = (adata a, None, DotReader.mkReader rest fin)).
Proof.
  intros Hw E. destruct (send_mail_says a c c' Hw E) as (from & params & to & r & Hs & _ & Hf & Ht & Hr).
  exists from, params, to, r. split_and!; [done..|]. intros ls rest' fin max -> Hne Hls Hmax.
  rewrite SmtpClient.dot_wire_lines in * by done.
  by apply DotReader.readUntilDot_stuffed.
Qed.

End Deliver.

(** ** The MDA *)

(** What must not get from an address to the arguments: slash, semicolon, quotes,
    backslash, parentheses, square and curly brackets, backquote and | * & $ % !. *)
Definition forbidden : bytes :=
  ["/"; ";"; DQUOTE; "'"; "\"; "|"; "*"; "&"; "$"; "%"; "("; ")"; "["; "]"; "{"; "}"; "`"; "!"]%char.

(** A byte that is no white space, no control character and not one of these; those
    of longer runes are. *)
Definition mda_safe (c : ascii) : bool :=
  negb (Utf8.is_ascii c) ||
  negb (IsSpace (Utf8.bval c) || IsControl (Utf8.bval c)
        || ContainsRune forbidden (Utf8.bval c)).

Lemma sanitizeForMDA_safe s :
  Forall (λ c, mda_safe c = true) (sanitizeForMDA s).
Proof.
  unfold sanitizeForMDA, Map. change mda_unsafe with forbidden. apply Forall_concat, Forall_fmap.
  apply Forall_true. intros [r b]. simpl.
  destruct (IsSpace r || IsControl r || ContainsRune forbidden r) eqn:E;
    [constructor|].
  destruct (N.lt_ge_cases r 128) as [Hr|Hr].
  - destruct (encode_low r Hr) as [-> Hb]. constructor; [|constructor].
    unfold mda_safe. by rewrite Hb, E, orb_true_r.
  - eapply Forall_impl; [by apply encode_high|]. intros c Hc. simpl in Hc.
    unfold mda_safe. by rewrite Hc.
Qed.

(** On ASCII it removes those bytes, and nothing else. *)
Lemma sanitizeForMDA_filter s :
  forallb Utf8.is_ascii s = true → sanitizeForMDA s = filter (λ c, mda_safe c = true) s.
Proof.
  intros Ha. unfold sanitizeForMDA, Map. change mda_unsafe with forbidden. rewrite chunks_ascii by done.
  rewrite <- list_fmap_compose. induction s as [|c s IH]; [done|]. simpl in Ha.
  apply andb_true_iff in Ha as [Ha Ha']. rewrite fmap_cons, concat_cons, IH by done.
  rewrite filter_cons. assert (Es : mda_safe c = negb (IsSpace (Utf8.bval c)
    || IsControl (Utf8.bval c) || ContainsRune forbidden (Utf8.bval c)))
    by (unfold mda_safe; by rewrite Ha). rewrite Es. simpl.
  destruct (IsSpace _ || IsControl _ || ContainsRune forbidden _) eqn:E; [done|]. simpl.
  apply N.ltb_lt in Ha. destruct (encode_low _ Ha) as [-> _]. unfold Utf8.bval.
  by rewrite ascii_N_embedding.
Qed.

Lemma Split_subset addr c :
  (c ∈ Envelope.UserOf addr ∨ c ∈ Envelope.DomainOf addr) → c ∈ addr.
Proof.
  unfold Envelope.UserOf, Envelope.DomainOf.
  destruct (Envelope.Split_cases addr) as [[-> _]|(u & d & -> & -> & _)];
    simpl; set_solver.
Qed.

(** Every value that is put in an argument comes from a sanitized address. *)
Lemma mda_pairs_safe from to :
  Forall (λ p, Forall (λ c, mda_safe c = true) p.2)
    (mda_pairs (sanitizeForMDA from) (sanitizeForMDA to)).
Proof.
  pose proof (sanitizeForMDA_safe from) as Hf.
  pose proof (sanitizeForMDA_safe to) as Ht.
  rewrite Forall_forall in Hf, Ht. unfold mda_pairs.
  repeat constructor; simpl; apply Forall_forall; intros c Hc;
    (done || eauto using Split_subset).
Qed.

Lemma Replace_safe pairs skip arg :
  Forall (λ p, Forall (λ c, mda_safe c = true) p.2) pairs →
  Forall (λ c, c ∈ arg ∨ mda_safe c = true) (Replace pairs skip arg).
Proof.
  intros Hp. revert skip. induction arg as [|c arg IH]; intros skip; simpl;
    [constructor|].
  assert (∀ k, Forall (λ x, x ∈ c :: arg ∨ mda_safe x = true)
    (Replace pairs k arg)) as IH'.
  { intros k. eapply Forall_impl; [apply (IH k)|]. set_solver. }
  destruct skip as [|skip]; [|apply IH'].
  destruct (List.find _ pairs) as [[old new]|] eqn:E.
  - apply List.find_some in E as [Hin _]. apply list_elem_of_In in Hin.
    rewrite Forall_forall in Hp. specialize (Hp _ Hin). simpl in Hp.
    apply Forall_app. split; [|apply IH'].
    eapply Forall_impl; [exact Hp|]. by right.
  - constructor; [by left; left|apply IH'].
Qed.

(** An argument of the configuration, in parts: text without a percent sign, and
    the names of what is put there. *)
Inductive part :=
| Literal (s : bytes)
| PFrom | PFromUser | PFromDomain | PTo | PToUser | PToDomain.

Definition part_text (x : part) : bytes :=
  match x with
  | Literal s => s
  | PFrom => "%from%" | PFromUser => "%from_user%" | PFromDomain => "%from_domain%"
  | PTo => "%to%" | PToUser => "%to_user%" | PToDomain => "%to_domain%"
  end.

Definition part_value (from to : bytes) (x : part) : bytes :=
  match x with
  | Literal s => s
  | PFrom => from
  | PFromUser => Envelope.UserOf from
  | PFromDomain => Envelope.DomainOf from
  | PTo => to
  | PToUser => Envelope.UserOf to
  | PToDomain => Envelope.DomainOf to
  end.

Definition well_formed (x : part) : Prop :=
  match x with Literal s => "%"%char ∉ s | _ => True end.

Definition template (ps : list part) : bytes := concat (part_text <$> ps).

Lemma Replace_skip pairs u s : Replace pairs (length u) (u ++ s) = Replace pairs 0 s.
Proof. induction u as [|c u IH]; [done|]. exact IH. Qed.

Lemma Replace_literal from to u s :
  ("%"%char ∉ u) → Replace (mda_pairs from to) 0 (u ++ s) = u ++ Replace (mda_pairs from to) 0 s.
Proof.
  induction u as [|c u IH]; intros Hu; [done|]. apply not_elem_of_cons in Hu as [Hc Hu].
  cbn [Replace app]. assert (E : List.find (λ p, HasPrefix (c :: u ++ s) p.1) (mda_pairs from to) = None).
  { unfold mda_pairs, HasPrefix. cbn [List.find fst strip_prefix].
    by rewrite (bool_decide_eq_false_2 _ Hc). }
  rewrite E. by rewrite IH.
Qed.

Lemma Replace_part from to x s :
  well_formed x →
  Replace (mda_pairs from to) 0 (part_text x ++ s)
    = part_value from to x ++ Replace (mda_pairs from to) 0 s.
Proof.
  destruct x as [u| | | | | |]; [apply Replace_literal|..]; intros _; reflexivity.
Qed.

Lemma Replace_template from to ps :
  Forall well_formed ps →
  Replace (mda_pairs from to) 0 (template ps) = concat (part_value from to <$> ps).
Proof.
  unfold template. induction 1 as [|x ps Hx _ IH]; [done|].
  rewrite !fmap_cons, !concat_cons, Replace_part by done. by rewrite IH.
Qed.

(** C30: Local delivery.  The program gets the message with CRLF line endings, and
    the arguments of the configuration with the addresses put in them: an argument
    made of text without percent signs and of placeholders is given with each
    placeholder replaced by the sender, the recipient, or the user or the domain of
    one of them.  Of the addresses, all that gets into an argument has no ASCII
    white space, no ASCII control character and no slash, semicolon, quote,
    backquote, backslash, parenthesis, square or curly bracket, or any of
    | * & $ % ! ([mda_safe]); from an ASCII address just these are removed.  It is done only when the program succeeds; a failure is
    transient exactly for a timeout or the exit status 75 (EX_TEMPFAIL). *)
Theorem MDA_Deliver_safe exec p from to data :
  (∃ from' to' args,
     Forall (λ c, mda_safe c = true) from' ∧ Forall (λ c, mda_safe c = true) to' ∧
     (forallb Utf8.is_ascii from = true → from' = filter (λ c, mda_safe c = true) from) ∧
     (forallb Utf8.is_ascii to = true → to' = filter (λ c, mda_safe c = true) to) ∧
     Forall2 (λ arg a,
       Forall (λ c, c ∈ arg ∨ mda_safe c = true) a ∧
       ∀ ps, Forall well_formed ps → arg = template ps →
         a = concat (part_value from' to' <$> ps)) (Args p) args ∧
     let r := exec (Binary p) args (Timeout p) (Normalize.ToCRLF data) in
     let '(err, perm) := MDA_Deliver exec p from to data in
     (err = None ↔ r = ExecOk) ∧
     (err ≠ None →
        perm = false ↔ r = ExecTimeout ∨ ∃ output, r = ExecExit 75 output)).
Proof.
  exists (sanitizeForMDA from), (sanitizeForMDA to),
    (Replace (mda_pairs (sanitizeForMDA from) (sanitizeForMDA to)) 0 <$> Args p).
  split_and!; auto using sanitizeForMDA_safe, sanitizeForMDA_filter.
  - rewrite Forall2_fmap_r. apply Forall_Forall2_diag, Forall_true. intros arg.
    split; [apply Replace_safe, mda_pairs_safe|]. intros ps Hps ->. by apply Replace_template.
  - unfold MDA_Deliver.
    destruct (exec (Binary p) _ (Timeout p) _) as [| |status out|msg out];
      (split; [naive_solver|]); intros Herr; try naive_solver.
    rewrite negb_false_iff, bool_decide_eq_true. naive_solver.
Qed.

(** ** A session *)

Module Example.
Import AsciiOnly.

(** Certificates are good or bad. *)
#[local] Instance x509 : X509 bool :=
  {| x509_Verify (c : bool) (_ : bytes) (_ : list bool) :=
       if c then None else Some "x509: invalid" |}.

#[local] Instance json : Sts.PolicyJSON :=
  {| Sts.json_Marshal (_ : Sts.Policy) := Err "unused";
     Sts.json_Unmarshal (_ : bytes) := Err "unused" |}.

#[local] Instance text : ProtoText DomainInfo.Domain :=
  {| text_Marshal (_ : DomainInfo.Domain) := Err "unused";
     text_Unmarshal (_ : bytes) := Err "unused" |}.

Definition lines (ls : list bytes) : bytes := concat ((λ l, l ++ CRLF) <$> ls).

Definition stream (ls : list bytes) : SmtpClient.io :=
  SmtpClient.mkIo (DotReader.mkReader (lines ls) DotReader.EndEOF) None 0.

Definition mail_replies : list bytes :=
  ["250 ok"; "250 ok"; "354 go"; "250 queued"; "221 bye"].

Definition no_disk : syscalls :=
  mkSyscalls (Err "disk full") None None None 0 None None None.

(** A server with STARTTLS and this certificate. *)
Definition server (cert : bool) : netconn bool :=
  mkNetconn
    (stream ["220 mx"; "250-mx"; "250-8BITMIME"; "250 STARTTLS"; "220 go"])
    (Ok (cert, [], stream (["250-mx"; "250 8BITMIME"] ++ mail_replies)))
    no_disk.

Definition smtp (cache : option Sts.PolicyCache) : SMTP := mkSMTP "me" "25" cache.

Definition level_db (l : DomainInfo.SecLevel) : DomainInfo.DB :=
  DomainInfo.mkDB (mkStore "dir")
    {[ "d" := DomainInfo.mkDomain "d" DomainInfo.PLAIN l ]}.

Definition start (ds : list (res bytes (netconn bool))) (l : DomainInfo.SecLevel) :
  world bool := mkWorld ds [] [] (level_db l) ∅.

(** The dialog of a delivery over TLS: the channels and what was said. *)
Definition dialog (w : world bool) : list (bool * bytes) :=
  (λ p, (chan_level (p_chan p) == DomainInfo.TLS_SECURE, p_text p)) <$> wire w.

Example forward_over_tls :
  let '(w, r) := Forward (smtp None) (start [Ok (server true)] DomainInfo.PLAIN)
                   "<>" "u@d" (".x" ++ [LF]) ["mx"] in
  r = (None, false) ∧
  dialog w =
    [(false, "EHLO me" ++ CRLF); (false, "STARTTLS" ++ CRLF);
     (true, "EHLO me" ++ CRLF); (true, "MAIL FROM:<> BODY=8BITMIME" ++ CRLF);
     (true, "RCPT TO:<u@d>" ++ CRLF); (true, "DATA" ++ CRLF);
     (true, "..x" ++ CRLF ++ "." ++ CRLF); (true, "QUIT" ++ CRLF)].
Proof. vm_compute. by split. Qed.

(** A domain that was secure does not get mail over a bad certificate. *)
Example downgrade_refused :
  let '(w, r) := Forward (smtp None)
                   (start [Ok (server false)] DomainInfo.TLS_SECURE)
                   "a@b" "u@d" "x" ["mx"] in
  r = (Some (AllServersFailed
               (Some (SecLevelCheckFailed DomainInfo.TLS_INSECURE))), false) ∧
  length (wire w) = 3.
Proof. vm_compute. by split. Qed.

(** A recipient's domain with a slash stops the whole server: the DNS has no
    such name, which counts as a domain without MX records, and the cache
    panics. *)
Example slash_panics e d w :
  (Deliver (Cert := bool) (smtp (Some (Sts.mkCache "dir")))
     (λ _, Err (MXDNSError true false "no such host")) e d w
     "a@b" "u@c/d" "x").2 = None.
Proof. done. Qed.

Example mda_args :
  MDA_Deliver (λ _ args _ _, ExecExit 75 (Join args " "))
    (mkMDA "mda" ["-f"; "%from%"; "%to_user%+%to_domain%"] 0)
    "a;b@c" "%from%@d" "x"
  = (Some (DeliveryFailed (ExecExit 75 "-f ab@c from+d")), false).
Proof. by vm_compute. Qed.

Definition client : Client bool :=
  SmtpClient.mkClient "mx" SmtpClient.Plain (stream mail_replies) (Err "no TLS")
    "me" true None None [].

Definition mail : attempt :=
  mkAttempt (smtp None) "a@b" "u@d" (".x" ++ [LF]) "d" None.

Lemma delivered_intact_witness :
  replies [250; 25; 354; 250]%Z (client_rd client)
    (DotReader.mkReader (lines ["221 bye"]) DotReader.EndEOF) ∧
  DotReader.readUntilDot
    (DotReader.mkReader (SmtpClient.dot_wire (adata mail) ++ "QUIT") DotReader.EndEOF)
    100 = (adata mail, None, DotReader.mkReader "QUIT" DotReader.EndEOF).
Proof.
  destruct (delivered_intact mail client (send_mail mail client).1)
    as (from & params & to & r & _ & _ & _ & HR & HI).
  - done.
  - apply pair_snd. by vm_compute.
  - split.
    + destruct HR as (r1 & y1 & E1 & r2 & y2 & E2 & r3 & y3 & E3 & r4 & y4 & E4 & ->).
      exists r1, y1. split; [exact E1|]. exists r2, y2. split; [exact E2|].
      exists r3, y3. split; [exact E3|]. exists r4, y4. split; [exact E4|].
      vm_compute in E1. injection E1 as <- _. vm_compute in E2.
      injection E2 as <- _. vm_compute in E3. injection E3 as <- _.
      vm_compute in E4. by injection E4 as <- _.
    + apply (HI [".x"] "QUIT" DotReader.EndEOF 100%Z); [done..| |by vm_compute].
      by repeat constructor; apply (bool_decide_unpack _); vm_compute.
Defined.

End Example.

End CourierProps.
