(* ===== verification/Relay.v ===== *)
(** From one server to another: the SMTP client of the courier
    ([internal/courier] over [internal/smtp]) at one end of a connection, and the
    connection handler ([internal/smtpsrv]) at the other one.

    Each end is a function of what it reads, so that a conversation is a pair of
    texts, where what one end reads is what the other one sends. *)

From S2P Require Import Prelude GoStrings Envelope DotReader Aliases Store.
From S2P Require Import DomainInfo Auth Haproxy Conn ConnText ConnProps.
From S2P Require Import Sts SmtpClient Courier CourierProps.
#[local] Open Scope go_scope.

Module Relay.
Import DotReader.

(** ** Reading the replies of the server *)

Lemma Itoa_three code : (100 ≤ code ≤ 999)%Z →
  ∃ a b c, Itoa code = [a; b; c] ∧ Atoi [a; b; c] = (code, None) ∧ LF ∉ [a; b; c].
Proof.
  intros Hc.
  assert (Hall : forallb (λ n, match Itoa (Z.of_nat n) with
    | [a; b; c] => bool_decide (Atoi [a; b; c] = (Z.of_nat n, None) ∧ LF ∉ [a; b; c])
    | _ => false end) (seq 100 900) = true) by (vm_compute; reflexivity).
  rewrite forallb_forall in Hall. specialize (Hall (Z.to_nat code)).
  rewrite in_seq, Z2Nat.id in Hall by lia. specialize (Hall ltac:(lia)).
  destruct (Itoa code) as [|a [|b [|c [|]]]]; try done.
  apply bool_decide_eq_true_1 in Hall as [Ha Hl]. exists a, b, c. done.
Qed.

Lemma TrimSuffix_CR l : TrimSuffix (l ++ [CR]) [CR] = l.
Proof.
  unfold TrimSuffix, HasSuffix. rewrite reverse_snoc. cbn [reverse HasPrefix].
  replace (HasPrefix (CR :: reverse l) (reverse [CR])) with true by done.
  rewrite length_app. cbn [length]. replace (length l + 1 - 1) with (length l) by lia.
  by rewrite take_app_length.
Qed.

Lemma ReadLine_CRLF l rest fin :
  LF ∉ l → SmtpClient.ReadLine (mkReader (l ++ CRLF ++ rest) fin) = (mkReader rest fin, Ok l).
Proof.
  intros Hl. unfold SmtpClient.ReadLine. cbn [pending ending].
  replace (l ++ CRLF ++ rest) with ((l ++ [CR]) ++ LF :: rest) by (by rewrite <- app_assoc).
  rewrite Cut_byte_app.
  - rewrite TrimSuffix_CR. by destruct l.
  - rewrite elem_of_app, list_elem_of_singleton. naive_solver.
Qed.

Lemma parse_reply_line k code (dash : bool) l : (100 ≤ code ≤ 999)%Z →
  SmtpClient.parseCodeLine (Itoa code ++ (if dash then "-"%char else SP) :: l) k =
  SmtpClient.mkCodeline code dash l
    (if SmtpClient.expected k code then None else Some (SmtpClient.TextError code l)).
Proof.
  intros Hc. destruct (Itoa_three code Hc) as (a & b & c & -> & Ha & _).
  unfold SmtpClient.parseCodeLine. cbn [app].
  replace (((if dash then "-"%char else SP) != SP) && ((if dash then "-"%char else SP) != "-"%char))
    with false by (by destruct dash).
  replace ((if dash then "-"%char else SP) == "-"%char) with dash by (by destruct dash).
  rewrite Ha. cbn. rewrite (proj2 (Z.ltb_ge _ _)) by lia. done.
Qed.

Lemma reply_line_LF code (dash : bool) l : (100 ≤ code ≤ 999)%Z → LF ∉ l →
  LF ∉ Itoa code ++ (if dash then "-"%char else SP) :: l.
Proof.
  intros Hc Hl. destruct (Itoa_three code Hc) as (a & b & c & -> & _ & Hd).
  rewrite elem_of_app. intros [?|[E|?]%elem_of_cons]; [done| |done]. by destruct dash.
Qed.

Lemma ReadLine_reply code (dash : bool) l rest fin : (100 ≤ code ≤ 999)%Z → LF ∉ l →
  SmtpClient.ReadLine (mkReader (Itoa code ++ ([if dash then "-"%char else SP] ++ l ++ CRLF ++ rest)) fin)
    = (mkReader rest fin, Ok (Itoa code ++ (if dash then "-"%char else SP) :: l)).
Proof.
  intros Hc Hl. rewrite <- (ReadLine_CRLF (Itoa code ++ (if dash then "-"%char else SP) :: l) rest fin).
  - by rewrite <- app_assoc.
  - by apply reply_line_LF.
Qed.

Lemma ReadLine_last code l rest fin : (100 ≤ code ≤ 999)%Z → LF ∉ l →
  SmtpClient.ReadLine (mkReader (Itoa code ++ " " ++ l ++ CRLF ++ rest) fin)
    = (mkReader rest fin, Ok (Itoa code ++ SP :: l)).
Proof. exact (ReadLine_reply code false l rest fin). Qed.

Lemma ReadLine_more code l rest fin : (100 ≤ code ≤ 999)%Z → LF ∉ l →
  SmtpClient.ReadLine (mkReader (Itoa code ++ "-" ++ l ++ CRLF ++ rest) fin)
    = (mkReader rest fin, Ok (Itoa code ++ "-"%char :: l)).
Proof. exact (ReadLine_reply code true l rest fin). Qed.

Lemma read_more_reply n code ls l rest fin m :
  (100 ≤ code ≤ 999)%Z → Forall (λ x, LF ∉ x) (ls ++ [l]) → length ls ≤ n →
  ∃ m', SmtpClient.read_more n (mkReader (ConnText.reply_text code ls l ++ rest) fin) code m
    = (mkReader rest fin, Ok m').
Proof.
  intros Hc. revert n m. induction ls as [|x ls IH]; intros n m Hls Hn.
  - cbn [app] in Hls; rewrite Forall_singleton in Hls. unfold ConnText.reply_text. cbn [fmap list_fmap concat]; rewrite app_nil_l.
    rewrite <- !app_assoc.
    pose proof (ReadLine_last code l rest fin Hc Hls) as R.
    destruct n; cbn [SmtpClient.read_more]; rewrite R, (parse_reply_line 0 code false l Hc); cbn;
      rewrite bool_decide_eq_true_2 by done; cbn; eauto.
  - cbn [app] in Hls. apply Forall_cons in Hls as [Hx Hls].
    destruct n as [|n]; [cbn in Hn; lia|].
    destruct (IH n (m ++ [LF] ++ x) Hls) as [m' E]; [cbn in Hn; lia|]. exists m'. rewrite <- E.
    unfold ConnText.reply_text. rewrite fmap_cons, concat_cons, <- !app_assoc.
    cbn [SmtpClient.read_more]. rewrite (ReadLine_more code x _ fin Hc Hx).
    rewrite (parse_reply_line 0 code true x Hc). cbn [SmtpClient.cl_err SmtpClient.cl_code
      SmtpClient.cl_continued SmtpClient.expected].
    rewrite (bool_decide_eq_true_2 (code = code)) by done. done.
Qed.

Lemma reply_text_length code ls l rest :
  length ls ≤ length (ConnText.reply_text code ls l ++ rest).
Proof.
  unfold ConnText.reply_text. rewrite !length_app.
  assert (length ls ≤ length (concat ((λ x, Itoa code ++ "-" ++ x ++ CRLF) <$> ls))); [|lia].
  induction ls as [|x ls IH]; [done|]. rewrite fmap_cons, concat_cons, !length_app. cbn [length]. lia.
Qed.

(** A reply is read whole, and only one that was expected is taken. *)
Lemma read_response_reply k code ls l rest fin :
  (100 ≤ code ≤ 999)%Z → Forall (λ x, LF ∉ x) (ls ++ [l]) →
  ∃ x, SmtpClient.read_response k (mkReader (ConnText.reply_text code ls l ++ rest) fin)
    = (mkReader rest fin, x) ∧ (∀ y, x = Ok y → SmtpClient.expected k code = true).
Proof.
  intros Hc Hls. unfold SmtpClient.read_response. destruct ls as [|x ls].
  - cbn [app] in Hls; rewrite Forall_singleton in Hls. unfold ConnText.reply_text. cbn [fmap list_fmap concat]; rewrite app_nil_l.
    rewrite <- !app_assoc. rewrite (ReadLine_last code l rest fin Hc Hls).
    rewrite (parse_reply_line k code false l Hc). cbn. eexists. split; [done|].
    intros y. by destruct (SmtpClient.expected k code).
  - cbn [app] in Hls. apply Forall_cons in Hls as [Hx Hls].
    unfold ConnText.reply_text at 1. rewrite fmap_cons, concat_cons, <- !app_assoc.
    rewrite (ReadLine_more code x _ fin Hc Hx), (parse_reply_line k code true x Hc).
    cbn [SmtpClient.cl_continued SmtpClient.cl_code SmtpClient.cl_msg SmtpClient.cl_err pending].
    destruct (read_more_reply (length (ConnText.reply_text code ls l ++ rest)) code ls l rest fin x Hc Hls
      (reply_text_length _ _ _ _)) as [m' E].
    unfold ConnText.reply_text in E. rewrite <- !app_assoc in E. rewrite E.
    eexists. split; [done|]. intros y. destruct (SmtpClient.expected k code); [done|]. by destruct (_ && _).
Qed.

(** Every response of the server is such a reply. *)
Lemma writeResponse_reply code msg : ∃ ls l,
  writeResponse_text code msg = ConnText.reply_text code ls l ∧ Forall (λ x, LF ∉ x) (ls ++ [l]).
Proof.
  unfold writeResponse_text. pose proof (Split_byte_Forall msg LF) as Hs.
  pose proof (Split_not_nil msg [LF] ltac:(done)) as Hn. revert Hs Hn.
  generalize (Split msg [LF]) as ps. induction ps as [|p ps IH]; intros Hs Hn; [done|].
  apply Forall_cons in Hs as [Hp Hs].
  destruct ps as [|p' [|p'' ps]].
  - exists [], p. split; [done|]. by apply Forall_singleton.
  - exists [], p. split; [done|]. by apply Forall_singleton.
  - destruct (IH Hs) as (ls & l & E & Hl); [done|]. exists (p :: ls), l. split; [|by constructor].
    change (response_lines code (p :: p' :: p'' :: ps))
      with (Itoa code ++ "-" ++ p ++ CRLF ++ response_lines code (p' :: p'' :: ps)).
    rewrite E. unfold ConnText.reply_text. by rewrite fmap_cons, concat_cons, <- !app_assoc.
Qed.

(** What a client makes of a response of the server. *)
Lemma read_response_of_server k code msg rest fin r y :
  (100 ≤ code ≤ 999)%Z →
  SmtpClient.read_response k (mkReader (writeResponse_text code msg ++ rest) fin) = (r, Ok y) →
  r = mkReader rest fin ∧ SmtpClient.expected k code = true.
Proof.
  intros Hc. destruct (writeResponse_reply code msg) as (ls & l & -> & Hls).
  destruct (read_response_reply k code ls l rest fin Hc Hls) as (x & E & Hx).
  rewrite E. intros [= <- ->]. split; [done|]. by eapply Hx.
Qed.

Lemma read_response_nothing k fin r y : SmtpClient.read_response k (mkReader [] fin) ≠ (r, Ok y).
Proof. done. Qed.

(** ** What the server sends *)

Section Server.
Import Smtpsrv.
Context `{Unicode, Precis, NetMail, NetIP, AliasWorld, ErrorText}.
Context `{ProtoText DomainInfo.Domain}.
Context {B : Type} `{Auth.Backend B}.
Context {Q : Type} `{MailQueue Q}.
Context {Signer VerifyResult : Type} `{Dkim Signer VerifyResult}.

#[local] Abbreviation Conn := (Conn (B := B) (Q := Q) (Signer := Signer)
                                 (VerifyResult := VerifyResult)).

(** A connection that does not break. *)
Definition healthy (w : writer) : Prop := alive w = None ∧ broken w = None.

Definition appends (c c' : Conn) : Prop :=
  healthy (wr c) → healthy (wr c') ∧ ∃ out, sent (wr c') = sent (wr c) ++ out.

Lemma appends_same (c c' : Conn) : wr c' = wr c → appends c c'.
Proof. intros E Hh. rewrite E. split; [done|]. exists []. by rewrite (right_id_L [] (++)). Qed.

Lemma appends_trans (c1 c2 c3 : Conn) : appends c1 c2 → appends c2 c3 → appends c1 c3.
Proof.
  intros A1 A2 Hh. destruct (A1 Hh) as [H12 [o1 E1]]. destruct (A2 H12) as [H23 [o2 E2]].
  split; [done|]. exists (o1 ++ o2). by rewrite E2, E1, app_assoc.
Qed.

Lemma write_flush_healthy w b :
  healthy w → write_flush w b = (mkWriter (sent w ++ b) None None, None).
Proof. intros [Ha Hb]. unfold write_flush. by rewrite Ha, Hb. Qed.

(** The connection after it sent a text. *)
Definition sends (c : Conn) (t : bytes) : Conn := set_io c (rd c) (mkWriter (sent (wr c) ++ t) None None).

Lemma writeResponse_healthy (c : Conn) code msg :
  healthy (wr c) → writeResponse c code msg = (sends c (writeResponse_text code msg), None).
Proof. intros Hh. unfold writeResponse. by rewrite write_flush_healthy. Qed.

Lemma printfLine_healthy (c : Conn) l : healthy (wr c) → printfLine c l = sends c (l ++ CRLF).
Proof. intros Hh. unfold printfLine. by rewrite write_flush_healthy. Qed.

Lemma sends_healthy (c : Conn) t : healthy (wr (sends c t)).
Proof. done. Qed.

Lemma writeResponse_appends (c : Conn) code msg c' err :
  writeResponse c code msg = (c', err) → appends c c'.
Proof.
  intros E Hh. rewrite writeResponse_healthy in E by done. injection E as <- _.
  split; [done|]. by eexists.
Qed.

Lemma printfLine_appends (c : Conn) l : appends c (printfLine c l).
Proof. intros Hh. rewrite printfLine_healthy by done. split; [done|]. by eexists. Qed.

Lemma check_sender_writer e (c : Conn) raw c' r : check_sender e c raw = (c', r) → wr c' = wr c.
Proof. unfold check_sender, secLevelCheck. intros E. repeat case_match; simplify_eq; done. Qed.

Lemma MAIL_writer e (c : Conn) params c' o : MAIL e c params = (c', o) → wr c' = wr c.
Proof.
  unfold MAIL. do 2 (case_match; [by intros [= <- _]|]).
  destruct (Sscanf_word _) as [raw|]; [|by intros [= <- _]].
  destruct (_ == "<>"); [by intros [= <- _]|].
  destruct (check_sender e _ raw) as [c1 [a|r]] eqn:E; apply check_sender_writer in E;
    intros [= <- _]; exact E.
Qed.

Lemma RCPT_writer (c : Conn) params c' o : RCPT c params = (c', o) → wr c' = wr c.
Proof. unfold RCPT. intros E. repeat case_match; simplify_eq; done. Qed.

Lemma dkim_sign_loop_writer e signers (c c' : Conn) err :
  dkim_sign_loop e signers c = (c', err) → wr c' = wr c.
Proof.
  revert c. induction signers as [|s ss IH]; intros c; simpl; [by intros [= <- _]|].
  case_match; [|by intros [= <- _]]. intros E. by apply IH in E.
Qed.

Lemma data_queue_writer e (c c' : Conn) o : data_queue e c = (c', o) → wr c' = wr c.
Proof.
  assert (HA : ∀ c : Conn, wr (addReceivedHeader e c) = wr c).
  { intros c0. unfold addReceivedHeader. repeat case_match; simplify_eq; done. }
  unfold data_queue. destruct (runPostDataHook _ _ _) as [out|[perm msg]]; [|intros [= <- _]; apply HA].
  destruct (q_Put _ _ _ _) as [q [id|err]]; intros [= <- _]; apply HA.
Qed.

Lemma data_message_writer e (c c' : Conn) o : data_message e c = (c', o) → wr c' = wr c.
Proof.
  unfold data_message. case_match; [by intros [= <- _]|]. case_match.
  - destruct (dkimSign e c) as [c1 err] eqn:E.
    assert (Hw : wr c1 = wr c).
    { revert E. unfold dkimSign. case_match; [by intros [= <- _]|]. apply dkim_sign_loop_writer. }
    destruct err; [intros [= <- _]; exact Hw|]. intros E2. apply data_queue_writer in E2. congruence.
  - destruct (dkimVerify e c) as [c1|] eqn:E; [|by intros [= <- _]].
    assert (Hw : wr c1 = wr c).
    { revert E. unfold dkimVerify. repeat case_match; intros; simplify_eq; done. }
    intros E2. apply data_queue_writer in E2. congruence.
Qed.

Lemma DATA_appends e (c c' : Conn) o : DATA e c = (c', o) → appends c c'.
Proof.
  unfold DATA. do 3 (case_match; [intros [= <- _]; by apply appends_same|]).
  destruct (writeResponse c 354 _) as [c1 [err|]] eqn:E1; apply writeResponse_appends in E1;
    [by intros [= <- _]|].
  destruct (readUntilDot _ _) as [[d err] r]. set (c2 := set_data _ d).
  assert (A2 : appends c c2) by (eapply appends_trans; [exact E1|by apply appends_same]).
  destruct err as [err|].
  - destruct (writeResponse c2 521 _) as [c3 e3] eqn:E3. apply writeResponse_appends in E3.
    assert (A3 : appends c c3) by (by eapply appends_trans).
    destruct err; by intros [= <- _].
  - intros E. apply data_message_writer in E. eapply appends_trans; [exact A2|by apply appends_same].
Qed.

Lemma STARTTLS_appends (c c' : Conn) o : STARTTLS c = (c', o) → appends c c'.
Proof.
  unfold STARTTLS. case_match; [intros [= <- _]; by apply appends_same|].
  destruct (writeResponse c 220 _) as [c1 [err|]] eqn:E1; apply writeResponse_appends in E1;
    [by intros [= <- _]|].
  destruct (handshakes c1) as [|[[st r]|err] hs]; intros [= <- _];
    (eapply appends_trans; [exact E1|]); [by apply appends_same| |by apply appends_same].
  intros [Ha Hb]. split; [by split|]. exists []. by rewrite (right_id_L [] (++)).
Qed.

Lemma readLine_writer (c c' : Conn) r : readLine c = (c', r) → wr c' = wr c.
Proof. unfold readLine. intros E. repeat case_match; simplify_eq; done. Qed.

Lemma AUTH_appends (c : Conn) params c' o : AUTH c params = (c', o) → appends c c'.
Proof.
  unfold AUTH. do 3 (case_match; [intros [= <- _]; by apply appends_same|]).
  destruct (auth_response c params) as [c1 r] eqn:E1.
  assert (A1 : appends c c1).
  { assert (HW : ∀ c2 err, writeResponse c 334 "" = (c2, err) → appends c c2)
      by (intros ??; apply writeResponse_appends).
    revert E1. unfold auth_response. destruct (SplitN2 params " ") as [|a [|b [|]]];
      try (intros [= <- _]; by apply appends_same);
      destruct (writeResponse c 334 "") as [c2 [err|]]; specialize (HW _ _ eq_refl);
      try (by intros [= <- _]);
      destruct (readLine c2) as [c3 [ln|er]] eqn:E3; apply readLine_writer in E3;
      intros [= <- _]; (eapply appends_trans; [exact HW|by apply appends_same]). }
  destruct r as [resp|o']; [|by intros [= <- _]].
  intros E. eapply appends_trans; [exact A1|]. apply appends_same.
  revert E. repeat case_match; by intros [= <- _].
Qed.

Lemma run_command_appends e (c : Conn) cmd params c' o :
  run_command e c cmd params = (c', o) → appends c c'.
Proof.
  unfold run_command, HELO, EHLO, HELP, NOOP, RSET, VRFY, EXPN, invisible.
  do 7 (case_match; [intros E; repeat case_match; simplify_eq; by apply appends_same|]).
  case_match; [intros E; eapply appends_same, MAIL_writer, E|].
  case_match; [intros E; eapply appends_same, RCPT_writer, E|].
  case_match; [apply DATA_appends|].
  case_match; [apply STARTTLS_appends|].
  case_match; [apply AUTH_appends|]. intros [= <- _]. by apply appends_same.
Qed.

Lemma iteration_appends e (c : Conn) n c' r : iteration e c n = (c', r) → appends c c'.
Proof.
  unfold iteration. case_match; [intros [= <- _]; by apply appends_same|].
  destruct (readCommand c) as [c1 rc] eqn:E1.
  assert (A1 : appends c c1).
  { unfold readCommand in E1. destruct (readLine c) as [c0 l] eqn:E0. injection E1 as <- _.
    apply appends_same. by eapply readLine_writer. }
  assert (HW : ∀ (c2 : Conn) code msg, appends c c2 → appends c (writeResponse c2 code msg).1).
  { intros c2 code msg A2. destruct (writeResponse c2 code msg) as [c3 err] eqn:E3.
    apply writeResponse_appends in E3. by eapply appends_trans. }
  destruct rc as [[cmd params]|err].
  2: { intros [= <- _]. eapply appends_trans; [exact A1|apply printfLine_appends]. }
  case_match.
  { specialize (HW c1 221%Z "2.0.0 Be seeing you..." A1). destruct (writeResponse c1 221 _).
    by intros [= <- _]. }
  case_match.
  { specialize (HW c1 502%Z "5.7.0 You hear someone cursing shoplifters" A1).
    destruct (writeResponse c1 502 _). by intros [= <- _]. }
  destruct (run_command e c1 cmd params) as [c2 o] eqn:E2. apply run_command_appends in E2.
  assert (A2 : appends c c2) by (by eapply appends_trans).
  destruct o as [code msg|]; [|by intros [= <- _]].
  case_match; [|case_match; by intros [= <- _]]. case_match.
  - specialize (HW c2 421%Z "4.5.0 Too many errors, bye" A2).
    destruct (writeResponse c2 421 _). by intros [= <- _].
  - specialize (HW c2 code msg A2). destruct (writeResponse c2 code msg) as [c3 [err|]]; by intros [= <- _].
Qed.

Lemma loop_appends fuel envs i (c : Conn) n c' x : loop fuel envs i c n = (c', x) → appends c c'.
Proof.
  revert i c n. induction fuel as [|fuel IH]; intros i c n; simpl.
  - intros [= <- _]. by apply appends_same.
  - destruct (iteration (envs i) c n) as [c1 [n1|y]] eqn:E; apply iteration_appends in E.
    + intros E2. apply IH in E2. by eapply appends_trans.
    + by intros [= <- _].
Qed.

(** ** One command and its reply *)

Lemma readCommand_line (c : Conn) line rest fin :
  rd c = mkReader (line ++ CRLF ++ rest) fin → LF ∉ line →
  readCommand c = (set_io c (mkReader rest fin) (wr c),
    if bool_decide (1000 < length line) then Err LineTooLong
    else Ok (match SplitN2 line " " with
             | [cmd; params] => (ToUpper cmd, params)
             | _ => (ToUpper line, [])
             end)).
Proof.
  intros Hr Hl. unfold readCommand, readLine. rewrite Hr. cbn [pending ending].
  replace (line ++ CRLF ++ rest) with ((line ++ [CR]) ++ LF :: rest) by (by rewrite <- app_assoc).
  rewrite Cut_byte_app by (rewrite elem_of_app, list_elem_of_singleton; naive_solver).
  rewrite TrimSuffix_CR.
  assert (Hne : ∀ A (x y : A), match (line ++ [CR]) ++ LF :: rest with [] => x | _ :: _ => y end = y)
    by (by destruct line).
  rewrite Hne. case_bool_decide; [done|]. cbn [mbind res_bind].
  destruct (SplitN2 line " ") as [|? [|? []]]; done.
Qed.

Lemma reading (t : bytes) (c c' : Conn) r : healthy (wr c) →
  sent (wr c') = sent (wr c) ++ pending r → ∀ out, sent (wr c') = sent (wr c) ++ t ++ out →
  r = mkReader (t ++ out) (ending r).
Proof. intros _ E out E'. rewrite E in E'. apply app_inv_head in E'. destruct r. cbn in *. by subst. Qed.

(** The command is carried out: otherwise there is no reply, or an error. *)
Lemma command_answered fuel envs i (c c' : Conn) x line cmd params rest fin k r0 r1 y :
  healthy (wr c) → rd c = mkReader (line ++ CRLF ++ rest) fin → LF ∉ line →
  (match SplitN2 line " " with [w; p] => (ToUpper w, p) | _ => (ToUpper line, []) end) = (cmd, params) →
  cmd ≠ "QUIT" → is_http cmd = false →
  loop fuel envs i c 0 = (c', x) → sent (wr c') = sent (wr c) ++ pending r0 →
  SmtpClient.read_response k r0 = (r1, Ok y) → SmtpClient.expected k 554 = false →
  ∃ fuel' c1 o, fuel = S fuel' ∧
    run_command (envs i) (set_io c (mkReader rest fin) (wr c)) cmd params = (c1, o) ∧
    healthy (wr c1) ∧
    (c', x) = match o with
      | Panic => (c1, Some ExitPanic)
      | Reply code msg =>
        if (0 <? code)%Z
        then loop fuel' envs (S i) (sends c1 (writeResponse_text code msg)) (if (400 <=? code)%Z then 1 else 0)
        else if (code <? 0)%Z then (c1, Some (ExitClosed msg)) else loop fuel' envs (S i) c1 0
      end.
Proof.
  intros Hh Hr Hl Hc Hq Hhttp E Hs Hk He.
  assert (Hnil : sent (wr c') = sent (wr c) → False).
  { intros E'. rewrite E' in Hs. rewrite <- (right_id_L [] (++) (sent (wr c))) in Hs at 1.
    apply app_inv_head in Hs. destruct r0 as [p0 f0]. cbn in Hs. subst p0.
    by eapply read_response_nothing. }
  destruct fuel as [|fuel]; [cbn in E; injection E as <- <-; by destruct Hnil|].
  cbn [loop] in E. unfold iteration in E. destruct (0 <? _)%Z;
    [injection E as <- <-; by destruct Hnil|].
  rewrite (readCommand_line c line rest fin Hr Hl) in E. case_bool_decide as Hlen.
  { exfalso. rewrite printfLine_healthy in E by done. injection E as <- <-. cbn [sends wr sent set_io] in Hs.
    apply app_inv_head in Hs. destruct r0 as [p0 f0]. cbn in Hs. subst p0.
    destruct (read_response_of_server k 554 "error reading command: line too long" [] f0 r1 y
      ltac:(done) Hk) as [_ Hk']. congruence. }
  rewrite Hc in E. rewrite (bool_decide_eq_false_2 (cmd = "QUIT")), Hhttp in E by done.
  destruct (run_command _ _ cmd params) as [c1 o] eqn:E1. exists fuel, c1, o. split_and!; [done..| |].
  { apply run_command_appends in E1. by apply E1. }
  assert (Hh1 : healthy (wr c1)) by (apply run_command_appends in E1; by apply E1).
  destruct o as [code msg|]; [|by rewrite <- E].
  destruct (0 <? code)%Z; [|by destruct (code <? 0)%Z].
  rewrite (writeResponse_healthy c1 code msg) in E by done. by destruct (400 <=? code)%Z; cbn in E |- *.
Qed.

(** A command whose reply is all that it sends. *)
Lemma exchange fuel envs i (c c' : Conn) x line cmd params rest fin k r0 r1 y :
  healthy (wr c) → rd c = mkReader (line ++ CRLF ++ rest) fin → LF ∉ line →
  (match SplitN2 line " " with [w; p] => (ToUpper w, p) | _ => (ToUpper line, []) end) = (cmd, params) →
  cmd ≠ "QUIT" → is_http cmd = false →
  (∀ (c : Conn) c1 o, run_command (envs i) c cmd params = (c1, o) →
     wr c1 = wr c ∧ ∃ code msg, o = Reply code msg ∧ (100 ≤ code ≤ 999)%Z) →
  loop fuel envs i c 0 = (c', x) → sent (wr c') = sent (wr c) ++ pending r0 →
  SmtpClient.read_response k r0 = (r1, Ok y) → SmtpClient.expected k 554 = false →
  (∀ code, SmtpClient.expected k code = true → (code < 400)%Z) →
  ∃ fuel' c1 c2 code msg,
    run_command (envs i) (set_io c (mkReader rest fin) (wr c)) cmd params = (c1, Reply code msg) ∧
    SmtpClient.expected k code = true ∧
    c2 = sends c1 (writeResponse_text code msg) ∧
    loop fuel' envs (S i) c2 0 = (c', x) ∧ sent (wr c') = sent (wr c2) ++ pending r1.
Proof.
  intros Hh Hr Hl Hc Hq Hhttp Hrun E Hs Hk He Hlow.
  destruct (command_answered _ _ _ _ _ _ _ _ _ _ _ _ _ _ _ Hh Hr Hl Hc Hq Hhttp E Hs Hk He)
    as (fuel' & c1 & o & _ & E1 & Hh1 & E2).
  destruct (Hrun _ _ _ E1) as [Hw (code & msg & -> & Hcode)]. cbn in Hw.
  rewrite (proj2 (Z.ltb_lt 0 code)) in E2 by lia. symmetry in E2.
  destruct (loop_appends _ _ _ _ _ _ _ E2 (sends_healthy _ _)) as [_ [out Ho]].
  cbn [sends wr sent set_io] in Ho. rewrite Hw, <- app_assoc in Ho.
  rewrite (reading _ _ _ _ Hh Hs _ Ho) in Hk.
  apply read_response_of_server in Hk as [-> Hk]; [|done].
  rewrite (proj2 (Z.leb_gt 400 code)) in E2 by (by apply Hlow).
  exists fuel', c1, (sends c1 (writeResponse_text code msg)), code, msg. split_and!; [done..|].
  cbn [sends wr sent set_io pending]. by rewrite Ho, Hw, app_assoc.
Qed.

(** ** The envelope *)

(** The sender that MAIL makes of what it is given. *)
Definition sender_of (raw from : bytes) : Prop :=
  (ReplaceAll raw " " "" = "<>" ∧ from = "<>") ∨
  ∃ addr, mail_ParseAddress raw = Some addr ∧ Normalize.DomainToUnicode addr = (from, None).

(** The recipient that RCPT makes of what it is given. *)
Definition rcpt_of (c : Conn) (raw to : bytes) : Prop :=
  ∃ addr u, mail_ParseAddress raw = Some addr ∧ Normalize.DomainToUnicode addr = (u, None) ∧
    if Envelope.DomainIn u (localDomains (cfg c))
    then Normalize.Addr u = (to, None) ∧ localUserExists c to = (true, None)
    else to = u ∧ completedAuth c = true.

(** What MAIL and RCPT leave alone. *)
Definition same_place (c c' : Conn) : Prop :=
  rd c' = rd c ∧ wr c' = wr c ∧ queue c' = queue c ∧ cfg c' = cfg c ∧ completedAuth c' = completedAuth c.

Lemma check_sender_answer e (c : Conn) raw c' r :
  check_sender e c raw = (c', r) →
  same_place c c' ∧ rcptTo c' = rcptTo c ∧
  match r with
  | Ok from => ∃ addr, mail_ParseAddress raw = Some addr ∧ Normalize.DomainToUnicode addr = (from, None)
  | Err o => ∃ code msg, o = Reply code msg ∧ (400 ≤ code ≤ 999)%Z
  end.
Proof.
  unfold check_sender, secLevelCheck. intros E.
  repeat case_match; simplify_eq; (split; [done|]); (split; [done|]); eauto; by eexists _, _.
Qed.

Lemma MAIL_answer e (c : Conn) params c' o :
  MAIL e c params = (c', o) →
  wr c' = wr c ∧ ∃ code msg, o = Reply code msg ∧ (100 ≤ code ≤ 999)%Z ∧
  (code = 250%Z → same_place c c' ∧ rcptTo c' = [] ∧
     ∃ raw, Sscanf_word (drop 5 params) = Ok raw ∧ sender_of raw (mailFrom c')).
Proof.
  unfold MAIL. do 2 (case_match; [intros [= <- <-]; split; [done|]; by eexists _, _|]).
  destruct (Sscanf_word _) as [raw|err]; [|intros [= <- <-]; split; [done|]; by eexists _, _].
  destruct (ReplaceAll raw " " "" == "<>") eqn:En.
  { intros [= <- <-]. apply bool_decide_eq_true_1 in En. split; [done|]. eexists _, _.
    split; [done|]. split; [done|]. intros _. split; [done|]. split; [done|].
    exists raw. split; [done|]. by left. }
  destruct (check_sender e _ raw) as [c1 r] eqn:E.
  apply check_sender_answer in E as (Hp & Hr & Ha). destruct r as [from|o'].
  - intros [= <- <-]. split; [apply Hp|]. eexists _, _. split; [done|]. split; [done|].
    intros _. split; [exact Hp|]. split; [exact Hr|]. exists raw. split; [done|]. by right.
  - intros [= <- ->]. split; [apply Hp|]. destruct Ha as (code & msg & -> & Hc).
    exists code, msg. split; [done|]. split; [lia|]. intros ->. lia.
Qed.

Lemma check_local_answer (c : Conn) addr r :
  check_local c addr = r →
  match r with
  | Ok to => Normalize.Addr addr = (to, None) ∧ localUserExists c to = (true, None)
  | Err o => ∃ code msg, o = Reply code msg ∧ (400 ≤ code ≤ 999)%Z
  end.
Proof.
  unfold check_local. intros <-. repeat case_match; simplify_eq; try done; by eexists _, _.
Qed.

Lemma RCPT_answer (c : Conn) params c' o :
  RCPT c params = (c', o) →
  wr c' = wr c ∧ ∃ code msg, o = Reply code msg ∧ (100 ≤ code ≤ 999)%Z ∧
  ((code < 400)%Z → same_place c c' ∧ mailFrom c' = mailFrom c ∧
     ∃ raw to, Sscanf_word (drop 3 params) = Ok raw ∧ rcpt_of c raw to ∧ rcptTo c' = rcptTo c ++ [to]).
Proof.
  intros E. split; [by eapply RCPT_writer|]. revert E. unfold RCPT.
  do 2 (case_match; [intros [= <- <-]; by eexists _, _|]).
  destruct (Sscanf_word _) as [raw|err]; [|intros [= <- <-]; by eexists _, _].
  case_match; [intros [= <- <-]; by eexists _, _|].
  destruct (mail_ParseAddress raw) as [[|a addr]|] eqn:Ep; [intros [= <- <-]; by eexists _, _| |
    intros [= <- <-]; by eexists _, _].
  destruct (Normalize.DomainToUnicode (a :: addr)) as [u [er|]] eqn:Eu; [intros [= <- <-]; by eexists _, _|].
  case_match; [intros [= <- <-]; by eexists _, _|].
  destruct (negb _ && negb _) eqn:Er; [intros [= <- <-]; by eexists _, _|].
  destruct (if Envelope.DomainIn u (localDomains (cfg c)) then check_local c u else Ok u) as [to|o'] eqn:Ec.
  - intros [= <- <-]. eexists _, _. split; [done|]. split; [done|]. intros _.
    split; [done|]. split; [done|]. exists raw, to. split; [done|]. split; [|done].
    exists (a :: addr), u. split; [done|]. split; [done|].
    destruct (Envelope.DomainIn u _); [by apply check_local_answer in Ec|].
    injection Ec as <-. split; [done|]. by destruct (completedAuth c).
  - intros [= <- <-]. destruct (Envelope.DomainIn u _); [|done].
    apply check_local_answer in Ec as (code & msg & -> & Hc). exists code, msg.
    split; [done|]. split; [lia|]. lia.
Qed.

(** *** Addresses *)

(** An address of ASCII characters, none of which is white space. *)
Definition ordinary (s : bytes) : Prop :=
  Forall (λ c, Utf8.is_ascii c = true ∧ IsSpace (Utf8.bval c) = false) s.

Lemma ordinary_ascii s : ordinary s → forallb Utf8.is_ascii s = true.
Proof.
  intros Hs. apply forallb_forall. intros c Hc. unfold ordinary in Hs. rewrite Forall_forall in Hs.
  by apply Hs, list_elem_of_In.
Qed.

Lemma ordinary_isASCII s : ordinary s → SmtpClient.isASCII s = true.
Proof.
  intros Hs. unfold SmtpClient.isASCII, Utf8.runes. rewrite (chunks_ascii s) by (by apply ordinary_ascii).
  apply forallb_forall. intros r Hr. apply list_elem_of_In in Hr.
  apply list_elem_of_fmap in Hr as ([r' b] & -> & Hr). apply list_elem_of_fmap in Hr as (c & [= -> ->] & Hc).
  unfold ordinary in Hs. rewrite Forall_forall in Hs. destruct (Hs c Hc) as [Ha _].
  unfold Utf8.is_ascii in Ha. cbn. apply N.ltb_lt in Ha. apply negb_true_iff, N.ltb_ge. lia.
Qed.

Lemma ordinary_LF s : ordinary s → LF ∉ s.
Proof. intros Hs Hl. unfold ordinary in Hs. rewrite Forall_forall in Hs. by destruct (Hs LF Hl). Qed.

Lemma scan_token_ordinary s cs :
  ordinary s → match cs with [] => True | (r, _) :: _ => IsSpace r = true end →
  scan_token (((λ c, (Utf8.bval c, [c])) <$> s) ++ cs) = (s, cs).
Proof.
  intros Hs Hcs. induction Hs as [|c s [_ Hc] _ IH]; cbn.
  - destruct cs as [|[r b] cs]; [done|]. cbn. by rewrite Hcs.
  - by rewrite Hc, IH.
Qed.

Lemma scan_bracket s cs :
  ordinary ("<" ++ s ++ ">") → match cs with [] => True | (r, _) :: _ => IsSpace r = true end →
  (cs' ← scan_skip (((λ c, (Utf8.bval c, [c])) <$> "<" ++ s ++ ">") ++ cs);
   match cs' with
   | [] => Err ScanEOF
   | _ => let '(t, rest) := scan_token cs' in
     match rest with (10%N, _) :: _ => Err ScanNewlineMismatch | _ => Ok t end
   end) =
  match cs with (10%N, _) :: _ => Err ScanNewlineMismatch | _ => Ok ("<" ++ s ++ ">") end.
Proof.
  intros Hw Hsp. pose proof (scan_token_ordinary _ _ Hw Hsp) as Ht.
  change (scan_skip (((λ c, (Utf8.bval c, [c])) <$> "<" ++ s ++ ">") ++ cs))
    with (Ok (E := scan_error) (((λ c, (Utf8.bval c, [c])) <$> "<" ++ s ++ ">") ++ cs)).
  cbn [mbind res_bind]. rewrite Ht. done.
Qed.

Lemma Sscanf_bracket s params :
  ordinary s → params ∈ CourierProps.mail_params →
  Sscanf_word ("<" ++ s ++ ">" ++ params) = Ok ("<" ++ s ++ ">").
Proof.
  intros Hs Hp.
  assert (Hw : ordinary ("<" ++ s ++ ">")).
  { apply Forall_app. split; [by repeat constructor|]. apply Forall_app. split; [done|by repeat constructor]. }
  replace ("<" ++ s ++ ">" ++ params) with (("<" ++ s ++ ">") ++ params) by (by rewrite <- !app_assoc).
  unfold Sscanf_word. rewrite chunks_ascii, fmap_app.
  2: { rewrite forallb_app, (ordinary_ascii _ Hw). cbn.
       repeat (apply elem_of_cons in Hp as [->|Hp]; [done|]). by apply elem_of_nil in Hp. }
  rewrite scan_bracket; [|exact Hw|].
  - repeat (apply elem_of_cons in Hp as [->|Hp]; [done|]). by apply elem_of_nil in Hp.
  - repeat (apply elem_of_cons in Hp as [->|Hp]; [done|]). by apply elem_of_nil in Hp.
Qed.

(** ** DATA *)

Lemma data_queue_answer e (c c' : Conn) o :
  data_queue e c = (c', o) → ∃ code msg, o = Reply code msg ∧ (100 ≤ code ≤ 999)%Z.
Proof. unfold data_queue. intros E. repeat case_match; simplify_eq; by eexists _, _. Qed.

(** DATA over a message whose lines can be read. *)
Lemma DATA_answer e (c c' : Conn) o ws rest fin :
  healthy (wr c) → (0 ≤ maxDataSize (cfg c))%Z → Forall wire_line ws →
  rd c = mkReader (wire ws ++ rest) fin → DATA e c = (c', o) →
  (∃ msg, wr c' = wr c ∧ o = Reply 503 msg) ∨
  (rd c' = mkReader rest fin ∧
   sent (wr c') = sent (wr c) ++
     writeResponse_text 354 "You suddenly realize it is unnaturally quiet" ∧
   (o = Panic ∨ ∃ code msg, o = Reply code msg ∧ (100 ≤ code ≤ 999)%Z)).
Proof.
  intros Hh Hmax Hws Hr. unfold DATA.
  do 3 (case_match; [intros [= <- <-]; left; by eexists|]).
  rewrite writeResponse_healthy by done. cbn [sends rd set_io cfg]. rewrite Hr.
  rewrite readUntilDot_lines by done. set (c2 := set_data _ _). intros E. right.
  destruct ((ws != []) && _).
  - injection E as <- <-. split; [done|]. split; [done|]. right. by eexists _, _.
  - split_and!.
    + by apply ConnProps.data_message_same in E as [-> _].
    + by apply data_message_writer in E as ->.
    + revert E. unfold data_message. case_match; [intros [= _ <-]; right; by eexists _, _|]. case_match.
      * destruct (dkimSign e c2) as [c3 [err|]]; [intros [= _ <-]; right; by eexists _, _|].
        intros E. apply data_queue_answer in E. by right.
      * destruct (dkimVerify e c2) as [c3|]; [|intros [= _ <-]; by left].
        intros E. apply data_queue_answer in E. by right.
Qed.

(** The end of the conversation does not touch the queue. *)
Lemma quit_queue fuel envs i (c c' : Conn) n x fin :
  rd c = mkReader ("QUIT" ++ CRLF) fin → loop fuel envs i c n = (c', x) → queue c' = queue c.
Proof.
  intros Hr. destruct fuel as [|fuel]; cbn [loop]; [by intros [= <- _]|]. unfold iteration.
  destruct (0 <? _)%Z; [by intros [= <- _]|].
  change ("QUIT" ++ CRLF) with ("QUIT" ++ CRLF ++ []) in Hr.
  rewrite (readCommand_line c "QUIT" [] fin Hr) by (by apply (bool_decide_eq_true_1 _)).
  change (bool_decide (1000 < length "QUIT")) with false. cbn.
  destruct (writeResponse _ 221 _) as [c1 err] eqn:E. intros [= <- _].
  revert E. unfold writeResponse. destruct (write_flush _ _). by intros [= <- _].
Qed.

Lemma expected_250 code : SmtpClient.expected 250 code = true → code = 250%Z.
Proof. unfold SmtpClient.expected. cbn. apply Z.eqb_eq. Qed.

Lemma expected_25 code : SmtpClient.expected 25 code = true → (code < 400)%Z.
Proof.
  unfold SmtpClient.expected. cbn. intros Hc%Z.eqb_eq.
  pose proof (Z.div_mod code 10 ltac:(done)). pose proof (Z.mod_pos_bound code 10 ltac:(done)). lia.
Qed.

Lemma data_exchange fuel envs i (c c' : Conn) x ws fin r0 r1 r2 y z :
  healthy (wr c) → (0 ≤ maxDataSize (cfg c))%Z → Forall wire_line ws →
  rd c = mkReader ("DATA" ++ CRLF ++ wire ws ++ "QUIT" ++ CRLF) fin →
  loop fuel envs i c 0 = (c', x) → sent (wr c') = sent (wr c) ++ pending r0 →
  SmtpClient.read_response 354 r0 = (r1, Ok y) → SmtpClient.read_response 250 r1 = (r2, Ok z) →
  ∃ c1 msg, DATA (envs i) (set_io c (mkReader (wire ws ++ "QUIT" ++ CRLF) fin) (wr c)) = (c1, Reply 250 msg)
    ∧ queue c' = queue c1.
Proof.
  intros Hh Hmax Hws Hr E Hs Hk1 Hk2.
  destruct (command_answered _ _ _ _ _ _ _ "DATA" [] _ _ _ _ _ _ Hh Hr ltac:(by apply (bool_decide_eq_true_1 _))
    ltac:(done) ltac:(done) ltac:(done) E Hs Hk1 ltac:(done)) as (fuel' & c1 & o & _ & E1 & Hh1 & E2).
  change (run_command _ _ "DATA" []) with
    (DATA (envs i) (set_io c (mkReader (wire ws ++ "QUIT" ++ CRLF) fin) (wr c))) in E1.
  set (t354 := writeResponse_text 354 "You suddenly realize it is unnaturally quiet").
  destruct (DATA_answer _ (set_io c (mkReader (wire ws ++ "QUIT" ++ CRLF) fin) (wr c)) _ _ ws
    ("QUIT" ++ CRLF) fin Hh Hmax Hws eq_refl E1)
    as [(msg & Hw & ->)|(Hrd & Hsent & Ho)].
  { exfalso. cbn [Z.ltb Z.leb Z.compare Pos.compare Pos.compare_cont] in E2. symmetry in E2.
    destruct (loop_appends _ _ _ _ _ _ _ E2 (sends_healthy _ _)) as [_ [out Ho]].
    cbn [sends wr sent set_io] in Ho, Hw. rewrite Hw, <- app_assoc in Ho.
    rewrite (reading _ _ _ _ Hh Hs _ Ho) in Hk1. by apply read_response_of_server in Hk1 as [_ Hk1]. }
  cbn [wr set_io] in Hsent. fold t354 in Hsent.
  destruct Ho as [-> |(code & msg & -> & Hcode)].
  { exfalso. injection E2 as -> _. assert (Ho : sent (wr c1) = sent (wr c) ++ t354 ++ [])
      by (by rewrite (right_id_L [] (++))).
    rewrite (reading _ _ _ _ Hh Hs _ Ho) in Hk1.
    apply read_response_of_server in Hk1 as [-> _]; [|done]. by eapply read_response_nothing. }
  rewrite (proj2 (Z.ltb_lt 0 code)) in E2 by lia. symmetry in E2.
  destruct (loop_appends _ _ _ _ _ _ _ E2 (sends_healthy _ _)) as [_ [out Ho]].
  cbn [sends wr sent set_io] in Ho. rewrite Hsent, <- !app_assoc in Ho.
  rewrite (reading _ _ _ _ Hh Hs _ Ho) in Hk1.
  apply read_response_of_server in Hk1 as [-> _]; [|done].
  apply read_response_of_server in Hk2 as [_ Hk2]; [|done]. apply expected_250 in Hk2 as ->.
  exists c1, msg. split; [done|]. by eapply (quit_queue _ _ _ (sends c1 _)) in E2.
Qed.

End Server.

(** ** Both ends *)

Section Both.
Import Smtpsrv.
Context `{Unicode, Precis, NetMail, NetIP, AliasWorld, ErrorText}.
Context `{ProtoText DomainInfo.Domain}.
Context {B : Type} `{Auth.Backend B}.
Context {Q : Type} `{MailQueue Q}.
Context {Signer VerifyResult : Type} `{Dkim Signer VerifyResult}.
Context {Cert : Type}.

#[local] Abbreviation Conn := (Conn (B := B) (Q := Q) (Signer := Signer)
                                 (VerifyResult := VerifyResult)).

(** The two ends of a connection, from MAIL on: [c] and [c'] are the client
    before and after, [d] and [d'] the server.  What the server reads is what the
    client sends, and what the client reads is what the server sends. *)
Record conversation (c c' : SmtpClient.Client Cert) (d d' : Conn) : Prop := {
  cv_there : CourierProps.sent_text c' = CourierProps.sent_text c ++ pending (rd d);
  cv_back : sent (wr d') = sent (wr d) ++ pending (CourierProps.client_rd c);
  cv_healthy : healthy (wr d);
}.

Lemma mail_line s params :
  ordinary s → params ∈ CourierProps.mail_params →
  let line := "MAIL FROM:<" ++ s ++ ">" ++ params in
  (LF ∉ line) ∧
  (match SplitN2 line " " with [w; p] => (ToUpper w, p) | _ => (ToUpper line, []) end)
    = (("MAIL" : bytes), "FROM:" ++ "<" ++ s ++ ">" ++ params).
Proof.
  intros Hs Hp line. split.
  - unfold line. rewrite !elem_of_app. intros [Hl|[Hl|[Hl|Hl]]]; revert Hl.
    + by apply (bool_decide_eq_true_1 _).
    + by apply ordinary_LF.
    + by apply (bool_decide_eq_true_1 _).
    + repeat (apply elem_of_cons in Hp as [->|Hp]; [by apply (bool_decide_eq_true_1 _)|]).
      by apply elem_of_nil in Hp.
  - unfold SplitN2. change line with (("MAIL" : bytes) ++ SP :: ("FROM:" ++ "<" ++ s ++ ">" ++ params)).
    change (" " : bytes) with [SP]. rewrite Cut_byte_app by (by apply (bool_decide_eq_true_1 _)). done.
Qed.

Lemma rcpt_line s :
  ordinary s →
  let line := "RCPT TO:<" ++ s ++ ">" in
  (LF ∉ line) ∧
  (match SplitN2 line " " with [w; p] => (ToUpper w, p) | _ => (ToUpper line, []) end)
    = (("RCPT" : bytes), "TO:" ++ "<" ++ s ++ ">").
Proof.
  intros Hs line. split.
  - unfold line. rewrite !elem_of_app. intros [Hl|[Hl|Hl]]; revert Hl.
    + by apply (bool_decide_eq_true_1 _).
    + by apply ordinary_LF.
    + by apply (bool_decide_eq_true_1 _).
  - unfold SplitN2. change line with (("RCPT" : bytes) ++ SP :: ("TO:" ++ "<" ++ s ++ ">")).
    change (" " : bytes) with [SP]. rewrite Cut_byte_app by (by apply (bool_decide_eq_true_1 _)). done.
Qed.

(** MAIL and RCPT, answered as the client expects. *)
Lemma envelope_exchange fuel envs (d d' : Conn) x from params to rest fin r0 r1 r2 y z :
  healthy (wr d) → ordinary from → ordinary to → params ∈ CourierProps.mail_params →
  rd d = mkReader (CourierProps.envelope_text from params to ++ rest) fin →
  loop fuel envs 0 d 0 = (d', x) → sent (wr d') = sent (wr d) ++ pending r0 →
  SmtpClient.read_response 250 r0 = (r1, Ok y) → SmtpClient.read_response 25 r1 = (r2, Ok z) →
  ∃ fuel' d2 rcpt, healthy (wr d2) ∧ rd d2 = mkReader rest fin ∧ queue d2 = queue d ∧ cfg d2 = cfg d ∧
    sender_of ("<" ++ from ++ ">") (mailFrom d2) ∧ rcptTo d2 = [rcpt] ∧
    rcpt_of d ("<" ++ to ++ ">") rcpt ∧
    loop fuel' envs 2 d2 0 = (d', x) ∧ sent (wr d') = sent (wr d2) ++ pending r2.
Proof.
  intros Hh Hf Ht Hp Hr E Hs Hk1 Hk2.
  destruct (mail_line from params Hf Hp) as [Hl1 Hs1]. destruct (rcpt_line to Ht) as [Hl2 Hs2].
  assert (Hr1 : rd d = mkReader (("MAIL FROM:<" ++ from ++ ">" ++ params) ++ CRLF
    ++ (("RCPT TO:<" ++ to ++ ">") ++ CRLF ++ rest)) fin).
  { rewrite Hr. unfold CourierProps.envelope_text. by rewrite <- !app_assoc. }
  destruct (exchange _ _ _ _ _ _ _ "MAIL" _ _ _ _ _ _ _ Hh Hr1 Hl1 Hs1 ltac:(done) ltac:(done)
    ltac:(intros c0 c1 o Eo; destruct (MAIL_answer _ _ _ _ _ Eo) as (? & code & msg & ? & ? & _); eauto)
    E Hs Hk1 ltac:(done) ltac:(intros code ->%expected_250; lia))
    as (fuel1 & d1 & d1' & code1 & msg1 & E1 & He1 & Ed1 & L1 & S1).
  apply expected_250 in He1 as ->.
  destruct (MAIL_answer _ _ _ _ _ E1) as (_ & ? & ? & [= <- <-] & _ & HM).
  destruct (HM eq_refl) as ((R1 & W1 & Q1 & C1 & A1) & T1 & raw1 & Raw1 & F1).
  change (drop 5 ("FROM:" ++ "<" ++ from ++ ">" ++ params)) with ("<" ++ from ++ ">" ++ params) in Raw1.
  rewrite (Sscanf_bracket from params Hf Hp) in Raw1. injection Raw1 as <-.
  assert (Hh1 : healthy (wr d1')) by (by rewrite Ed1).
  assert (Hr2 : rd d1' = mkReader (("RCPT TO:<" ++ to ++ ">") ++ CRLF ++ rest) fin)
    by (rewrite Ed1; exact R1).
  destruct (exchange _ _ _ _ _ _ _ "RCPT" _ _ _ _ _ _ _ Hh1 Hr2 Hl2 Hs2 ltac:(done) ltac:(done)
    ltac:(intros c0 c1 o Eo; destruct (RCPT_answer _ _ _ _ Eo) as (? & code & msg & ? & ? & _); eauto)
    L1 S1 Hk2 ltac:(done) expected_25)
    as (fuel2 & d2 & d2' & code2 & msg2 & E2 & He2 & Ed2 & L2 & S2).
  destruct (RCPT_answer _ _ _ _ E2) as (_ & ? & ? & [= <- <-] & _ & HR).
  destruct (HR (expected_25 _ He2)) as ((R2 & W2 & Q2 & C2 & A2) & M2 & raw2 & rcpt & Raw2 & F2 & T2).
  change (drop 3 ("TO:" ++ "<" ++ to ++ ">")) with ("<" ++ to ++ ">" ++ []) in Raw2.
  rewrite (Sscanf_bracket to []) in Raw2 by (done || by left). injection Raw2 as <-.
  subst d1' d2'. exists fuel2, (sends d2 (writeResponse_text code2 msg2)), rcpt.
  cbn [sends set_io rd wr queue cfg mailFrom rcptTo] in *.
  split_and!; try done; try congruence.
  - by rewrite M2.
  - by rewrite T2, T1.
  - destruct F2 as (addr & u & Pa & Pu & Hloc). exists addr, u. split_and!; [done..|].
    cbn in Hloc. rewrite C1 in Hloc. unfold localUserExists in *. cbn in *. rewrite C1, A1 in Hloc. exact Hloc.
Qed.

(** The payload is the message, if there was no error. *)
Lemma payload_read ls rest fin max payload :
  Forall clean ls → ls ≠ [] → (0 ≤ max)%Z →
  (readUntilDot (mkReader (wire (stuff <$> ls) ++ rest) fin) max).1 = (payload, None) →
  payload = concat ((λ l, l ++ [LF]) <$> ls).
Proof.
  intros Hls Hne Hmax.
  destruct (decide (Z.of_nat (length (wire (stuff <$> ls))) ≤ max)%Z) as [Hle|Hgt].
  { rewrite readUntilDot_stuffed by done. by intros [= <-]. }
  rewrite readUntilDot_lines; [|done|apply Forall_fmap; eapply Forall_impl; [exact Hls|apply stuff_wire_line]].
  rewrite bool_decide_eq_false_2 by (by destruct ls).
  rewrite (proj2 (Z.gtb_lt _ _)) by lia. done.
Qed.

(** C4: A delivery that one server counts as done is in the queue of the other
    one.  This is about mail with ASCII addresses without white space, whose
    message is one or more lines without CR, each ended by LF, the last one too
    (as [readUntilDot] gives it), and about a server whose limit of size is not
    negative.  When the client of the courier and the connection handler are the
    two ends of a connection, and the courier gets through MAIL, RCPT, DATA and the
    message without an error, then, whatever the environment of the other server
    did (deadlines, SPF, hooks, errors of any kind would have been seen), that
    server has put in its queue, without an error, exactly one message: with the
    sender and the recipient that were sent, as it parses them, where the
    recipient is a user that it has, or the client had authenticated, and with
    the message unchanged after its own header fields. *)
Theorem relayed_mail_is_queued a (c c' : SmtpClient.Client Cert) (d d' : Conn) fuel envs x ls :
  CourierProps.working c → Courier.send_mail a c = (c', (None, false)) →
  loop fuel envs 0 d 0 = (d', x) → conversation c c' d d' →
  ordinary (Courier.afrom a) → ordinary (Courier.ato a) →
  Courier.adata a = concat ((λ l, l ++ [LF]) <$> ls) → ls ≠ [] → Forall clean ls →
  (0 ≤ maxDataSize (cfg d))%Z →
  ∃ from to id hook above below received,
    sender_of ("<" ++ Courier.afrom a ++ ">") from ∧ rcpt_of d ("<" ++ Courier.ato a ++ ">") to ∧
    q_Put (queue d) from [to]
      (hook ++ ConnProps.fields (above ++ ("Received", received) :: below) ++ Courier.adata a)
      = (queue d', Ok id).
Proof.
  intros Hw E L [Hthere Hback Hh] Hf Ht Hd Hne Hls Hmax.
  destruct (CourierProps.send_mail_says a c c' Hw E) as (from & params & to & r & Hs & Hp & Ef & Et & Hr).
  rewrite Ef in Hs by (by apply ordinary_isASCII). rewrite Et in Hs by (by apply ordinary_isASCII).
  rewrite Hthere in Hs. apply app_inv_head in Hs.
  destruct Hr as (r1 & y1 & K1 & r2 & y2 & K2 & r3 & y3 & K3 & r4 & y4 & K4 & _).
  assert (Hrd : rd d = mkReader (CourierProps.envelope_text (Courier.afrom a) params (Courier.ato a) ++
    ("DATA" ++ CRLF ++ wire (stuff <$> ls) ++ "QUIT" ++ CRLF)) (ending (rd d))).
  { destruct (rd d) as [p fin]. cbn in *. subst p. by rewrite Hd, SmtpClient.dot_wire_lines by done. }
  destruct (envelope_exchange _ _ _ _ _ _ _ _ _ _ _ _ _ _ _ Hh Hf Ht Hp Hrd L Hback K1 K2)
    as (fuel' & d2 & rcpt & Hh2 & Hr2 & Hq2 & Hc2 & Hfrom & Hto & Hrc & L2 & S2).
  destruct (data_exchange _ _ _ _ _ _ (stuff <$> ls) _ _ _ _ _ _ Hh2 ltac:(by rewrite Hc2)
    ltac:(apply Forall_fmap; eapply Forall_impl; [exact Hls|apply stuff_wire_line]) Hr2 L2 S2 K3 K4)
    as (d3 & msg & ED & Hq3).
  destruct (proj1 (ConnProps.DATA_queued _ _ _ _ _ ED) eq_refl)
    as (payload & Hpay & hook & above & below & id & _ & HP & _).
  cbn [rd set_io cfg queue mailFrom rcptTo] in Hpay, HP.
  rewrite <- Hc2 in Hmax. rewrite (payload_read ls ("QUIT" ++ CRLF) _ _ _ Hls Hne Hmax Hpay) in HP.
  exists (mailFrom d2), rcpt, id, hook, above, below. eexists. split; [exact Hfrom|]. split; [exact Hrc|].
  rewrite Hq3, Hd, <- HP, Hq2, Hto. reflexivity.
Qed.

End Both.

(** ** An example *)

Module Example.
Import AsciiOnly CountableText ConnProps.Example.

Definition message_lines : list bytes := ["Subject: hi" : bytes; ""; ".hello"].

Definition mail : Courier.attempt :=
  Courier.mkAttempt (Courier.mkSMTP "mx.b.com" "25" None) "a@b.com" "ana@dom"
    (concat ((λ l, l ++ [LF]) <$> message_lines)) "dom" None.

(** What the client says, from MAIL on. *)
Definition said : list bytes :=
  ["MAIL FROM:<a@b.com>" : bytes; "RCPT TO:<ana@dom>"; "DATA"; "Subject: hi"; ""; "..hello"; "."; "QUIT"].

Definition server := Smtpsrv.set_ehlo (conn said []) "mx.b.com" true.

(** What the server answers. *)
Definition answered : list bytes :=
  ["250 2.1.5 You feel like you are being watched" : bytes;
   "250 2.1.5 You have an eerie feeling...";
   "354 You suddenly realize it is unnaturally quiet";
   "250 2.0.0 You offer the Amulet of Yendor to Anhur...";
   "221 2.0.0 Be seeing you..."].

Definition client : SmtpClient.Client unit :=
  SmtpClient.mkClient "mx.dom" SmtpClient.Plain
    (SmtpClient.mkIo (mkReader (lines answered) EndEOF) None 0) (Err "no TLS")
    "mx.b.com" true None None [].

Lemma list_put (q q' : queue_t) from to data id :
  q_Put q from to data = (q', Ok id) → q' = q ++ [(from, to, data)].
Proof. by intros [= <- _]. Qed.

Lemma relayed_mail_is_queued_witness : ∃ d' x from to data,
  Smtpsrv.loop 9 (λ _, example_env) 0 server 0 = (d', x) ∧
  (Courier.send_mail mail client).2 = (None, false) ∧
  Smtpsrv.queue d' = [(from, [to], data)] ∧
  sender_of "<a@b.com>" from ∧ rcpt_of server "<ana@dom>" to.
Proof.
  assert (Hout : sent (Smtpsrv.wr (Smtpsrv.loop 9 (λ _, example_env) 0 server 0).1) = lines answered)
    by (vm_compute; reflexivity).
  destruct (Smtpsrv.loop 9 (λ _, example_env) 0 server 0) as [d' x] eqn:L. cbn [fst] in Hout.
  destruct (relayed_mail_is_queued mail client (Courier.send_mail mail client).1 server d' 9
    (λ _, example_env) x message_lines) as (from & to & id & hook & above & below & rc & Hf & Ht & HP).
  - split; [reflexivity|]. split; reflexivity.
  - apply pair_snd. vm_compute. reflexivity.
  - exact L.
  - split; [vm_compute; reflexivity|exact Hout|split; reflexivity].
  - apply (bool_decide_eq_true_1 _). vm_compute. reflexivity.
  - apply (bool_decide_eq_true_1 _). vm_compute. reflexivity.
  - reflexivity.
  - discriminate.
  - apply (bool_decide_eq_true_1 _). vm_compute. reflexivity.
  - discriminate.
  - eexists d', x, from, to, _. split; [reflexivity|]. split; [vm_compute; reflexivity|].
    split; [|split; [exact Hf|exact Ht]]. apply list_put in HP. rewrite HP. reflexivity.
Defined.

End Example.

End Relay.
