(* ===== verification/Dkim.v ===== *)
(** DKIM: package [internal/dkim].  Messages and their headers,
    canonicalization, tag lists, public keys, signing and verification.

    Cryptography (SHA-256, RSA, Ed25519 and the parsing of keys) is the class
    [Crypto], the wording of errors the class [DkimWords]; DNS is an argument.
    Regular expressions are written out as functions on bytes. *)

From S2P Require Import Prelude GoStrings Envelope Auth.
#[local] Open Scope go_scope.

Module Dkim.

(** ** Messages: message.go *)

Record header := mkHeader {
  Name : bytes;
  Value : bytes;
  Source : bytes;
}.

#[export] Instance header_eq_dec : EqDecision header.
Proof. solve_decision. Defined.

Inductive canonicalization := simple | relaxed.

#[export] Instance canonicalization_eq_dec : EqDecision canonicalization.
Proof. solve_decision. Defined.

Inductive keyType := keyTypeRSA | keyTypeEd25519.

#[export] Instance keyType_eq_dec : EqDecision keyType.
Proof. solve_decision. Defined.

(** [crypto.Hash]: the only one that is accepted. *)
Inductive Hash := SHA256.

#[export] Instance Hash_eq_dec : EqDecision Hash.
Proof. solve_decision. Defined.

Inductive error :=
| errInvalidHeader (what : bytes)
| errInvalidTag (what : bytes)
| errMissingRequiredTag (tag : bytes)
| errInvalidVersion
| errBadATag
| errUnsupportedKeyType
| errUnsupportedHash
| errUnknownCanonicalization
| errInvalidSignature (what : bytes)
| errInvalidRSAPublicKey
| errNotRSAPublicKey
| errRSAKeyTooSmall
| errInvalidEd25519Key
| errDecodingP
| DNSError (Temporary : bool) (msg : bytes)
| LookupError (msg : bytes)
| SignError (msg : bytes)
| ErrBodyHashMismatch (got : bytes)
| ErrVerificationFailed.

#[export] Instance dkim_error_eq_dec : EqDecision error.
Proof. solve_decision. Defined.

Definition parseHeader (line : bytes) : res error header :=
  match Cut line ":" with
  | None => Err (errInvalidHeader "no colon")
  | Some (name, value) => Ok (mkHeader name value line)
  end.

(** The loop of [parseMessage]; the headers seen so far are in reverse.  It
    ends with the lines after the first empty one, if there is one. *)
Fixpoint parse_lines (lines : list bytes) (acc : list header) :
  res error (list header * option (list bytes)) :=
  match lines with
  | [] => Ok (rev acc, None)
  | line :: lines =>
    if line == "" then Ok (rev acc, Some lines)
    else if HasPrefix line " " || HasPrefix line [TAB] then
      match acc with
      | [] => Err (errInvalidHeader "bad continuation")
      | h :: acc =>
        parse_lines lines
          (mkHeader (Name h) (Value h ++ CRLF ++ line) (Source h ++ CRLF ++ line)
             :: acc)
      end
    else
      h ← parseHeader line;
      parse_lines lines (h :: acc)
  end.

(** Without an empty line, [eoh] stays 0. *)
Definition parseMessage (message : bytes) : res error (list header * bytes) :=
  let lines := Split message CRLF in
  '(headers, rest) ← parse_lines lines [];
  let rest := default (drop 1 lines) rest in
  Ok (headers, Join rest CRLF).

(** ** Canonicalization: canonicalize.go *)

Definition is_wsp (c : ascii) : bool := (c == SP) || (c == TAB).

(** [repeatedWSP.ReplaceAllLiteralString(s, " ")], where the byte before was
    white space or not. *)
Fixpoint squeeze_wsp (prev : bool) (s : bytes) : bytes :=
  match s with
  | [] => []
  | c :: s =>
    if is_wsp c then
      if prev then squeeze_wsp true s else SP :: squeeze_wsp true s
    else c :: squeeze_wsp false s
  end.

(** [wspBeforeCRLF.ReplaceAllLiteralString(s, "\r\n")] *)
Fixpoint drop_wsp_before_crlf (s : bytes) : bytes :=
  match s with
  | [] => []
  | c :: s =>
    if is_wsp c && HasPrefix (drop_while is_wsp s) CRLF
    then drop_wsp_before_crlf s else c :: drop_wsp_before_crlf s
  end.

(** [continuedHeader.ReplaceAllString(s, " ")]: a CRLF that white space
    follows is replaced, with all of it. *)
Inductive unfold_mode := UCopy | UNewline | UWsp.

Fixpoint unfold_loop (m : unfold_mode) (s : bytes) : bytes :=
  match s with
  | [] => []
  | c :: s' =>
    match m, is_wsp c with
    | UNewline, _ => unfold_loop UWsp s'
    | UWsp, true => unfold_loop UWsp s'
    | _, _ =>
      match s with
      | a :: b :: w :: _ =>
        if (a == CR) && (b == LF) && is_wsp w
        then SP :: unfold_loop UNewline s' else c :: unfold_loop UCopy s'
      | _ => c :: unfold_loop UCopy s'
      end
    end
  end.

Definition unfold_header (s : bytes) : bytes := unfold_loop UCopy s.

(** [repeatedCRLFAtTheEnd.ReplaceAllString(s, "\r\n")], on the reverse of the
    string: the CRLFs are taken off one by one. *)
Fixpoint strip_crlf_rev (s : bytes) : bytes :=
  match s with
  | a :: b :: s' => if (a == LF) && (b == CR) then strip_crlf_rev s' else s
  | _ => s
  end.

Definition single_crlf_at_end (s : bytes) : bytes :=
  if HasSuffix s CRLF then rev (strip_crlf_rev (rev s)) ++ CRLF else s.

Definition simpleBody (body : bytes) : bytes :=
  let body := single_crlf_at_end body in
  if negb (HasSuffix body CRLF) then body ++ CRLF else body.

Definition relaxBody (body : bytes) : bytes :=
  let body := drop_wsp_before_crlf body in
  let body := squeeze_wsp false body in
  let body := single_crlf_at_end body in
  if bool_decide (1 ≤ length body) && negb (HasSuffix body CRLF)
  then body ++ CRLF else body.

Definition WSP : bytes := [SP; TAB].

Section Dkim.
Context `{Unicode}.

Definition relaxHeader (h : header) : header :=
  let name := ToLower (Name h) in
  let name := TrimRight name WSP in
  let value := unfold_header (Value h) in
  let value := squeeze_wsp false value in
  let value := TrimRight value WSP in
  let value := TrimLeft value WSP in
  mkHeader name value (name ++ ":" ++ value).

Definition c_body (c : canonicalization) (b : bytes) : bytes :=
  match c with simple => simpleBody b | relaxed => relaxBody b end.

Definition c_header (c : canonicalization) (h : header) : header :=
  match c with simple => h | relaxed => relaxHeader h end.

Definition stringToCanonicalization (s : bytes) : res error canonicalization :=
  if s == "simple" then Ok simple
  else if s == "relaxed" then Ok relaxed
  else Err errUnknownCanonicalization.

(** [headers.FindAll] *)
Definition FindAll (hs : list header) (name : bytes) : list header :=
  List.filter (λ h, EqualFold (Name h) name) hs.

(** ** Tag lists and signatures: header.go *)

(** The map of [parseTags]. *)
Fixpoint parse_tag_list (tvs : list bytes) (tags : gmap bytes bytes) :
  res error (gmap bytes bytes) :=
  match tvs with
  | [] => Ok tags
  | tv :: tvs =>
    match Cut tv "=" with
    | None => Err (errInvalidTag "missing '='")
    | Some (t, v) =>
      let t := TrimSpace t in
      let v := TrimSpace v in
      if t == "" then Err (errInvalidTag "missing tag name")
      else
        match tags !! t with
        | Some _ => Err (errInvalidTag "duplicate tag")
        | None => parse_tag_list tvs (<[t := v]> tags)
        end
    end
  end.

Definition parseTags (s : bytes) : res error (gmap bytes bytes) :=
  let s := TrimSpace s in
  let s := TrimSuffix s ";" in
  parse_tag_list (Split s ";") ∅.

(** [tags[t]] *)
Definition tag (tags : gmap bytes bytes) (t : bytes) : bytes := default [] (tags !! t).

Record dkimSignature := mkSignature {
  sig_v : bytes;
  sig_a : bytes;
  sig_KeyType : keyType;
  sig_Hash : Hash;
  sig_b : bytes;
  sig_bh : bytes;
  sig_cH : canonicalization;
  sig_cB : canonicalization;
  sig_d : bytes;
  sig_h : list bytes;
  sig_i : bytes;
  sig_l : N;
  sig_q : list bytes;
  sig_s : bytes;
  sig_t : option Z;
  sig_x : option Z;
  sig_z : bytes;
}.

Definition canonicalizationFromString (s : bytes) :
  res error (canonicalization * canonicalization) :=
  if s == "" then Ok (simple, simple)
  else
    let '(hs, bs) := default (s, []) (Cut s "/") in
    let bs := if bs == "" then "simple" else bs in
    cH ← stringToCanonicalization hs;
    cB ← stringToCanonicalization bs;
    Ok (cH, cB).

(** [i[strings.Index(i, "@")+1:]], as [strings.Cut] gives it. *)
Definition auid_domain (i : bytes) : bytes := (default (i, []) (Cut i "@")).2.

Definition checkRequiredTags (sig : dkimSignature) : option error :=
  if sig_a sig == "" then Some (errMissingRequiredTag "a=")
  else if length (sig_b sig) == 0 then Some (errMissingRequiredTag "b=")
  else if length (sig_bh sig) == 0 then Some (errMissingRequiredTag "bh=")
  else if sig_d sig == "" then Some (errMissingRequiredTag "d=")
  else if length (sig_h sig) == 0 then Some (errMissingRequiredTag "h=")
  else if sig_s sig == "" then Some (errMissingRequiredTag "s=")
  else if negb (existsb (λ s, EqualFold s "from") (sig_h sig)) then
    Some (errInvalidTag "h= does not contain 'from'")
  else if (sig_i sig != "") && (auid_domain (sig_i sig) != sig_d sig)
       && negb (HasSuffix (auid_domain (sig_i sig)) ("." ++ sig_d sig)) then
    Some (errInvalidTag "i= is not a subdomain of d=")
  else None.

(** [eatWhitespace.Replace] *)
Definition is_fws (c : ascii) : bool :=
  (c == SP) || (c == TAB) || (c == CR) || (c == LF).

Definition eatWhitespace (s : bytes) : bytes := List.filter (λ c, negb (is_fws c)) s.

Definition keyTypeFromString (s : bytes) : res error keyType :=
  if s == "rsa" then Ok keyTypeRSA
  else if s == "ed25519" then Ok keyTypeEd25519
  else Err errUnsupportedKeyType.

Definition hashFromString (s : bytes) : res error Hash :=
  if s == "sha256" then Ok SHA256 else Err errUnsupportedHash.

Definition unixStrToTime (s : bytes) : res error Z :=
  match ParseInt s with
  | (_, Some _) => Err (errInvalidSignature "timestamp")
  | (ti, None) =>
    if (ti <? 0)%Z then Err (errInvalidSignature "negative timestamp") else Ok ti
  end.

(** A list of names separated by colons; none for an empty tag. *)
Definition colon_list (v : bytes) : list bytes :=
  if v != "" then Split (eatWhitespace v) ":" else [].

(** A tag that is parsed when it is not empty. *)
Definition opt_tag {A} (v : bytes) (none : A) (parse : bytes → res error A) :
  res error A := if v != "" then parse v else Ok none.

Definition base64_tag (what v : bytes) : res error bytes :=
  match Base64.DecodeString (eatWhitespace v) with
  | Some b => Ok b
  | None => Err (errInvalidSignature what)
  end.

Definition dkimSignatureFromHeader (value : bytes) : res error dkimSignature :=
  tags ← parseTags value;
  if tag tags "v" != "1" then Err errInvalidVersion
  else
    match Cut (tag tags "a") "-" with
    | None => Err errBadATag
    | Some (ktS, hS) =>
      kt ← keyTypeFromString ktS;
      hash ← hashFromString hS;
      b ← base64_tag "failed to decode b" (tag tags "b");
      bh ← base64_tag "failed to decode bh" (tag tags "bh");
      match canonicalizationFromString (tag tags "c") with
      | Err _ => Err (errInvalidSignature "failed to parse c")
      | Ok (cH, cB) =>
        l ← opt_tag (tag tags "l") 0%N (λ v,
          match ParseUint v 64 with
          | Ok l => Ok l
          | Err _ => Err (errInvalidSignature "failed to parse l")
          end);
        let q := colon_list (tag tags "q") in
        if bool_decide (0 < length q) && negb (bool_decide ("dns/txt" ∈ q)) then
          Err (errInvalidSignature "no dns/txt query method in q")
        else
          t ← opt_tag (tag tags "t") None (λ v, Some <$> unixStrToTime v);
          x ← opt_tag (tag tags "x") None (λ v, Some <$> unixStrToTime v);
          let sig := mkSignature (tag tags "v") (tag tags "a") kt hash b bh cH cB
            (tag tags "d") (colon_list (tag tags "h")) (tag tags "i") l q
            (tag tags "s") t x (eatWhitespace (tag tags "z")) in
          match checkRequiredTags sig with
          | Some err => Err err
          | None => Ok sig
          end
      end
    end.

End Dkim.

(** ** Cryptography *)

(** What is used of package [crypto] and its children.  A key in PKIX form may
    be of another kind. *)
Class Crypto (RSAPublicKey PrivateKey : Type) := {
  sha256 : bytes → bytes;
  ParsePKIXPublicKey : bytes → option (option RSAPublicKey);
  ParsePKCS1PublicKey : bytes → option RSAPublicKey;
  rsa_Size : RSAPublicKey → Z;
  rsa_VerifyPKCS1v15 : RSAPublicKey → bytes → bytes → bool;
  ed25519_Verify : bytes → bytes → bytes → bool;
  (** The kind of a private key, if it is one of the two; and its signature
      of a hash. *)
  private_kind : PrivateKey → option keyType;
  private_Sign : PrivateKey → bytes → res bytes bytes;
}.

Class DkimWords := { error_text : error → bytes }.

Section Crypto.
Context {RSAPublicKey PrivateKey : Type} `{Crypto RSAPublicKey PrivateKey}.
Context `{Unicode, DkimWords}.

(** ** Public keys: dns.go *)

(** [verifyFunc], by the key that it was made from. *)
Inductive verifier :=
| VerifyRSA (k : RSAPublicKey)
| VerifyEd25519 (p : bytes).

Definition verify (f : verifier) (hashed signature : bytes) : bool :=
  match f with
  | VerifyRSA k => rsa_VerifyPKCS1v15 k hashed signature
  | VerifyEd25519 p => ed25519_Verify p hashed signature
  end.

Record publicKey := mkPublicKey {
  pk_H : list Hash;
  pk_K : keyType;
  pk_P : bytes;
  pk_T : list bytes;
  pk_verify : verifier;
}.

Definition Matches (pk : publicKey) (kt : keyType) (h : Hash) : bool :=
  if pk_K pk != kt then false
  else if bool_decide (0 < length (pk_H pk)) then bool_decide (h ∈ pk_H pk)
  else true.

Definition StrictDomainCheck (pk : publicKey) : bool :=
  bool_decide (("s" : bytes) ∈ pk_T pk).

Definition parseRSAPublicKey (p : bytes) : res error verifier :=
  let pub := match ParsePKIXPublicKey p with
             | Some pub => Some pub
             | None => Some <$> ParsePKCS1PublicKey p
             end in
  match pub with
  | None => Err errInvalidRSAPublicKey
  | Some None => Err errNotRSAPublicKey
  | Some (Some k) =>
    if (rsa_Size k * 8 <? 1024)%Z then Err errRSAKeyTooSmall
    else Ok (VerifyRSA k)
  end.

Definition parseEd25519PublicKey (p : bytes) : res error verifier :=
  if length p != 32 then Err errInvalidEd25519Key else Ok (VerifyEd25519 p).

(** The hashes of the tag [h] that are known. *)
Definition known_hashes (v : bytes) : list Hash :=
  omap (λ h, match hashFromString h with Ok x => Some x | Err _ => None end)
    (colon_list v).

Definition parsePublicKey (v : bytes) : res error publicKey :=
  tags ← parseTags v;
  if bool_decide (is_Some (tags !! ("v" : bytes))) && (tag tags "v" != "DKIM1")
  then Err errInvalidVersion
  else
    k ← opt_tag (tag tags "k") keyTypeRSA keyTypeFromString;
    match Base64.DecodeString (eatWhitespace (tag tags "p")) with
    | None => Err errDecodingP
    | Some p =>
      f ← match k with
          | keyTypeRSA => parseRSAPublicKey p
          | keyTypeEd25519 => parseEd25519PublicKey p
          end;
      let t := eatWhitespace (tag tags "t") in
      Ok (mkPublicKey (known_hashes (tag tags "h")) k p
            (if t != "" then Split t ":" else []) f)
    end.

(** The loop of [findPublicKeys]: records that are not keys are skipped. *)
Definition parse_keys (values : list bytes) : list publicKey :=
  omap (λ v, match parsePublicKey v with Ok pk => Some pk | Err _ => None end)
    values.

Definition findPublicKeys (lookupTXT : bytes → res error (list bytes))
    (domain selector : bytes) : res error (list publicKey) :=
  parse_keys <$> lookupTXT (selector ++ "._domainkey." ++ domain).

(** ** Verification: verify.go *)

Inductive EvaluationState := SUCCESS | PERMFAIL | TEMPFAIL.

#[export] Instance EvaluationState_eq_dec : EqDecision EvaluationState.
Proof. solve_decision. Defined.

Record OneResult := mkOneResult {
  SignatureHeader : bytes;
  Domain : bytes;
  Selector : bytes;
  B : bytes;
  State : EvaluationState;
  Error : option error;
}.

Record VerifyResult := mkVerifyResult {
  Found : nat;
  Valid : nat;
  Results : list OneResult;
}.

(** The [%q] and [%.12s] verbs. *)
Definition result_text (res : OneResult) : bytes :=
  let reason := Quote (match Error res with
                       | Some e => error_text e | None => "<nil>" end) in
  match State res with
  | SUCCESS => ";dkim=pass"
  | TEMPFAIL => ";dkim=temperror  reason=" ++ reason ++ CRLF
  | PERMFAIL =>
    match Error res with
    | Some ErrVerificationFailed | Some (ErrBodyHashMismatch _) =>
      ";dkim=fail  reason=" ++ reason ++ CRLF
    | _ => ";dkim=permerror  reason=" ++ reason ++ CRLF
    end
  end
  ++ (if B res != "" then "  header.b=" ++ take 12 (B res) else [])
  ++ "  header.d=" ++ Domain res ++ CRLF.

Definition AuthenticationResults (r : VerifyResult) : bytes :=
  if Found r == 0 then ";dkim=none" ++ CRLF
  else concat (result_text <$> Results r).

(** [bTag.ReplaceAllString(s, "$1")], with the expression
    (b[ \t\r\n]*=)[^;]+: what follows the equals sign is taken away up to
    the next semicolon.  In [BSkip], it is being taken away. *)
Inductive btag_mode := BCopy | BTag | BSkip.

(** The text from here on is white space, an equals sign and something other
    than a semicolon. *)
Definition btag_starts (s : bytes) : bool :=
  match drop_while is_fws s with
  | e :: x :: _ => (e == "="%char) && (x != ";"%char)
  | _ => false
  end.

Fixpoint remove_b (m : btag_mode) (s : bytes) : bytes :=
  match s with
  | [] => []
  | c :: s' =>
    match m with
    | BTag => c :: remove_b (if c == "="%char then BSkip else BTag) s'
    | BSkip =>
      if c == ";"%char then c :: remove_b BCopy s' else remove_b BSkip s'
    | BCopy =>
      c :: remove_b (if (c == "b"%char) && btag_starts s' then BTag else BCopy) s'
    end
  end.

(** [headersToInclude] *)
Fixpoint include_loop (sigH : header) (headers : list header)
    (hTag : list bytes) (seen : gmap bytes nat) : list header :=
  match hTag with
  | [] => []
  | h :: hTag =>
    let all := rev (FindAll headers h) in
    let lh := ToLower h in
    let i := default 0 (seen !! lh) in
    match all !! i with
    | None => include_loop sigH headers hTag seen
    | Some selected =>
      let rest := include_loop sigH headers hTag (<[lh := S i]> seen) in
      if selected == sigH then rest else selected :: rest
    end
  end.

Definition headersToInclude (sigH : header) (hTag : list bytes)
    (headers : list header) : list header := include_loop sigH headers hTag ∅.

Definition hashWith (a : Hash) (data : bytes) : bytes :=
  match a with SHA256 => sha256 data end.

(** What is hashed for the signature: the headers, and the signature itself
    without its b=. *)
Definition signed_data (sig : dkimSignature) (sigH : header)
    (headers : list header) : bytes :=
  concat ((λ h, Source (c_header (sig_cH sig) h) ++ CRLF)
            <$> headersToInclude sigH (sig_h sig) headers)
  ++ remove_b BCopy (Source (c_header (sig_cH sig) sigH)).

(** A key that can be used for a signature, and agrees. *)
Definition key_verifies (sig : dkimSignature) (bSum : bytes) (pk : publicKey) :
  bool :=
  Matches pk (sig_KeyType sig) (sig_Hash sig)
  && negb ((sig_i sig != "") && StrictDomainCheck pk
           && (auid_domain (sig_i sig) != sig_d sig))
  && verify (pk_verify pk) bSum (sig_b sig).

(** [verifySignature]; no result when [bodyC[:sig.l]] is out of range, which
    panics. *)
Definition verifySignature (lookupTXT : bytes → res error (list bytes))
    (sigH : header) (headers : list header) (body : bytes) : option OneResult :=
  match dkimSignatureFromHeader (Value sigH) with
  | Err err => Some (mkOneResult (Value sigH) [] [] [] PERMFAIL (Some err))
  | Ok sig =>
    let result := mkOneResult (Value sigH) (sig_d sig) (sig_s sig)
                    (Base64.EncodeToString (sig_b sig)) in
    match findPublicKeys lookupTXT (sig_d sig) (sig_s sig) with
    | Err err =>
      Some (result (match err with DNSError true _ => TEMPFAIL | _ => PERMFAIL end)
              (Some err))
    | Ok pubKeys =>
      let bodyC := c_body (sig_cB sig) body in
      if (N.of_nat (length bodyC) <? sig_l sig)%N then None
      else
        let bodyC := if (0 <? sig_l sig)%N
                     then take (N.to_nat (sig_l sig)) bodyC else bodyC in
        let bodyH := hashWith (sig_Hash sig) bodyC in
        if bodyH != sig_bh sig then
          Some (result PERMFAIL
                  (Some (ErrBodyHashMismatch (Base64.EncodeToString bodyH))))
        else
          let bSum := hashWith (sig_Hash sig) (signed_data sig sigH headers) in
          if existsb (key_verifies sig bSum) pubKeys then Some (result SUCCESS None)
          else Some (result PERMFAIL (Some ErrVerificationFailed))
    end
  end.

(** The signatures, in order; it stops at the first one that panics. *)
Fixpoint verify_all (lookupTXT : bytes → res error (list bytes))
    (sigs headers : list header) (body : bytes) : option (list OneResult) :=
  match sigs with
  | [] => Some []
  | sigH :: sigs =>
    res ← verifySignature lookupTXT sigH headers body;
    rest ← verify_all lookupTXT sigs headers body;
    Some (res :: rest)
  end.

(** [VerifyMessage]: at most [maxHeaders] signatures, 5 unless the context
    says otherwise. *)
Definition VerifyMessage (maxHeaders : nat)
    (lookupTXT : bytes → res error (list bytes)) (message : bytes) :
  option (res error VerifyResult) :=
  match parseMessage message with
  | Err err => Some (Err err)
  | Ok (headers, body) =>
    let sigs := take maxHeaders (FindAll headers "DKIM-Signature") in
    results ← verify_all lookupTXT sigs headers body;
    Some (Ok (mkVerifyResult (length results)
      (length (List.filter (λ r, State r == SUCCESS) results)) results))
  end.

(** ** Signing: sign.go *)

Record Signer := mkSigner {
  s_Domain : bytes;
  s_Selector : bytes;
  s_Signer : PrivateKey;
}.

Definition headersToSign : list bytes :=
  ["From"; "Reply-To"; "Subject"; "Date"; "To"; "Cc"; "Resent-Date";
   "Resent-From"; "Resent-To"; "Resent-Cc"; "In-Reply-To"; "References";
   "List-Id"; "List-Help"; "List-Unsubscribe"; "List-Subscribe"; "List-Post";
   "List-Owner"; "List-Archive"; "Message-ID"].

Definition extraHeadersToSign : list bytes :=
  ["From"; "Subject"; "Date"; "To"; "Cc"; "Message-ID"].

Definition algoStr (s : Signer) : res error bytes :=
  match private_kind (s_Signer s) with
  | Some keyTypeRSA => Ok "rsa-sha256"
  | Some keyTypeEd25519 => Ok "ed25519-sha256"
  | None => Err errUnsupportedKeyType
  end.

Definition lineLimit : nat := 70.

(** [breakLongLines]; each turn of the loop takes at least a byte. *)
Fixpoint break_loop (n : nat) (s : bytes) : bytes :=
  match n with
  | O => []
  | S n =>
    if bool_decide (lineLimit < length s) then
      take lineLimit s ++ CRLF ++ "  " ++ break_loop n (drop lineLimit s)
    else s
  end.

Definition breakLongLines (s : bytes) : bytes := break_loop (length s) s.

(** The loop of [formatHeaders]: what was written, and the current line. *)
Fixpoint format_loop (first : bool) (hs : list bytes) (sb line : bytes) : bytes :=
  match hs with
  | [] => sb ++ line
  | h :: hs =>
    let '(sb, line) :=
      if bool_decide (lineLimit < length line + 1 + length h)
      then (sb ++ line ++ CRLF ++ "  ", []) else (sb, line) in
    let line := if first then line else line ++ ":" in
    format_loop false hs sb (line ++ h)
  end.

Definition formatHeaders (hs : list bytes) : bytes :=
  TrimSpace (ToLower (format_loop true hs [] [])).

(** The signature up to its b=. *)
Definition unsigned (s : Signer) (algo : bytes) (now : Z) (headers : list header)
    (body : bytes) : bytes :=
  let hsForHeader :=
    (h ← headersToSign; replicate (length (FindAll headers h)) h)
      ++ extraHeadersToSign in
  "v=1; a=" ++ algo ++ "; c=relaxed/relaxed;" ++ CRLF
  ++ "d=" ++ s_Domain s ++ "; s=" ++ s_Selector s ++ "; t=" ++ Itoa now ++ ";" ++ CRLF
  ++ "h=" ++ formatHeaders hsForHeader ++ ";" ++ CRLF
  ++ "bh=" ++ Base64.EncodeToString (sha256 (relaxBody body)) ++ ";" ++ CRLF
  ++ "b=".

(** What is hashed. *)
Definition data_to_sign (headers : list header) (dkimSig : bytes) : bytes :=
  let forSigning := ReplaceAll dkimSig CRLF (CRLF ++ [TAB]) ++ ";" in
  concat (h ← headersToSign;
          (λ hd, Source (relaxHeader hd) ++ CRLF) <$> FindAll headers h)
  ++ Source (relaxHeader (mkHeader "DKIM-Signature" forSigning forSigning)).

Definition Sign (s : Signer) (now : Z) (message : bytes) : res error bytes :=
  '(headers, body) ← parseMessage message;
  algo ← algoStr s;
  let dkimSig := unsigned s algo now headers body in
  match private_Sign (s_Signer s) (sha256 (data_to_sign headers dkimSig)) with
  | Err e => Err (SignError e)
  | Ok sg => Ok (dkimSig ++ breakLongLines (Base64.EncodeToString sg) ++ ";")
  end.

End Crypto.

Arguments Signer : clear implicits.
Arguments publicKey : clear implicits.

End Dkim.
