(* ===== verification/DkimProps.v ===== *)
(** Properties of DKIM: what the relaxed canonicalization of a body is, what a
    valid signature vouches for, and when verification ends. *)

From S2P Require Import Prelude GoStrings Envelope DotReader Auth Dkim.
#[local] Open Scope go_scope.

Module DkimProps.
Import Dkim.
Import DotReader(clean, enc_lines).

(** ** The relaxed body, line by line *)

(** A line of the relaxed body: no white space at the end, single spaces
    elsewhere. *)
Definition relax_line (l : bytes) : bytes :=
  squeeze_wsp false (drop_while_end is_wsp l).

(** Empty lines at the end are ignored. *)
Fixpoint strip_empty (ls : list bytes) : list bytes :=
  match ls with
  | [] => []
  | l :: ls =>
    match strip_empty ls with
    | [] => if l == "" then [] else [l]
    | ls' => l :: ls'
    end
  end.

(** A body of complete lines, as in RFC 6376, section 3.4.4, but for one case: a body
    with nothing but blank lines is one empty line, and not empty. *)
Definition relaxed_lines (ls : list bytes) : list bytes :=
  match ls, strip_empty (relax_line <$> ls) with
  | [], _ => []
  | _, [] => [[]]
  | _, ls' => ls'
  end.

Lemma wsp_not_break c : is_wsp c = true → c ≠ CR ∧ c ≠ LF.
Proof.
  unfold is_wsp. rewrite orb_true_iff, !bool_decide_eq_true.
  by intros [-> | ->].
Qed.

Lemma drop_while_wsp_clean l rest :
  clean l →
  HasPrefix (drop_while is_wsp (l ++ CRLF ++ rest)) CRLF = forallb is_wsp l.
Proof.
  induction l as [|c l IH]; intros [Hcr Hlf]; [done|]. simpl.
  destruct (is_wsp c) eqn:E; simpl.
  - apply IH. split; set_solver.
  - unfold HasPrefix. simpl. by rewrite bool_decide_eq_false_2 by set_solver.
Qed.

Lemma drop_while_app {A} (f : A → bool) a b :
  drop_while f (a ++ b) =
  if forallb f a then drop_while f b else drop_while f a ++ b.
Proof.
  induction a as [|x a IH]; [done|]. simpl. by destruct (f x).
Qed.

Lemma forallb_reverse {A} (f : A → bool) l :
  forallb f (reverse l) = forallb f l.
Proof.
  induction l as [|x l IH]; [done|].
  rewrite reverse_cons, forallb_app, IH. simpl. by destruct (f x), (forallb f l).
Qed.

Lemma drop_while_end_cons {A} (f : A → bool) c l :
  drop_while_end f (c :: l) =
  if f c && forallb f l then [] else c :: drop_while_end f l.
Proof.
  unfold drop_while_end. rewrite reverse_cons, drop_while_app, forallb_reverse.
  simpl. destruct (forallb f l) eqn:E, (f c); simpl; try done.
  - assert (drop_while f (reverse l) = []) as ->; [|done].
    rewrite <- (forallb_reverse f) in E. induction (reverse l) as [|x k IH];
      [done|]. simpl in *. destruct (f x); [by apply IH|done].
  - by rewrite reverse_snoc.
  - by rewrite reverse_snoc.
Qed.

(** White space at the end of a line. *)
Lemma drop_wsp_line l rest :
  clean l →
  drop_wsp_before_crlf (l ++ CRLF ++ rest)
    = drop_while_end is_wsp l ++ CRLF ++ drop_wsp_before_crlf rest.
Proof.
  induction l as [|c l IH]; intros Hl; [done|].
  assert (clean l) as Hl' by (destruct Hl; split; set_solver).
  change ((c :: l) ++ CRLF ++ rest) with (c :: (l ++ CRLF ++ rest)).
  cbn [drop_wsp_before_crlf]. rewrite drop_while_wsp_clean, IH by done.
  rewrite drop_while_end_cons.
  destruct (is_wsp c && forallb is_wsp l) eqn:E; [|done].
  apply andb_true_iff in E as [_ E].
  assert (drop_while_end is_wsp l = []) as ->; [|done].
  clear -E. induction l as [|x l IH]; [done|].
  rewrite drop_while_end_cons. simpl in E. by rewrite E.
Qed.

(** Runs of white space do not cross lines. *)
Lemma squeeze_line prev l rest :
  clean l →
  squeeze_wsp prev (l ++ CRLF ++ rest)
    = squeeze_wsp prev l ++ CRLF ++ squeeze_wsp false rest.
Proof.
  revert prev. induction l as [|c l IH]; intros prev Hl; [done|].
  assert (clean l) as Hl' by (destruct Hl; split; set_solver).
  simpl in *. destruct (is_wsp c), prev; simpl; by rewrite IH.
Qed.

Lemma enc_lines_cons l ls : enc_lines (l :: ls) = l ++ CRLF ++ enc_lines ls.
Proof. unfold enc_lines. by rewrite fmap_cons, concat_cons, <- app_assoc. Qed.

Lemma drop_wsp_lines ls :
  Forall clean ls →
  drop_wsp_before_crlf (enc_lines ls) = enc_lines (drop_while_end is_wsp <$> ls).
Proof.
  induction 1 as [|l ls Hl Hls IH]; [done|].
  by rewrite fmap_cons, !enc_lines_cons, drop_wsp_line, IH.
Qed.

Lemma squeeze_lines ls :
  Forall clean ls →
  squeeze_wsp false (enc_lines ls) = enc_lines (squeeze_wsp false <$> ls).
Proof.
  induction 1 as [|l ls Hl Hls IH]; [done|].
  by rewrite fmap_cons, !enc_lines_cons, squeeze_line, IH.
Qed.

Lemma drop_while_end_clean l : clean l → clean (drop_while_end is_wsp l).
Proof.
  destruct (drop_while_end_prefix is_wsp l) as [k [Hk _]].
  unfold clean. generalize dependent (drop_while_end is_wsp l).
  intros d ->. set_solver.
Qed.

Lemma squeeze_clean prev l : clean l → clean (squeeze_wsp prev l).
Proof.
  revert prev. induction l as [|c l IH]; intros prev Hl; [done|]. simpl.
  assert (clean l) as Hl' by (destruct Hl; split; set_solver).
  destruct Hl as [Hcr Hlf].
  destruct (is_wsp c), prev; try by apply IH.
  - destruct (IH true Hl'). split; intros [?|?]%elem_of_cons; done.
  - destruct (IH false Hl'). split; set_solver.
  - destruct (IH false Hl'). split; set_solver.
Qed.

Lemma relax_line_clean l : clean l → clean (relax_line l).
Proof. intros. by apply squeeze_clean, drop_while_end_clean. Qed.

Lemma strip_empty_snoc k l :
  strip_empty (k ++ [l]) = if l == "" then strip_empty k else k ++ [l].
Proof.
  induction k as [|x k IH]; simpl; [done|]. rewrite IH.
  destruct (bool_decide (l = [])); [done|].
  by destruct (k ++ [l]) eqn:E; [destruct k|].
Qed.

(** The CRLFs at the end of a body are its empty lines at the end. *)
Lemma strip_crlf_lines ls :
  Forall clean ls →
  rev (strip_crlf_rev (rev (enc_lines ls))) ++ CRLF
    = enc_lines (match strip_empty ls with [] => [[]] | ls' => ls' end).
Proof.
  induction ls as [|l k IH] using rev_ind; intros Hls; [done|].
  apply Forall_app in Hls as [Hk Hl]. apply Forall_cons in Hl as [Hl _].
  rewrite strip_empty_snoc.
  assert (enc_lines (k ++ [l]) = enc_lines k ++ l ++ CRLF) as E.
  { unfold enc_lines. rewrite fmap_app, concat_app. simpl.
    by rewrite (right_id_L [] (++)). }
  rewrite E, !rev_app_distr, <- app_assoc.
  change (strip_crlf_rev (rev CRLF ++ rev l ++ rev (enc_lines k)))
    with (strip_crlf_rev (rev l ++ rev (enc_lines k))).
  destruct (decide (l = [])) as [-> |Hne].
  - by apply IH.
  - rewrite bool_decide_eq_false_2 by done.
    assert (strip_crlf_rev (rev l ++ rev (enc_lines k))
              = rev l ++ rev (enc_lines k)) as ->.
    { destruct (rev l) as [|c r] eqn:Er.
      { by destruct Hne; rewrite <- (rev_involutive l), Er. }
      assert (c ∈ l) as Hc.
      { apply list_elem_of_In. rewrite in_rev, Er. by left. }
      simpl. destruct (r ++ rev (enc_lines k)); [done|].
      rewrite bool_decide_eq_false_2; [done|]. intros ->. destruct Hl as [_ Hl].
      by apply Hl. }
    rewrite rev_app_distr, !rev_involutive, <- app_assoc, <- E.
    by destruct (k ++ [l]) eqn:Ek; [destruct k|].
Qed.

Lemma enc_lines_suffix ls : ls ≠ [] → HasSuffix (enc_lines ls) CRLF = true.
Proof.
  intros Hne. apply HasSuffix_spec.
  destruct (exists_last Hne) as [k [l ->]].
  exists (enc_lines k ++ l). unfold enc_lines.
  rewrite fmap_app, concat_app. simpl. by rewrite (right_id_L [] (++)), app_assoc.
Qed.

Lemma squeeze_idem prev l :
  squeeze_wsp prev (squeeze_wsp prev l) = squeeze_wsp prev l.
Proof.
  revert prev. induction l as [|c l IH]; intros prev; [done|]. simpl.
  destruct (is_wsp c) eqn:E, prev; simpl; rewrite ?E; rewrite ?IH; done.
Qed.

Lemma squeeze_snoc prev k y :
  is_wsp y = false → squeeze_wsp prev (k ++ [y]) = squeeze_wsp prev k ++ [y].
Proof.
  intros Hy. revert prev. induction k as [|c k IH]; intros prev; simpl.
  - by rewrite Hy.
  - by destruct (is_wsp c), prev; rewrite IH.
Qed.

Lemma relax_line_idem l : relax_line (relax_line l) = relax_line l.
Proof.
  unfold relax_line. set (t := drop_while_end is_wsp l).
  assert (drop_while_end is_wsp (squeeze_wsp false t) = squeeze_wsp false t) as ->;
    [|apply squeeze_idem].
  destruct (decide (t = [])) as [-> |Hne]; [done|].
  destruct (exists_last Hne) as [k [y Et]].
  assert (is_wsp y = false) as Hy by by eapply drop_while_end_last.
  rewrite Et, squeeze_snoc by done.
  apply drop_while_end_id. intros x l' [_ [= <-]]%app_inj_tail. done.
Qed.

Lemma strip_empty_idem ls : strip_empty (strip_empty ls) = strip_empty ls.
Proof.
  induction ls as [|l k IH] using rev_ind; [done|].
  rewrite strip_empty_snoc. case_bool_decide; [done|].
  rewrite strip_empty_snoc. by rewrite bool_decide_eq_false_2.
Qed.

Lemma strip_empty_prefix ls : ∃ k, ls = strip_empty ls ++ k.
Proof.
  induction ls as [|l k [j Hj]] using rev_ind; [by exists []|].
  rewrite strip_empty_snoc. case_bool_decide.
  - exists (j ++ [l]). by rewrite app_assoc, <- Hj.
  - exists []. by rewrite (right_id_L [] (++)).
Qed.

Lemma fmap_fixed_prefix {A} (f : A → A) l a b :
  f <$> l = l → l = a ++ b → f <$> a = a.
Proof.
  intros Hf ->. rewrite fmap_app in Hf. apply app_inj_1 in Hf as [Ha _];
    [exact Ha|by rewrite length_fmap].
Qed.

Lemma relaxed_lines_idem ls : relaxed_lines (relaxed_lines ls) = relaxed_lines ls.
Proof.
  destruct ls as [|l ls]; [done|]. unfold relaxed_lines at 2 3.
  set (ks := relax_line <$> l :: ls).
  destruct (strip_empty_prefix ks) as [j Hj].
  assert (relax_line <$> strip_empty ks = strip_empty ks) as Hid.
  { assert (relax_line <$> ks = ks) as Hks.
    { unfold ks. rewrite <- list_fmap_compose. apply list_fmap_ext.
      intros i x _. apply relax_line_idem. }
    by eapply fmap_fixed_prefix. }
  pose proof (strip_empty_idem ks) as Hs.
  destruct (strip_empty ks) as [|x xs]; [done|].
  unfold relaxed_lines. by rewrite Hid, Hs.
Qed.

Lemma relaxed_lines_clean ls : Forall clean ls → Forall clean (relaxed_lines ls).
Proof.
  intros Hls. destruct ls as [|l ls]; [done|]. unfold relaxed_lines.
  assert (Forall clean (relax_line <$> l :: ls)) as Hr
    by (apply Forall_fmap; eapply Forall_impl; [done|]; apply relax_line_clean).
  destruct (strip_empty_prefix (relax_line <$> l :: ls)) as [j Hj].
  rewrite Hj in Hr. apply Forall_app in Hr as [Hr _].
  destruct (strip_empty _); [|done]. repeat constructor; apply not_elem_of_nil.
Qed.

Lemma relaxBody_complete ls :
  Forall clean ls → relaxBody (enc_lines ls) = enc_lines (relaxed_lines ls).
Proof.
  intros Hls. unfold relaxBody.
  rewrite drop_wsp_lines by done. rewrite squeeze_lines
    by (apply Forall_fmap; eapply Forall_impl; [done|]; apply drop_while_end_clean).
  rewrite <- list_fmap_compose.
  change (squeeze_wsp false ∘ drop_while_end is_wsp) with relax_line.
  destruct ls as [|l ls]; [done|].
  assert (Forall clean (relax_line <$> l :: ls)) as Hr
    by (apply Forall_fmap; eapply Forall_impl; [done|]; apply relax_line_clean).
  unfold single_crlf_at_end. rewrite enc_lines_suffix by done.
  rewrite strip_crlf_lines by done. unfold relaxed_lines.
  set (ks := match strip_empty (relax_line <$> l :: ls) with
             | [] => [[]] | ls' => ls' end).
  rewrite (enc_lines_suffix ks) by by unfold ks; case_match.
  by rewrite andb_false_r.
Qed.

(** After the last CRLF nothing is removed. *)
Lemma drop_wsp_rest t : clean t → drop_wsp_before_crlf t = t.
Proof.
  induction t as [|c t IH]; intros Ht; [done|].
  assert (Ht' : clean t) by (destruct Ht; split; set_solver). simpl. rewrite IH by done.
  assert (E : HasPrefix (drop_while is_wsp t) CRLF = false).
  { clear -Ht'. induction t as [|d t IH]; [done|].
    assert (clean t) by (destruct Ht'; split; set_solver). simpl.
    destruct (is_wsp d); [by apply IH|]. unfold HasPrefix. simpl.
    by rewrite bool_decide_eq_false_2 by (destruct Ht'; set_solver). }
  by rewrite E, andb_false_r.
Qed.

Lemma relax_with_rest ls rest :
  Forall clean ls → clean rest →
  squeeze_wsp false (drop_wsp_before_crlf (enc_lines ls ++ rest))
    = enc_lines (relax_line <$> ls) ++ squeeze_wsp false rest.
Proof.
  intros Hls Hr. induction Hls as [|l ls Hl Hls IH].
  - cbn [fmap list_fmap app]. change (enc_lines []) with ([] : bytes).
    cbn [app]. by rewrite drop_wsp_rest.
  - rewrite fmap_cons, !enc_lines_cons, <- !app_assoc, drop_wsp_line by done.
    rewrite squeeze_line by by apply drop_while_end_clean. by rewrite IH.
Qed.

Lemma squeeze_not_nil t : t ≠ [] → squeeze_wsp false t ≠ [].
Proof. destruct t as [|c t]; [done|]. simpl. by destruct (is_wsp c). Qed.

Lemma clean_no_crlf_end a t : clean t → t ≠ [] → HasSuffix (a ++ t) CRLF = false.
Proof.
  intros [_ Hlf] Hne. apply not_true_iff_false. intros [b Hb]%HasSuffix_spec.
  destruct (exists_last Hne) as [k [y ->]]. change CRLF with ([CR] ++ [LF]) in Hb.
  rewrite !app_assoc in Hb. apply app_inj_tail in Hb as [_ ->]. set_solver.
Qed.

Lemma enc_lines_app ls ks : enc_lines (ls ++ ks) = enc_lines ls ++ enc_lines ks.
Proof. unfold enc_lines. by rewrite fmap_app, concat_app. Qed.



(** ** What a signature vouches for *)

Section Verify.
Context {RSAPublicKey PrivateKey : Type} `{Crypto RSAPublicKey PrivateKey}.
Context `{Unicode}.

(** The part of the body that is signed. *)
Definition signed_body (sig : dkimSignature) (body : bytes) : bytes :=
  let bodyC := c_body (sig_cB sig) body in
  if (0 <? sig_l sig)%N then take (N.to_nat (sig_l sig)) bodyC else bodyC.

(** The text of the headers that are signed. *)
Definition signed_headers (sig : dkimSignature) (sigH : header)
    (headers : list header) : bytes :=
  concat ((λ h, Source (c_header (sig_cH sig) h) ++ CRLF)
            <$> headersToInclude sigH (sig_h sig) headers).

Lemma dkimSignatureFromHeader_from value sig :
  dkimSignatureFromHeader value = Ok sig →
  existsb (λ s, EqualFold s "from") (sig_h sig) = true.
Proof.
  unfold dkimSignatureFromHeader. intros E. res_inv.
  destruct (tag _ "v" != "1"); [done|].
  destruct (Cut _ "-") as [[kt hs]|]; [|done]. res_inv.
  destruct (canonicalizationFromString _) as [[cH cB]|]; [|done]. res_inv.
  destruct (bool_decide (0 < _) && _); [done|]. res_inv.
  destruct (checkRequiredTags _) eqn:EC; [done|]. injection E as <-.
  unfold checkRequiredTags in EC.
  destruct (existsb (λ s, EqualFold s "from") _) eqn:EF; [done|].
  by repeat case_match.
Qed.

Lemma verifySignature_success lookupTXT sigH headers body r :
  verifySignature lookupTXT sigH headers body = Some r → State r = SUCCESS →
  ∃ sig pks pk,
    dkimSignatureFromHeader (Value sigH) = Ok sig ∧
    findPublicKeys lookupTXT (sig_d sig) (sig_s sig) = Ok pks ∧ pk ∈ pks ∧
    sha256 (signed_body sig body) = sig_bh sig ∧
    verify (pk_verify pk) (sha256 (signed_data sig sigH headers)) (sig_b sig) = true.
Proof.
  unfold verifySignature. intros Ev Hs.
  destruct (dkimSignatureFromHeader _) as [sig|e] eqn:Esig; [|by simplify_eq].
  destruct (findPublicKeys _ _ _) as [pks|e] eqn:Epk;
    [|simplify_eq; simpl in Hs; by repeat case_match].
  destruct (_ <? sig_l sig)%N in Ev; [done|].
  destruct (bool_decide (_ = sig_bh sig)) eqn:Ebh in Ev; simpl in Ev;
    [|by simplify_eq].
  destruct (existsb _ pks) eqn:Ex; [|by simplify_eq].
  apply existsb_exists in Ex as (pk & Hin & Hk).
  apply list_elem_of_In in Hin. apply bool_decide_eq_true in Ebh.
  unfold key_verifies in Hk. apply andb_true_iff in Hk as [_ Hk].
  exists sig, pks, pk. unfold hashWith in Ebh, Hk. destruct (sig_Hash sig).
  by split_and!.
Qed.

(** A name in h= covers the last header of that name. *)
Lemma include_first sigH headers pre h post seen x :
  ToLower h ∉ (ToLower <$> pre) → seen !! ToLower h = None →
  last (FindAll headers h) = Some x → x ≠ sigH →
  x ∈ include_loop sigH headers (pre ++ h :: post) seen.
Proof.
  revert seen. induction pre as [|p pre IH]; intros seen Hpre Hseen Hx Hne;
    cbn [app include_loop].
  - rewrite Hseen. simpl.
    assert (rev (FindAll headers h) !! 0 = Some x) as ->.
    { apply last_Some in Hx as [l ->]. by rewrite rev_app_distr. }
    rewrite bool_decide_eq_false_2 by done. left.
  - rewrite fmap_cons, not_elem_of_cons in Hpre. destruct Hpre as [Hp Hpre].
    destruct (rev (FindAll headers p) !! _) as [y|]; [|by apply IH].
    assert (x ∈ include_loop sigH headers (pre ++ h :: post)
              (<[ToLower p := S (default 0 (seen !! ToLower p))]> seen)).
    { apply IH; [done| |done..]. by rewrite lookup_insert_ne. }
    case_bool_decide; [done|by right].
Qed.

(** Two texts with the same hash. *)
Definition collision (x y : bytes) : Prop := x ≠ y ∧ sha256 x = sha256 y.

(** One signature that the keys of the domain accept for two hashes. *)
Definition double_signature (pks : list (publicKey RSAPublicKey)) (sg h1 h2 : bytes) : Prop :=
  h1 ≠ h2 ∧ ∃ pk1 pk2, pk1 ∈ pks ∧ pk2 ∈ pks ∧
    verify (pk_verify pk1) h1 sg = true ∧ verify (pk_verify pk2) h2 sg = true.

(** C16: What a DKIM signature vouches for.  If one signature header verifies on
    two messages, then they have the same canonical body, up to the length that is
    signed, or these two bodies are a collision of SHA-256; and they have the same
    text of signed headers, or the two texts that are hashed are a collision, or
    else keys that the domain of the signature has under its selector accept the
    signature for two different hashes.  The signed headers have From among their
    names, and for each name the last header of the message with it, which is the
    one that counts. *)
Theorem verify_vouches lookupTXT sigH hs1 b1 hs2 b2 r1 r2 :
  verifySignature lookupTXT sigH hs1 b1 = Some r1 → State r1 = SUCCESS →
  verifySignature lookupTXT sigH hs2 b2 = Some r2 → State r2 = SUCCESS →
  ∃ sig pks, dkimSignatureFromHeader (Value sigH) = Ok sig ∧
    findPublicKeys lookupTXT (sig_d sig) (sig_s sig) = Ok pks ∧
    (signed_body sig b1 = signed_body sig b2 ∨
     collision (signed_body sig b1) (signed_body sig b2)) ∧
    (signed_headers sig sigH hs1 = signed_headers sig sigH hs2 ∨
     collision (signed_data sig sigH hs1) (signed_data sig sigH hs2) ∨
     double_signature pks (sig_b sig) (sha256 (signed_data sig sigH hs1))
       (sha256 (signed_data sig sigH hs2))) ∧
    existsb (λ s, EqualFold s "from") (sig_h sig) = true ∧
    (∀ pre h post x, sig_h sig = pre ++ h :: post →
       ToLower h ∉ (ToLower <$> pre) → last (FindAll hs1 h) = Some x → x ≠ sigH →
       x ∈ headersToInclude sigH (sig_h sig) hs1).
Proof.
  intros E1 S1 E2 S2.
  apply verifySignature_success in E1 as (sig & pks & k & Es & Ek & Hk & Hb & Hv);
    [|done].
  apply verifySignature_success in E2 as (sig' & pks' & k' & Es' & Ek' & Hk' & Hb' & Hv');
    [|done].
  rewrite Es in Es'. injection Es' as <-. rewrite Ek in Ek'. injection Ek' as <-.
  exists sig, pks. split_and!; [done|done|..].
  - destruct (decide (signed_body sig b1 = signed_body sig b2)) as [|Hn]; [by left|right].
    split; [done|congruence].
  - destruct (decide (signed_data sig sigH hs1 = signed_data sig sigH hs2)) as [HD|Hn].
    { left. by apply app_inv_tail in HD. }
    right. destruct (decide (sha256 (signed_data sig sigH hs1) = sha256 (signed_data sig sigH hs2)));
      [by left|right]. split; [done|]. by exists k, k'.
  - by eapply dkimSignatureFromHeader_from.
  - intros pre h post x -> Hpre Hx Hne. by apply include_first.
Qed.

(** ** How verification ends *)

(** A signature whose l= is beyond the end of the body. *)
Definition too_long (lookupTXT : bytes → res error (list bytes)) (body : bytes)
    (sigH : header) : Prop :=
  ∃ sig pks, dkimSignatureFromHeader (Value sigH) = Ok sig ∧
    findPublicKeys lookupTXT (sig_d sig) (sig_s sig) = Ok pks ∧
    (N.of_nat (length (c_body (sig_cB sig) body)) < sig_l sig)%N.

Lemma verifySignature_panics lookupTXT sigH headers body :
  verifySignature lookupTXT sigH headers body = None ↔
  too_long lookupTXT body sigH.
Proof.
  unfold verifySignature, too_long.
  destruct (dkimSignatureFromHeader _) as [sig|e]; [|naive_solver].
  destruct (findPublicKeys _ _ _) as [pks|e] eqn:Ek;
    [|split; [done|]; intros (sig' & pks' & [= <-] & E & _); congruence].
  destruct (N.ltb_spec (N.of_nat (length (c_body (sig_cB sig) body))) (sig_l sig)).
  - split; [|done]. intros _. by exists sig, pks.
  - split; [|intros (sig' & pks' & [= <-] & _ & ?); lia].
    destruct (_ != _); [done|]. by destruct (existsb _ _).
Qed.

Lemma verify_all_panics lookupTXT sigs headers body :
  verify_all lookupTXT sigs headers body = None ↔
  Exists (too_long lookupTXT body) sigs.
Proof.
  induction sigs as [|sigH sigs IH]; simpl; [by rewrite Exists_nil|].
  rewrite Exists_cons, <- IH, <- (verifySignature_panics _ _ headers).
  destruct (verifySignature _ _ _ _); simpl; [|naive_solver].
  destruct (verify_all _ _ _ _); simpl; naive_solver.
Qed.

Lemma verify_all_length lookupTXT sigs headers body rs :
  verify_all lookupTXT sigs headers body = Some rs → length rs = length sigs.
Proof.
  revert rs. induction sigs as [|sigH sigs IH]; intros rs; simpl;
    [by intros [= <-]|].
  destruct (verifySignature _ _ _ _); [|done].
  destruct (verify_all _ _ _ _); [|done]. intros [= <-]. simpl. by rewrite IH.
Qed.

Lemma VerifyMessage_panics maxHeaders lookupTXT message :
  VerifyMessage maxHeaders lookupTXT message = None →
  ∃ headers body, parseMessage message = Ok (headers, body) ∧
    Exists (too_long lookupTXT body)
      (take maxHeaders (FindAll headers "DKIM-Signature")).
Proof.
  unfold VerifyMessage.
  destruct (parseMessage message) as [[headers body]|err]; [|done].
  destruct (verify_all _ _ _ _) eqn:E; [done|]. intros _.
  exists headers, body. split; [done|]. by eapply verify_all_panics.
Qed.

(** How a verification ends.  The effort is bounded: at most [maxHeaders]
    signatures are evaluated, each with one result; a message is only valid
    through a signature that is.  It fails only for a message whose headers
    cannot be parsed, and panics exactly when one of those signatures, for
    which there are keys, says that more of the body is signed than there
    is. *)
Theorem VerifyMessage_outcomes maxHeaders lookupTXT message :
  match VerifyMessage maxHeaders lookupTXT message with
  | Some (Ok r) =>
    Found r = length (Results r) ∧ Found r ≤ maxHeaders ∧ Valid r ≤ Found r ∧
    (0 < Valid r ↔ Exists (λ o, State o = SUCCESS) (Results r))
  | Some (Err err) => parseMessage message = Err err
  | None =>
    ∃ headers body, parseMessage message = Ok (headers, body) ∧
      Exists (too_long lookupTXT body)
        (take maxHeaders (FindAll headers "DKIM-Signature"))
  end.
Proof.
  unfold VerifyMessage.
  destruct (parseMessage message) as [[headers body]|err]; [|done].
  set (sigs := take _ _).
  destruct (verify_all lookupTXT sigs headers body) as [rs|] eqn:E; simpl.
  - apply verify_all_length in E. split; [done|].
    split; [rewrite E; unfold sigs; rewrite length_take; lia|].
    clear E. induction rs as [|r rs [IH1 IH2]]; simpl.
    { split; [done|]. rewrite Exists_nil. split; [lia|done]. }
    rewrite Exists_cons. destruct (decide (State r = SUCCESS)) as [Hr|Hr].
    + rewrite bool_decide_eq_true_2 by done. simpl. split; [lia|].
      split; [by left|lia].
    + rewrite bool_decide_eq_false_2 by done. split; [lia|]. rewrite IH2. naive_solver.
  - exists headers, body. split; [done|]. by eapply verify_all_panics.
Qed.

End Verify.

(** ** Signing and verifying *)

Module Example.
Import AsciiOnly.

(** A toy instance: keys are unit, hashes the bytes themselves, and a signature
    is the hash it signs. *)
#[local] Instance toy : Crypto unit unit :=
  {| sha256 (b : bytes) := b;
     ParsePKIXPublicKey (_ : bytes) := Some (Some tt);
     ParsePKCS1PublicKey (_ : bytes) := None;
     rsa_Size (_ : unit) := 256%Z;
     rsa_VerifyPKCS1v15 (_ : unit) (h s : bytes) := h == s;
     ed25519_Verify (_ _ _ : bytes) := false;
     private_kind (_ : unit) := Some keyTypeRSA;
     private_Sign (_ : unit) (h : bytes) := Ok h |}.

Definition signer : Signer unit := mkSigner "dom.org" "sel" tt.

Definition dns (d : bytes) : res error (list bytes) :=
  if d == "sel._domainkey.dom.org" then Ok ["v=DKIM1; p=AAAA"]
  else Err (LookupError "no such host").

Definition text (ls : list bytes) : bytes := concat ((λ l, l ++ CRLF) <$> ls).

(** The signature header as a connection adds it. *)
Definition signed (message : bytes) : bytes :=
  match Sign signer 1234 message with
  | Ok sg => "DKIM-Signature: " ++ ReplaceAll sg CRLF (CRLF ++ [TAB]) ++ CRLF ++ message
  | Err _ => []
  end.

Definition verdict (message : bytes) : option (nat * nat) :=
  match VerifyMessage 5 dns message with
  | Some (Ok r) => Some (Found r, Valid r)
  | _ => None
  end.

(** A message that was signed verifies, also after changes of white space; it
    does not after others. *)
Example sign_verify :
  verdict (signed (text ["From: a@b"; "Subject:  hi"; "X: y"; ""; "body  x "; ""]))
    = Some (1, 1) ∧
  verdict (text ["From: a@b"; "Subject: no signature"; ""; "x"]) = Some (0, 0).
Proof. by vm_compute. Qed.

(** A message with two headers of the same name among those that are signed
    is signed in a way that does not verify: [Sign] hashes them in the order
    in which they appear, and [headersToInclude] picks them from the last
    one. *)
Lemma repeated_header_fails :
  verdict (signed (text ["From: a@b"; "To: c@d"; "To: e@f"; ""; "body"]))
    = Some (1, 0).
Proof. by vm_compute. Qed.

(** The signature of a message of four body bytes that says that it covers
    five. *)
Definition long_sig : header :=
  mkHeader "DKIM-Signature"
    "v=1; a=rsa-sha256; d=dom.org; s=sel; h=from; bh=AAAA; b=AAAA; l=5"
    "DKIM-Signature:...".

Lemma long_l_panics : verifySignature dns long_sig [] ("ab" ++ CRLF) = None.
Proof. by vm_compute. Qed.

(** A signature over a header and a body, both as they are. *)
Definition plain_sig : header :=
  let v := "v=1; a=rsa-sha256; d=dom.org; s=sel; h=from; bh="
             ++ Base64.EncodeToString ("x" ++ CRLF) ++ "; b=" in
  let h := "From: a@b" ++ CRLF ++ "DKIM-Signature:" ++ v in
  mkHeader "DKIM-Signature" (v ++ Base64.EncodeToString h)
    ("DKIM-Signature:" ++ v ++ Base64.EncodeToString h).

Definition from_header : header := mkHeader "From" " a@b" "From: a@b".

Definition key : publicKey unit :=
  mkPublicKey [] keyTypeRSA [NUL; NUL; NUL] [] (VerifyRSA tt).

Lemma verify_vouches_witness :
  ∃ sig, dkimSignatureFromHeader (Value plain_sig) = Ok sig ∧
    (signed_body sig "x" = signed_body sig ("x" ++ CRLF ++ CRLF) ∨
     collision (signed_body sig "x") (signed_body sig ("x" ++ CRLF ++ CRLF))) ∧
    from_header ∈ headersToInclude plain_sig (sig_h sig) [from_header].
Proof.
  set (other := mkHeader "X" " y" "X: y").
  destruct (verify_vouches dns plain_sig [from_header] "x" [other; from_header]
    ("x" ++ CRLF ++ CRLF)
    (default (mkOneResult [] [] [] [] PERMFAIL None)
       (verifySignature dns plain_sig [from_header] "x"))
    (default (mkOneResult [] [] [] [] PERMFAIL None)
       (verifySignature dns plain_sig [other; from_header] ("x" ++ CRLF ++ CRLF))))
    as (sig & pks & Es & _ & Hb & _ & _ & Hin).
  - by vm_compute.
  - by vm_compute.
  - by vm_compute.
  - by vm_compute.
  - exists sig. split; [exact Es|]. split; [exact Hb|].
    assert (sig_h sig = ["from"]) as Eh.
    { vm_compute in Es. by injection Es as <-. }
    apply (Hin [] "from" [] from_header); [exact Eh|by apply not_elem_of_nil| |].
    + by vm_compute.
    + by vm_compute.
Defined.

End Example.

End DkimProps.
