(* ===== verification/DkimSign.v ===== *)
(** Signing and verifying: a message that [Sign] signed verifies.

    The signature is a text that goes through line folding, parsing as a list
    of tags, canonicalization and the removal of its b= tag.  It is made of
    words without spaces, and each step is followed on such texts. *)

From S2P Require Import Prelude GoStrings Envelope DotReader Auth Dkim DkimProps.
#[local] Open Scope go_scope.

Module DkimSign.
Import DotReader Dkim DkimProps.

(** ** Text without spaces *)

(** ASCII that is not space and does not separate tags. *)
Definition plain (c : ascii) : bool :=
  Utf8.is_ascii c && negb (IsSpace (Utf8.bval c)) && negb (is_fws c)
  && negb (c == ";"%char).

Lemma plain_spec c : plain c = true →
  Utf8.is_ascii c = true ∧ IsSpace (Utf8.bval c) = false ∧ is_fws c = false ∧ c ≠ ";"%char.
Proof.
  unfold plain. rewrite !andb_true_iff, !negb_true_iff, bool_decide_eq_false. tauto.
Qed.

Lemma dec_digit_plain c : is_Some (Base64.dec_digit c) → plain c = true.
Proof.
  intros [d Hd]. destruct c as [[] [] [] [] [] [] [] []]; first [reflexivity|discriminate].
Qed.

Lemma enc_digit_ok d : plain (Base64.enc_digit d) = true.
Proof.
  destruct (decide (d < 64)%N) as [Hd|Hd].
  - apply dec_digit_plain. rewrite Base64.dec_enc_digit by done. eauto.
  - unfold Base64.enc_digit. repeat rewrite (proj2 (N.ltb_ge _ _)) by lia.
    by rewrite (proj2 (N.eqb_neq _ _)) by lia.
Qed.

Lemma EncodeToString_plain s : forallb plain (Base64.EncodeToString s) = true.
Proof.
  induction s as [s IH] using (induction_ltof1 _ (@length ascii)).
  unfold ltof in IH. destruct s as [|a [|b [|c s]]]; cbn [Base64.EncodeToString forallb];
    rewrite ?enc_digit_ok; try done.
  rewrite IH by (simpl; lia). done.
Qed.

Definition space (c : ascii) : bool := IsSpace (Utf8.bval c).

Lemma drop_while_fmap {A B} (f : B → bool) (g : A → B) l :
  drop_while f (g <$> l) = g <$> drop_while (λ x, f (g x)) l.
Proof.
  induction l as [|x l IH]; [done|]. rewrite fmap_cons. cbn [drop_while].
  by destruct (f (g x)).
Qed.

Lemma TrimSpace_ascii s :
  forallb Utf8.is_ascii s = true →
  TrimSpace s = drop_while_end space (drop_while space s).
Proof.
  intros Hs. unfold TrimSpace. rewrite (chunks_ascii s Hs), drop_while_fmap.
  unfold drop_while_end. rewrite <- fmap_reverse, drop_while_fmap, <- fmap_reverse.
  rewrite <- list_fmap_compose. cbn [fst compose].
  induction (reverse _) as [|c l IH]; [done|]. rewrite fmap_cons, concat_cons. simpl. by f_equal.
Qed.

(** A text in the middle of spaces. *)
Lemma TrimSpace_word sp w :
  forallb space sp = true → forallb Utf8.is_ascii (sp ++ w) = true →
  match w with c :: _ => space c = false | [] => True end →
  match last w with Some c => space c = false | None => True end →
  TrimSpace (sp ++ w) = w.
Proof.
  intros Hsp Ha Hh Hl. rewrite TrimSpace_ascii by done.
  assert (E : drop_while space (sp ++ w) = w).
  { clear Ha. induction sp as [|c sp IH]; simpl in *.
    - destruct w as [|c w]; [done|]. cbn [drop_while]. by rewrite Hh.
    - apply andb_true_iff in Hsp as [Hc Hsp]. rewrite Hc. by apply IH. }
  rewrite E. unfold drop_while_end.
  destruct w as [|c w _] using rev_ind; [done|].
  rewrite last_snoc in Hl. rewrite reverse_snoc. cbn [drop_while]. rewrite Hl.
  by rewrite <- reverse_snoc, reverse_involutive.
Qed.

Lemma plain_ascii s : forallb plain s = true → forallb Utf8.is_ascii s = true.
Proof.
  induction s as [|c s IH]; [done|]. cbn [forallb]. intros [Hc Hs]%andb_true_iff.
  apply plain_spec in Hc as [-> _]. by rewrite IH.
Qed.

Lemma plain_last s : forallb plain s = true →
  match last s with Some c => space c = false | None => True end.
Proof.
  destruct s as [|c s _] using rev_ind; [done|]. rewrite last_snoc, forallb_app. cbn [forallb].
  rewrite andb_true_r. by intros [_ (_ & ? & _)%plain_spec]%andb_true_iff.
Qed.

Lemma plain_no_semicolon s : forallb plain s = true → ";"%char ∉ s.
Proof.
  induction s as [|c s IH]; [set_solver|]. cbn [forallb]. intros [Hc Hs]%andb_true_iff.
  apply plain_spec in Hc as (_ & _ & _ & Hc). rewrite not_elem_of_cons. auto.
Qed.

Lemma plain_eat s : forallb plain s = true → eatWhitespace s = s.
Proof.
  unfold eatWhitespace. induction s as [|c s IH]; [done|]. cbn [forallb].
  intros [Hc Hs]%andb_true_iff. apply plain_spec in Hc as (_ & _ & Hf & _).
  cbn [List.filter]. rewrite Hf. simpl. by rewrite IH.
Qed.

(** What folding and canonicalization do not change. *)
Definition solid (c : ascii) : bool := negb (is_fws c).

Lemma solid_spec c : solid c = true → is_wsp c = false ∧ c ≠ CR ∧ c ≠ LF.
Proof.
  unfold solid, is_fws, is_wsp. rewrite negb_true_iff, !orb_false_iff, !bool_decide_eq_false.
  tauto.
Qed.

Lemma forallb_elem {A} (f : A → bool) l x : forallb f l = true → x ∈ l → f x = true.
Proof. rewrite forallb_forall. intros Hf Hx. apply Hf. by apply list_elem_of_In. Qed.

Lemma forallb_impl {A} (f g : A → bool) l :
  (∀ x, f x = true → g x = true) → forallb f l = true → forallb g l = true.
Proof. rewrite !forallb_forall. auto. Qed.

Lemma plain_solid s : forallb plain s = true → forallb solid s = true.
Proof. apply forallb_impl. intros c (_ & _ & Hc & _)%plain_spec. unfold solid. by rewrite Hc. Qed.

Lemma solid_no_CR s : forallb solid s = true → CR ∉ s.
Proof. intros Hs Hc. by apply (forallb_elem _ _ _ Hs) in Hc. Qed.

(** ** Line breaks *)

(** [strings.ReplaceAll(s, "\r\n", new)] *)
Fixpoint subst_crlf (new s : bytes) : bytes :=
  match s with
  | [] => []
  | c :: s' =>
    match s' with
    | d :: r => if (c == CR) && (d == LF) then new ++ subst_crlf new r
                else c :: subst_crlf new s'
    | [] => [c]
    end
  end.

Lemma subst_crlf_cons new c d r :
  subst_crlf new (c :: d :: r) =
  if (c == CR) && (d == LF) then new ++ subst_crlf new r else c :: subst_crlf new (d :: r).
Proof. done. Qed.

Lemma Cut_crlf c s' :
  Cut (c :: s') CRLF =
  match s' with
  | d :: r => if (c == CR) && (d == LF) then Some ([], r)
              else (λ p, (c :: p.1, p.2)) <$> Cut s' CRLF
  | [] => None
  end.
Proof.
  destruct s' as [|d r].
  - simpl. by destruct (bool_decide (CR = c)).
  - change (Cut (c :: d :: r) CRLF) with
      (match strip_prefix CRLF (c :: d :: r) with
       | Some rest => Some ([], rest)
       | None => match Cut (d :: r) CRLF with
                 | Some (a, b) => Some (c :: a, b) | None => None end
       end).
    simpl strip_prefix.
    rewrite (bool_decide_ext (CR = c) (c = CR)) by done.
    rewrite (bool_decide_ext (LF = d) (d = LF)) by done.
    destruct (bool_decide (c = CR)), (bool_decide (d = LF)); cbn [andb];
      [done|by destruct (Cut (d :: r) CRLF) as [[]|]..].
Qed.

Lemma subst_crlf_eq new s : ReplaceAll s CRLF new = subst_crlf new s.
Proof.
  unfold ReplaceAll.
  induction s as [s IH] using (induction_ltof1 _ (@length ascii)).
  unfold ltof in IH. rewrite Split_eq by done.
  destruct s as [|c s']; [done|]. rewrite Cut_crlf.
  destruct s' as [|d r]; [done|]. rewrite subst_crlf_cons.
  destruct ((c == CR) && (d == LF)).
  - rewrite Join_cons by by apply Split_not_nil. rewrite IH by (simpl; lia). done.
  - pose proof (IH (d :: r) ltac:(simpl; lia)) as E.
    rewrite Split_eq in E by done.
    destruct (Cut (d :: r) CRLF) as [[a b]|];
      cbn -[Join Split subst_crlf CRLF app] in *.
    + rewrite Join_cons in E |- * by by apply Split_not_nil. by rewrite <- E.
    + by rewrite <- E.
Qed.

Lemma subst_crlf_app new a b :
  CR ∉ a → subst_crlf new (a ++ b) = a ++ subst_crlf new b.
Proof.
  induction a as [|c a IH]; [done|]. intros [Hc Ha]%not_elem_of_cons.
  rewrite <- app_comm_cons. destruct (a ++ b) as [|d r] eqn:E.
  - apply app_eq_nil in E as [-> ->]. done.
  - rewrite subst_crlf_cons, (bool_decide_eq_false_2 (c = CR)) by done.
    cbn [andb]. rewrite <- app_comm_cons, <- IH by done. done.
Qed.

Lemma subst_crlf_break new b : subst_crlf new (CRLF ++ b) = new ++ subst_crlf new b.
Proof. done. Qed.

(** Words on lines of their own. *)
Lemma subst_crlf_words new ws b :
  Forall (λ w, CR ∉ w) ws →
  subst_crlf new (Join ws (CRLF ++ "  ") ++ b) = Join ws (new ++ "  ") ++ subst_crlf new b.
Proof.
  induction 1 as [|w ws Hw Hws IH]; [done|].
  destruct ws as [|w' ws]; [by apply subst_crlf_app|].
  rewrite !(Join_cons w) by done. rewrite <- !(assoc_L (++)), subst_crlf_app by done.
  rewrite subst_crlf_break, subst_crlf_app by (by apply (bool_decide_eq_true_1 _)).
  by rewrite IH.
Qed.

(** ** Canonicalization *)

(** The value of a relaxed header, but for its ends. *)
Definition relax_text (s : bytes) : bytes := squeeze_wsp false (unfold_header s).

Lemma unfold_solid c s :
  c ≠ CR → unfold_loop UCopy (c :: s) = c :: unfold_loop UCopy s.
Proof.
  intros Hc. destruct s as [|b [|w r]]; [done..|]. cbn [unfold_loop].
  by rewrite (bool_decide_eq_false_2 (c = CR)) by done.
Qed.

Lemma relax_app a b : forallb solid a = true → relax_text (a ++ b) = a ++ relax_text b.
Proof.
  unfold relax_text, unfold_header. induction a as [|c a IH]; [done|].
  cbn [forallb]. intros [(Hw & Hc & _)%solid_spec Ha]%andb_true_iff.
  rewrite <- app_comm_cons, unfold_solid by done. cbn [squeeze_wsp]. by rewrite Hw, IH.
Qed.

Lemma unfold_wsp sp c b :
  forallb is_wsp sp = true → solid c = true →
  unfold_loop UWsp (sp ++ c :: b) = c :: unfold_loop UCopy b.
Proof.
  intros Hsp (Hw & Hc & _)%solid_spec. induction sp as [|x sp IH].
  - rewrite <- (unfold_solid c b) by done. change ([] ++ c :: b) with (c :: b).
    cbn [unfold_loop]. by rewrite Hw.
  - cbn [forallb] in Hsp. apply andb_true_iff in Hsp as [Hx Hsp].
    rewrite <- app_comm_cons. cbn [unfold_loop]. rewrite Hx. by apply IH.
Qed.

Lemma relax_SP c b : solid c = true → relax_text (SP :: c :: b) = SP :: relax_text (c :: b).
Proof.
  intros (Hw & Hc & _)%solid_spec. unfold relax_text, unfold_header.
  rewrite !unfold_solid by done. cbn [squeeze_wsp]. by rewrite Hw.
Qed.

Lemma relax_break sp c b :
  forallb is_wsp sp = true → solid c = true →
  relax_text (CRLF ++ [TAB] ++ sp ++ c :: b) = SP :: relax_text (c :: b).
Proof.
  intros Hsp Hc. pose proof Hc as (Hw & Hcr & _)%solid_spec.
  unfold relax_text, unfold_header.
  change (unfold_loop UCopy (CRLF ++ [TAB] ++ sp ++ c :: b)) with
    (SP :: unfold_loop UWsp ((TAB :: sp) ++ c :: b)).
  rewrite (unfold_wsp (TAB :: sp) c b), unfold_solid by done.
  cbn [squeeze_wsp]. by rewrite Hw.
Qed.

Definition word (w : bytes) : Prop := w ≠ [] ∧ forallb solid w = true.

Lemma relax_words ws b :
  Forall word ws →
  relax_text (Join ws (CRLF ++ [TAB] ++ "  ") ++ b) = Join ws " " ++ relax_text b.
Proof.
  induction 1 as [|w ws [_ Hw] Hws IH]; [done|].
  destruct ws as [|w' ws]; [by apply relax_app|].
  rewrite !(Join_cons w) by done. rewrite <- !(assoc_L (++)), relax_app by done. f_equal.
  inversion Hws as [|? ? [Hne Hw'] _]; subst. destruct w' as [|c w']; [done|].
  cbn [forallb] in Hw'. apply andb_true_iff in Hw' as [Hc _].
  assert (∃ x, Join ((c :: w') :: ws) (CRLF ++ [TAB] ++ "  ") ++ b = c :: x) as [x Hx]
    by (destruct ws; eexists; reflexivity).
  rewrite Hx in IH |- *. rewrite relax_break, IH by done. done.
Qed.

(** Text with single spaces between words. *)
Fixpoint lit (a : bytes) : bool :=
  match a with
  | [] => true
  | c :: a' =>
    (solid c || (c == SP) && match a' with c' :: _ => solid c' | [] => false end) && lit a'
  end.

Lemma relax_lit a b : lit a = true → relax_text (a ++ b) = a ++ relax_text b.
Proof.
  induction a as [|c a IH]; [done|]. cbn [lit].
  intros [[Hc|[-> %bool_decide_eq_true Hc]%andb_true_iff]%orb_true_iff Ha]%andb_true_iff.
  - change ((c :: a) ++ b) with ([c] ++ a ++ b).
    rewrite relax_app by (cbn [forallb]; by rewrite Hc). by rewrite IH.
  - destruct a as [|c' a]; [done|].
    change ((SP :: c' :: a) ++ b) with (SP :: c' :: a ++ b). rewrite relax_SP by done.
    exact (f_equal (cons SP) (IH Ha)).
Qed.

(** ** Without the b= tag *)

Lemma remove_b_copy c s :
  (c = "b"%char → btag_starts s = false) →
  remove_b BCopy (c :: s) = c :: remove_b BCopy s.
Proof.
  intros Hb. cbn [remove_b]. case_bool_decide as Hc; [|done]. by rewrite Hb.
Qed.

(** White space and then something else than an equals sign. *)
Lemma btag_starts_no a c s :
  "="%char ∉ a → c ≠ "="%char → is_fws c = false → btag_starts (a ++ c :: s) = false.
Proof.
  intros Ha Hc Hf. unfold btag_starts. induction a as [|x a IH].
  - change ([] ++ c :: s) with (c :: s). cbn [drop_while]. rewrite Hf.
    destruct s; [done|]. by rewrite bool_decide_eq_false_2.
  - apply not_elem_of_cons in Ha as [Hx Ha]. rewrite <- app_comm_cons. cbn [drop_while].
    destruct (is_fws x); [by apply IH|].
    destruct (a ++ c :: s); [done|]. by rewrite bool_decide_eq_false_2 by done.
Qed.

(** A text without equals signs, that does not end like the tag. *)
Lemma remove_b_app a c s :
  "="%char ∉ a → c ≠ "="%char → is_fws c = false → c ≠ "b"%char →
  remove_b BCopy (a ++ c :: s) = a ++ c :: remove_b BCopy s.
Proof.
  intros Ha Hc Hf Hb. induction a as [|x a IH].
  - by apply remove_b_copy.
  - apply not_elem_of_cons in Ha as [Hx Ha]. rewrite <- !app_comm_cons, remove_b_copy, IH.
    + done.
    + done.
    + intros _. by apply btag_starts_no.
Qed.

Lemma remove_b_eq s : remove_b BCopy ("="%char :: s) = "="%char :: remove_b BCopy s.
Proof. by apply remove_b_copy. Qed.

(** The padding at the end of a base64 tag. *)
Lemma remove_b_padded a s :
  "="%char ∉ a → forallb solid a = true →
  remove_b BCopy (a ++ "=;" ++ s) = a ++ "=;" ++ remove_b BCopy s.
Proof.
  intros Ha Hs. induction a as [|x a IH]; [done|].
  apply not_elem_of_cons in Ha as [Hx Ha]. cbn [forallb] in Hs.
  apply andb_true_iff in Hs as [Hsx Hs]. change ((x :: a) ++ ?r) with (x :: a ++ r).
  rewrite remove_b_copy; [by rewrite IH|]. intros _. unfold btag_starts. destruct a as [|y a]; [done|].
  apply not_elem_of_cons in Ha as [Hy Ha]. cbn [forallb] in Hs.
  apply andb_true_iff in Hs as [Hsy _]. unfold solid in Hsy. apply negb_true_iff in Hsy.
  change ((y :: a) ++ ?r) with (y :: a ++ r). cbn [drop_while]. rewrite Hsy.
  destruct (a ++ "=;" ++ s); [done|]. by rewrite bool_decide_eq_false_2.
Qed.

(** The tag itself, at the end. *)
Lemma remove_b_tag v :
  v ≠ [] → ";"%char ∉ v → remove_b BCopy ("b=" ++ v ++ ";") = "b=;".
Proof.
  intros Hv Hn. destruct v as [|c v]; [done|].
  assert (Hskip : ∀ u, ";"%char ∉ u → remove_b BSkip (u ++ ";") = ";").
  { induction u as [|x u IH]; [done|]. intros [Hx Hu]%not_elem_of_cons.
    rewrite <- app_comm_cons. cbn [remove_b]. rewrite bool_decide_eq_false_2 by done.
    by apply IH. }
  pose proof Hn as [Hc _]%not_elem_of_cons.
  change ("b=" ++ (c :: v) ++ ";") with ("b"%char :: "="%char :: (c :: v) ++ ";").
  assert (Hs : btag_starts ("="%char :: (c :: v) ++ ";") = true).
  { change (btag_starts _) with (true && (c != ";"%char)). by rewrite bool_decide_eq_false_2. }
  assert (Hb : ∀ s, btag_starts s = true → remove_b BCopy ("b"%char :: s) = "b"%char :: remove_b BTag s)
    by (intros s E; cbn [remove_b]; by rewrite E).
  rewrite Hb by done.
  change (remove_b BTag ("="%char :: ?s)) with ("="%char :: remove_b BSkip s).
  by rewrite Hskip.
Qed.

(** ** Wrapping *)

Definition SEP : bytes := CRLF ++ "  ".

Lemma solid_app a b :
  forallb solid (a ++ b) = true ↔ forallb solid a = true ∧ forallb solid b = true.
Proof. by rewrite forallb_app, andb_true_iff. Qed.

Lemma break_words s :
  s ≠ [] → forallb solid s = true →
  ∃ ks, breakLongLines s = Join ks SEP ∧ concat ks = s ∧ Forall word ks ∧ ks ≠ [].
Proof.
  unfold breakLongLines. generalize (le_n (length s)). generalize (length s) at 2 3 as n.
  intros n. revert s. induction n as [|n IH]; intros s Hn Hne Hs.
  { by destruct s; simpl in Hn; [|lia]. }
  cbn [break_loop]. case_bool_decide as Hl.
  - assert (Hd : length (drop lineLimit s) = length s - lineLimit) by apply length_drop.
    assert (0 < lineLimit) by (unfold lineLimit; lia).
    rewrite <- (take_drop lineLimit s), solid_app in Hs. destruct Hs as [Ht Hr].
    destruct (IH (drop lineLimit s)) as (ks & -> & Hc & Hw & Hk); [lia| |done|].
    { intros E. rewrite E in Hd. simpl in Hd. lia. }
    exists (take lineLimit s :: ks). split_and!; [|by rewrite concat_cons, Hc, take_drop| |done].
    + rewrite Join_cons by done. unfold SEP. by rewrite <- (assoc_L (++)).
    + constructor; [|done]. split; [|done]. intros E%(f_equal length).
      rewrite length_take in E. cbn [length] in E. lia.
  - exists [s]. split_and!; [done| |by repeat constructor|done]. simpl.
    by rewrite (right_id_L [] (++)).
Qed.

Definition name (h : bytes) : Prop := h ≠ [] ∧ length h < lineLimit ∧ forallb plain h = true.

Definition colons (hs : list bytes) : bytes := concat ((λ h, ":" ++ h) <$> hs).

Lemma Join_colons h hs : Join (h :: hs) ":" = h ++ colons hs.
Proof.
  revert h. induction hs as [|h' hs IH]; intros h; [symmetry; apply app_nil_r|].
  rewrite Join_cons by done. by rewrite IH.
Qed.

Lemma format_loop_sb first hs sb line :
  format_loop first hs sb line = sb ++ format_loop first hs [] line.
Proof.
  revert first sb line. induction hs as [|h hs IH]; intros first sb line; [done|].
  cbn [format_loop]. case_bool_decide.
  - rewrite (IH _ (sb ++ _)), (IH _ ([] ++ _)). by rewrite <- !(assoc_L (++)).
  - by rewrite IH.
Qed.

Lemma format_words first hs line :
  (hs ≠ [] ∨ line ≠ []) → forallb plain line = true → Forall name hs →
  ∃ gs, format_loop first hs [] line = Join gs SEP ∧
    concat gs = line ++ (if first then Join hs ":" else colons hs) ∧
    Forall (λ g, g ≠ [] ∧ forallb plain g = true) gs ∧ gs ≠ [].
Proof.
  revert first line. induction hs as [|h hs IH]; intros first line Hne Hl Hh.
  { exists [line]. destruct Hne as [?|Hne]; [done|]. split_and!; [done| |by repeat constructor|done].
    by destruct first. }
  apply Forall_cons in Hh as [(Hn & Hlen & Hp) Hhs]. cbn [format_loop].
  set (pre := if first then [] else ":" : bytes).
  assert (Hcat : (if first then Join (h :: hs) ":" else colons (h :: hs)) = (pre ++ h) ++ colons hs).
  { subst pre. destruct first; [apply Join_colons|]. unfold colons. by rewrite fmap_cons. }
  assert (Hpre : ∀ l : bytes, (if first then l else l ++ ":") ++ h = l ++ pre ++ h).
  { intros l. subst pre. destruct first; [done|]. by rewrite <- (assoc_L (++)). }
  assert (Hpp : forallb plain (pre ++ h) = true) by (subst pre; by destruct first).
  assert (Hph : pre ++ h ≠ []) by (subst pre; destruct first; [done|by destruct h]).
  case_bool_decide as Hb.
  - rewrite format_loop_sb, (Hpre []).
    destruct (IH false ([] ++ pre ++ h)) as (gs & -> & Hc & Hg & Hk); [by right|done|done|].
    exists (line :: gs). split_and!; [| |constructor; [|done]|done].
    + rewrite Join_cons by done. unfold SEP. by rewrite <- !(assoc_L (++)).
    + by rewrite concat_cons, Hc, Hcat.
    + split; [|done]. intros ->. simpl in Hb. lia.
  - rewrite Hpre. destruct (IH false (line ++ pre ++ h)) as (gs & -> & Hc & Hg & Hk);
      [right; by destruct line|by rewrite forallb_app, Hl|done|].
    exists gs. split_and!; [done| |done|done]. by rewrite Hc, Hcat, <- (assoc_L (++)).
Qed.

(** ** Lines of words *)

Definition line_ok (g : bytes) : Prop := g ≠ [] ∧ forallb plain g = true.

Lemma line_ok_word g : line_ok g → word g.
Proof. intros [? ?]. split; [done|by apply plain_solid]. Qed.

(** Texts that start and end with something other than space. *)
Definition tight (s : bytes) : Prop :=
  (∃ c x, s = c :: x ∧ plain c = true) ∧ (∃ y e, s = y ++ [e] ∧ plain e = true).

Lemma tight_plain s : line_ok s → tight s.
Proof.
  intros [Hne Hs]. split.
  - destruct s as [|c x]; [done|]. apply andb_true_iff in Hs as [Hc _]. eauto.
  - destruct (exists_last Hne) as [y [e ->]]. rewrite forallb_app in Hs.
    apply andb_true_iff in Hs as [_ Hs]. cbn [forallb] in Hs. rewrite andb_true_r in Hs. eauto.
Qed.

Lemma tight_app a m b : tight a → tight b → tight (a ++ m ++ b).
Proof.
  intros [(c & x & -> & Hc) _] [_ (y & e & -> & He)]. split.
  - by exists c, (x ++ m ++ y ++ [e]).
  - exists ((c :: x) ++ m ++ y), e. by rewrite <- !(assoc_L (++)).
Qed.

Lemma tight_Join gs sep : Forall line_ok gs → gs ≠ [] → tight (Join gs sep).
Proof.
  induction 1 as [|g gs Hg Hgs IH]; [done|]. intros _.
  destruct gs as [|g' gs]; [by apply tight_plain|]. rewrite Join_cons by done.
  apply tight_app; [by apply tight_plain|by apply IH].
Qed.

Lemma TrimSpace_tight sp s :
  forallb space sp = true → forallb Utf8.is_ascii (sp ++ s) = true → tight s →
  TrimSpace (sp ++ s) = s.
Proof.
  intros Hsp Ha [(c & x & Es & Hc) (y & e & Es' & He)].
  apply TrimSpace_word; [done|done| |].
  - rewrite Es. by apply plain_spec in Hc as (_ & ? & _).
  - rewrite Es', last_snoc. by apply plain_spec in He as (_ & ? & _).
Qed.

Lemma elem_of_Join c gs sep : c ∈ Join gs sep → c ∈ concat gs ∨ c ∈ sep.
Proof.
  induction gs as [|g gs IH]; [by left|]. destruct gs as [|g' gs].
  - intros Hc. left. rewrite concat_cons. apply elem_of_app. by left.
  - rewrite Join_cons, concat_cons, !elem_of_app by done. tauto.
Qed.

Lemma forallb_Join (f : ascii → bool) gs sep :
  forallb f (concat gs) = true → forallb f sep = true → forallb f (Join gs sep) = true.
Proof.
  intros Hg Hs. apply forallb_forall. intros c Hc%list_elem_of_In.
  apply elem_of_Join in Hc as [Hc|Hc]; by apply (forallb_elem f) in Hc.
Qed.

Lemma plain_concat gs : Forall line_ok gs → forallb plain (concat gs) = true.
Proof.
  induction 1 as [|g gs [_ Hg] _ IH]; [done|]. by rewrite concat_cons, forallb_app, Hg.
Qed.

Lemma eat_app a b : eatWhitespace (a ++ b) = eatWhitespace a ++ eatWhitespace b.
Proof. apply List.filter_app. Qed.

Lemma eat_Join gs sep :
  Forall line_ok gs → eatWhitespace sep = [] → eatWhitespace (Join gs sep) = concat gs.
Proof.
  intros Hg Hs. induction Hg as [|g gs [_ Hg] Hgs IH]; [done|]. rewrite concat_cons.
  destruct gs as [|g' gs]; [by rewrite app_nil_r; apply plain_eat|].
  rewrite Join_cons, !eat_app, Hs, IH by done. by rewrite plain_eat.
Qed.

(** ** Lower case *)

Lemma lower_plain c : plain c = true → plain (lower_byte c) = true.
Proof. destruct c as [[] [] [] [] [] [] [] []]; first [reflexivity|discriminate]. Qed.

Definition lower (s : bytes) : bytes := lower_byte <$> s.

Lemma forallb_lower s : forallb plain s = true → forallb plain (lower s) = true.
Proof.
  unfold lower. induction s as [|c s IH]; [done|]. cbn [forallb]. intros [Hc Hs]%andb_true_iff.
  rewrite fmap_cons. cbn [forallb]. by rewrite lower_plain, IH.
Qed.

Lemma lower_app a b : lower (a ++ b) = lower a ++ lower b.
Proof. apply fmap_app. Qed.

Lemma lower_Join gs sep : lower (Join gs sep) = Join (lower <$> gs) (lower sep).
Proof.
  induction gs as [|g gs IH]; [done|]. destruct gs as [|g' gs]; [done|].
  rewrite Join_cons, !lower_app, IH by done. rewrite (fmap_cons _ g), Join_cons; done.
Qed.

Section Lower.
Context `{Unicode}.

Lemma ToLower_plain s : forallb plain s = true → ToLower s = lower s.
Proof. intros Hs. unfold ToLower. by rewrite plain_ascii. Qed.

Lemma formatHeaders_words hs :
  hs ≠ [] → Forall name hs →
  ∃ gs, formatHeaders hs = Join gs SEP ∧ concat gs = Join (ToLower <$> hs) ":" ∧
    Forall line_ok gs ∧ gs ≠ [].
Proof.
  intros Hne Hh. destruct (format_words true hs []) as (gs & Ef & Hc & Hg & Hk);
    [by left|done|done|].
  exists (lower <$> gs). assert (Hg' : Forall line_ok (lower <$> gs)).
  { apply Forall_fmap. eapply Forall_impl; [exact Hg|]. intros g [? ?].
    split; [by destruct g|by apply forallb_lower]. }
  assert (Hk' : (lower <$> gs) ≠ []) by (by destruct gs).
  split_and!; [| |done|done].
  - unfold formatHeaders. rewrite Ef. unfold ToLower.
    rewrite forallb_Join; [|by apply plain_ascii, plain_concat|done].
    change (lower_byte <$> Join gs SEP) with (lower (Join gs SEP)). rewrite lower_Join.
    apply (TrimSpace_tight []); [done| |by apply tight_Join].
    apply forallb_Join; [by apply plain_ascii, plain_concat|done].
  - assert (E : concat (lower <$> gs) = lower (concat gs)).
    { clear. induction gs as [|g gs IH]; [done|]. rewrite fmap_cons, !concat_cons, lower_app.
      by rewrite IH. }
    rewrite E, Hc. change ([] ++ Join hs ":") with (Join hs ":"). rewrite lower_Join.
    change (lower ":") with (":" : bytes). f_equal.
    clear -Hh. induction Hh as [|h hs (_ & _ & Hp) _ IH]; [done|].
    by rewrite !fmap_cons, IH, ToLower_plain.
Qed.

End Lower.

(** ** The text of a signature *)

Lemma EncodeToString_padded k s :
  length s = 3 * k + 2 →
  ∃ a, Base64.EncodeToString s = a ++ "=" ∧ ("="%char ∉ a) ∧ line_ok a.
Proof.
  revert s. induction k as [|k IH]; intros s Hs.
  - destruct s as [|a [|b [|]]]; try (simpl in Hs; lia).
    eexists [_; _; _]. split; [reflexivity|]. split.
    + rewrite !not_elem_of_cons. split_and!; [symmetry; apply Base64.enc_digit_plain..|set_solver].
    + split; [done|]. cbn [forallb]. by rewrite !enc_digit_ok.
  - destruct s as [|a [|b [|c s]]]; try (simpl in Hs; lia).
    destruct (IH s) as (x & E & Hx & [_ Hp]); [simpl in Hs; lia|].
    cbn [Base64.EncodeToString]. rewrite E. eexists (_ :: _ :: _ :: _ :: x). split; [reflexivity|].
    split.
    + rewrite !not_elem_of_cons. split_and!; [symmetry; apply Base64.enc_digit_plain..|done].
    + split; [done|]. cbn [forallb]. by rewrite !enc_digit_ok.
Qed.

Lemma EncodeToString_nonempty s : s ≠ [] → Base64.EncodeToString s ≠ [].
Proof. by destruct s as [|a [|b [|c s]]]. Qed.

Definition sig_text (nl algo d s t h bh b : bytes) : bytes :=
  "v=1; a=" ++ algo ++ "; c=relaxed/relaxed;" ++ nl
  ++ "d=" ++ d ++ "; s=" ++ s ++ "; t=" ++ t ++ ";" ++ nl
  ++ "h=" ++ h ++ ";" ++ nl ++ "bh=" ++ bh ++ ";" ++ nl ++ "b=" ++ b.

Definition token (s : bytes) : Prop := line_ok s ∧ ("="%char ∉ s).

Section Text.
Variables algo d s t x : bytes.
Variables gs ks : list bytes.
Hypothesis Halgo : token algo.
Hypothesis Hd : token d.
Hypothesis Hs : token s.
Hypothesis Ht : token t.
Hypothesis Hgs : Forall line_ok gs.
Hypothesis Hgs' : gs ≠ [].
Hypothesis Hge : "="%char ∉ concat gs.
Hypothesis Hx : line_ok x.
Hypothesis Hxe : "="%char ∉ x.
Hypothesis Hks : Forall line_ok ks.
Hypothesis Hks' : ks ≠ [].

Definition text_with (nl sep b : bytes) : bytes :=
  sig_text nl algo d s t (Join gs sep) (x ++ "=") b.

Lemma line_no_CR g : line_ok g → CR ∉ g.
Proof. intros [_ ?]. by apply solid_no_CR, plain_solid. Qed.

Lemma lines_no_CR l : Forall line_ok l → Forall (λ w, CR ∉ w) l.
Proof. intros Hl. eapply Forall_impl; [exact Hl|]. apply line_no_CR. Qed.

Ltac no_CR :=
  first [apply line_no_CR; first [apply Halgo|apply Hd|apply Hs|apply Ht|apply Hx]
        |apply (bool_decide_eq_true_1 _); reflexivity].

Lemma text_subst new b :
  subst_crlf new (text_with CRLF SEP b) = text_with new (new ++ "  ") (subst_crlf new b).
Proof.
  unfold text_with, sig_text, SEP.
  do 3 (rewrite subst_crlf_app by no_CR). rewrite subst_crlf_break.
  do 7 (rewrite subst_crlf_app by no_CR). rewrite subst_crlf_break.
  rewrite subst_crlf_app by no_CR.
  rewrite subst_crlf_words by (by apply lines_no_CR).
  rewrite subst_crlf_app by no_CR. rewrite subst_crlf_break.
  rewrite <- (assoc_L (++) x). do 4 (rewrite subst_crlf_app by no_CR). rewrite subst_crlf_break.
  rewrite subst_crlf_app by no_CR. by rewrite <- !(assoc_L (++)).
Qed.

Lemma text_signed_subst new :
  subst_crlf new (text_with CRLF SEP (Join ks SEP ++ ";")) =
  text_with new (new ++ "  ") (Join ks (new ++ "  ") ++ ";").
Proof. rewrite text_subst. unfold SEP. by rewrite subst_crlf_words by (by apply lines_no_CR). Qed.

(** As it is hashed. *)
Lemma text_relax b :
  relax_text (text_with (CRLF ++ [TAB]) (CRLF ++ [TAB] ++ "  ") b) =
  text_with " " " " (relax_text b).
Proof.
  assert (Hb : ∀ l r : bytes, match l with c :: _ => solid c | [] => false end = true →
    relax_text ((CRLF ++ [TAB]) ++ l ++ r) = " " ++ relax_text (l ++ r)).
  { intros [|c l] r Hc; [done|]. by apply (relax_break []). }
  assert (Hl : ∀ g r, line_ok g → relax_text (g ++ r) = g ++ relax_text r).
  { intros g r [_ Hg]. by apply relax_app, plain_solid. }
  assert (Hw : Forall word gs) by (eapply Forall_impl; [exact Hgs|apply line_ok_word]).
  unfold text_with, sig_text. rewrite <- !(assoc_L (++) x).
  rewrite relax_lit, Hl, relax_lit by first [reflexivity|apply Halgo].
  rewrite (Hb "d=") by done. rewrite (relax_lit "d="), Hl, relax_lit, Hl, relax_lit, Hl, relax_lit
    by first [reflexivity|apply Hd|apply Hs|apply Ht].
  rewrite (Hb "h=") by done. rewrite (relax_lit "h="), relax_words, relax_lit by done.
  rewrite (Hb "bh=") by done. rewrite (relax_lit "bh="), Hl, (relax_lit "="), (relax_lit ";") by done.
  rewrite (Hb "b=") by done. by rewrite (relax_lit "b=").
Qed.

Lemma text_signed_relax :
  relax_text (text_with (CRLF ++ [TAB]) (CRLF ++ [TAB] ++ "  ")
                (Join ks (CRLF ++ [TAB] ++ "  ") ++ ";")) =
  text_with " " " " (Join ks " " ++ ";").
Proof.
  rewrite text_relax, relax_words; [done|]. eapply Forall_impl; [exact Hks|apply line_ok_word].
Qed.

(** Without its b= tag, it is what is signed. *)
Lemma remove_b_lit l r : "b"%char ∉ l → remove_b BCopy (l ++ r) = l ++ remove_b BCopy r.
Proof.
  induction l as [|c l IH]; [done|]. intros [Hc Hl]%not_elem_of_cons.
  change ((c :: l) ++ r) with (c :: l ++ r). rewrite remove_b_copy by done. by rewrite IH.
Qed.

Lemma remove_b_token a l r :
  "="%char ∉ a → "b"%char ∉ l →
  remove_b BCopy (a ++ (";"%char :: l) ++ r) = a ++ (";"%char :: l) ++ remove_b BCopy r.
Proof.
  intros Ha Hl. change ((";"%char :: l) ++ ?r) with (";"%char :: l ++ r).
  rewrite remove_b_app by done. by rewrite remove_b_lit.
Qed.

Lemma text_remove_b pre b :
  "b"%char ∉ pre → b ≠ [] → ";"%char ∉ b →
  remove_b BCopy (pre ++ text_with " " " " (b ++ ";")) = pre ++ text_with " " " " ";".
Proof.
  intros Hp Hb Hn. unfold text_with, sig_text. rewrite <- !(assoc_L (++) x).
  assert (Hlit : ∀ l r, bool_decide ("b"%char ∉ l) = true →
    remove_b BCopy (l ++ r) = l ++ remove_b BCopy r).
  { intros l r Hl%bool_decide_eq_true. by apply remove_b_lit. }
  assert (Htok : ∀ a l r, "="%char ∉ a → bool_decide ("b"%char ∉ l) = true →
    remove_b BCopy (a ++ (";"%char :: l) ++ r) = a ++ (";"%char :: l) ++ remove_b BCopy r).
  { intros a l r Ha Hl%bool_decide_eq_true. by apply remove_b_token. }
  rewrite remove_b_lit by done. rewrite Hlit by done.
  rewrite (Htok algo " c=relaxed/relaxed;") by first [reflexivity|apply Halgo].
  do 2 rewrite Hlit by done.
  rewrite (Htok d " s=") by first [reflexivity|apply Hd].
  rewrite (Htok s " t=") by first [reflexivity|apply Hs].
  rewrite (Htok t []) by first [reflexivity|apply Ht].
  do 2 rewrite Hlit by done.
  rewrite (Htok (Join gs " ") []); [| |done].
  2: { intros [Hc|Hc]%elem_of_Join; [done|].
       by apply (bool_decide_eq_true_1 ("="%char ∉ (" " : bytes))) in Hc. }
  rewrite Hlit by done.
  rewrite (remove_b_app "b" "h"%char ("=" ++ _) ltac:(by apply (bool_decide_eq_true_1 _)) ltac:(done) ltac:(done) ltac:(done) :
    remove_b BCopy ("bh=" ++ _) = _).
  change (remove_b BCopy ("=" ++ ?r)) with ("=" ++ remove_b BCopy r).
  change ("=" ++ ";" ++ ?r) with ("=;" ++ r).
  rewrite (remove_b_padded x) by (first [done|apply plain_solid, Hx]).
  rewrite Hlit by done. by rewrite remove_b_tag.
Qed.

End Text.

(** ** Its tags *)

Lemma TrimSuffix_app a (c : ascii) : TrimSuffix (a ++ [c]) [c] = a.
Proof.
  unfold TrimSuffix. assert (HasSuffix (a ++ [c]) [c] = true) as ->.
  { apply HasSuffix_spec. by exists a. }
  rewrite length_app. cbn [length]. by rewrite Nat.add_sub, take_app_length.
Qed.

Lemma parse_tag t v t' v' tvs tags :
  bool_decide ("="%char ∉ t) = true → TrimSpace t = t' → TrimSpace v = v' →
  bool_decide (t' = []) = false → tags !! t' = None →
  parse_tag_list ((t ++ "=" ++ v) :: tvs) tags = parse_tag_list tvs (<[t' := v']> tags).
Proof.
  intros Ht%bool_decide_eq_true_1 <- <- Hne Hl. cbn [parse_tag_list].
  rewrite (Cut_byte_app t v "="%char Ht : Cut (t ++ "=" ++ v) "=" = _).
  cbv beta iota zeta. by rewrite Hne, Hl.
Qed.

(** A tag with white space before its name. *)
Lemma parse_tag_folded sp n v tvs tags :
  forallb space sp = true → forallb Utf8.is_ascii sp = true → token n →
  forallb Utf8.is_ascii v = true → tight v → tags !! n = None →
  parse_tag_list ((sp ++ n ++ "=" ++ v) :: tvs) tags = parse_tag_list tvs (<[n := v]> tags).
Proof.
  intros Hsp Ha [Hn Hne] Hv Ht Hl.
  rewrite (assoc_L (++) sp n). apply parse_tag.
  - apply bool_decide_eq_true_2. rewrite not_elem_of_app. split; [|done].
    intros Hc. by apply (forallb_elem _ _ _ Hsp) in Hc.
  - apply TrimSpace_tight; [done| |by apply tight_plain].
    rewrite forallb_app, Ha. apply plain_ascii, Hn.
  - by apply (TrimSpace_tight []).
  - apply bool_decide_eq_false_2. apply Hn.
  - done.
Qed.

Section Parse.
Variables algo d s t x : bytes.
Variables gs ks : list bytes.
Hypothesis Halgo : token algo.
Hypothesis Hd : token d.
Hypothesis Hs : token s.
Hypothesis Ht : token t.
Hypothesis Hgs : Forall line_ok gs.
Hypothesis Hgs' : gs ≠ [].
Hypothesis Hx : line_ok x.
Hypothesis Hks : Forall line_ok ks.
Hypothesis Hks' : ks ≠ [].

#[local] Abbreviation NL := (CRLF ++ [TAB]).
#[local] Abbreviation SEP := (CRLF ++ [TAB] ++ "  ").

(** The value of the header, as it is in the message. *)
Definition sig_value : bytes :=
  SP :: text_with algo d s t x gs NL SEP (Join ks SEP ++ ";").

Definition sig_tags : gmap bytes bytes :=
  <["b" : bytes := Join ks SEP]> (<["bh" : bytes := x ++ "="]> (<["h" : bytes := Join gs SEP]>
  (<["t" : bytes := t]> (<["s" : bytes := s]> (<["d" : bytes := d]>
  (<["c" : bytes := "relaxed/relaxed" : bytes]> (<["a" : bytes := algo]>
  {["v" : bytes := "1" : bytes]}))))))).

Definition pieces : list bytes :=
  ["v" ++ "=" ++ "1"; " " ++ "a" ++ "=" ++ algo; " " ++ "c" ++ "=" ++ "relaxed/relaxed";
   NL ++ "d" ++ "=" ++ d; " " ++ "s" ++ "=" ++ s; " " ++ "t" ++ "=" ++ t;
   NL ++ "h" ++ "=" ++ Join gs SEP; NL ++ "bh" ++ "=" ++ x ++ "="; NL ++ "b" ++ "=" ++ Join ks SEP].

Lemma sig_value_pieces : sig_value = [SP] ++ Join pieces ";" ++ ";".
Proof.
  unfold sig_value, text_with, sig_text, pieces. cbn [Join].
  rewrite <- !(assoc_L (++)). reflexivity.
Qed.

Lemma ascii_lines l : Forall line_ok l → forallb Utf8.is_ascii (Join l SEP) = true.
Proof. intros Hl. apply forallb_Join; [by apply plain_ascii, plain_concat|done]. Qed.

Lemma line_ascii g : line_ok g → forallb Utf8.is_ascii g = true.
Proof. intros [_ ?]. by apply plain_ascii. Qed.

Lemma sig_value_ascii : forallb Utf8.is_ascii sig_value = true.
Proof.
  unfold sig_value, text_with, sig_text. cbn [forallb]. rewrite !forallb_app.
  rewrite !ascii_lines by done.
  rewrite !(line_ascii algo), !(line_ascii d), !(line_ascii s), !(line_ascii t), !(line_ascii x)
    by first [apply Halgo|apply Hd|apply Hs|apply Ht|apply Hx].
  reflexivity.
Qed.

Lemma no_semicolon_lines l : Forall line_ok l → ";"%char ∉ Join l SEP.
Proof.
  intros Hl [Hc|Hc]%elem_of_Join.
  - by apply (plain_no_semicolon _ (plain_concat _ Hl)).
  - by apply (bool_decide_eq_true_1 (";"%char ∉ SEP)) in Hc.
Qed.

Lemma pieces_no_semicolon : Forall (λ p, ";"%char ∉ p) pieces.
Proof.
  assert (Hl : ∀ g, line_ok g → ";"%char ∉ g) by (intros g [_ ?]; by apply plain_no_semicolon).
  unfold pieces. repeat constructor; rewrite ?not_elem_of_app; split_and!;
    first [apply Hl; first [apply Halgo|apply Hd|apply Hs|apply Ht|apply Hx]
          |by apply no_semicolon_lines
          |by apply (bool_decide_eq_true_1 _)].
Qed.

Lemma padded_ok g : line_ok g → line_ok (g ++ "=").
Proof. intros [? Hg]. split; [by destruct g|]. by rewrite forallb_app, Hg. Qed.

Lemma sig_value_tags : parseTags sig_value = Ok sig_tags.
Proof.
  unfold parseTags. rewrite sig_value_pieces.
  assert (TrimSpace ([SP] ++ Join pieces ";" ++ ";") = Join pieces ";" ++ ";") as ->.
  { apply TrimSpace_word; [done| |done|by rewrite last_snoc].
    rewrite <- sig_value_pieces. apply sig_value_ascii. }
  rewrite (TrimSuffix_app _ ";"%char), (Split_Join_byte _ ";"%char);
    [|done|apply pieces_no_semicolon].
  assert (Hn : ∀ n : bytes, bool_decide (n ≠ []) && forallb plain n
    && bool_decide ("="%char ∉ n) = true → token n).
  { intros n [[H1%bool_decide_eq_true H2]%andb_true_iff H3%bool_decide_eq_true]%andb_true_iff.
    by split; [split|]. }
  unfold pieces.
  rewrite (parse_tag_folded [] "v" "1") by first [done|by apply Hn|by apply tight_plain].
  rewrite (parse_tag_folded " " "a" algo)
    by first [done|by apply Hn|apply line_ascii, Halgo|apply tight_plain, Halgo].
  rewrite (parse_tag_folded " " "c" "relaxed/relaxed") by first [done|by apply Hn|by apply tight_plain].
  rewrite (parse_tag_folded NL "d" d)
    by first [done|by apply Hn|apply line_ascii, Hd|apply tight_plain, Hd].
  rewrite (parse_tag_folded " " "s" s)
    by first [done|by apply Hn|apply line_ascii, Hs|apply tight_plain, Hs].
  rewrite (parse_tag_folded " " "t" t)
    by first [done|by apply Hn|apply line_ascii, Ht|apply tight_plain, Ht].
  rewrite (parse_tag_folded NL "h" (Join gs SEP))
    by first [done|by apply Hn|by apply ascii_lines|by apply tight_Join].
  rewrite (parse_tag_folded NL "bh" (x ++ "="))
    by first [done|by apply Hn|by apply line_ascii, padded_ok|by apply tight_plain, padded_ok].
  by rewrite (parse_tag_folded NL "b" (Join ks SEP))
    by first [done|by apply Hn|by apply ascii_lines|by apply tight_Join].
Qed.

Context `{Unicode}.
Variables sgn bhash : bytes.
Variable hs : list bytes.
Variable now : Z.
Variable kt : keyType.
Hypothesis Hsgn : concat ks = Base64.EncodeToString sgn.
Hypothesis Hsgn' : sgn ≠ [].
Hypothesis Hbh : x ++ "=" = Base64.EncodeToString bhash.
Hypothesis Hhs : concat gs = Join hs ":".
Hypothesis Hcolon : Forall (λ h, ":"%char ∉ h) hs.
Hypothesis Hfrom : existsb (λ h, EqualFold h "from") hs = true.
Hypothesis Hnow : unixStrToTime t = Ok now.
Hypothesis Hkt : (algo, kt) ∈ [("rsa-sha256" : bytes, keyTypeRSA); ("ed25519-sha256" : bytes, keyTypeEd25519)].

Definition parsed : dkimSignature :=
  mkSignature "1" algo kt SHA256 sgn bhash relaxed relaxed d hs [] 0 [] s (Some now) None [].

Lemma parsed_complete : checkRequiredTags parsed = None.
Proof.
  assert (Hhn : length hs ≠ 0) by (intros E; apply length_zero_iff_nil in E; by rewrite E in Hfrom).
  assert (Hbn : length bhash ≠ 0).
  { intros E%length_zero_iff_nil. rewrite E in Hbh. by destruct x. }
  assert (Hsn : length sgn ≠ 0) by (intros E; apply length_zero_iff_nil in E; by rewrite E in Hsgn').
  assert (algo ≠ [] ∧ d ≠ [] ∧ s ≠ []) as (? & ? & ?) by (split_and!; [apply Halgo|apply Hd|apply Hs]).
  unfold checkRequiredTags, parsed.
  cbn [sig_a sig_b sig_bh sig_d sig_h sig_s sig_i]. rewrite Hfrom.
  by rewrite !bool_decide_eq_false_2 by done.
Qed.

Lemma sig_value_parsed : dkimSignatureFromHeader sig_value = Ok parsed.
Proof.
  unfold dkimSignatureFromHeader. rewrite sig_value_tags. cbn [mbind res_bind].
  assert (tag sig_tags "v" = "1") as -> by done.
  assert (tag sig_tags "a" = algo) as -> by done.
  assert (tag sig_tags "b" = Join ks SEP) as -> by done.
  assert (tag sig_tags "bh" = x ++ "=") as -> by done.
  assert (tag sig_tags "c" = "relaxed/relaxed") as -> by done.
  assert (tag sig_tags "d" = d) as -> by done.
  assert (tag sig_tags "h" = Join gs SEP) as -> by done.
  assert (tag sig_tags "s" = s) as -> by done.
  assert (tag sig_tags "t" = t) as -> by done.
  assert (tag sig_tags "i" = []) as -> by done.
  assert (tag sig_tags "l" = []) as -> by done.
  assert (tag sig_tags "q" = []) as -> by done.
  assert (tag sig_tags "x" = []) as -> by done.
  assert (tag sig_tags "z" = []) as -> by done.
  assert (∃ k, Cut algo "-" = Some (k, "sha256" : bytes) ∧ keyTypeFromString k = Ok kt)
    as (k & -> & Hk).
  { apply elem_of_cons in Hkt as [[= -> ->]|Hk]; [by eexists|].
    apply elem_of_cons in Hk as [[= -> ->]|Hk]; [by eexists|]. by apply elem_of_nil in Hk. }
  change (("1" : bytes) != "1") with false. cbv iota.
  rewrite Hk. change (hashFromString "sha256") with (Ok (E := error) SHA256).
  unfold base64_tag. rewrite eat_Join, Hsgn, Base64.DecodeString_EncodeToString by done.
  rewrite (plain_eat (x ++ "=")), Hbh, Base64.DecodeString_EncodeToString by apply padded_ok, Hx.
  change (canonicalizationFromString "relaxed/relaxed") with
    (Ok (E := error) (relaxed, relaxed)).
  assert (colon_list (Join gs SEP) = hs) as ->.
  { unfold colon_list. rewrite eat_Join, Hhs by done.
    rewrite bool_decide_eq_false_2; [|by destruct (tight_Join gs SEP Hgs Hgs') as [(? & ? & -> & _) _]].
    apply Split_Join_byte; [by intros E; rewrite E in Hfrom|done]. }
  unfold opt_tag at 2. rewrite (bool_decide_eq_false_2 (t = [])) by apply Ht.
  rewrite Hnow. cbn.
  fold parsed. by rewrite parsed_complete.
Qed.

End Parse.

(** ** The headers that are signed *)

Section Headers.
Context `{Unicode}.

Definition low (n : N) : N := if in_range 65 90 n then (n + 32)%N else n.

Lemma rune_fold_low a b :
  (a < 128)%N → (b < 128)%N → rune_fold_eq a b = N.eqb (low a) (low b).
Proof.
  intros Ha Hb. unfold rune_fold_eq, low, in_range.
  rewrite (proj2 (N.ltb_lt _ _)) by lia.
  destruct (N.leb_spec 65 a), (N.leb_spec a 90), (N.leb_spec 65 b), (N.leb_spec b 90),
    (N.leb_spec 65 (N.min a b)), (N.leb_spec (N.min a b) 90); cbn [andb]; try lia;
    repeat match goal with |- context [N.eqb ?x ?y] => destruct (N.eqb_spec x y) end;
    cbn [orb]; lia.
Qed.

Lemma low_byte c : Utf8.is_ascii c = true → Utf8.bval (lower_byte c) = low (Utf8.bval c).
Proof. destruct c as [[] [] [] [] [] [] [] []]; first [reflexivity|discriminate]. Qed.

Lemma lower_ascii c : Utf8.is_ascii c = true → Utf8.is_ascii (lower_byte c) = true.
Proof. destruct c as [[] [] [] [] [] [] [] []]; first [reflexivity|discriminate]. Qed.

Lemma low_idem n : low (low n) = low n.
Proof.
  unfold low, in_range.
  destruct (N.leb_spec 65 n), (N.leb_spec n 90); cbn [andb];
    match goal with |- context [N.leb 65 ?m] => destruct (N.leb_spec 65 m), (N.leb_spec m 90) end;
    cbn [andb]; lia.
Qed.

Lemma runes_of_ascii s : forallb Utf8.is_ascii s = true → Utf8.runes s = Utf8.bval <$> s.
Proof.
  intros Hs. unfold Utf8.runes. rewrite chunks_ascii by done. by rewrite <- list_fmap_compose.
Qed.

(** Names compare as in lower case. *)
Lemma EqualFold_lower a b :
  forallb Utf8.is_ascii a = true → forallb Utf8.is_ascii b = true →
  EqualFold a (lower b) = EqualFold a b.
Proof.
  intros Ha Hb. assert (Hl : forallb Utf8.is_ascii (lower b) = true).
  { unfold lower. clear Ha. induction b as [|c b IH]; [done|]. cbn [forallb] in Hb.
    apply andb_true_iff in Hb as [Hc Hb]. rewrite fmap_cons. cbn [forallb].
    by rewrite lower_ascii, IH. }
  assert (Hlt : ∀ c, Utf8.is_ascii c = true → (Utf8.bval c < 128)%N)
    by (intros c Hc; by apply N.ltb_lt).
  unfold EqualFold. rewrite !runes_of_ascii by done. clear Hl. unfold lower.
  revert b Hb. induction a as [|x a IH]; intros [|y b] Hb; try done.
  cbn [forallb] in Ha, Hb. apply andb_true_iff in Ha as [Hx Ha].
  apply andb_true_iff in Hb as [Hy Hb]. rewrite !fmap_cons. cbn [fold_eq].
  rewrite IH by done. f_equal. rewrite !rune_fold_low, low_byte, low_idem; [done|..];
    auto using lower_ascii.
Qed.

Definition ascii_names (hs : list header) : Prop :=
  Forall (λ h, forallb Utf8.is_ascii (Name h) = true) hs.

Lemma FindAll_lower hs n :
  ascii_names hs → forallb plain n = true → FindAll hs (ToLower n) = FindAll hs n.
Proof.
  intros Hh Hn. rewrite ToLower_plain by done. unfold FindAll.
  induction Hh as [|h hs Ha Hh IH]; [done|]. cbn [List.filter].
  rewrite EqualFold_lower, IH by first [done|by apply plain_ascii]. done.
Qed.

Lemma FindAll_app a b n : FindAll (a ++ b) n = FindAll a n ++ FindAll b n.
Proof. apply List.filter_app. Qed.

(** Names that were included, and those that are not there. *)
Lemma include_none sigH hs rest seen :
  Forall (λ n, length (FindAll hs n) ≤ default 0 (seen !! ToLower n)) rest →
  include_loop sigH hs rest seen = [].
Proof.
  induction 1 as [|n rest Hn _ IH]; [done|]. cbn [include_loop].
  rewrite lookup_ge_None_2 by (rewrite length_rev; lia). done.
Qed.

Lemma include_once sigH hs L rest seen :
  NoDup L → Forall (λ n, ToLower n = n) (L ++ rest) →
  (∀ n, n ∈ L → length (FindAll hs n) ≤ 1 ∧ (sigH ∉ FindAll hs n) ∧ seen !! n = None) →
  (∀ n, n ∈ rest → length (FindAll hs n) ≤ default 0 (seen !! n) ∨ n ∈ L) →
  include_loop sigH hs ((n ← L; replicate (length (FindAll hs n)) n) ++ rest) seen =
    (n ← L; FindAll hs n).
Proof.
  intros Hnd. revert seen. induction Hnd as [|n L Hn Hnd IH]; intros seen Hlow HL Hrest.
  { apply include_none, Forall_forall. intros n Hn. cbn [app] in Hlow.
    rewrite (proj1 (Forall_forall _ _) Hlow n Hn).
    destruct (Hrest n Hn) as [?|Hin]; [done|]. by apply elem_of_nil in Hin. }
  rewrite !bind_cons. destruct (HL n) as (Hlen & Hsig & Hseen); [left|].
  apply Forall_cons in Hlow as [Hln Hlow].
  destruct (FindAll hs n) as [|x [|]] eqn:E; [| |simpl in Hlen; lia].
  - cbn [length replicate app]. apply IH; [done| |].
    + intros m Hm. apply HL. by right.
    + intros m Hm. destruct (Hrest m Hm) as [?|[-> |?]%elem_of_cons]; [by left| |by right].
      left. rewrite E. simpl. lia.
  - cbn [length replicate app include_loop]. rewrite E, Hln, Hseen. cbn [default rev app lookup list_lookup].
    rewrite bool_decide_eq_false_2 by set_solver. f_equal. apply IH; [done| |].
    + intros m Hm. destruct (HL m) as (? & ? & ?); [by right|]. split_and!; [done..|].
      rewrite lookup_insert_ne; [done|]. by intros ->.
    + intros m Hm. destruct (decide (m = n)) as [-> |Hne].
      { left. rewrite lookup_insert_eq, E. simpl. lia. }
      rewrite lookup_insert_ne by done.
      destruct (Hrest m Hm) as [?|[?|?]%elem_of_cons]; [by left|done|by right].
Qed.

End Headers.

(** ** The message with its signature *)

Lemma Cut_crlf_app a b :
  CR ∉ a → Cut (a ++ b) CRLF = (λ p, (a ++ p.1, p.2)) <$> Cut b CRLF.
Proof.
  induction a as [|c a IH];
    [change ([] ++ b) with b; by destruct (Cut b CRLF) as [[]|]|].
  intros [Hc Ha]%not_elem_of_cons. change ((c :: a) ++ b) with (c :: a ++ b).
  rewrite Cut_crlf. destruct (a ++ b) as [|d r] eqn:E.
  - apply app_eq_nil in E as [-> ->]. done.
  - rewrite (bool_decide_eq_false_2 (c = CR)) by done. cbn [andb]. rewrite IH by done.
    by destruct (Cut b CRLF) as [[]|].
Qed.

Lemma Split_crlf_app a b :
  CR ∉ a → ∃ l ls, Split b CRLF = l :: ls ∧ Split (a ++ b) CRLF = (a ++ l) :: ls.
Proof.
  intros Ha. rewrite !(Split_eq _ CRLF), Cut_crlf_app by done.
  destruct (Cut b CRLF) as [[x y]|]; simpl; eauto.
Qed.

Lemma Split_crlf_break a b : CR ∉ a → Split (a ++ CRLF ++ b) CRLF = a :: Split b CRLF.
Proof. intros Ha. by rewrite (Split_eq (a ++ _)), Cut_crlf_app by done; simpl; rewrite app_nil_r. Qed.

(** Texts where line breaks are whole. *)
Definition tidy (s : bytes) : Prop := Forall clean (Split s CRLF).

Lemma tidy_app a b : clean a → tidy b → tidy (a ++ b).
Proof.
  unfold tidy. intros [Hc Hl]. destruct (Split_crlf_app a b Hc) as (l & ls & -> & ->).
  intros [[Hlc Hll] Hls]%Forall_cons. constructor; [|done].
  by split; apply not_elem_of_app.
Qed.

Lemma tidy_break b : tidy b → tidy (CRLF ++ b).
Proof.
  unfold tidy. rewrite (Split_crlf_break [] b (not_elem_of_nil _) : Split (CRLF ++ b) CRLF = _).
  constructor; [by split; apply not_elem_of_nil|done].
Qed.

Lemma tidy_words ws b : Forall clean ws → tidy b → tidy (Join ws SEP ++ b).
Proof.
  intros Hw Hb. induction Hw as [|w ws Hw Hws IH]; [done|].
  destruct ws as [|w' ws]; [by apply tidy_app|]. rewrite (Join_cons w) by done.
  unfold SEP at 1. rewrite <- !(assoc_L (++)).
  apply tidy_app; [done|]. apply tidy_break, tidy_app; [|done].
  by split; apply (bool_decide_eq_true_1 _).
Qed.

Lemma line_clean g : line_ok g → clean g.
Proof.
  intros [_ Hg%plain_solid]. split; [by apply solid_no_CR|].
  intros Hc. by apply (forallb_elem _ _ _ Hg) in Hc.
Qed.

Lemma lines_clean l : Forall line_ok l → Forall clean l.
Proof. intros Hl. eapply Forall_impl; [exact Hl|]. apply line_clean. Qed.

Lemma text_tidy algo d s t x gs b :
  token algo → token d → token s → token t → line_ok x → Forall line_ok gs → tidy b →
  tidy (text_with algo d s t x gs CRLF SEP b).
Proof.
  intros [Ha _] [Hd _] [Hs _] [Ht _] Hx Hgs Hb. unfold text_with, sig_text.
  rewrite <- !(assoc_L (++) x).
  repeat first
    [exact Hb
    |apply tidy_break
    |apply tidy_words; [by apply lines_clean|]
    |apply tidy_app; [first [by apply line_clean|by split; apply (bool_decide_eq_true_1 _)]|]].
Qed.

Definition signed_message (sg message : bytes) : bytes :=
  "DKIM-Signature: " ++ ReplaceAll sg CRLF (CRLF ++ [TAB]) ++ CRLF ++ message.

Definition sig_header (sg : bytes) : header :=
  let v := SP :: ReplaceAll sg CRLF (CRLF ++ [TAB]) in
  mkHeader "DKIM-Signature" v ("DKIM-Signature:" ++ v).

Definition continued (rest : list bytes) : bytes := concat ((λ l, CRLF ++ [TAB] ++ l) <$> rest).

Lemma Join_continued l rest : Join (l :: rest) (CRLF ++ [TAB]) = l ++ continued rest.
Proof.
  revert l. induction rest as [|l' rest IH]; intros l; [symmetry; apply app_nil_r|].
  rewrite Join_cons by done. rewrite IH. unfold continued. rewrite fmap_cons, concat_cons.
  by rewrite <- !(assoc_L (++)).
Qed.

Lemma Split_continued rest m :
  Forall clean rest →
  Split (continued rest ++ CRLF ++ m) CRLF = [] :: ((λ l, TAB :: l) <$> rest) ++ Split m CRLF.
Proof.
  induction 1 as [|l rest [Hl _] _ IH]; [exact (Split_crlf_break [] m (not_elem_of_nil _))|].
  unfold continued. rewrite fmap_cons, concat_cons. fold (continued rest).
  rewrite <- !(assoc_L (++)).
  rewrite (Split_crlf_break [] _ (not_elem_of_nil _)
           : Split (CRLF ++ [TAB] ++ l ++ continued rest ++ CRLF ++ m) CRLF = _). f_equal.
  destruct (Split_crlf_app ([TAB] ++ l) (continued rest ++ CRLF ++ m)) as (k & ks & E & E');
    [set_solver|].
  rewrite <- (assoc_L (++)) in E'. rewrite E'. rewrite IH in E. injection E as <- <-.
  rewrite fmap_cons. by rewrite app_nil_r.
Qed.

Lemma parse_continued rest more n v src :
  parse_lines (((λ l, TAB :: l) <$> rest) ++ more) [mkHeader n v src] =
  parse_lines more [mkHeader n (v ++ continued rest) (src ++ continued rest)].
Proof.
  revert v src. induction rest as [|l rest IH]; intros v src.
  { unfold continued. simpl. by rewrite !app_nil_r. }
  rewrite fmap_cons, <- app_comm_cons. cbn [parse_lines Name Value Source].
  change (HasPrefix (TAB :: l) " ") with false. change (HasPrefix (TAB :: l) [TAB]) with true.
  cbn [orb]. rewrite IH. unfold continued. rewrite fmap_cons, concat_cons.
  by rewrite <- !(assoc_L (++)).
Qed.

(** Headers before do not change how the rest is read. *)
Lemma parse_lines_after h lines acc hs r :
  parse_lines lines acc = Ok (hs, r) → parse_lines lines (acc ++ [h]) = Ok (h :: hs, r).
Proof.
  revert acc. induction lines as [|line lines IH]; intros acc E; cbn [parse_lines] in *.
  { injection E as <- <-. by rewrite rev_app_distr. }
  case_bool_decide. { injection E as <- <-. by rewrite rev_app_distr. }
  destruct (_ || _).
  - destruct acc as [|h' acc]; [done|]. rewrite <- app_comm_cons. by apply (IH (_ :: acc)).
  - destruct (parseHeader line) as [h'|e]; [|done]. by apply (IH (h' :: acc)).
Qed.

Lemma parse_lines_end lines acc hs : parse_lines lines acc = Ok (hs, None) → [] ∉ lines.
Proof.
  revert acc. induction lines as [|line lines IH]; intros acc E; [by apply not_elem_of_nil|].
  cbn [parse_lines] in E. case_bool_decide as Hl; [done|]. apply not_elem_of_cons.
  split; [by intros <-|]. destruct (_ || _).
  - destruct acc as [|h' acc]; [done|]. by apply IH in E.
  - destruct (parseHeader line) as [h'|e]; [|done]. by apply IH in E.
Qed.

Lemma parse_lines_app ls more acc hs :
  parse_lines ls acc = Ok (hs, None) → parse_lines (ls ++ more) acc = parse_lines more (rev hs).
Proof.
  revert acc. induction ls as [|l ls IH]; intros acc E.
  { injection E as <-. by rewrite rev_involutive. }
  rewrite <- app_comm_cons. cbn [parse_lines] in *. case_bool_decide; [done|]. destruct (_ || _).
  - destruct acc as [|h' acc]; [done|]. by apply IH.
  - destruct (parseHeader l) as [h'|e]; [|done]. by apply IH.
Qed.

Lemma parse_lines_after_all pre lines hs r :
  parse_lines lines [] = Ok (hs, r) → parse_lines lines (rev pre) = Ok (pre ++ hs, r).
Proof.
  intros E. induction pre as [|h pre IH]; [done|]. cbn [rev]. by apply parse_lines_after.
Qed.

Lemma Split_crlf_lines ls m :
  Forall clean ls → Split (concat ((λ l, l ++ CRLF) <$> ls) ++ m) CRLF = ls ++ Split m CRLF.
Proof.
  induction 1 as [|l ls [Hl _] _ IH]; [done|]. rewrite fmap_cons, concat_cons, <- !(assoc_L (++)).
  by rewrite Split_crlf_break, IH.
Qed.

(** Headers that are added on the way. *)
Lemma parseMessage_relayed ls m pre hs body :
  Forall clean ls → parse_lines ls [] = Ok (pre, None) → [] ∈ Split m CRLF →
  parseMessage m = Ok (hs, body) →
  parseMessage (concat ((λ l, l ++ CRLF) <$> ls) ++ m) = Ok (pre ++ hs, body).
Proof.
  intros Hls Hpre He Hm. unfold parseMessage in *. rewrite Split_crlf_lines by done.
  rewrite (parse_lines_app _ _ _ _ Hpre).
  destruct (parse_lines (Split m CRLF) []) as [[hs' r]|e] eqn:E; [|done].
  rewrite (parse_lines_after_all _ _ _ _ E). cbn [mbind res_bind] in *.
  destruct r as [r|]; [|by apply parse_lines_end in E]. by injection Hm as <- <-.
Qed.

Lemma Split_signed sg m l rest :
  Split sg CRLF = l :: rest → CR ∉ l → Forall clean rest →
  Split (signed_message sg m) CRLF =
    ("DKIM-Signature: " ++ l) :: ((λ l, TAB :: l) <$> rest) ++ Split m CRLF.
Proof.
  intros Es Hl Hrest. unfold signed_message, ReplaceAll.
  rewrite Es, Join_continued, <- !(assoc_L (++)), (assoc_L (++) "DKIM-Signature: " l).
  destruct (Split_crlf_app ("DKIM-Signature: " ++ l) (continued rest ++ CRLF ++ m))
    as (k & ks & E & ->).
  { apply not_elem_of_app. split; [by apply (bool_decide_eq_true_1 _)|done]. }
  rewrite Split_continued in E by done. injection E as <- <-. by rewrite app_nil_r.
Qed.

Lemma parseMessage_signed sg message hs body :
  tidy sg → [] ∈ Split message CRLF → parseMessage message = Ok (hs, body) →
  parseMessage (signed_message sg message) = Ok (sig_header sg :: hs, body).
Proof.
  intros Ht He Hm. unfold parseMessage in *. unfold tidy in Ht.
  unfold sig_header, ReplaceAll.
  destruct (Split sg CRLF) as [|l rest] eqn:Es; [by apply Split_not_nil in Es|]. apply Forall_cons in Ht as [[Hl _] Hrest].
  rewrite (Split_signed sg message l rest) by done. rewrite Join_continued.
  cbn [parse_lines]. change (bool_decide ("DKIM-Signature: " ++ l = "")) with false.
  change (HasPrefix ("DKIM-Signature: " ++ l) " ") with false.
  change (HasPrefix ("DKIM-Signature: " ++ l) [TAB]) with false.
  change (parseHeader ("DKIM-Signature: " ++ l)) with
    (Ok (E := error) (mkHeader "DKIM-Signature" (SP :: l) ("DKIM-Signature:" ++ SP :: l))).
  cbn [orb mbind res_bind]. rewrite parse_continued.
  destruct (parse_lines (Split message CRLF) []) as [[hs' r]|e] eqn:E; [|done].
  pose proof E as E'. apply (parse_lines_after
    (mkHeader "DKIM-Signature" ((SP :: l) ++ continued rest)
       (("DKIM-Signature:" ++ SP :: l) ++ continued rest))) in E.
  change ([] ++ [?h]) with [h] in E. rewrite E. cbn [mbind res_bind] in *.
  destruct r as [r|]; [|by apply parse_lines_end in E']. by injection Hm as <- <-.
Qed.

(** ** As a connection adds it *)

Lemma Join_snoc (l : list bytes) f sep : l ≠ [] → Join (l ++ [f]) sep = Join l sep ++ sep ++ f.
Proof.
  induction l as [|x l IH]; [done|]. intros _. destruct l as [|y l]; [done|].
  rewrite <- app_comm_cons, !Join_cons by (by destruct l). rewrite IH by done.
  by rewrite <- !(assoc_L (++)).
Qed.

Lemma ToCRLF_line l d :
  clean l → Normalize.ToCRLF (l ++ [LF] ++ d) = l ++ CRLF ++ Normalize.ToCRLF d.
Proof.
  intros [Hcr Hlf]. rewrite !Normalize.ToCRLF_join.
  assert (Split (l ++ [LF] ++ d) [LF] = l :: Split d [LF]) as ->.
  { rewrite Split_eq by done. by rewrite (Cut_byte_app l d LF Hlf : Cut (l ++ [LF] ++ d) [LF] = _). }
  pose proof (Split_not_nil d [LF] ltac:(done)) as Hne.
  destruct (Split d [LF]) as [|k ks]; [done|].
  change (Normalize.crlf_lines (l :: k :: ks)) with
    (Normalize.crlf_line l :: Normalize.crlf_lines (k :: ks)).
  rewrite Join_cons by (by destruct ks).
  assert (Normalize.crlf_line l = l ++ [CR]) as ->.
  { unfold Normalize.crlf_line. destruct (HasSuffix l [CR]) eqn:E; [|done].
    apply HasSuffix_spec in E as [y ->]. set_solver. }
  by rewrite <- !(assoc_L (++)).
Qed.

Lemma ToCRLF_lines ls d :
  Forall clean ls →
  Normalize.ToCRLF (concat ((λ l, l ++ [LF]) <$> ls) ++ d) =
    concat ((λ l, l ++ CRLF) <$> ls) ++ Normalize.ToCRLF d.
Proof.
  induction 1 as [|l ls Hl _ IH]; [done|]. rewrite !fmap_cons, !concat_cons, <- !(assoc_L (++)).
  by rewrite ToCRLF_line, IH by done.
Qed.

Lemma Join_terminate (l : bytes) ls sep brk :
  Join (l :: ls) (brk ++ sep) ++ brk =
    concat ((λ x, x ++ brk) <$> (l :: ((λ x, sep ++ x) <$> ls))).
Proof.
  revert l. induction ls as [|k ls IH]; intros l; [symmetry; apply app_nil_r|].
  rewrite Join_cons, <- (assoc_L (++) l), <- !(assoc_L (++)), IH by done.
  rewrite !fmap_cons, !concat_cons. by rewrite <- !(assoc_L (++)).
Qed.

(** The value is folded at its line breaks, and has none at its end. *)
Lemma fold_value_Join ls :
  Forall clean ls → (∃ y, Join ls CRLF = y ++ ";") → ls ≠ [] →
  Envelope.fold_value (Join ls [LF]) = Join ls [LF; TAB].
Proof.
  intros Hls [y Hy] Hne. unfold Envelope.fold_value.
  assert (Hlast : ∃ e, last (Join ls [LF]) = Some e ∧ e ≠ LF).
  { destruct ls as [|z ls _] using rev_ind; [done|].
    apply Forall_app in Hls as [_ Hz]. apply Forall_cons in Hz as [[_ Hz] _].
    assert (Hz' : z ≠ []).
    { intros ->. destruct ls as [|l ls]; [by destruct y|]. rewrite Join_snoc in Hy by done.
      apply (f_equal last) in Hy. by rewrite app_nil_r, !last_app in Hy. }
    destruct (exists_last Hz') as [z' [e ->]]. exists e. split; [|set_solver].
    destruct ls as [|l ls]; [by apply last_snoc|]. rewrite Join_snoc by done.
    by rewrite !(assoc_L (++)), last_snoc. }
  destruct Hlast as (e & -> & He). rewrite bool_decide_eq_false_2 by done.
  unfold ReplaceAll. rewrite (Split_Join_byte ls LF); [done|done|].
  eapply Forall_impl; [exact Hls|]. by intros l [_ ?].
Qed.

Lemma clean_tabbed ls : Forall clean ls → Forall clean ((λ x, [TAB] ++ x) <$> ls).
Proof.
  intros Hls. apply Forall_fmap. eapply Forall_impl; [exact Hls|]. intros l [? ?].
  by split; apply not_elem_of_cons.
Qed.

Lemma AddHeader_signed data sg y :
  tidy sg → sg = y ++ ";" →
  Normalize.ToCRLF (Envelope.AddHeader data "DKIM-Signature" (ReplaceAll sg CRLF [LF])) =
    signed_message sg (Normalize.ToCRLF data).
Proof.
  intros Ht Hy. unfold tidy in Ht. unfold signed_message, ReplaceAll.
  pose proof (Join_Split sg CRLF ltac:(done)) as Hj.
  pose proof (Split_not_nil sg CRLF ltac:(done)) as Hne.
  set (ls := Split sg CRLF) in *. clearbody ls.
  assert (Hfold : Envelope.fold_value (Join ls [LF]) = Join ls [LF; TAB]).
  { by apply fold_value_Join; [|by rewrite Hj; exists y|]. }
  unfold Envelope.AddHeader. rewrite Hfold. destruct ls as [|l rest]; [done|].
  apply Forall_cons in Ht as [Hl Hrest].
  pose proof (Join_terminate l rest [TAB] [LF]) as E1.
  pose proof (Join_terminate l rest [TAB] CRLF) as E2.
  rewrite !(assoc_L (++) (Join _ _)). change [LF; TAB] with ([LF] ++ [TAB]). rewrite E1, E2.
  rewrite !fmap_cons, !concat_cons, <- !(assoc_L (++)).
  change ("DKIM-Signature" ++ ": " ++ ?r) with ("DKIM-Signature: " ++ r).
  rewrite !(assoc_L (++) "DKIM-Signature: " l), ToCRLF_line.
  - by rewrite ToCRLF_lines by (by apply clean_tabbed).
  - destruct Hl. by split; apply not_elem_of_app; (split; [apply (bool_decide_eq_true_1 _); reflexivity|]).
Qed.

(** ** Round trip *)

Section RoundTrip.
Context {RSAPublicKey PrivateKey : Type} `{Crypto RSAPublicKey PrivateKey}.
Context `{Unicode}.

(** The names of the h= tag. *)
Definition tag_names (hs : list header) : list bytes :=
  (n ← headersToSign; replicate (length (FindAll hs n)) n) ++ extraHeadersToSign.

Definition lows : list bytes := ToLower <$> headersToSign.

Lemma signed_names : Forall name headersToSign ∧ Forall name extraHeadersToSign.
Proof.
  assert (Hn : ∀ l, forallb (λ h, bool_decide (h ≠ []) && bool_decide (length h < lineLimit)
    && forallb plain h) l = true → Forall name l).
  { intros l Hl. apply Forall_forall. intros h Hh. apply (forallb_elem _ _ _ Hl) in Hh.
    rewrite !andb_true_iff, !bool_decide_eq_true in Hh. unfold name. tauto. }
  split; apply Hn; vm_compute; reflexivity.
Qed.

Lemma name_plain n : n ∈ headersToSign → forallb plain n = true.
Proof. intros Hn. by apply (proj1 (Forall_forall _ _) (proj1 signed_names)). Qed.

Lemma tag_names_ok hs : Forall name (tag_names hs) ∧ tag_names hs ≠ [].
Proof.
  split; [|unfold tag_names; by destruct (n ← headersToSign; _)].
  apply Forall_app. split; [|apply signed_names]. apply Forall_forall. intros n Hn.
  apply list_elem_of_bind in Hn as (m & Hn & Hm). apply elem_of_replicate in Hn as [-> _].
  by apply (proj1 (Forall_forall _ _) (proj1 signed_names)).
Qed.

Lemma tag_names_lower hs :
  ascii_names hs →
  ToLower <$> tag_names hs =
    (n ← lows; replicate (length (FindAll hs n)) n) ++ (ToLower <$> extraHeadersToSign).
Proof.
  intros Ha. unfold tag_names, lows. rewrite fmap_app. f_equal.
  assert (Hp : ∀ n, n ∈ headersToSign → forallb plain n = true) by apply name_plain.
  induction headersToSign as [|n l IH]; [done|]. rewrite fmap_cons, !bind_cons, fmap_app.
  rewrite fmap_replicate, FindAll_lower by (first [done|apply Hp; left]). f_equal.
  apply IH. intros m Hm. apply Hp. by right.
Qed.

Lemma tag_names_in hs n : n ∈ tag_names hs → n ∈ headersToSign.
Proof.
  unfold tag_names. rewrite elem_of_app. intros [Hn|Hn].
  - apply list_elem_of_bind in Hn as (m & Hn & Hm). by apply elem_of_replicate in Hn as [-> _].
  - revert n Hn. apply Forall_forall, (bool_decide_eq_true_1 _). vm_compute. reflexivity.
Qed.

(** They can be told apart in the tag, and From is one of them. *)
Lemma tag_names_clear hs :
  Forall (λ h, ":"%char ∉ h) (ToLower <$> tag_names hs) ∧
  ("="%char ∉ Join (ToLower <$> tag_names hs) ":") ∧
  existsb (λ h, EqualFold h "from") (ToLower <$> tag_names hs) = true.
Proof.
  assert (Hl : Forall (λ h, (":"%char ∉ h) ∧ ("="%char ∉ h)) (ToLower <$> tag_names hs)).
  { apply Forall_fmap, Forall_forall. intros n Hn%tag_names_in. cbn.
    assert (Hb : forallb (λ n, bool_decide (":"%char ∉ ToLower n) && bool_decide ("="%char ∉ ToLower n))
      headersToSign = true) by (vm_compute; reflexivity).
    apply (forallb_elem _ _ _ Hb) in Hn. by rewrite andb_true_iff, !bool_decide_eq_true in Hn. }
  split_and!.
  - eapply Forall_impl; [exact Hl|]. by intros h [? ?].
  - intros [(h & Hin & Hh)%list_elem_of_In%in_concat|Hin]%elem_of_Join.
    + apply list_elem_of_In in Hin, Hh. by apply (proj1 (Forall_forall _ _) Hl) in Hin as [_ ?].
    + by apply (bool_decide_eq_true_1 ("="%char ∉ (":" : bytes))) in Hin.
  - apply existsb_exists. exists (ToLower "From"). split; [|vm_compute; reflexivity].
    apply list_elem_of_In, list_elem_of_fmap. exists "From". split; [done|].
    unfold tag_names. apply elem_of_app. right. by left.
Qed.

(** Headers that are not signed. *)
Definition unsigned_headers (hs : list header) : Prop :=
  ascii_names hs ∧ ∀ n, n ∈ headersToSign → FindAll hs n = [].

(** No header that is signed is repeated. *)
Definition once (hs : list header) : Prop :=
  ∀ n, n ∈ headersToSign → length (FindAll hs n) ≤ 1.

Lemma sig_header_unsigned sg : unsigned_headers [sig_header sg].
Proof.
  split; [by repeat constructor|]. intros n Hn.
  assert (Hall : forallb (λ n, negb (EqualFold "DKIM-Signature" n)) headersToSign = true)
    by (vm_compute; reflexivity).
  apply (forallb_elem _ _ _ Hall) in Hn. unfold FindAll. cbn [List.filter].
  apply negb_true_iff in Hn. unfold sig_header. cbn [Name]. by rewrite Hn.
Qed.

Lemma FindAll_not_in h hs n : FindAll [h] n = [] → h ∉ FindAll hs n.
Proof.
  unfold FindAll. cbn [List.filter]. intros Hn Hin%list_elem_of_In.
  apply List.filter_In in Hin as [_ Hin]. by rewrite Hin in Hn.
Qed.

Lemma FindAll_among pre h hs n :
  unsigned_headers pre → unsigned_headers [h] → n ∈ headersToSign →
  FindAll (pre ++ h :: hs) n = FindAll hs n ∧ (h ∉ FindAll hs n).
Proof.
  intros [_ Hpre] [_ Hh] Hn. split; [|by apply FindAll_not_in, Hh].
  by rewrite (FindAll_app pre), (FindAll_app [h] hs n : FindAll (h :: hs) n = _), Hpre, Hh.
Qed.

Lemma include_signed pre sg hs :
  ascii_names hs → once hs → unsigned_headers pre →
  headersToInclude (sig_header sg) (ToLower <$> tag_names hs) (pre ++ sig_header sg :: hs) =
    (n ← headersToSign; FindAll hs n).
Proof.
  intros Ha Ho Hpre. set (all := pre ++ sig_header sg :: hs).
  assert (Hall : ascii_names all).
  { apply Forall_app. split; [apply Hpre|]. constructor; [done|done]. }
  assert (Hf : ∀ n, n ∈ headersToSign →
    FindAll all (ToLower n) = FindAll hs n ∧ FindAll hs (ToLower n) = FindAll hs n ∧
    (sig_header sg ∉ FindAll hs n)).
  { intros n Hn. rewrite !FindAll_lower by (first [done|by apply name_plain]).
    destruct (FindAll_among pre (sig_header sg) hs n Hpre (sig_header_unsigned sg) Hn) as [E ?]. by split_and!. }
  rewrite tag_names_lower by done.
  assert (Hx : ∀ l, (∀ n, n ∈ l → n ∈ headersToSign) →
    (n ← ToLower <$> l; replicate (length (FindAll hs n)) n) =
    (n ← ToLower <$> l; replicate (length (FindAll all n)) n) ∧
    (n ← ToLower <$> l; FindAll all n) = (n ← l; FindAll hs n)).
  { induction l as [|n l IH]; intros Hl; [done|]. rewrite fmap_cons, !bind_cons.
    destruct (Hf n) as (-> & -> & _); [apply Hl; left|].
    destruct IH as [-> ->]; [|done]. intros m Hm. apply Hl. by right. }
  destruct (Hx headersToSign) as [E1 E2]; [done|]. fold lows in E1, E2. rewrite E1, <- E2.
  apply include_once.
  - apply (bool_decide_eq_true_1 _). vm_compute. reflexivity.
  - apply Forall_forall. intros n Hn.
    assert (Hb : forallb (λ n, ToLower n == n) (lows ++ (ToLower <$> extraHeadersToSign)) = true)
      by (vm_compute; reflexivity).
    apply (forallb_elem _ _ _ Hb) in Hn. by apply bool_decide_eq_true in Hn.
  - intros n (m & -> & Hm)%list_elem_of_fmap. destruct (Hf m Hm) as (-> & _ & ?).
    split_and!; [by apply Ho|done|done].
  - intros n Hn. right. revert n Hn. apply Forall_forall.
    apply (bool_decide_eq_true_1 _). vm_compute. reflexivity.
Qed.

(** The key of the signer is in the DNS. *)
Definition published (lookupTXT : bytes → res error (list bytes)) (s : Signer PrivateKey) : Prop :=
  ∃ txts pk kt,
    lookupTXT (s_Selector s ++ "._domainkey." ++ s_Domain s) = Ok txts ∧
    pk ∈ parse_keys txts ∧ private_kind (s_Signer s) = Some kt ∧ Matches pk kt SHA256 = true ∧
    ∀ h sg, private_Sign (s_Signer s) h = Ok sg → sg ≠ [] ∧ verify (pk_verify pk) h sg = true.

Definition signer_ok (s : Signer PrivateKey) : Prop := token (s_Domain s) ∧ token (s_Selector s).

Lemma Itoa_token z : (0 ≤ z < 2 ^ 63)%Z → token (Itoa z) ∧ unixStrToTime (Itoa z) = Ok z.
Proof.
  intros Hz. pose proof (ParseInt_Itoa z Hz) as Hp. split; [split; [split|]|].
  - intros E. by rewrite E in Hp.
  - apply forallb_forall. intros c Hc%list_elem_of_In%Itoa_chars. revert c Hc.
    apply Forall_forall, (bool_decide_eq_true_1 _). vm_compute. reflexivity.
  - intros Hc%Itoa_chars. revert Hc. by apply (bool_decide_eq_true_1 _).
  - unfold unixStrToTime. rewrite Hp. by rewrite (proj2 (Z.ltb_ge _ _)) by lia.
Qed.

(** The two forms of the signature: with it, and with an empty b=. *)
Lemma text_with_app algo d s t x gs nl sep b b' :
  text_with algo d s t x gs nl sep (b ++ b') = text_with algo d s t x gs nl sep b ++ b'.
Proof. unfold text_with, sig_text. by rewrite <- !(assoc_L (++)). Qed.

Lemma TrimLeft_WSP c s : solid c = true → TrimLeft (c :: s) WSP = c :: s ∧ TrimLeft (SP :: c :: s) WSP = c :: s.
Proof.
  intros (Hc & _)%solid_spec. unfold is_wsp in Hc. apply orb_false_iff in Hc as [H1 H2].
  apply bool_decide_eq_false in H1, H2.
  assert (bool_decide (c ∈ WSP) = false) as Hn by (apply bool_decide_eq_false_2; unfold WSP; set_solver).
  unfold TrimLeft. cbn [drop_while]. rewrite Hn. by rewrite bool_decide_eq_true_2 by (unfold WSP; set_solver).
Qed.

(** The signature is hashed in the same form, with the space before it or not. *)
Lemma relaxHeader_Source (n : bytes) c v src y :
  solid c = true → relax_text (c :: v) = y ++ ";" →
  Source (relaxHeader (mkHeader n (SP :: c :: v) src)) = TrimRight (ToLower n) WSP ++ ":" ++ y ++ ";" ∧
  Source (relaxHeader (mkHeader n (c :: v) src)) = TrimRight (ToLower n) WSP ++ ":" ++ y ++ ";".
Proof.
  intros Hc Hv. pose proof (relax_SP c v Hc) as Hs. rewrite Hv in Hs.
  assert (Hh : ∃ r, y ++ ";" = c :: r).
  { rewrite <- Hv. change (c :: v) with ([c] ++ v).
    rewrite relax_app by (cbn; by rewrite Hc). by eexists. }
  destruct Hh as [r Hr]. unfold relaxHeader. cbn [Name Value Source].
  change (squeeze_wsp false (unfold_header ?s)) with (relax_text s). rewrite Hs, Hv.
  assert (Hn : ";"%char ∉ WSP) by (unfold WSP; set_solver).
  rewrite (TrimRight_snoc_id (SP :: y) ";"%char WSP Hn : TrimRight (SP :: y ++ ";") WSP = _).
  rewrite (TrimRight_snoc_id y ";"%char WSP Hn : TrimRight (y ++ ";") WSP = _).
  change ((SP :: y) ++ [";"%char]) with (SP :: y ++ ";"). change (y ++ [";"%char]) with (y ++ ";").
  rewrite Hr. by destruct (TrimLeft_WSP c r Hc) as [-> ->].
Qed.

(** What is hashed for the signature is the same on both sides. *)
Lemma hashed_alike algo d s t x gs ks src :
  token algo → token d → token s → token t → line_ok x → ("="%char ∉ x) →
  Forall line_ok gs → ("="%char ∉ concat gs) → Forall line_ok ks → ks ≠ [] →
  let fs := text_with algo d s t x gs (CRLF ++ [TAB]) (CRLF ++ [TAB] ++ "  ") ";" in
  remove_b BCopy
    (Source (relaxHeader (mkHeader "DKIM-Signature" (sig_value algo d s t x gs ks) src))) =
  Source (relaxHeader (mkHeader "DKIM-Signature" fs fs)).
Proof.
  intros Ha Hd Hs Ht Hx Hxe Hgs Hge Hks Hks' fs.
  assert (Hn : TrimRight (ToLower "DKIM-Signature") WSP = "dkim-signature") by (vm_compute; reflexivity).
  assert (Hhead : ∀ nl sep b, ∃ r, text_with algo d s t x gs nl sep b = "v"%char :: r)
    by (by eexists).
  assert (Hfs : relax_text fs = text_with algo d s t x gs " " " " [] ++ ";").
  { subst fs. rewrite text_relax by done. by rewrite <- text_with_app. }
  pose proof (text_signed_relax algo d s t x gs ks Ha Hd Hs Ht Hgs Hx Hks) as Hsg.
  rewrite (text_with_app _ _ _ _ _ _ " " " ") in Hsg. unfold sig_value.
  destruct (Hhead (CRLF ++ [TAB]) (CRLF ++ [TAB] ++ "  ") (Join ks (CRLF ++ [TAB] ++ "  ") ++ ";")) as [r Hr].
  destruct (Hhead (CRLF ++ [TAB]) (CRLF ++ [TAB] ++ "  ") ";") as [r' Hr']. fold fs in Hr'.
  rewrite Hr in Hsg |- *. rewrite Hr' in Hfs |- *.
  destruct (relaxHeader_Source "DKIM-Signature" "v"%char r src _ eq_refl Hsg) as [-> _].
  destruct (relaxHeader_Source "DKIM-Signature" "v"%char r' ("v"%char :: r') _ eq_refl Hfs) as [_ ->].
  rewrite Hn, <- !text_with_app. change ([] ++ ";") with (";" : bytes).
  rewrite !(assoc_L (++) "dkim-signature" ":"). apply text_remove_b; try done.
  - by apply (bool_decide_eq_true_1 _).
  - destruct (tight_Join ks " " Hks Hks') as [(? & ? & -> & _) _]. done.
  - intros [Hc|Hc]%elem_of_Join; [|set_solver].
    by apply (plain_no_semicolon _ (plain_concat _ Hks)).
Qed.

(** The parts of the text of a signature. *)
Record sig_parts (s : Signer PrivateKey) (now : Z) (hs : list header) (body : bytes)
    (kt : keyType) (algo raw x : bytes) (gs ks : list bytes) : Prop := {
  sp_kind : private_kind (s_Signer s) = Some kt;
  sp_algo : (algo, kt) ∈ [("rsa-sha256" : bytes, keyTypeRSA); ("ed25519-sha256" : bytes, keyTypeEd25519)];
  sp_algo_token : token algo;
  sp_unsigned : unsigned s algo now hs body =
    text_with algo (s_Domain s) (s_Selector s) (Itoa now) x gs CRLF SEP [];
  sp_bh : x ++ "=" = Base64.EncodeToString (sha256 (relaxBody body));
  sp_x : line_ok x;
  sp_x_eq : "="%char ∉ x;
  sp_gs : Forall line_ok gs;
  sp_gs_ne : gs ≠ [];
  sp_names : concat gs = Join (ToLower <$> tag_names hs) ":";
  sp_b : breakLongLines (Base64.EncodeToString raw) = Join ks SEP;
  sp_ks : Forall line_ok ks;
  sp_ks_ne : ks ≠ [];
  sp_raw : concat ks = Base64.EncodeToString raw;
}.

Lemma Forall_line_ok ks : Forall word ks → forallb plain (concat ks) = true → Forall line_ok ks.
Proof.
  induction 1 as [|k ks [Hk _] _ IH]; [done|]. rewrite concat_cons, forallb_app.
  intros [Hp Hps]%andb_true_iff. constructor; [by split|by apply IH].
Qed.

Lemma sig_parts_exist s now hs body algo raw :
  (∀ x, length (sha256 x) = 32) → raw ≠ [] → algoStr s = Ok algo →
  ∃ kt x gs ks, sig_parts s now hs body kt algo raw x gs ks.
Proof.
  intros Hsha Hraw Ha.
  assert (Hkt : ∃ kt, private_kind (s_Signer s) = Some kt ∧ (algo, kt) ∈
    [("rsa-sha256" : bytes, keyTypeRSA); ("ed25519-sha256" : bytes, keyTypeEd25519)] ∧ token algo).
  { unfold algoStr in Ha. destruct (private_kind (s_Signer s)) as [[]|]; [..|done];
      injection Ha as <-; eexists; (split_and!; [done|set_solver|]);
      (split; [by split|by apply (bool_decide_eq_true_1 _)]). }
  destruct Hkt as (kt & Hk & Hkt & Htok).
  destruct (tag_names_ok hs) as [Hn Hne].
  destruct (formatHeaders_words (tag_names hs) Hne Hn) as (gs & Eg & Hg & Hgs & Hgs').
  destruct (EncodeToString_padded 10 (sha256 (relaxBody body))) as (x & Ex & Hxe & Hx);
    [by rewrite Hsha|].
  pose proof (EncodeToString_plain raw) as Hplain.
  destruct (break_words (Base64.EncodeToString raw)) as (ks & Ek & Hk' & Hks & Hks');
    [by apply EncodeToString_nonempty|by apply plain_solid|].
  exists kt, x, gs, ks. split; try done.
  - unfold unsigned. fold (tag_names hs). rewrite Eg, Ex. reflexivity.
  - apply Forall_line_ok; [done|]. by rewrite Hk'.
Qed.

(** What is verified is what was signed, and it parses. *)
Lemma Sign_ok s now message sg hs body :
  signer_ok s → (0 ≤ now < 2 ^ 63)%Z → (∀ x, length (sha256 x) = 32) →
  (∀ h sg, private_Sign (s_Signer s) h = Ok sg → sg ≠ []) →
  parseMessage message = Ok (hs, body) → Sign s now message = Ok sg →
  (tidy sg ∧ ∃ y, sg = y ++ ";") ∧ ∃ sig raw data kt,
    dkimSignatureFromHeader (Value (sig_header sg)) = Ok sig ∧
    private_kind (s_Signer s) = Some kt ∧ private_Sign (s_Signer s) (sha256 data) = Ok raw ∧
    sig_d sig = s_Domain s ∧ sig_s sig = s_Selector s ∧ sig_KeyType sig = kt ∧
    sig_cH sig = relaxed ∧ sig_cB sig = relaxed ∧ sig_i sig = [] ∧ sig_l sig = 0%N ∧
    sig_b sig = raw ∧ sig_bh sig = sha256 (relaxBody body) ∧ sig_h sig = ToLower <$> tag_names hs ∧
    data = concat (h ← headersToSign; (λ hd, Source (relaxHeader hd) ++ CRLF) <$> FindAll hs h)
           ++ remove_b BCopy (Source (relaxHeader (sig_header sg))).
Proof.
  intros [Hd Hsel] Hnow Hsha Hraw Hm Hsign. unfold Sign in Hsign. rewrite Hm in Hsign.
  cbn [mbind res_bind] in Hsign. destruct (algoStr s) as [algo|e] eqn:Ha; [|done].
  cbn [mbind res_bind] in Hsign.
  destruct (private_Sign _ _) as [raw|e] eqn:Hps; [|done].
  destruct (sig_parts_exist s now hs body algo raw Hsha (Hraw _ _ Hps) Ha)
    as (kt & x & gs & ks & [Hk Hal Hat Hu Hbh Hx Hxe Hgs Hgn Hnm Hb Hks Hkn Hrw]).
  destruct (Itoa_token now Hnow) as [Ht Hnow']. destruct (tag_names_clear hs) as (Hc & He & Hf).
  assert (Hge : "="%char ∉ concat gs) by (by rewrite Hnm).
  assert (Hsg : sg = text_with algo (s_Domain s) (s_Selector s) (Itoa now) x gs CRLF SEP (Join ks SEP ++ ";")).
  { apply (f_equal (λ r, match r with Ok t => t | Err _ => [] end)) in Hsign. cbv beta iota in Hsign.
    rewrite <- Hsign, Hu, Hb. symmetry. apply (text_with_app _ _ _ _ _ _ _ _ []). }
  assert (Hv : Value (sig_header sg) =
    sig_value algo (s_Domain s) (s_Selector s) (Itoa now) x gs ks).
  { unfold sig_header, sig_value. cbn [Value]. f_equal. rewrite subst_crlf_eq, Hsg.
    exact (text_signed_subst algo _ _ _ x gs ks Hat Hd Hsel Ht Hgs Hx Hks _). }
  split; [rewrite Hsg; split|].
  { apply text_tidy; try done. apply tidy_words; [by apply lines_clean|].
    repeat constructor; by apply (bool_decide_eq_true_1 _). }
  { rewrite text_with_app. by eexists. }
  eexists (parsed algo (s_Domain s) (s_Selector s) raw (sha256 (relaxBody body))
            (ToLower <$> tag_names hs) now kt), raw, _, kt.
  rewrite Hv. split; [by apply sig_value_parsed; try done; apply (Hraw _ _ Hps)|].
  split; [done|]. split; [exact Hps|]. do 10 (split; [reflexivity|]).
  unfold data_to_sign. f_equal. rewrite Hu, subst_crlf_eq.
  rewrite (text_subst algo _ _ _ x gs Hat Hd Hsel Ht Hgs Hx), <- text_with_app.
  pose proof (hashed_alike algo (s_Domain s) (s_Selector s) (Itoa now) x gs ks
    (Source (sig_header sg)) Hat Hd Hsel Ht Hx Hxe Hgs Hge Hks Hkn) as Hh.
  rewrite <- Hv in Hh. exact (eq_sym Hh).
Qed.

(** The signature of a message verifies with the headers of the message, with
    others before them. *)
Lemma Sign_verifies lookupTXT s now message sg hs body :
  signer_ok s → (0 ≤ now < 2 ^ 63)%Z → (∀ x, length (sha256 x) = 32) → published lookupTXT s →
  parseMessage message = Ok (hs, body) → ascii_names hs → once hs → Sign s now message = Ok sg →
  (tidy sg ∧ ∃ y, sg = y ++ ";") ∧ ∀ pre, unsigned_headers pre →
    ∃ b, verifySignature lookupTXT (sig_header sg) (pre ++ sig_header sg :: hs) body =
           Some (mkOneResult (Value (sig_header sg)) (s_Domain s) (s_Selector s) b SUCCESS None).
Proof.
  intros Hok Hnow Hsha (txts & pk & kt & Htxt & Hpk & Hk & Hma & Hver) Hm Ha Ho Hsign.
  destruct (Sign_ok s now message sg hs body Hok Hnow Hsha) as [Ht (sig & raw & data & kt' & Hp & Hk' & Hps
    & Esd & Ess & Ek & EcH & EcB & Ei & El & Eb & Ebh & Eh & Ed)]; [|done|done|].
  { intros h r Hr. by apply Hver in Hr as [? _]. }
  split; [done|]. intros pre Hpre. exists (Base64.EncodeToString raw).
  unfold verifySignature. rewrite Hp, Esd, Ess. unfold findPublicKeys. rewrite Htxt.
  cbn [fmap res_fmap]. rewrite EcB, El, Ebh, Eb. cbn [c_body].
  rewrite (proj2 (N.ltb_ge _ 0)) by lia. change (0 <? 0)%N with false. cbv iota.
  unfold hashWith. destruct (sig_Hash sig) eqn:Eha.
  rewrite bool_decide_eq_true_2 by done. cbn [negb].
  assert (signed_data sig (sig_header sg) (pre ++ sig_header sg :: hs) = data) as ->.
  { rewrite Ed. unfold signed_data. rewrite EcH, Eh, include_signed by done. f_equal. f_equal.
    clear. induction headersToSign as [|n l IH]; [done|].
    by rewrite !bind_cons, fmap_app, IH. }
  assert (Hex : existsb (key_verifies sig (sha256 data)) (parse_keys txts) = true).
  { apply existsb_exists. exists pk. split; [by apply list_elem_of_In|].
    unfold key_verifies. rewrite Ei, Eb, Ek, Eha. simplify_eq.
    rewrite Hma. simpl. by apply Hver in Hps as [_ ?]. }
  by rewrite Hex.
Qed.

(** *** Several signatures *)

Lemma unsigned_app a b : unsigned_headers a → unsigned_headers b → unsigned_headers (a ++ b).
Proof.
  intros [Ha1 Ha2] [Hb1 Hb2]. split; [by apply Forall_app|]. intros n Hn.
  by rewrite FindAll_app, Ha2, Hb2.
Qed.

(** A message whose first headers are signatures that verify, whatever other
    headers come before. *)
Record attested (lookupTXT : bytes → res error (list bytes)) (m : bytes)
    (sigs hs : list header) (body : bytes) : Prop := {
  at_parse : parseMessage m = Ok (sigs ++ hs, body);
  at_empty : [] ∈ Split m CRLF;
  at_names : Forall (λ h, Name h = "DKIM-Signature") sigs;
  at_unsigned : unsigned_headers sigs;
  at_verify : ∀ pre h, h ∈ sigs → unsigned_headers pre →
    ∃ r, verifySignature lookupTXT h (pre ++ sigs ++ hs) body = Some r ∧ State r = SUCCESS;
}.

Lemma attested_start lookupTXT m hs body :
  parseMessage m = Ok (hs, body) → [] ∈ Split m CRLF → attested lookupTXT m [] hs body.
Proof.
  intros Hm He. split; [done|done|done|split; [by constructor|done]|]. intros pre h Hh. by apply elem_of_nil in Hh.
Qed.

Lemma attested_sign lookupTXT s now m sg sigs hs body :
  signer_ok s → (0 ≤ now < 2 ^ 63)%Z → (∀ x, length (sha256 x) = 32) → published lookupTXT s →
  ascii_names hs → once hs → attested lookupTXT m sigs hs body → Sign s now m = Ok sg →
  (tidy sg ∧ ∃ y, sg = y ++ ";") ∧
  attested lookupTXT (signed_message sg m) (sig_header sg :: sigs) hs body.
Proof.
  intros Hs Hnow Hsha Hpub Ha Ho [Hp He Hn Hu Hv] Hsign.
  destruct (Sign_verifies lookupTXT s now m sg (sigs ++ hs) body) as [[Ht Hy] Hver]; try done.
  { apply Forall_app. by destruct Hu. }
  { intros n Hin. rewrite FindAll_app, (proj2 Hu n Hin). by apply Ho. }
  split; [done|]. split.
  - by apply parseMessage_signed.
  - unfold tidy in Ht. destruct (Split sg CRLF) as [|l rest] eqn:Es; [by apply Split_not_nil in Es|].
    apply Forall_cons in Ht as [[Hl _] Hrest]. rewrite (Split_signed _ _ _ _ Es Hl Hrest).
    right. apply elem_of_app. by right.
  - by constructor.
  - apply (unsigned_app [_]); [apply sig_header_unsigned|done].
  - intros pre h [-> |Hh]%elem_of_cons Hpre.
    + destruct (Hver pre Hpre) as [b Hb]. rewrite <- app_comm_cons, Hb. by eexists.
    + destruct (Hv (pre ++ [sig_header sg]) h Hh) as (r & Hr & Hst).
      { apply unsigned_app; [done|apply sig_header_unsigned]. }
      exists r. by rewrite <- (assoc_L (++)) in Hr.
Qed.

Lemma FindAll_sigs sigs :
  Forall (λ h, Name h = "DKIM-Signature") sigs → FindAll sigs "DKIM-Signature" = sigs.
Proof.
  induction 1 as [|h sigs Hh _ IH]; [done|]. unfold FindAll in *. cbn [List.filter].
  rewrite Hh. assert (EqualFold "DKIM-Signature" "DKIM-Signature" = true) as -> by (vm_compute; reflexivity).
  by rewrite IH.
Qed.

(** All the signatures are found, and valid, also with more headers. *)
Lemma attested_VerifyMessage lookupTXT m sigs hs body ls pre n :
  attested lookupTXT m sigs hs body → FindAll hs "DKIM-Signature" = [] → length sigs ≤ n →
  Forall clean ls → parse_lines ls [] = Ok (pre, None) →
  unsigned_headers pre → FindAll pre "DKIM-Signature" = [] →
  ∃ r, VerifyMessage n lookupTXT (concat ((λ l, l ++ CRLF) <$> ls) ++ m) = Some (Ok r) ∧
    Found r = length sigs ∧ Valid r = length sigs.
Proof.
  intros [Hp He Hn Hu Hv] Hh Hlen Hls Hpre Hpu Hpd. unfold VerifyMessage.
  rewrite (parseMessage_relayed ls m pre (sigs ++ hs) body) by done.
  rewrite !FindAll_app, Hpd, Hh, FindAll_sigs, app_nil_r by done. cbn [app].
  rewrite take_ge by done.
  assert (Hall : ∀ l, (∀ h, h ∈ l → h ∈ sigs) →
    ∃ rs, verify_all lookupTXT l (pre ++ sigs ++ hs) body = Some rs ∧ length rs = length l ∧
      List.filter (λ r, State r == SUCCESS) rs = rs).
  { induction l as [|h l IH]; intros Hl; [by exists []|].
    destruct (Hv pre h) as (r & Hr & Hst); [apply Hl; left|done|].
    destruct IH as (rs & Hrs & Hlr & Hf); [intros k Hk; apply Hl; by right|].
    exists (r :: rs). cbn [verify_all]. rewrite Hr. cbn [mbind option_bind]. rewrite Hrs.
    cbn [mbind option_bind length List.filter]. rewrite Hst, Hf. auto. }
  destruct (Hall sigs) as (rs & -> & Hlr & Hf); [done|]. cbn [mbind option_bind].
  eexists. split; [done|]. cbn [Found Valid]. by rewrite Hf.
Qed.

End RoundTrip.

End DkimSign.
