(* ===== verification/DkimConn.v ===== *)
(** DKIM behind the SMTP connections: package [internal/dkim] implements the
    interface [Dkim] that the connections of [Conn.v] are written against. *)

From S2P Require Import Prelude GoStrings Envelope DotReader Aliases Store.
From S2P Require Import DomainInfo Auth Haproxy Conn ConnProps Dkim DkimProps DkimSign.
#[local] Open Scope go_scope.

Module DkimConn.
Import DotReader Smtpsrv.

Section DkimConn.
Context `{Unicode, Precis, NetMail, NetIP, AliasWorld, ErrorText}.
Context `{ProtoText DomainInfo.Domain}.
Context {B : Type} `{Auth.Backend B}.
Context {Q : Type} `{MailQueue Q}.
Context {RSAPublicKey PrivateKey : Type} `{Dkim.Crypto RSAPublicKey PrivateKey}.
Context `{Dkim.DkimWords}.

(** The clock and the DNS at each moment. *)
Variable clock : nat → Z.
Variable lookupTXT : nat → bytes → res Dkim.error (list bytes).

Definition words {A} (r : res Dkim.error A) : res bytes A :=
  match r with Ok a => Ok a | Err e => Err (Dkim.error_text e) end.

#[local] Instance dkim_conn : Dkim (Dkim.Signer PrivateKey) Dkim.VerifyResult :=
  {| dkim_Sign t s message := words (Dkim.Sign s (clock t) message);
     dkim_VerifyMessage t message :=
       words <$> Dkim.VerifyMessage 5 (lookupTXT t) message;
     dkim_AuthenticationResults := Dkim.AuthenticationResults |}.

#[local] Abbreviation Conn := (Smtpsrv.Conn (B := B) (Q := Q)
  (Signer := Dkim.Signer PrivateKey) (VerifyResult := Dkim.VerifyResult)).

Lemma data_queue_replies e (c : Conn) : (data_queue e c).2 ≠ Panic.
Proof.
  unfold data_queue. destruct (runPostDataHook _ _ _) as [out|[perm msg]]; [|done].
  by destruct (q_Put _ _ _ _) as [q [id|err]].
Qed.

(** C26: DATA always ends with a reply, but for one case: a client that did
    not authenticate, and a message with a DKIM signature, one of the first
    five, with keys in the DNS and an l= beyond the end of the body, which
    makes the server panic. *)
Theorem DATA_replies_unless_long_l e (c : Conn) :
  match (DATA e c).2 with
  | Reply _ _ => True
  | Panic =>
    completedAuth c = false ∧
    ∃ payload headers body,
      (readUntilDot (rd c) (maxDataSize (cfg c))).1 = (payload, None) ∧
      Dkim.parseMessage (Normalize.ToCRLF payload) = Ok (headers, body) ∧
      Exists (DkimProps.too_long (lookupTXT (moment e)) body)
        (take 5 (Dkim.FindAll headers "DKIM-Signature"))
  end.
Proof.
  unfold DATA. destruct (ehloDomain c == ""); [done|].
  destruct (mailFrom c == ""); [done|].
  destruct (length (rcptTo c) == 0); [done|].
  unfold writeResponse. destruct (write_flush _ _) as [w [err|]]; [done|]. simpl.
  destruct (readUntilDot (rd c) (maxDataSize (cfg c))) as [[d err] r].
  destruct err as [[]|]; try done.
  { by destruct (write_flush _ _). }
  unfold data_message. set (c1 := set_data _ d).
  destruct (checkData c1 _); [done|].
  change (completedAuth c1) with (completedAuth c).
  destruct (completedAuth c) eqn:Ha.
  { destruct (dkimSign e c1) as [c2 [e2|]]; [done|].
    pose proof (data_queue_replies e c2). by destruct (data_queue e c2) as [? []]. }
  unfold dkimVerify, dkim_VerifyMessage, dkim_conn.
  pose proof (DkimProps.VerifyMessage_panics 5 (lookupTXT (moment e))
    (Normalize.ToCRLF (data c1))) as HV.
  destruct (Dkim.VerifyMessage _ _ _) as [[v|err]|]; simpl in *.
  - pose proof (data_queue_replies e (set_dkim c1 (Some v))).
    by destruct (data_queue e _) as [? []].
  - pose proof (data_queue_replies e (set_dkim c1 None)).
    by destruct (data_queue e _) as [? []].
  - split; [done|]. destruct (HV eq_refl) as (headers & body & Hp & Hx).
    by exists d, headers, body.
Qed.

(** ** From one server to another *)

Definition signers_of (c : Conn) : list (Dkim.Signer PrivateKey) :=
  default [] (dkimSigners (cfg c) !! Envelope.DomainOf (mailFrom c)).

(** A message that is not signed yet, where no header to sign is repeated. *)
Record signable (m : bytes) (hs : list Dkim.header) (body : bytes) : Prop := {
  sg_parse : Dkim.parseMessage m = Ok (hs, body);
  sg_empty : [] ∈ Split m CRLF;
  sg_ascii : DkimSign.ascii_names hs;
  sg_once : DkimSign.once hs;
  sg_unsigned : Dkim.FindAll hs "DKIM-Signature" = [];
}.

(** Lines of headers that are neither signed nor signatures. *)
Definition trace_headers (ls : list bytes) : Prop :=
  Forall clean ls ∧ ∃ pre, Dkim.parse_lines ls [] = Ok (pre, None) ∧
    DkimSign.unsigned_headers pre ∧ Dkim.FindAll pre "DKIM-Signature" = [].

Lemma dkim_sign_loop_attested e lookup signers (c c' : Conn) sigs hs body :
  Forall (λ s, DkimSign.signer_ok s ∧ DkimSign.published lookup s) signers →
  (0 ≤ clock (moment e) < 2 ^ 63)%Z → (∀ x, length (Dkim.sha256 x) = 32) →
  DkimSign.ascii_names hs → DkimSign.once hs →
  DkimSign.attested lookup (Normalize.ToCRLF (data c)) sigs hs body →
  dkim_sign_loop e signers c = (c', None) →
  ∃ sigs', length sigs' = length signers + length sigs ∧
    DkimSign.attested lookup (Normalize.ToCRLF (data c')) sigs' hs body.
Proof.
  intros Hs Hnow Hsha Ha Ho. revert c sigs.
  induction Hs as [|s signers [Hok Hpub] _ IH]; intros c sigs Hat E; cbn [dkim_sign_loop] in E.
  { injection E as <-. by exists sigs. }
  unfold dkim_Sign, dkim_conn, words in E.
  destruct (Dkim.Sign _ _ _) as [sg|err] eqn:Es; [|done].
  destruct (DkimSign.attested_sign lookup s _ _ sg sigs hs body Hok Hnow Hsha Hpub Ha Ho Hat Es)
    as [[Ht [y Hy]] Hat'].
  rewrite <- (DkimSign.AddHeader_signed (data c) sg y Ht Hy) in Hat'.
  apply (IH (set_data c _)) in Hat' as (sigs' & Hl & Hat'); [|exact E].
  exists sigs'. split; [simpl in *; lia|done].
Qed.


End DkimConn.

(** ** An example *)

Module Example.
Import AsciiOnly CountableText ConnProps.Example.

(** Keys are unit, a hash is the first 32 bytes, padded, and a signature is the
    hash that it signs. *)
#[local] Instance toy : Dkim.Crypto unit unit :=
  {| Dkim.sha256 (b : bytes) := take 32 (b ++ replicate 32 "0"%char);
     Dkim.ParsePKIXPublicKey (_ : bytes) := Some (Some tt);
     Dkim.ParsePKCS1PublicKey (_ : bytes) := None;
     Dkim.rsa_Size (_ : unit) := 256%Z;
     Dkim.rsa_VerifyPKCS1v15 (_ : unit) (h s : bytes) := (h == s) && (s != []);
     Dkim.ed25519_Verify (_ _ _ : bytes) := false;
     Dkim.private_kind (_ : unit) := Some Dkim.keyTypeRSA;
     Dkim.private_Sign (_ : unit) (h : bytes) := if h == [] then Err "empty" else Ok h |}.

#[local] Instance dkim_words : Dkim.DkimWords := {| Dkim.error_text _ := "error" |}.

Definition clock (_ : nat) : Z := 1234.

Definition dns (_ : nat) (d : bytes) : res Dkim.error (list bytes) :=
  if (d == "one._domainkey.dom") || (d == "two._domainkey.dom") then Ok ["v=DKIM1; p=AAAA"]
  else Err (Dkim.LookupError "no such host").

Definition key (sel : bytes) : Dkim.Signer unit := Dkim.mkSigner "dom" sel tt.

Definition signing_config : Config (B := backend) (Signer := Dkim.Signer unit) :=
  {| maxDataSize := 1000; postDataHook := "/hook"; mode := ModeSMTP;
     authr := the_authr; localDomains := Some (StringSet.NewString ["dom"]);
     aliasesR := Aliases.AddDomain (Aliases.NewResolver (λ _ _, Ok false)) "dom";
     dkimSigners := {[ ("dom" : bytes) := [key "one"; key "two"] ]}; deadline := 1000;
     haproxyEnabled := false; maxReceivedHeaders := 50; disableSPFForTesting := false |}.

Definition start (d : bytes) :
  Conn (B := backend) (Q := queue_t) (Signer := Dkim.Signer unit) (VerifyResult := Dkim.VerifyResult) :=
  set_data (set_mailFrom
    (new_conn signing_config "mx.dom" (TCPAddr "1.2.3.4" 99) (mkReader [] EndEOF)
       (mkWriter [] None None) [] (DomainInfo.mkDB (Protoio.mkStore "/d") ∅) ∅ []) "ana@dom") d.

Definition message : bytes :=
  concat ((λ l, l ++ [LF]) <$>
    ["From: ana@dom" : bytes; "To: bob@other, eve@other"; "Subject: hello  there"; ""; "Hi!"]).

Definition received : list bytes :=
  ["Received: from mx.dom (1.2.3.4)" : bytes; [TAB] ++ "by mx.other"; "X-Spam: no"].

Lemma published_dns sel : sel ∈ ["one" : bytes; "two"] →
  DkimSign.signer_ok (key sel) ∧ DkimSign.published (dns 0) (key sel).
Proof.
  intros Hs. split.
  { split; (split; [split|]); [done|done|by apply (bool_decide_eq_true_1 _)|..];
      repeat (apply elem_of_cons in Hs as [->|Hs]; [first [done|by apply (bool_decide_eq_true_1 _)]|]);
      by apply elem_of_nil in Hs. }
  eexists ["v=DKIM1; p=AAAA" : bytes], _, Dkim.keyTypeRSA. split_and!.
  - repeat (apply elem_of_cons in Hs as [->|Hs]; [done|]). by apply elem_of_nil in Hs.
  - change (Dkim.parse_keys _) with
      [Dkim.mkPublicKey [] Dkim.keyTypeRSA [NUL; NUL; NUL] [] (Dkim.VerifyRSA (RSAPublicKey := unit) tt)].
    by left.
  - done.
  - done.
  - intros h sg. cbn. case_bool_decide as Hh; [done|]. intros [= <-]. split; [done|].
    rewrite bool_decide_eq_true_2, bool_decide_eq_false_2 by done. done.
Qed.

Definition parts : list Dkim.header * bytes :=
  match Dkim.parseMessage (Normalize.ToCRLF message) with Ok p => p | Err _ => ([], []) end.

Lemma message_signable : signable (Normalize.ToCRLF message) parts.1 parts.2.
Proof.
  split.
  - vm_compute. reflexivity.
  - apply (bool_decide_eq_true_1 _). vm_compute. reflexivity.
  - apply (bool_decide_eq_true_1 _). vm_compute. reflexivity.
  - unfold DkimSign.once. apply Forall_forall, (bool_decide_eq_true_1 _). vm_compute. reflexivity.
  - vm_compute. reflexivity.
Qed.

Lemma received_trace : trace_headers received.
Proof.
  split.
  - unfold clean. apply (bool_decide_eq_true_1 _). vm_compute. reflexivity.
  - eexists. split; [vm_compute; reflexivity|]. split; [split|vm_compute; reflexivity].
    + apply (bool_decide_eq_true_1 _). vm_compute. reflexivity.
    + apply Forall_forall, (bool_decide_eq_true_1 _). vm_compute. reflexivity.
Qed.

#[local] Instance the_dkim : Dkim (Dkim.Signer unit) Dkim.VerifyResult := dkim_conn clock dns.


End Example.

End DkimConn.
