(* ===== verification/Nettrace.v ===== *)
(** Tracing of requests: package [internal/nettrace].  Traces are shared
    through pointers (an event of a trace refers to its children and to the
    traces it is linked to), so they live in a store, [traces], and are named by
    their place in it; a trace is never removed from it, the garbage
    collector being invisible.  Reading the clock and the random source are
    arguments; a run-time panic is [None]. *)

From Stdlib Require Import SpecFloat.
From S2P Require Import Prelude GoStrings GoSlices GoTime.
#[local] Open Scope go_scope.

Module Nettrace.
Import Time.

(** A pointer to a trace. *)
Abbreviation loc := nat.

Abbreviation id := bytes.

Definition newID (rnd : N) (family : bytes) (ts : Z) : id :=
  family ++ "!" ++ Itoa ts ++ "!" ++ Itoa (Z.of_N (rnd mod 2 ^ 64)).

Definition Family_of (i : id) : bytes :=
  match SplitN2 i "!" with
  | [f; _] => f
  | _ => i
  end.

Inductive evtType := evtLOG | evtCHILD | evtLINK | evtDROP.

#[export] Instance evtType_eq_dec : EqDecision evtType.
Proof. solve_decision. Defined.

Record event := mkEvent {
  When : Z;
  Type_ : evtType;
  Ref : option loc;
  Msg : bytes;
}.

#[export] Instance event_eq_dec : EqDecision event.
Proof. solve_decision. Defined.

(** ** evtring.go *)

Record evtRing := mkEvtRing {
  evts : list event;
  max : Z;
  pos : Z;
  firstDrop : Z;
}.

Definition newEvtRing (n : Z) : evtRing := mkEvtRing [] n (-1) 0.

Definition evtRing_Add (r : evtRing) (e : event) : option evtRing :=
  if Z.ltb (len (evts r)) (max r) then
    Some (mkEvtRing (evts r ++ [e]) (max r) (pos r + 1) (firstDrop r))
  else
    pos' ← go_rem (pos r + 1) (max r);
    old ← index (evts r) pos';
    Some (mkEvtRing (<[Z.to_nat pos' := e]> (evts r)) (max r) pos'
      (if IsZero (firstDrop r) then When old else firstDrop r)).

(** The events in the order in which [Do] calls its function on them. *)
Definition evtRing_Do (r : evtRing) : option (list event) :=
  mapM (λ i, p ← go_rem (pos r + 1 + Z.of_nat i) (len (evts r)); index (evts r) p)
    (seq 0 (length (evts r))).

(** ** A trace *)

Record trace := mkTrace {
  ID : id;
  Family : bytes;
  Title : bytes;
  Parent : option loc;
  Start : Z;
  end_ : Z;
  isError : bool;
  maxEvents : Z;
  cutoff : Z;
  firstEvents : list event;
  lastEvents : option evtRing;
}.

Definition set_events (tr : trace) (f : list event) (l : option evtRing) : trace :=
  mkTrace (ID tr) (Family tr) (Title tr) (Parent tr) (Start tr) (end_ tr)
    (isError tr) (maxEvents tr) (cutoff tr) f l.
Definition set_parent (tr : trace) (p : loc) : trace :=
  mkTrace (ID tr) (Family tr) (Title tr) (Some p) (Start tr) (end_ tr)
    (isError tr) (maxEvents tr) (cutoff tr) (firstEvents tr) (lastEvents tr).
Definition set_end (tr : trace) (t : Z) : trace :=
  mkTrace (ID tr) (Family tr) (Title tr) (Parent tr) (Start tr) t
    (isError tr) (maxEvents tr) (cutoff tr) (firstEvents tr) (lastEvents tr).

Definition defaultMaxEvents : Z := 30.

Definition new_trace (rnd : N) (start : Z) (family title : bytes) : trace :=
  mkTrace (newID rnd family (UnixNano start)) family title None start 0 false
    defaultMaxEvents (defaultMaxEvents ÷ 3) [] None.

Definition append (tr : trace) (evt : event) : option trace :=
  if Z.ltb (len (firstEvents tr)) (cutoff tr) then
    Some (set_events tr (firstEvents tr ++ [evt]) (lastEvents tr))
  else
    let r := match lastEvents tr with
             | Some r => r
             | None => newEvtRing (maxEvents tr - cutoff tr)
             end in
    r' ← evtRing_Add r evt;
    Some (set_events tr (firstEvents tr) (Some r')).

Definition set_maxEvents (n : Z) (tr : trace) : trace :=
  let n := if Z.ltb n 6 then 6%Z else n in
  mkTrace (ID tr) (Family tr) (Title tr) (Parent tr) (Start tr) (end_ tr)
    (isError tr) n (n ÷ 3) (firstEvents tr) (lastEvents tr).

Definition set_error (tr : trace) : trace :=
  mkTrace (ID tr) (Family tr) (Title tr) (Parent tr) (Start tr) (end_ tr)
    true (maxEvents tr) (cutoff tr) (firstEvents tr) (lastEvents tr).

Definition Duration (now : Z) (tr : trace) : Z :=
  if IsZero (end_ tr) then Sub now (Start tr) else Sub (end_ tr) (Start tr).

Definition Events (tr : trace) : option (list event) :=
  match lastEvents tr with
  | None => Some (firstEvents tr)
  | Some r =>
    last ← evtRing_Do r;
    Some (firstEvents tr
          ++ (if IsZero (firstDrop r) then [] else [mkEvent (firstDrop r) evtDROP None []])
          ++ last)
  end.

(** ** Buckets and histograms *)

Definition nBuckets : nat := 8.

Definition buckets : list Z :=
  [0; 5 * Millisecond; 10 * Millisecond; 50 * Millisecond; 100 * Millisecond;
   300 * Millisecond; 1 * Second; 10 * Second]%Z.

Fixpoint find_bucket (i : Z) (ds : list Z) (latency : Z) : Z :=
  match ds with
  | [] => Z.of_nat nBuckets - 1
  | d :: ds => if Z.leb d latency then find_bucket (i + 1) ds latency else i - 1
  end.

Definition findBucket (latency : Z) : Z := find_bucket 0 buckets latency.

Record histogram := mkHistogram {
  count : list N;
  totalQ : N;
  totalT : Z;
  hmin : Z;
  hmax : Z;
}.

Definition newHistogram : histogram := mkHistogram (replicate nBuckets 0%N) 0 0 0 0.

(** Addition of [uint64]. *)
Definition add_u64 (a b : N) : N := (a + b) mod 2 ^ 64.

Definition histogram_Add (h : histogram) (bucket latency : Z) : option histogram :=
  n ← index (count h) bucket;
  Some (mkHistogram (<[Z.to_nat bucket := add_u64 n 1]> (count h))
    (add_u64 (totalQ h) 1) (wrap64 (totalT h + latency))
    (if N.eqb (totalQ h) 0 || Z.ltb latency (hmin h) then latency else hmin h)
    (if Z.ltb (hmax h) latency then latency else hmax h)).

(** [float32], by the definition of IEEE 754. *)
Definition f32 (n : N) : spec_float := binary_normalize 24 128 (Z.of_N n) 0 false.

Definition percent (n total : N) : spec_float :=
  SFmul 24 128 (SFdiv 24 128 (f32 n) (f32 total)) (f32 100).

Record line := mkLine {
  lStart : Z;
  BucketIdx : Z;
  lCount : N;
  Percent : spec_float;
  CumPct : spec_float;
}.

Record histSnapshot := mkHistSnapshot {
  Counts : gmap Z line;
  Count : N;
  Avg : Z;
  Min : Z;
  Max : Z;
}.

Fixpoint snapshot_lines (h : histogram) (i : nat) (rows : list (Z * N)) (cumCount : N)
    (acc : gmap Z line) : gmap Z line :=
  match rows with
  | [] => acc
  | (start, n) :: rows =>
    let cumCount := add_u64 cumCount n in
    let l :=
      if N.ltb 0 (totalQ h) then
        mkLine start (Z.of_nat i) n (percent n (totalQ h)) (percent cumCount (totalQ h))
      else mkLine start (Z.of_nat i) n (S754_zero false) (S754_zero false) in
    snapshot_lines h (S i) rows cumCount (<[start := l]> acc)
  end.

Definition Snapshot (h : histogram) : histSnapshot :=
  mkHistSnapshot (snapshot_lines h 0 (zip buckets (count h)) 0 ∅) (totalQ h)
    (if N.ltb 0 (totalQ h)
     then wrap64 (Z.of_N (Z.to_N (totalT h mod 2 ^ 64) / totalQ h)) else 0)
    (hmin h) (hmax h).

(** ** Rings of traces

    A [container/ring] is the list of its values, the current one first. *)

Definition tracesInBucket : nat := 10.

Record traceRing := mkTraceRing {
  ring : list (option loc);
  tmax : nat;
  tlen : nat;
}.

Definition newTraceRing (n : nat) : traceRing := mkTraceRing (replicate n None) n 0.

Definition traceRing_Add (r : traceRing) (tr : loc) : option traceRing :=
  match ring r with
  | [] => None
  | _ :: rest =>
    Some (mkTraceRing (rest ++ [Some tr]) (tmax r)
      (if Nat.ltb (tlen r) (tmax r) then S (tlen r) else tlen r))
  end.

Definition traceRing_Do (r : traceRing) : list loc := omap (λ x, x) (ring r).

(** ** Families *)

Record familyTraces := mkFamilyTraces {
  active : gmap id loc;
  finished : list traceRing;
  errors : traceRing;
  latencies : histogram;
}.

Definition newFamilyTraces : familyTraces :=
  mkFamilyTraces ∅ (replicate nBuckets (newTraceRing tracesInBucket))
    (newTraceRing tracesInBucket) newHistogram.

Definition LenActive (ft : familyTraces) : nat := size (active ft).
Definition LenErrors (ft : familyTraces) : nat := tlen (errors ft).
Definition LenBucket (ft : familyTraces) (b : Z) : option nat :=
  tlen <$> index (finished ft) b.

(** The store of traces, and the families by name. *)
Record State := mkState {
  traces : list trace;
  families : gmap bytes familyTraces;
}.

Definition init : State := mkState [] ∅.

Definition set_trace (st : State) (l : loc) (tr : trace) : State :=
  mkState (<[l := tr]> (traces st)) (families st).

Definition newTrace (rnd : N) (now : Z) (family title : bytes) (st : State) :
    loc * State :=
  let tr := new_trace rnd now family title in
  let l := length (traces st) in
  let ft := default newFamilyTraces (families st !! family) in
  let ft := mkFamilyTraces (<[ID tr := l]> (active ft)) (finished ft) (errors ft)
              (latencies ft) in
  (l, mkState (traces st ++ [tr]) (<[family := ft]> (families st))).

Definition New := newTrace.

(** A method that changes the trace at [l] only. *)
Definition update (l : loc) (f : trace → option trace) (st : State) : option State :=
  tr ← traces st !! l;
  tr' ← f tr;
  Some (set_trace st l tr').

Definition append_to (l : loc) (evt : event) (st : State) : option State :=
  update l (λ tr, append tr evt) st.

Definition NewChild (rnd : N) (now now' : Z) (l : loc) (family title : bytes)
    (st : State) : option (loc * State) :=
  let '(c, st) := newTrace rnd now family title st in
  st ← update c (λ tr, Some (set_parent tr l)) st;
  st ← append_to l (mkEvent now' evtCHILD (Some c) []) st;
  Some (c, st).

Definition Link (now : Z) (l other : loc) (msg : bytes) (st : State) : option State :=
  append_to l (mkEvent now evtLINK (Some other) msg) st.

Definition SetMaxEvents (l : loc) (n : Z) (st : State) : option State :=
  update l (λ tr, Some (set_maxEvents n tr)) st.

Definition SetError (l : loc) (st : State) : option State :=
  update l (λ tr, Some (set_error tr)) st.

(** [msg] is the formatted message. *)
Definition Printf (now : Z) (l : loc) (msg : bytes) (st : State) : option State :=
  append_to l (mkEvent now evtLOG None msg) st.

Definition Errorf (now : Z) (l : loc) (msg : bytes) (st : State) : option State :=
  st ← SetError l st;
  Printf now l msg st.

Definition finalize (l : loc) (tr : trace) (ft : familyTraces) : option familyTraces :=
  let latency := Sub (end_ tr) (Start tr) in
  let b := findBucket latency in
  r ← index (finished ft) b;
  r' ← traceRing_Add r l;
  errors' ← (if isError tr then traceRing_Add (errors ft) l else Some (errors ft));
  latencies' ← histogram_Add (latencies ft) b latency;
  Some (mkFamilyTraces (delete (ID tr) (active ft)) (<[Z.to_nat b := r']> (finished ft))
    errors' latencies').

Definition Finish (now : Z) (l : loc) (st : State) : option State :=
  tr ← traces st !! l;
  let tr := set_end tr now in
  ft ← families st !! Family tr;
  ft' ← finalize l tr ft;
  Some (mkState (<[l := tr]> (traces st)) (<[Family tr := ft']> (families st))).

Definition Latencies (ft : familyTraces) : histSnapshot := Snapshot (latencies ft).

(** ** Looking traces up *)

Definition id_is (ts : list trace) (i : id) (l : loc) : bool :=
  match ts !! l with Some tr => ID tr == i | None => false end.

(** [found] is set to every match in turn, so that the last one stays. *)
Definition ring_find (ts : list trace) (i : id) (r : traceRing) : option loc :=
  foldl (λ found l, if id_is ts i l then Some l else found) None (traceRing_Do r).

Fixpoint rings_find (ts : list trace) (i : id) (rs : list traceRing) : option loc :=
  match rs with
  | [] => None
  | r :: rs =>
    match ring_find ts i r with
    | Some l => Some l
    | None => rings_find ts i rs
    end
  end.

Definition find (ts : list trace) (ft : familyTraces) (i : id) : option loc :=
  match active ft !! i with
  | Some l => Some l
  | None =>
    match rings_find ts i (finished ft) with
    | Some l => Some l
    | None => ring_find ts i (errors ft)
    end
  end.

Definition find_family (st : State) (i : id) : option loc :=
  ft ← families st !! Family_of i;
  find (traces st) ft i.

(** The first of the references of the events that has the name. *)
Fixpoint find_ref (ts : list trace) (i : id) (es : list event) : option loc :=
  match es with
  | [] => None
  | e :: es =>
    match Ref e with
    | Some l => if id_is ts i l then Some l else find_ref ts i es
    | None => find_ref ts i es
    end
  end.

(** The outer option is the panic. *)
Definition findInFamilies (st : State) (traceID refID : id) : option (option loc) :=
  match find_family st traceID with
  | Some l => Some (Some l)
  | None =>
    if refID == [] then Some None
    else
      match find_family st refID with
      | None => Some None
      | Some ref =>
        tr ← traces st !! ref;
        match Parent tr with
        | Some p =>
          if id_is (traces st) traceID p then Some (Some p)
          else es ← Events tr; Some (find_ref (traces st) traceID es)
        | None => es ← Events tr; Some (find_ref (traces st) traceID es)
        end
      end
  end.

Definition start_of (ts : list trace) (l : loc) : Z := default 0%Z (Start <$> ts !! l).

Section Sorted.
Context `{SortSlice}.

(** The map of active traces is visited in any order, which sorting hides. *)
Definition TracesFor (ts : list trace) (ft : familyTraces) (b : Z) (allgt : bool) :
    option (list loc) :=
  trs ←
    (if b == (-2)%Z then Some (traceRing_Do (errors ft))
     else if b == (-1)%Z then Some (map_to_list (active ft)).*2
     else if Z.ltb b (Z.of_nat nBuckets) then
       r ← index (finished ft) b;
       Some (traceRing_Do r
             ++ (if allgt then concat (traceRing_Do <$> drop (Z.to_nat (b + 1)) (finished ft))
                 else []))
     else Some []);
  Some (sort_slice (λ i j, Z.ltb (start_of ts j) (start_of ts i)) trs).

(** ** http.go: the events of a trace and of those it refers to *)

Record traceAndEvent := mkTraceAndEvent {
  teTrace : loc;
  teEvent : event;
  teDepth : N;
}.

(** The traces that the events refer to, in order. *)
Definition refs (es : list event) : list loc := omap Ref es.

(** The recursion of [appendAllEvents], with the map [seen] passed through;
    [None] is a panic or the end of the fuel. *)
Fixpoint appendAllEvents (fuel : nat) (ts : list trace) (tr : loc) (depth : N)
    (acc : list traceAndEvent * gset id) : option (list traceAndEvent * gset id) :=
  match fuel with
  | 0 => None
  | S fuel =>
    t ← ts !! tr;
    if bool_decide (ID t ∈ acc.2) then Some acc
    else
      trevts ← Events t;
      foldl (λ o sub, acc ← o; appendAllEvents fuel ts sub (depth + 1) acc)
        (Some (acc.1 ++ ((λ e, mkTraceAndEvent tr e depth) <$> trevts), {[ID t]} ∪ acc.2))
        (refs trevts)
  end.

Definition allEvents (ts : list trace) (tr : loc) : option (list traceAndEvent) :=
  acc ← appendAllEvents (S (length ts)) ts tr 0 ([], ∅);
  Some (sort_slice (λ i j, Z.ltb (When (teEvent i)) (When (teEvent j))) acc.1).

(** ** http.go: the page *)

(** [strconv.ParseBool], with [false] for an error. *)
Definition ParseBool (s : bytes) : bool :=
  bool_decide (s ∈ ["1" : bytes; "t"; "T"; "true"; "TRUE"; "True"]).

(** The data that the template is executed with, and the status code. *)
Record page := mkPage {
  pFamily : bytes;
  pBucket : Z;
  pBucketStr : bytes;
  pAllGT : bool;
  pTraces : list loc;
  pLatencies : option histSnapshot;
  pTrace : option loc;
  pAllEvents : list traceAndEvent;
  pError : bytes;
  pStatus : Z;
}.

Definition set_pError (p : page) (status : Z) (err : bytes) : page :=
  mkPage (pFamily p) (pBucket p) (pBucketStr p) (pAllGT p) (pTraces p) (pLatencies p)
    (pTrace p) (pAllEvents p) err status.

Definition empty_page (allgt : bool) : page :=
  mkPage [] 0 [] allgt [] None None [] [] 200.

(** The part on families; [inl] goes to the end of the handler. *)
Definition render_family (form : bytes → bytes) (st : State) (p : page) :
    option (page + page) :=
  let fam := form "fam" in
  if fam == [] then Some (inr p)
  else
    match families st !! fam with
    | None => Some (inl (set_pError p 404 "Unknown family"))
    | Some ft =>
      let p := mkPage fam (pBucket p) (pBucketStr p) (pAllGT p) (pTraces p) (pLatencies p)
                 (pTrace p) (pAllEvents p) (pError p) (pStatus p) in
      let bs := form "b" in
      if bs == [] then Some (inr p)
      else
        match Atoi bs with
        | (_, Some _) => Some (inl (set_pError p 400 "Invalid bucket (not a number)"))
        | (i, None) =>
          if Z.ltb i (-2) || Z.leb (Z.of_nat nBuckets) i
          then Some (inl (set_pError p 400 "Invalid bucket number"))
          else
            trs ← TracesFor (traces st) ft i (pAllGT p);
            str ← (if i == (-2)%Z then Some ("errors" : bytes)
                   else if i == (-1)%Z then Some ("active" : bytes)
                   else String <$> index buckets i);
            Some (inr (mkPage fam i str (pAllGT p) trs (pLatencies p) (pTrace p)
                         (pAllEvents p) (pError p) (pStatus p)))
        end
    end.

Definition render_latencies (form : bytes → bytes) (st : State) (p : page) : option page :=
  if (pFamily p != []) && (form "lat" != []) then
    ft ← families st !! pFamily p;
    Some (mkPage (pFamily p) (pBucket p) (pBucketStr p) (pAllGT p) (pTraces p)
            (Some (Latencies ft)) (pTrace p) (pAllEvents p) (pError p) (pStatus p))
  else Some p.

Definition render_trace (form : bytes → bytes) (st : State) (p : page) : option page :=
  let traceID := form "trace" in
  if traceID == [] then Some p
  else
    found ← findInFamilies st traceID (form "ref");
    match found with
    | None => Some (set_pError p 404 "Trace not found")
    | Some l =>
      tr ← traces st !! l;
      es ← allEvents (traces st) l;
      Some (mkPage (Family tr) (pBucket p) (pBucketStr p) (pAllGT p) (pTraces p)
              (pLatencies p) (Some l) es (pError p) (pStatus p))
    end.

Definition RenderTraces (form : bytes → bytes) (st : State) : option page :=
  let all := form "all" in
  let p := empty_page (if all == [] then true else ParseBool all) in
  r ← render_family form st p;
  match r with
  | inl p => Some p
  | inr p =>
    p ← render_latencies form st p;
    render_trace form st p
  end.

End Sorted.

(** ** http.go: helpers of the template *)

(** [hash/crc32], with the polynomial of IEEE 802.3. *)
Definition crc_bit (c : N) : N :=
  if N.testbit c 0 then N.lxor (N.shiftr c 1) 3988292384 else N.shiftr c 1.

Definition crc_byte (c : N) (b : ascii) : N :=
  Nat.iter 8 crc_bit (N.lxor c (Utf8.bval b)).

Definition ChecksumIEEE (s : bytes) : N :=
  N.lxor (foldl crc_byte 4294967295%N s) 4294967295.

(** The [%02d] verb. *)
Definition fmt_02d (n : N) : bytes :=
  if N.ltb n 10 then "0" ++ Itoa (Z.of_N n) else Itoa (Z.of_N n).

Definition roundDuration (d : Z) : Z := Time.Round d Time.Millisecond.

Definition colorize (depth : N) (i : id) : bytes :=
  if N.eqb depth 0 then "rgba(var(--text-color))"
  else
    let depth := if N.ltb 3 depth then 3%N else depth in
    "var(--nested-d" ++ fmt_02d depth ++ "-c" ++ fmt_02d (ChecksumIEEE i mod 6) ++ ")".

(** The middle dot and a space, in UTF-8. *)
Definition MIDDOT : bytes := ["194"%char; "183"%char; SP].

Definition depthspan (depth : N) : bytes :=
  "<span class=" ++ [DQUOTE] ++ "depth" ++ [DQUOTE] ++ ">" ++
  (if N.ltb depth 5 then concat (replicate (N.to_nat depth) MIDDOT)
   else MIDDOT ++ "(" ++ Itoa (Z.of_N depth) ++ ") " ++ MIDDOT) ++ "</span>".

Definition shorttitle (tr : trace) : bytes :=
  let all := Family tr ++ " - " ++ Title tr in
  if Nat.ltb 20 (length all) then "..." ++ drop (length all - 17) all else all.

(** The number of emojis, and which of them stands for a trace. *)
Definition emojids_len : N := 69.

Definition traceemoji (i : id) : N := ChecksumIEEE i mod emojids_len.

(** ** context.go

    The trace that a context carries, if any. *)

Definition FromContextOrNew (rnd : N) (now : Z) (ctx : option loc) (family title : bytes)
    (st : State) : loc * option loc * State :=
  match ctx with
  | Some l => (l, ctx, st)
  | None => let '(l, st) := New rnd now family title st in (l, Some l, st)
  end.

Definition ChildFromContext (rnd : N) (now now' : Z) (ctx : option loc)
    (family title : bytes) (st : State) : option (loc * State) :=
  match ctx with
  | Some parent => NewChild rnd now now' parent family title st
  | None => Some (New rnd now family title st)
  end.

End Nettrace.
