(* ===== verification/NettraceProps.v ===== *)
(** What is proved of Nettrace.v. *)

From stdpp Require Import sorting.
From S2P Require Import Prelude GoStrings GoSlices GoTime Nettrace.
#[local] Open Scope go_scope.

Module NettraceProps.
Import Time Nettrace.

(** ** The ring of events *)

(** [r] is the ring to which the events [h] have been added, oldest first: it
    holds the last ones, each at its number modulo the size. *)
Record ring_of (r : evtRing) (h : list event) : Prop := {
  ro_max : (0 < max r)%Z;
  ro_len : len (evts r) = Z.min (len h) (max r);
  ro_pos : h ≠ [] → pos r = ((len h - 1) mod max r)%Z;
  ro_empty : h = [] → pos r = (-1)%Z;
  ro_evts : ∀ j, (0 ≤ j)%Z → (len h - max r ≤ j < len h)%Z →
    index (evts r) (j mod max r) = index h j;
  ro_drop : Forall (λ e, When e ≠ 0%Z) h →
    firstDrop r = if Z.leb (len h) (max r) then 0%Z
                  else default 0%Z (When <$> head h);
}.

Lemma ring_of_new n : (0 < n)%Z → ring_of (newEvtRing n) [].
Proof.
  intros Hn. split; simpl; try done.
  - unfold len. simpl. lia.
  - unfold len. simpl. lia.
  - intros _. by rewrite (proj2 (Z.leb_le _ _)) by (unfold len; simpl; lia).
Qed.

Lemma index_app_l {A} (l k : list A) i : (i < len l)%Z → index (l ++ k) i = index l i.
Proof.
  unfold index, len. intros Hi. destruct (Z.leb_spec 0 i); [|done].
  apply lookup_app_l. lia.
Qed.

Lemma index_snoc {A} (l : list A) x i : i = len l → index (l ++ [x]) i = Some x.
Proof. unfold len. intros ->. rewrite index_nat. by apply list_lookup_middle. Qed.

Lemma index_insert {A} (l : list A) i x j :
  (0 ≤ i < len l)%Z →
  index (<[Z.to_nat i := x]> l) j = if j == i then Some x else index l j.
Proof.
  unfold index, len. intros Hi. destruct (Z.leb_spec 0 j).
  - case_bool_decide.
    + subst. apply list_lookup_insert_eq. lia.
    + rewrite list_lookup_insert_ne by lia. done.
  - rewrite bool_decide_eq_false_2 by lia. done.
Qed.

Lemma len_insert {A} (l : list A) i x : len (<[i := x]> l) = len l.
Proof. unfold len. by rewrite length_insert. Qed.

(** Two numbers that differ by less than [m] have different remainders. *)
Lemma mod_distinct i j m : (0 < m → i < j < i + m → i mod m ≠ j mod m)%Z.
Proof.
  intros Hm Hij Heq.
  pose proof (Z.div_mod i m ltac:(lia)). pose proof (Z.div_mod j m ltac:(lia)).
  assert (Hd : (j - i = m * (j / m - i / m))%Z) by lia.
  generalize dependent (j / m - i / m)%Z. intros k Hk.
  destruct (Z.le_gt_cases k 0); nia.
Qed.

Lemma pos_succ r h :
  ring_of r h → (max r ≤ len h)%Z → ((pos r + 1) mod max r = len h mod max r)%Z.
Proof.
  intros Hr Hlen. pose proof (ro_max _ _ Hr).
  assert (h ≠ []) as Hne by (intros ->; unfold len in *; simpl in *; lia).
  rewrite (ro_pos _ _ Hr Hne), Zplus_mod_idemp_l. f_equal. lia.
Qed.

Lemma pos_range r h : ring_of r h → (-1 ≤ pos r < max r)%Z.
Proof.
  intros Hr. pose proof (ro_max _ _ Hr). destruct h as [|e h].
  - rewrite (ro_empty _ _ Hr) by done. lia.
  - rewrite (ro_pos _ _ Hr) by done.
    pose proof (Z.mod_pos_bound (len (e :: h) - 1) (max r)). lia.
Qed.

Lemma head_snoc {A} (h : list A) x : h ≠ [] → head (h ++ [x]) = head h.
Proof. by destruct h. Qed.

(** While there is room, the event goes at the end. *)
Lemma ring_of_grow r h e :
  ring_of r h → (len (evts r) < max r)%Z →
  ∃ r', evtRing_Add r e = Some r' ∧ ring_of r' (h ++ [e]) ∧ max r' = max r.
Proof.
  intros Hr Hlt. pose proof (ro_max _ _ Hr) as Hm. pose proof (ro_len _ _ Hr) as Hl.
  pose proof (len_nonneg h) as H0. unfold evtRing_Add.
  rewrite (proj2 (Z.ltb_lt _ _) Hlt).
  eexists; split_and!; [done| |done]. assert (len (evts r) = len h) as Hle by lia.
  split; simpl; rewrite ?len_app; change (len [e]) with 1%Z; try lia.
  - intros _. rewrite Z.mod_small by lia. destruct h as [|e0 h].
    + rewrite (ro_empty _ _ Hr) by done. done.
    + rewrite (ro_pos _ _ Hr) by done. rewrite len_cons in *.
      pose proof (len_nonneg h). rewrite Z.mod_small; lia.
  - intros ?%(f_equal length). rewrite length_app in *. simpl in *. lia.
  - intros j Hj Hjr. rewrite Z.mod_small by lia.
    destruct (decide (j = len h)) as [->|Hne].
    + by rewrite !index_snoc.
    + rewrite !index_app_l by lia. rewrite <- (ro_evts _ _ Hr j) by lia.
      by rewrite Z.mod_small by lia.
  - intros Hf. rewrite (proj2 (Z.leb_le _ _)) by lia.
    apply Forall_app in Hf as [Hf _].
    by rewrite (ro_drop _ _ Hr Hf), (proj2 (Z.leb_le _ _)) by lia.
Qed.

(** Then it replaces the oldest one. *)
Lemma ring_of_wrap r h e :
  ring_of r h → (max r ≤ len (evts r))%Z →
  ∃ r', evtRing_Add r e = Some r' ∧ ring_of r' (h ++ [e]) ∧ max r' = max r.
Proof.
  intros Hr Hge. pose proof (ro_max _ _ Hr) as Hm. pose proof (ro_len _ _ Hr) as Hl.
  pose proof (len_nonneg h) as H0. unfold evtRing_Add.
  rewrite (proj2 (Z.ltb_ge _ _) Hge).
  assert (max r ≤ len h)%Z as Hfull by lia. assert (len (evts r) = max r) as Hle by lia.
  assert (h ≠ []) as Hne by (intros ->; unfold len in *; simpl in *; lia).
  pose proof (pos_range _ _ Hr) as Hp.
  rewrite go_rem_pos by lia. simpl. rewrite (pos_succ _ _ Hr Hfull).
  pose proof (Z.mod_pos_bound (len h) (max r) Hm) as Hb.
  assert (Hold : index (evts r) (len h mod max r) = index h (len h - max r)).
  { rewrite <- (ro_evts _ _ Hr) by lia. f_equal.
    rewrite <- (Z_mod_plus_full (len h) (-1)). by f_equal. }
  destruct (index_Some h (len h - max r)) as [old Eold]; [lia|].
  rewrite Hold, Eold. simpl. eexists; split_and!; [done| |done].
  split; simpl; rewrite ?len_app, ?len_insert; change (len [e]) with 1%Z; try lia.
  - intros _. f_equal. lia.
  - intros ?%(f_equal length). rewrite length_app in *. simpl in *. lia.
  - intros j Hj Hjr. rewrite index_insert by lia.
    destruct (decide (j = len h)) as [->|Hnj].
    + by rewrite bool_decide_eq_true_2, index_snoc.
    + rewrite bool_decide_eq_false_2 by (apply mod_distinct; lia).
      rewrite index_app_l by lia. apply (ro_evts _ _ Hr); lia.
  - intros Hf. rewrite (proj2 (Z.leb_gt _ _)) by lia. rewrite head_snoc by done.
    apply Forall_app in Hf as [Hf _]. rewrite (ro_drop _ _ Hr Hf).
    destruct (Z.leb_spec (len h) (max r)).
    + assert (len h - max r = 0)%Z as E0 by lia. rewrite E0 in Eold.
      destruct h as [|e0 h]; [done|]. cbv in Eold. simplify_eq. done.
    + destruct h as [|e0 h]; [done|]. apply Forall_cons in Hf as [Hf _]. simpl.
      unfold IsZero. by rewrite bool_decide_eq_false_2.
Qed.

Lemma ring_of_Add r h e :
  ring_of r h → ∃ r', evtRing_Add r e = Some r' ∧ ring_of r' (h ++ [e]) ∧ max r' = max r.
Proof.
  intros Hr. destruct (Z.lt_ge_cases (len (evts r)) (max r));
    eauto using ring_of_grow, ring_of_wrap.
Qed.

(** [Do] goes through the last [max] events, from older to newer. *)
Lemma ring_of_Do r h :
  ring_of r h → evtRing_Do r = Some (drop (length h - Z.to_nat (max r)) h).
Proof.
  intros Hr. pose proof (ro_max _ _ Hr) as Hm. pose proof (ro_len _ _ Hr) as Hl.
  unfold evtRing_Do. set (d := length h - Z.to_nat (max r)).
  assert (Hn : length (evts r) = length (drop d h)).
  { rewrite length_drop. unfold d, len in *. lia. }
  rewrite Hn. apply mapM_Some_2, Forall2_same_length_lookup. rewrite length_seq.
  split; [done|]. intros k i e [-> Hk]%lookup_seq He. rewrite lookup_drop in He.
  simpl. rewrite length_drop in Hk.
  pose proof (pos_range _ _ Hr).
  assert (0 < len (evts r))%Z by (unfold d, len in *; lia).
  rewrite go_rem_pos by lia. simpl. rewrite <- He.
  destruct (Z.leb_spec (len h) (max r)) as [Hle|Hgt].
  - assert (h ≠ []) as Hne by (intros ->; unfold len in *; simpl in *; lia).
    rewrite (ro_pos _ _ Hr Hne), (Z.mod_small (len h - 1)) by (unfold len in *; lia).
    replace (len h - 1 + 1 + Z.of_nat k)%Z with (Z.of_nat k + 1 * len (evts r))%Z by lia.
    rewrite Z_mod_plus_full, Z.mod_small by (unfold d, len in *; lia).
    rewrite <- (Z.mod_small (Z.of_nat k) (max r)) by (unfold d, len in *; lia).
    rewrite (ro_evts _ _ Hr) by (unfold d, len in *; lia).
    rewrite index_nat. f_equal. unfold d, len in *. lia.
  - assert (Hlm : len (evts r) = max r) by lia. rewrite Hlm.
    rewrite <- Zplus_mod_idemp_l, (pos_succ _ _ Hr), Zplus_mod_idemp_l by lia.
    rewrite <- index_nat, <- (ro_evts _ _ Hr) by (unfold d, len in *; lia).
    f_equal. rewrite <- (Z_mod_plus_full _ (-1)). f_equal. unfold d, len in *. lia.
Qed.

(** ** The events of a trace

    What a trace keeps of the events [h]: the first third of [n], then the
    last ones, with a mark in between if some were dropped. *)
Definition kept (n : nat) (h : list event) : list event :=
  let rest := drop (n / 3) h in
  take (n / 3) h ++
  (if Nat.leb (length rest) (n - n / 3) then rest
   else match rest with
        | e :: _ => mkEvent (When e) evtDROP None [] :: drop (length rest - (n - n / 3)) rest
        | [] => []
        end).

(** Appending events one after the other. *)
Definition append_all (tr : trace) (h : list event) : option trace :=
  foldl (λ o e, tr ← o; append tr e) (Some tr) h.

#[local] Arguments Nat.div : simpl never.

Record trace_of (n : nat) (tr : trace) (h : list event) : Prop := {
  tf_size : 6 ≤ n;
  tf_cutoff : cutoff tr = Z.of_nat (n / 3);
  tf_max : maxEvents tr = Z.of_nat n;
  tf_first : firstEvents tr = take (n / 3) h;
  tf_last : match lastEvents tr with
            | None => length h ≤ n / 3
            | Some r => ring_of r (drop (n / 3) h) ∧ max r = Z.of_nat (n - n / 3)
            end;
}.

Lemma third_range n : 6 ≤ n → 0 < n / 3 < n.
Proof.
  intros Hn. split; [apply Nat.div_str_pos; lia|]. apply Nat.div_lt; lia.
Qed.

Lemma trace_of_append n tr h e :
  trace_of n tr h → ∃ tr', append tr e = Some tr' ∧ trace_of n tr' (h ++ [e]).
Proof.
  intros [Hn Hc Hm Hf Hl]. pose proof (third_range n Hn).
  unfold append. rewrite Hc, Hf. unfold len. rewrite length_take.
  destruct (Z.ltb_spec (Z.of_nat (Nat.min (n / 3) (length h))) (Z.of_nat (n / 3))) as [Hlt|Hge].
  - eexists; split; [done|]. assert (length h < n / 3) by lia.
    split; simpl; try done.
    + rewrite take_app_ge by lia. rewrite (take_ge h) by lia.
      destruct (n / 3 - length h) eqn:E; [lia|]. simpl. by rewrite take_nil.
    + destruct (lastEvents tr) as [r|]; [|rewrite length_app; simpl; lia].
      rewrite drop_app_ge, drop_ge in * by lia.
      destruct (n / 3 - length h) eqn:E; [lia|]. by rewrite drop_ge by (simpl; lia).
  - assert (n / 3 ≤ length h) by lia.
    assert (Hr : ∃ r, match lastEvents tr with
                      | Some r => r | None => newEvtRing (maxEvents tr - Z.of_nat (n / 3)) end = r ∧
                      ring_of r (drop (n / 3) h) ∧ max r = Z.of_nat (n - n / 3)).
    { eexists; split; [done|]. destruct (lastEvents tr) as [r|]; [done|].
      rewrite Hm, drop_ge by lia. split; [apply ring_of_new; lia|simpl; lia]. }
    destruct Hr as (r & Er & Hr & Hmax). simpl. rewrite Er.
    destruct (ring_of_Add r _ e Hr) as (r' & -> & Hr' & Hm'). simpl.
    eexists; split; [done|]. split; simpl; try done.
    + rewrite take_app_le by lia. done.
    + rewrite drop_app_le by lia. split; [done|lia].
Qed.

Lemma trace_of_append_all n h tr h0 :
  trace_of n tr h0 → ∃ tr', append_all tr h = Some tr' ∧ trace_of n tr' (h0 ++ h).
Proof.
  unfold append_all. revert tr h0. induction h as [|e h IH]; intros tr h0 Ht; simpl.
  - rewrite (right_id_L [] (++)). eauto.
  - destruct (trace_of_append n tr h0 e Ht) as (tr1 & -> & Ht1).
    destruct (IH tr1 _ Ht1) as (tr' & E & Ht'). rewrite <- (assoc_L (++)) in Ht'. eauto.
Qed.

Lemma trace_of_Events n tr h :
  trace_of n tr h → Forall (λ e, When e ≠ 0%Z) h → Events tr = Some (kept n h).
Proof.
  intros [Hn Hc Hm Hf Hl] Hz. unfold Events, kept. pose proof (third_range n Hn).
  destruct (lastEvents tr) as [r|].
  - destruct Hl as [Hr Hmax]. rewrite (ring_of_Do _ _ Hr), Hf. simpl. do 2 f_equal.
    rewrite (ro_drop _ _ Hr) by by apply Forall_drop.
    rewrite Hmax, Nat2Z.id. unfold len.
    destruct (Nat.leb_spec (length (drop (n / 3) h)) (n - n / 3)) as [Hle|Hgt].
    + rewrite (proj2 (Z.leb_le _ _)) by lia. unfold IsZero. simpl.
      by replace (length (drop (n / 3) h) - (n - n / 3)) with 0 by lia.
    + rewrite (proj2 (Z.leb_gt _ _)) by lia.
      destruct (drop (n / 3) h) as [|e l] eqn:E; [simpl in *; lia|]. simpl.
      assert (When e ≠ 0%Z).
      { assert (Hin : Forall (λ e, When e ≠ 0%Z) (e :: l)) by (rewrite <- E; by apply Forall_drop).
        by apply Forall_cons in Hin as [? _]. }
      unfold IsZero. by rewrite bool_decide_eq_false_2.
  - rewrite Hf, (drop_ge h) by done. simpl. by rewrite (right_id_L [] (++)).
Qed.

Lemma trace_of_new rnd now family title (n : Z) :
  trace_of (Z.to_nat (Z.max 6 n)) (set_maxEvents n (new_trace rnd now family title)) [].
Proof.
  unfold set_maxEvents, new_trace. simpl.
  destruct (Z.ltb_spec n 6); split; simpl; try rewrite take_nil; try lia; try done.
  - by rewrite Z.max_l by lia.
  - rewrite Z.max_r, Nat2Z.inj_div, Z2Nat.id, Z.quot_div_nonneg by lia. done.
Qed.

Lemma kept_length n h : 6 ≤ n → length (kept n h) ≤ n + 1.
Proof.
  intros Hn. unfold kept. pose proof (third_range n Hn). rewrite length_app, length_take.
  destruct (Nat.leb_spec (length (drop (n / 3) h)) (n - n / 3)); [lia|].
  destruct (drop (n / 3) h) as [|e l] eqn:E; simpl in *; [lia|].
  rewrite length_drop. simpl. lia.
Qed.

(** C33: a trace with room for [n] events (six at least) shows, after any
    sequence of events, exactly the first third and then the last two thirds of
    [n], with a mark that carries the time of the first event dropped between
    them when events were dropped; so memory is bounded by [n] events, adding
    an event never fails, and the ring buffer is a list of the last events. *)
Theorem Events_kept rnd now family title n h :
  Forall (λ e, When e ≠ 0%Z) h →
  ∃ tr, append_all (set_maxEvents n (new_trace rnd now family title)) h = Some tr ∧
    Events tr = Some (kept (Z.to_nat (Z.max 6 n)) h) ∧
    length (kept (Z.to_nat (Z.max 6 n)) h) ≤ Z.to_nat (Z.max 6 n) + 1.
Proof.
  intros Hz. pose proof (trace_of_new rnd now family title n) as Hnew.
  destruct (trace_of_append_all _ h _ _ Hnew) as (tr & E & Ht). exists tr.
  split_and!; [done|by apply trace_of_Events|]. apply kept_length. lia.
Qed.

End NettraceProps.
