(* ===== verification/NettraceInv.v ===== *)
(** The state of the tracer as a whole: its operations as a step relation, the
    invariant of the reachable states, and what the page of traces can rely
    on. *)

From stdpp Require Import sorting.
From S2P Require Import Prelude GoStrings GoSlices GoTime Nettrace NettraceProps.
#[local] Open Scope go_scope.

Module NettraceInv.
Import Time Nettrace NettraceProps.

(** ** Operations

    What the programs that trace do, with the readings of the clock and of the
    random source. *)
Inductive op :=
| OpNew (rnd : N) (now : Z) (family title : bytes)
| OpNewChild (rnd : N) (now now' : Z) (l : loc) (family title : bytes)
| OpLink (now : Z) (l other : loc) (msg : bytes)
| OpSetMaxEvents (l : loc) (n : Z)
| OpSetError (l : loc)
| OpPrintf (now : Z) (l : loc) (msg : bytes)
| OpErrorf (now : Z) (l : loc) (msg : bytes)
| OpFinish (now : Z) (l : loc).

Definition run_op (o : op) (st : State) : option State :=
  match o with
  | OpNew rnd now family title => Some (New rnd now family title st).2
  | OpNewChild rnd now now' l family title =>
    snd <$> NewChild rnd now now' l family title st
  | OpLink now l other msg => Link now l other msg st
  | OpSetMaxEvents l n => SetMaxEvents l n st
  | OpSetError l => SetError l st
  | OpPrintf now l msg => Printf now l msg st
  | OpErrorf now l msg => Errorf now l msg st
  | OpFinish now l => Finish now l st
  end.

(** The callers have their traces from [New] and [NewChild], finish each once,
    as the interface asks, and the clock does not go back. *)
Definition legal (o : op) (st : State) : Prop :=
  match o with
  | OpNew _ _ _ _ => True
  | OpNewChild _ _ _ l _ _ => l < length (traces st)
  | OpLink _ l other _ => l < length (traces st) ∧ other < length (traces st)
  | OpSetMaxEvents l _ => l < length (traces st)
  | OpSetError l => l < length (traces st)
  | OpPrintf _ l _ => l < length (traces st)
  | OpErrorf _ l _ => l < length (traces st)
  | OpFinish now l =>
    ∃ tr, traces st !! l = Some tr ∧ end_ tr = 0%Z ∧ (Start tr ≤ now)%Z ∧ (0 < now)%Z
  end.

Inductive reachable : State → Prop :=
| reachable_init : reachable init
| reachable_step st o st' :
    reachable st → legal o st → run_op o st = Some st' → reachable st'.

(** ** The invariant *)

(** The events that a trace holds, in the order of its slices. *)
Definition stored (tr : trace) : list event :=
  firstEvents tr ++ match lastEvents tr with Some r => evts r | None => [] end.

Definition refs_below (n : nat) (es : list event) : Prop :=
  Forall (λ e, ∀ l, Ref e = Some l → l < n) es.

Record trace_ok (n : nat) (fams : gmap bytes familyTraces) (tr : trace) : Prop := {
  to_limits : (0 < cutoff tr < maxEvents tr)%Z;
  to_ring : ∀ r, lastEvents tr = Some r → ∃ h, ring_of r h;
  to_refs : refs_below n (stored tr);
  to_parent : ∀ p, Parent tr = Some p → p < n;
  to_family : is_Some (fams !! Family tr);
}.

Record ring_ok (r : traceRing) : Prop := {
  rk_length : length (ring r) = tracesInBucket;
  rk_max : tmax r = tracesInBucket;
  rk_len : tlen r = length (traceRing_Do r);
  (** empty places come first *)
  rk_empty : ∃ k, ring r = replicate k None ++ (Some <$> traceRing_Do r);
}.

Record hist_ok (h : histogram) : Prop := {
  hk_length : length (count h) = nBuckets;
  hk_total : totalQ h = (foldr N.add 0 (count h) mod 2 ^ 64)%N;
  hk_min : (0 ≤ hmin h ≤ hmax h)%Z;
}.

(** The trace at [l] belongs to the family and has ended with latency [d]. *)
Definition done_in (ts : list trace) (f : bytes) (l : loc) (b : Z) : Prop :=
  ∃ tr, ts !! l = Some tr ∧ Family tr = f ∧ (0 < end_ tr)%Z ∧ (Start tr ≤ end_ tr)%Z ∧
    findBucket (Sub (end_ tr) (Start tr)) = b.

Record family_ok (ts : list trace) (f : bytes) (ft : familyTraces) : Prop := {
  fk_active : ∀ i l, active ft !! i = Some l →
    ∃ tr, ts !! l = Some tr ∧ ID tr = i ∧ Family tr = f ∧ end_ tr = 0%Z;
  fk_length : length (finished ft) = nBuckets;
  fk_rings : Forall ring_ok (finished ft);
  fk_finished : ∀ b r l, finished ft !! b = Some r → l ∈ traceRing_Do r →
    done_in ts f l (Z.of_nat b);
  fk_ering : ring_ok (errors ft);
  fk_errors : ∀ l, l ∈ traceRing_Do (errors ft) →
    ∃ tr b, ts !! l = Some tr ∧ isError tr = true ∧ done_in ts f l b;
  fk_hist : hist_ok (latencies ft);
}.

Record wf (st : State) : Prop := {
  wf_traces : ∀ l tr, traces st !! l = Some tr →
    trace_ok (length (traces st)) (families st) tr;
  wf_families : ∀ f ft, families st !! f = Some ft → family_ok (traces st) f ft;
}.

(** ** Buckets *)

Lemma findBucket_range d : (0 ≤ d)%Z → (0 ≤ findBucket d < Z.of_nat nBuckets)%Z.
Proof.
  intros Hd. unfold findBucket, nBuckets. cbn [find_bucket buckets].
  repeat match goal with
  | |- context [Z.leb ?x d] => destruct (Z.leb_spec x d)
  end; unfold nBuckets; lia.
Qed.

(** A latency is in the bucket whose limits enclose it. *)
Lemma findBucket_spec d b :
  (0 ≤ d)%Z → findBucket d = Z.of_nat b →
  ∃ lo, buckets !! b = Some lo ∧ (lo ≤ d)%Z ∧
    ∀ hi, buckets !! S b = Some hi → (d < hi)%Z.
Proof.
  intros Hd. unfold findBucket. cbn [find_bucket buckets].
  repeat match goal with
  | |- context [Z.leb ?x d] => destruct (Z.leb_spec x d)
  end; try lia; intros Hb.
  all: match type of Hb with ?k = _ =>
         let n := eval vm_compute in (Z.to_nat k) in
         replace b with n by (unfold nBuckets in Hb; lia) end.
  all: eexists; split; [reflexivity|]; split; [done|]; intros hi Hhi; cbv in Hhi;
    simplify_eq; unfold Second, Millisecond, Microsecond in *; lia.
Qed.

(** ** Rings of traces *)

#[local] Arguments tracesInBucket : simpl never.
#[local] Arguments Nat.sub : simpl never.

Lemma omap_somes (k : nat) (ds : list loc) :
  omap (λ x : option loc, x) (replicate k None ++ (Some <$> ds)) = ds.
Proof.
  induction k as [|k IH]; simpl; [|done]. induction ds as [|d ds IH]; simpl; [done|].
  f_equal. exact IH.
Qed.

(** The ring with the traces [ds] in it. *)
Definition ring_with (k : nat) (ds : list loc) : traceRing :=
  mkTraceRing (replicate k None ++ (Some <$> ds)) tracesInBucket (length ds).

Lemma ring_with_Do k ds : traceRing_Do (ring_with k ds) = ds.
Proof. apply omap_somes. Qed.

Lemma ring_with_ok k ds : k + length ds = tracesInBucket → ring_ok (ring_with k ds).
Proof.
  intros Hk. split; rewrite ?ring_with_Do; try done.
  - simpl. by rewrite length_app, length_replicate, length_fmap.
  - by exists k.
Qed.

Lemma ring_ok_with r :
  ring_ok r → ∃ k ds, r = ring_with k ds ∧ k + length ds = tracesInBucket.
Proof.
  intros [Hl Hm Ht [k Hk]]. exists k, (traceRing_Do r). split.
  - destruct r as [rg tm tl]. unfold ring_with. simpl in *. by rewrite <- Hk, Hm, Ht.
  - by rewrite <- Hl, Hk, length_app, length_replicate, length_fmap.
Qed.

Lemma ring_ok_new : ring_ok (newTraceRing tracesInBucket).
Proof. apply (ring_with_ok tracesInBucket []). done. Qed.

(** A full ring drops the oldest trace. *)
Lemma ring_ok_Add r l :
  ring_ok r →
  ∃ r', traceRing_Add r l = Some r' ∧ ring_ok r' ∧
    traceRing_Do r' = drop (S (length (traceRing_Do r)) - tracesInBucket)
                        (traceRing_Do r ++ [l]).
Proof.
  intros (k & ds & -> & Hk)%ring_ok_with. rewrite ring_with_Do.
  assert (Hadd : ∃ k' ds', traceRing_Add (ring_with k ds) l = Some (ring_with k' ds') ∧
            k' + length ds' = tracesInBucket ∧
            ds' = drop (S (length ds) - tracesInBucket) (ds ++ [l])).
  { destruct k as [|k].
    - destruct ds as [|d ds]; [done|]. exists 0, (ds ++ [l]). simpl in Hk.
      replace (S (length (d :: ds)) - tracesInBucket) with 1 by (simpl; lia).
      rewrite length_app. split_and!; [|simpl; lia|done].
      unfold traceRing_Add, ring_with. rewrite fmap_app, length_app. simpl.
      rewrite (proj2 (Nat.ltb_ge _ _)) by lia. do 2 f_equal. lia.
    - exists k, (ds ++ [l]). simpl in Hk.
      replace (S (length ds) - tracesInBucket) with 0 by lia.
      rewrite length_app. split_and!; [|simpl; lia|done].
      unfold traceRing_Add, ring_with. rewrite fmap_app, length_app, (assoc_L (++)). simpl.
      rewrite (proj2 (Nat.ltb_lt _ _)) by lia. do 2 f_equal. lia. }
  destruct Hadd as (k' & ds' & E & Hk' & Hds). exists (ring_with k' ds').
  split_and!; [done|by apply ring_with_ok|by rewrite ring_with_Do].
Qed.

Lemma ring_Add_elem r r' l l' :
  ring_ok r → traceRing_Add r l = Some r' → l' ∈ traceRing_Do r' →
  l' = l ∨ l' ∈ traceRing_Do r.
Proof.
  intros Hr Ha Hin. destruct (ring_ok_Add r l Hr) as (r1 & E & _ & Hd). simplify_eq.
  rewrite Hd in Hin. apply list_elem_of_lookup in Hin as [i Hi].
  rewrite lookup_drop in Hi. apply list_elem_of_lookup_2 in Hi.
  apply elem_of_app in Hi as [?|?%list_elem_of_singleton]; auto.
Qed.

(** ** Histograms *)

Lemma sum_insert (l : list N) i n m :
  l !! i = Some n → (foldr N.add 0 (<[i := m]> l) + n = foldr N.add 0 l + m)%N.
Proof.
  revert i. induction l as [|x l IH]; intros [|i] Hi; simpl in *; simplify_eq; [lia|].
  specialize (IH _ Hi). lia.
Qed.

Lemma hist_ok_new : hist_ok newHistogram.
Proof. split; try done. Qed.

Lemma hist_ok_Add h b d :
  hist_ok h → (0 ≤ b < Z.of_nat nBuckets)%Z → (0 ≤ d)%Z →
  ∃ h', histogram_Add h b d = Some h' ∧ hist_ok h'.
Proof.
  intros [Hl Ht Hm] Hb Hd. unfold histogram_Add.
  destruct (index_Some (count h) b) as [n En]; [unfold len; lia|].
  rewrite En. simpl. eexists; split; [done|]. split; simpl.
  - by rewrite length_insert.
  - unfold index in En. rewrite (proj2 (Z.leb_le _ _)) in En by lia.
    pose proof (sum_insert _ _ _ (add_u64 n 1) En) as Hs. revert Hs.
    generalize (foldr N.add 0%N (<[Z.to_nat b:=add_u64 n 1]> (count h))).
    intros s Hs. rewrite Ht. unfold add_u64 in *.
    rewrite N.Div0.add_mod_idemp_l.
    pose proof (N.div_mod (n + 1) (2 ^ 64) ltac:(done)).
    set (q := ((n + 1) / 2 ^ 64)%N) in *. set (m := ((n + 1) mod 2 ^ 64)%N) in *.
    assert (Hs' : (s + q * 2 ^ 64 = foldr N.add 0 (count h) + 1)%N) by lia.
    rewrite <- Hs'. by rewrite N.Div0.mod_add.
  - destruct (N.eqb _ _), (Z.ltb_spec d (hmin h)), (Z.ltb_spec (hmax h) d); simpl; lia.
Qed.

(** ** Preservation *)

(** What an operation on a trace other than [Finish] leaves as it was. *)
Record same (tr tr' : trace) : Prop := {
  same_ID : ID tr' = ID tr;
  same_Family : Family tr' = Family tr;
  same_Start : Start tr' = Start tr;
  same_end : end_ tr' = end_ tr;
  same_isError : isError tr = true → isError tr' = true;
}.

Lemma same_refl tr : same tr tr.
Proof. by split. Qed.

Definition grows (ts ts' : list trace) : Prop :=
  ∀ l tr, ts !! l = Some tr → ∃ tr', ts' !! l = Some tr' ∧ same tr tr'.

Lemma grows_insert ts l tr tr' :
  ts !! l = Some tr → same tr tr' → grows ts (<[l := tr']> ts).
Proof.
  intros Hl Hs k t Hk. destruct (decide (k = l)) as [->|Hne].
  - simplify_eq. exists tr'. split; [|done].
    apply list_lookup_insert_eq. by eapply lookup_lt_Some.
  - exists t. rewrite list_lookup_insert_ne by done. split; [done|apply same_refl].
Qed.

Lemma grows_app ts k : grows ts (ts ++ k).
Proof.
  intros l tr Hl. exists tr. split; [by apply lookup_app_l_Some|apply same_refl].
Qed.

Lemma done_in_grows ts ts' f l b : grows ts ts' → done_in ts f l b → done_in ts' f l b.
Proof.
  intros Hg (tr & Hl & Hf & He & Hs & Hb). destruct (Hg _ _ Hl) as (tr' & Hl' & [? ? Est Een ?]).
  exists tr'. rewrite Est, Een. split_and!; try done. congruence.
Qed.

Lemma family_ok_grows ts ts' f ft : grows ts ts' → family_ok ts f ft → family_ok ts' f ft.
Proof.
  intros Hg [Ha Hl Hr Hf He Her Hh]. split; try done.
  - intros i l Hi. destruct (Ha i l Hi) as (tr & Htr & Hid & Hfam & Hend).
    destruct (Hg _ _ Htr) as (tr' & Htr' & []). exists tr'. split_and!; congruence.
  - intros b r l Hb Hin. eapply done_in_grows; eauto.
  - intros l Hin. destruct (Her l Hin) as (tr & b & Htr & Hie & Hd).
    destruct (Hg _ _ Htr) as (tr' & Htr' & []). exists tr', b.
    split_and!; [done|by auto|by eapply done_in_grows].
Qed.

Lemma family_ok_new ts f : family_ok ts f newFamilyTraces.
Proof.
  split; cbn [newFamilyTraces active finished errors latencies]; try done.
  - apply Forall_replicate, ring_ok_new.
  - intros b r l [-> _]%lookup_replicate Hin. by apply list_elem_of_In in Hin.
  - apply ring_ok_new.
  - intros l Hin. by apply list_elem_of_In in Hin.
Qed.

Lemma trace_ok_mono n n' fams fams' tr :
  n ≤ n' → (∀ f, is_Some (fams !! f) → is_Some (fams' !! f)) →
  trace_ok n fams tr → trace_ok n' fams' tr.
Proof.
  intros Hn Hf [Hl Hr Href Hp Hfam]. split; try done; auto.
  - eapply Forall_impl; [exact Href|]. intros e He l Hl'. specialize (He l Hl'). lia.
  - intros p Hp'. specialize (Hp p Hp'). lia.
Qed.

Lemma refs_below_app n es k : refs_below n (es ++ k) ↔ refs_below n es ∧ refs_below n k.
Proof. apply Forall_app. Qed.

Lemma evtRing_Add_refs n r e r' :
  refs_below n (evts r) → refs_below n [e] → evtRing_Add r e = Some r' →
  refs_below n (evts r').
Proof.
  intros Hr He. unfold evtRing_Add. case_match.
  - intros. simplify_eq. simpl. by apply refs_below_app.
  - intros Ha. destruct (go_rem _ _); simpl in Ha; [|done].
    destruct (index _ _); simpl in Ha; [|done]. simplify_eq. simpl.
    apply Forall_insert; [done|]. by apply Forall_cons in He as [? _].
Qed.

Lemma append_ok n fams tr e :
  trace_ok n fams tr → (∀ l, Ref e = Some l → l < n) →
  ∃ tr', append tr e = Some tr' ∧ trace_ok n fams tr' ∧ same tr tr'.
Proof.
  intros [Hl Hr Href Hp Hf] He. unfold append.
  assert (Hre : refs_below n [e]) by (apply Forall_cons; split; [exact He|constructor]).
  unfold stored in Href. apply refs_below_app in Href as [Href1 Href2].
  destruct (Z.ltb_spec (len (firstEvents tr)) (cutoff tr)).
  - eexists; split; [done|]. split; [|by split]. split; try done; simpl.
    unfold stored. simpl. rewrite !refs_below_app. done.
  - set (r := match lastEvents tr with Some r => r | None => _ end).
    assert (Hring : ∃ h, ring_of r h).
    { subst r. destruct (lastEvents tr) as [r|]; [by apply Hr|].
      exists []. apply ring_of_new. lia. }
    assert (Hrr : refs_below n (evts r)).
    { subst r. destruct (lastEvents tr); [done|constructor]. }
    destruct Hring as [h Hring].
    destruct (ring_of_Add r h e Hring) as (r' & Ea & Hring' & _). rewrite Ea. simpl.
    eexists; split; [done|]. split; [|by split]. split; try done; simpl.
    + intros r1 [= <-]. eauto.
    + unfold stored. simpl. apply refs_below_app. split; [done|].
      by eapply evtRing_Add_refs.
Qed.

(** An operation that changes one trace and keeps it well formed. *)
Lemma update_wf l (f : trace → option trace) st :
  wf st → l < length (traces st) →
  (∀ tr, traces st !! l = Some tr → trace_ok (length (traces st)) (families st) tr →
     ∃ tr', f tr = Some tr' ∧ trace_ok (length (traces st)) (families st) tr' ∧ same tr tr') →
  ∃ st', update l f st = Some st' ∧ wf st' ∧ length (traces st') = length (traces st).
Proof.
  intros [Ht Hf] Hl Hupd. destruct (lookup_lt_is_Some_2 _ _ Hl) as [tr Htr].
  destruct (Hupd tr Htr (Ht _ _ Htr)) as (tr' & Ef & Hok & Hs).
  unfold update. rewrite Htr. simpl. rewrite Ef. simpl. eexists; split; [done|].
  unfold set_trace. simpl. rewrite length_insert. split; [|done]. split; simpl.
  - intros k t Hk. rewrite length_insert.
    apply list_lookup_insert_Some in Hk as [(-> & <- & _)|[_ Hk]]; eauto.
  - intros fam ft Hfam. eapply family_ok_grows; [by eapply grows_insert|eauto].
Qed.

Lemma append_to_wf l e st :
  wf st → l < length (traces st) → (∀ k, Ref e = Some k → k < length (traces st)) →
  ∃ st', append_to l e st = Some st' ∧ wf st' ∧ length (traces st') = length (traces st).
Proof.
  intros Hwf Hl He. apply update_wf; [done..|]. intros tr _ Hok. by apply append_ok.
Qed.

Lemma SetError_wf l st :
  wf st → l < length (traces st) →
  ∃ st', SetError l st = Some st' ∧ wf st' ∧ length (traces st') = length (traces st).
Proof.
  intros Hwf Hl. apply update_wf; [done..|]. intros tr _ [Hlim Hr Href Hp Hf].
  eexists; split; [done|]. by split.
Qed.

Lemma SetMaxEvents_wf l n st :
  wf st → l < length (traces st) →
  ∃ st', SetMaxEvents l n st = Some st' ∧ wf st' ∧ length (traces st') = length (traces st).
Proof.
  intros Hwf Hl. apply update_wf; [done..|]. intros tr _ [Hlim Hr Href Hp Hf].
  eexists; split; [done|]. split; [|by split]. split; try done.
  unfold set_maxEvents. simpl. destruct (Z.ltb_spec n 6); [done|].
  rewrite Z.quot_div_nonneg by lia. split.
  - apply Z.div_str_pos. lia.
  - apply Z.div_lt; lia.
Qed.

Lemma newTrace_wf rnd now family title st l st' :
  wf st → newTrace rnd now family title st = (l, st') →
  wf st' ∧ length (traces st') = S (length (traces st)) ∧ l = length (traces st).
Proof.
  intros [Ht Hf] E. unfold newTrace in E. simplify_eq. simpl.
  split; [|split; [rewrite length_app; simpl; lia|done]]. split; simpl.
  - intros k t Hk. rewrite length_app. simpl.
    apply lookup_app_Some in Hk as [Hk|[_ Hk]].
    + eapply trace_ok_mono; [| |eauto]; [lia|].
      intros f Hfs. destruct (decide (f = family)) as [->|Hne].
      * rewrite lookup_insert_eq. eauto.
      * by rewrite lookup_insert_ne.
    + apply list_lookup_singleton_Some in Hk as [_ <-]. split; try done.
      * simpl. constructor.
      * simpl. rewrite lookup_insert_eq. eauto.
  - intros f ft Hft.
    assert (Hbase : ∀ f ft, families st !! f = Some ft → family_ok (traces st ++ [new_trace rnd now family title]) f ft).
    { intros. eapply family_ok_grows; [apply grows_app|eauto]. }
    destruct (decide (f = family)) as [->|Hne].
    + rewrite lookup_insert_eq in Hft. simplify_eq.
      set (ft0 := default newFamilyTraces _).
      assert (Hok : family_ok (traces st ++ [new_trace rnd now family title]) family ft0).
      { subst ft0. destruct (families st !! family) eqn:E; simpl; [eauto|].
        apply family_ok_new. }
      destruct Hok as [Ha Hl Hr Hfin He Her Hh]. split; try done. simpl.
      intros i k [[<- <-]|[_ Hk]]%lookup_insert_Some; [|eauto].
      eexists; split; [by apply list_lookup_middle|]. done.
    + rewrite lookup_insert_ne in Hft by done. eauto.
Qed.

Lemma NewChild_wf rnd now now' l family title st :
  wf st → l < length (traces st) →
  ∃ c st', NewChild rnd now now' l family title st = Some (c, st') ∧ wf st'.
Proof.
  intros Hwf Hl. unfold NewChild.
  destruct (newTrace rnd now family title st) as [c st1] eqn:E.
  destruct (newTrace_wf _ _ _ _ _ _ _ Hwf E) as (Hwf1 & Hlen & Hc).
  destruct (update_wf c (λ tr, Some (set_parent tr l)) st1) as (st2 & -> & Hwf2 & Hlen2).
  { done. }
  { lia. }
  { intros tr _ [Hlim Hr Href Hp Hf]. eexists; split; [done|]. split; [|by split].
    split; try done. simpl. intros p [= <-]. lia. }
  simpl. destruct (append_to_wf l (mkEvent now' evtCHILD (Some c) []) st2)
    as (st3 & -> & Hwf3 & _).
  { done. }
  { lia. }
  { simpl. intros k [= <-]. lia. }
  simpl. eauto.
Qed.

(** The trace that is finished is in no ring yet. *)
Lemma not_done ts f l b tr : ts !! l = Some tr → end_ tr = 0%Z → ¬ done_in ts f l b.
Proof. intros Hl He (tr' & Hl' & _ & Hpos & _). simplify_eq. lia. Qed.

Lemma done_in_insert ts f l b k tr tr' :
  ts !! l = Some tr → end_ tr = 0%Z → done_in ts f k b → done_in (<[l := tr']> ts) f k b.
Proof.
  intros Hl He Hd. destruct (decide (k = l)) as [->|Hne].
  - by destruct (not_done ts f l b tr).
  - unfold done_in in *. by rewrite list_lookup_insert_ne.
Qed.

Lemma finalize_ok ts f ft l tr now :
  family_ok ts f ft → ts !! l = Some tr → Family tr = f → end_ tr = 0%Z →
  (Start tr ≤ now)%Z → (0 < now)%Z →
  ∃ ft', finalize l (set_end tr now) ft = Some ft' ∧
    family_ok (<[l := set_end tr now]> ts) f ft'.
Proof.
  intros [Ha Hl Hr Hfin He Her Hh] Htr Hfam Hend Hst Hnow. unfold finalize. simpl.
  set (d := Sub now (Start tr)). pose proof (Sub_nonneg now (Start tr) Hst) as Hd.
  pose proof (findBucket_range d Hd) as Hb.
  destruct (index_Some (finished ft) (findBucket d)) as [r Er]; [unfold len; lia|].
  rewrite Er. simpl. unfold index in Er. rewrite (proj2 (Z.leb_le _ _)) in Er by lia.
  assert (Hrok : ring_ok r) by by eapply Forall_lookup_1.
  destruct (ring_ok_Add r l Hrok) as (r' & Er' & Hr' & _). rewrite Er'. simpl.
  destruct (ring_ok_Add (errors ft) l He) as (e' & Ee' & He' & _).
  destruct (hist_ok_Add (latencies ft) (findBucket d) d Hh Hb Hd) as (h' & Eh & Hh').
  assert (Hnew : <[l:=set_end tr now]> ts !! l = Some (set_end tr now)).
  { apply list_lookup_insert_eq. by eapply lookup_lt_Some. }
  assert (Hdone : done_in (<[l:=set_end tr now]> ts) f l (findBucket d)).
  { eexists; split; [exact Hnew|]. done. }
  assert (Herr : ∃ errs, (if isError tr then traceRing_Add (errors ft) l
                          else Some (errors ft)) = Some errs ∧ ring_ok errs ∧
            ∀ k, k ∈ traceRing_Do errs → (k = l ∧ isError tr = true) ∨ k ∈ traceRing_Do (errors ft)).
  { destruct (isError tr); [|by eauto]. exists e'. split_and!; [done..|].
    intros k Hk. destruct (ring_Add_elem _ _ _ _ He Ee' Hk); auto. }
  destruct Herr as (errs & -> & Herrs & Hin). simpl. rewrite Eh. simpl.
  eexists; split; [done|]. split; simpl; try done.
  - intros i k [Hne Hk]%lookup_delete_Some. destruct (Ha i k Hk) as (t & Ht & Hid & Hf & Hz).
    exists t. rewrite list_lookup_insert_ne; [done|]. intros ->. simplify_eq.
  - by rewrite length_insert.
  - by apply Forall_insert.
  - intros b r0 k Hbr Hk. apply list_lookup_insert_Some in Hbr as [(<- & <- & _)|[_ Hbr]].
    + rewrite Z2Nat.id by lia.
      destruct (ring_Add_elem _ _ _ _ Hrok Er' Hk) as [->|Hk']; [done|].
      eapply done_in_insert; [done..|]. rewrite <- (Z2Nat.id (findBucket d)) by lia. eauto.
    + eapply done_in_insert; eauto.
  - intros k [[-> Hie]|Hk]%Hin; [by eauto 6|].
    destruct (Her k Hk) as (t & b & Ht & Hie & Hdn). exists t, b.
    split_and!; [|done|by eapply done_in_insert].
    rewrite list_lookup_insert_ne; [done|]. intros ->.
    by destruct (not_done _ _ _ _ _ Htr Hend Hdn).
Qed.

Lemma family_ok_other ts f ft l tr tr' :
  family_ok ts f ft → ts !! l = Some tr → Family tr ≠ f → family_ok (<[l := tr']> ts) f ft.
Proof.
  intros [Ha Hl Hr Hfin He Her Hh] Htr Hne.
  assert (Hdn : ∀ k b, done_in ts f k b → done_in (<[l := tr']> ts) f k b ∧ k ≠ l).
  { intros k b (t & Ht & Hf & Hd).
    assert (k ≠ l) by (intros ->; simplify_eq). split; [|done].
    exists t. rewrite list_lookup_insert_ne by done. done. }
  split; try done.
  - intros i k Hk. destruct (Ha i k Hk) as (t & Ht & Hid & Hf & Hz). exists t.
    rewrite list_lookup_insert_ne; [done|]. intros ->. simplify_eq.
  - intros b r k Hb Hk. by apply Hdn, (Hfin b r k).
  - intros k Hk. destruct (Her k Hk) as (t & b & Ht & Hie & Hd).
    destruct (Hdn _ _ Hd) as [Hd' Hkl]. exists t, b. by rewrite list_lookup_insert_ne.
Qed.

Lemma Finish_wf now l st tr :
  wf st → traces st !! l = Some tr → end_ tr = 0%Z → (Start tr ≤ now)%Z → (0 < now)%Z →
  ∃ st', Finish now l st = Some st' ∧ wf st'.
Proof.
  intros [Ht Hf] Htr Hend Hst Hnow. unfold Finish. rewrite Htr. simpl.
  destruct (Ht _ _ Htr) as [Hlim Hr Href Hp [ft Hft]]. rewrite Hft. simpl.
  destruct (finalize_ok _ _ _ l tr now (Hf _ _ Hft) Htr eq_refl Hend Hst Hnow)
    as (ft' & -> & Hok). simpl.
  eexists; split; [done|]. split; simpl.
  - intros k t Hk. rewrite length_insert.
    assert (Hdom : ∀ f, is_Some (families st !! f) →
              is_Some (<[Family tr := ft']> (families st) !! f)).
    { intros f Hfs. destruct (decide (f = Family tr)) as [->|Hne].
      - rewrite lookup_insert_eq. eauto.
      - by rewrite lookup_insert_ne. }
    apply list_lookup_insert_Some in Hk as [(-> & <- & _)|[_ Hk]].
    + split; try done. apply Hdom. eauto.
    + eapply trace_ok_mono; [done|exact Hdom|eauto].
  - intros f ft0 [[<- <-]|[Hne Hft0]]%lookup_insert_Some; [done|].
    by eapply family_ok_other; eauto.
Qed.

Lemma run_op_wf o st : wf st → legal o st → ∃ st', run_op o st = Some st' ∧ wf st'.
Proof.
  intros Hwf Hl. destruct o as [rnd now family title|rnd now now' l family title
    |now l other msg|l n|l|now l msg|now l msg|now l]; simpl in *.
  - exists (New rnd now family title st).2. split; [done|].
    by destruct (newTrace_wf _ _ _ _ _ _ _ Hwf
                   (surjective_pairing (newTrace rnd now family title st))).
  - destruct (NewChild_wf rnd now now' l family title st Hwf Hl) as (c & st' & -> & H').
    simpl. eauto.
  - destruct Hl as [Hl Ho].
    destruct (append_to_wf l (mkEvent now evtLINK (Some other) msg) st Hwf Hl)
      as (st' & ? & ? & _); [simpl; intros k [= <-]; done|]. eauto.
  - destruct (SetMaxEvents_wf l n st Hwf Hl) as (st' & ? & ? & _). eauto.
  - destruct (SetError_wf l st Hwf Hl) as (st' & ? & ? & _). eauto.
  - destruct (append_to_wf l (mkEvent now evtLOG None msg) st Hwf Hl)
      as (st' & ? & ? & _); [done|]. eauto.
  - unfold Errorf. destruct (SetError_wf l st Hwf Hl) as (st1 & -> & Hwf1 & Hlen). simpl.
    destruct (append_to_wf l (mkEvent now evtLOG None msg) st1 Hwf1)
      as (st' & ? & ? & _); [lia|done|]. eauto.
  - destruct Hl as (tr & Htr & Hend & Hst & Hnow). by eapply Finish_wf.
Qed.

Lemma wf_init : wf init.
Proof. split; simpl; intros; [by rewrite lookup_nil in *|by rewrite lookup_empty in *]. Qed.

Lemma reachable_wf st : reachable st → wf st.
Proof.
  induction 1 as [|st o st' _ IH Hl Hr]; [apply wf_init|].
  destruct (run_op_wf o st IH Hl) as (st1 & E & Hwf). by simplify_eq.
Qed.


(** ** All the events that a trace leads to *)

Lemma evtRing_Do_elem r es e : evtRing_Do r = Some es → e ∈ es → e ∈ evts r.
Proof.
  intros Hm He. apply mapM_Some_1 in Hm.
  apply list_elem_of_lookup in He as [i Hi].
  destruct (Forall2_lookup_r _ _ _ _ _ Hm Hi) as (j & _ & Hj).
  destruct (go_rem _ _) as [p|]; simpl in Hj; [|done].
  unfold index in Hj. destruct (Z.leb 0 p); [|done]. by eapply list_elem_of_lookup_2.
Qed.

Lemma Events_ok n fams tr :
  trace_ok n fams tr → ∃ es, Events tr = Some es ∧ refs_below n es.
Proof.
  intros [Hl Hr Href Hp Hf]. unfold Events. unfold stored in Href.
  apply refs_below_app in Href as [Href1 Href2].
  destruct (lastEvents tr) as [r|]; [|by eauto].
  destruct (Hr r eq_refl) as [h Hring]. pose proof (ring_of_Do _ _ Hring) as Hdo.
  rewrite Hdo. simpl. eexists; split; [done|]. rewrite !refs_below_app. split_and!; [done| |].
  - destruct (IsZero (firstDrop r)); repeat constructor. done.
  - apply Forall_forall. intros e He.
    apply (proj1 (Forall_forall _ _) Href2 e). by eapply evtRing_Do_elem.
Qed.

Section AllEvents.
Context (ts : list trace).

Definition id_of (l : loc) : id := default [] (ID <$> ts !! l).
Definition events_of (l : loc) : list event := default [] (tr ← ts !! l; Events tr).

(** An event of the first trace refers to the second one. *)
Definition refers (l k : loc) : Prop := k ∈ refs (events_of l).

(** What is listed for the traces [order], each at its depth. *)
Definition listed (order : list (loc * N)) : list traceAndEvent :=
  concat ((λ p : loc * N, (λ e, mkTraceAndEvent p.1 e p.2) <$> events_of p.1) <$> order).

(** A visit from [roots] that went through [order]. *)
Record visit (roots : list loc) (acc acc' : list traceAndEvent * gset id)
    (order : list (loc * N)) : Prop := {
  v_out : acc'.1 = acc.1 ++ listed order;
  v_seen : ∀ i, i ∈ acc'.2 ↔ i ∈ acc.2 ∨ i ∈ id_of <$> order.*1;
  v_nodup : NoDup (id_of <$> order.*1);
  v_new : ∀ i, i ∈ id_of <$> order.*1 → i ∉ acc.2;
  v_roots : ∀ r, r ∈ roots → id_of r ∈ acc'.2;
  v_closed : ∀ l k, l ∈ order.*1 → refers l k → id_of k ∈ acc'.2;
  v_reach : ∀ l, l ∈ order.*1 → l < length ts ∧ ∃ r, r ∈ roots ∧ rtc refers r l;
}.

Lemma listed_app o1 o2 : listed (o1 ++ o2) = listed o1 ++ listed o2.
Proof. unfold listed. by rewrite fmap_app, concat_app. Qed.

Lemma visit_nil acc : visit [] acc acc [].
Proof.
  split; simpl; try done.
  - unfold listed. simpl. by rewrite (right_id_L [] (++)).
  - intros i. rewrite elem_of_nil. tauto.
  - constructor.
  - intros i []%elem_of_nil.
  - intros r []%elem_of_nil.
  - intros l k []%elem_of_nil.
  - intros l []%elem_of_nil.
Qed.

(** Nothing is listed again for a trace that has been seen. *)
Lemma visit_seen r acc : id_of r ∈ acc.2 → visit [r] acc acc [].
Proof.
  intros Hr. destruct (visit_nil acc). split; try done.
  - by intros ? ->%list_elem_of_singleton.
  - intros l []%elem_of_nil.
Qed.

Lemma visit_app rs r acc acc1 acc2 o1 o2 :
  visit rs acc acc1 o1 → visit [r] acc1 acc2 o2 → visit (rs ++ [r]) acc acc2 (o1 ++ o2).
Proof.
  intros [O1 S1 N1 F1 R1 C1 P1] [O2 S2 N2 F2 R2 C2 P2].
  assert (Hsub : ∀ i, i ∈ acc1.2 → i ∈ acc2.2) by (intros i; rewrite S2; tauto).
  split; rewrite ?fmap_app.
  - by rewrite O2, O1, listed_app, (assoc_L (++)).
  - intros i. rewrite S2, S1, elem_of_app. tauto.
  - apply NoDup_app. split_and!; [done| |done]. intros i Hi1 Hi2.
    apply (F2 i Hi2). apply S1. by right.
  - intros i [Hi|Hi]%elem_of_app; [by apply F1|]. intros Hin. apply (F2 i Hi), S1. by left.
  - intros k [Hk|Hk]%elem_of_app; [by apply Hsub, R1|by apply R2].
  - intros l k [Hl|Hl]%elem_of_app Hr; [by eapply Hsub, C1|by eapply C2].
  - intros l [Hl|Hl]%elem_of_app.
    + destruct (P1 l Hl) as (? & k & Hk & ?). split; [done|]. exists k.
      split; [|done]. apply elem_of_app. by left.
    + destruct (P2 l Hl) as (? & k & Hk & ?). split; [done|]. exists k.
      split; [|done]. apply elem_of_app. by right.
Qed.

(** A trace is listed, and then those that it refers to. *)
Lemma visit_cons tr t depth acc acc' es order :
  ts !! tr = Some t → Events t = Some es → ID t ∉ acc.2 →
  visit (refs es)
    (acc.1 ++ ((λ e, mkTraceAndEvent tr e depth) <$> es), {[ID t]} ∪ acc.2) acc' order →
  visit [tr] acc acc' ((tr, depth) :: order).
Proof.
  intros Ht He Hnew [O S' N' F' R C P]. simpl in *.
  assert (Hid : id_of tr = ID t) by (unfold id_of; by rewrite Ht).
  assert (Hev : events_of tr = es) by (unfold events_of; rewrite Ht; simpl; by rewrite He).
  split; simpl.
  - rewrite O. unfold listed. simpl. by rewrite Hev, (assoc_L (++)).
  - intros i. rewrite S', elem_of_union, elem_of_singleton, elem_of_cons, Hid. tauto.
  - rewrite Hid. apply NoDup_cons. split; [|done]. intros Hin. apply (F' _ Hin). set_solver.
  - intros i [->|Hi]%elem_of_cons; [by rewrite Hid|]. specialize (F' i Hi). set_solver.
  - intros r ->%list_elem_of_singleton. rewrite Hid. apply S'. set_solver.
  - intros l k [->|Hl]%elem_of_cons Hr; [|by eapply C].
    apply R. unfold refers in Hr. by rewrite Hev in Hr.
  - intros l [->|Hl]%elem_of_cons.
    + split; [by eapply lookup_lt_Some|]. exists tr.
      split; [by apply list_elem_of_singleton|apply rtc_refl].
    + destruct (P l Hl) as (? & k & Hk & Hkl). split; [done|]. exists tr.
      split; [by apply list_elem_of_singleton|]. eapply rtc_l; [|exact Hkl].
      unfold refers. by rewrite Hev.
Qed.

Definition all_ids : gset id := list_to_set (ID <$> ts).

Context (Hok : ∀ l t, ts !! l = Some t → ∃ es, Events t = Some es ∧ refs_below (length ts) es).

Lemma fold_visit (step : loc → list traceAndEvent * gset id → option (list traceAndEvent * gset id))
    (fuel : nat) rs acc :
  (∀ r acc, r ∈ rs → size (all_ids ∖ acc.2) < fuel →
     ∃ acc' o, step r acc = Some acc' ∧ visit [r] acc acc' o) →
  size (all_ids ∖ acc.2) < fuel →
  ∃ acc' o, foldl (λ o sub, acc ← o; step sub acc) (Some acc) rs = Some acc' ∧
    visit rs acc acc' o.
Proof.
  intros Hstep Hfuel. induction rs as [|r rs IH] using rev_ind.
  - exists acc, []. split; [done|apply visit_nil].
  - destruct IH as (acc1 & o1 & E1 & V1).
    { intros r' acc' Hr'. apply Hstep, elem_of_app. by left. }
    destruct (Hstep r acc1) as (acc2 & o2 & E2 & V2).
    { apply elem_of_app. right. by apply list_elem_of_singleton. }
    { eapply Nat.le_lt_trans; [|exact Hfuel]. apply subseteq_size.
      pose proof (v_seen _ _ _ _ V1). set_solver. }
    exists acc2, (o1 ++ o2). rewrite foldl_app, E1. simpl. split; [done|].
    by eapply visit_app.
Qed.

Lemma appendAllEvents_visit fuel tr depth acc :
  tr < length ts → size (all_ids ∖ acc.2) < fuel →
  ∃ acc' o, appendAllEvents fuel ts tr depth acc = Some acc' ∧ visit [tr] acc acc' o.
Proof.
  revert tr depth acc. induction fuel as [|fuel IH]; intros tr depth acc Htr Hfuel; [lia|].
  destruct (lookup_lt_is_Some_2 _ _ Htr) as [t Ht].
  destruct (Hok tr t Ht) as (es & He & Hrefs).
  cbn [appendAllEvents]. rewrite Ht. simpl. case_bool_decide as Hin.
  - exists acc, []. split; [done|]. apply visit_seen. unfold id_of. by rewrite Ht.
  - rewrite He. simpl.
    destruct (fold_visit (λ sub acc, appendAllEvents fuel ts sub (depth + 1) acc) fuel (refs es)
      (acc.1 ++ ((λ e, mkTraceAndEvent tr e depth) <$> es), {[ID t]} ∪ acc.2))
      as (acc' & o & E & V).
    + intros r acc' Hr Hlt. apply IH; [|done].
      apply list_elem_of_omap in Hr as (e & Hin' & Hre).
      eapply (proj1 (Forall_forall _ _) Hrefs e); [done|exact Hre].
    + simpl. assert (ID t ∈ all_ids).
      { unfold all_ids. apply elem_of_list_to_set, list_elem_of_fmap. exists t.
        split; [done|]. by eapply list_elem_of_lookup_2. }
      assert (Hsub : all_ids ∖ ({[ID t]} ∪ acc.2) ⊂ all_ids ∖ acc.2).
      { split; [set_solver|]. intros Hs. specialize (Hs (ID t)). set_solver. }
      apply subset_size in Hsub. lia.
    + exists acc', ((tr, depth) :: o). split; [exact E|]. by eapply visit_cons.
Qed.

End AllEvents.

Lemma size_all_ids ts : size (all_ids ts) ≤ length ts.
Proof.
  unfold all_ids. rewrite <- (length_fmap ID ts).
  induction (ID <$> ts) as [|i l IH]; simpl; [done|].
  rewrite size_union_alt, size_singleton.
  assert (Hd : (list_to_set l : gset id) ∖ {[i]} ⊆ list_to_set l) by set_solver.
  apply subseteq_size in Hd. lia.
Qed.

Lemma wf_Events st :
  wf st → ∀ l t, traces st !! l = Some t →
  ∃ es, Events t = Some es ∧ refs_below (length (traces st)) es.
Proof. intros [Ht _] l t Hl. eapply Events_ok, Ht, Hl. Qed.

(** [allEvents] ends without a panic, whatever the references between the
    traces are. *)
Lemma allEvents_visit `{SortSlice} st l :
  wf st → l < length (traces st) →
  ∃ acc order, visit (traces st) [l] ([], ∅) acc order ∧
    allEvents (traces st) l =
      Some (sort_slice (λ i j, Z.ltb (When (teEvent i)) (When (teEvent j))) acc.1).
Proof.
  intros Hwf Hl.
  destruct (appendAllEvents_visit (traces st) (wf_Events st Hwf) (S (length (traces st))) l 0
    ([], ∅)) as (acc & order & E & V); [done| |].
  - simpl. rewrite difference_empty_L. pose proof (size_all_ids (traces st)). lia.
  - exists acc, order. split; [done|]. unfold allEvents. by rewrite E.
Qed.

(** Traces have different names: the random parts did not collide. *)
Definition unique (ts : list trace) : Prop :=
  ∀ l k tl tk, ts !! l = Some tl → ts !! k = Some tk → ID tl = ID tk → l = k.

(** C34: the page of a trace shows the events of the trace and of all those that
    it leads to, through children and links, each trace once, even when the
    links form loops, and in the order of time. *)
Theorem allEvents_correct `{SortSliceOk} st l :
  reachable st → unique (traces st) → l < length (traces st) →
  ∃ es order, allEvents (traces st) l = Some es ∧
    es ≡ₚ listed (traces st) order ∧ NoDup order.*1 ∧
    (∀ k, k ∈ order.*1 ↔ rtc (refers (traces st)) l k) ∧
    StronglySorted (λ a b, When (teEvent a) ≤ When (teEvent b))%Z es.
Proof.
  intros Hwf%reachable_wf Huniq Hl.
  destruct (allEvents_visit st l Hwf Hl) as (acc & order & [O S' N' F' R C P] & E).
  set (ts := traces st) in *. simpl in *. eexists _, order. split; [exact E|].
  assert (Hid : ∀ k, rtc (refers ts) l k → k ∈ order.*1).
  { assert (Hids : ∀ k, k < length ts → id_of ts k ∈ acc.2 → k ∈ order.*1).
    { intros k Hk Hin. apply S' in Hin as [?|Hin]; [set_solver|].
      apply list_elem_of_fmap in Hin as (j & Hj & Hin).
      assert (j < length ts) as Hjl by by apply P.
      destruct (lookup_lt_is_Some_2 _ _ Hk) as [tk Htk].
      destruct (lookup_lt_is_Some_2 _ _ Hjl) as [tj Htj].
      unfold id_of in Hj. rewrite Htk, Htj in Hj. simpl in Hj.
      by rewrite (Huniq k j tk tj Htk Htj Hj). }
    apply rtc_ind_r; [|intros j k Hj Hjk IH].
    - apply Hids; [done|]. apply R. by apply list_elem_of_singleton.
    - apply Hids; [|by eapply C].
      unfold refers, events_of in Hjk. destruct (ts !! j) as [tj|] eqn:Htj;
        [|by apply elem_of_nil in Hjk].
      destruct (wf_Events st Hwf j tj Htj) as (es & He & Hrefs). simpl in Hjk.
      rewrite He in Hjk. simpl in Hjk. apply list_elem_of_omap in Hjk as (e & Hin & Hre).
      by apply (proj1 (Forall_forall _ _) Hrefs e). }
  split_and!.
  - rewrite (sort_slice_perm _ _). by rewrite O.
  - by eapply NoDup_fmap_1.
  - intros k. split; [|apply Hid]. intros Hk.
    destruct (P k Hk) as (_ & r & ->%list_elem_of_singleton & Hr). done.
  - by apply (sort_slice_sorted _ (λ i, When (teEvent i))).
Qed.

(** ** Looking traces up *)

Definition has_id (ts : list trace) (i : id) (l : loc) : Prop :=
  ∃ tr, ts !! l = Some tr ∧ ID tr = i.

Lemma id_is_true ts i l : id_is ts i l = true → has_id ts i l.
Proof.
  unfold id_is. destruct (ts !! l) as [tr|] eqn:E; [|done].
  intros ?%bool_decide_eq_true. by exists tr.
Qed.

Lemma ring_find_has_id ts i r l : ring_find ts i r = Some l → has_id ts i l.
Proof.
  unfold ring_find. generalize (traceRing_Do r). intros ls.
  assert (Hacc : ∀ o, (∀ k, o = Some k → has_id ts i k) →
    ∀ k, foldl (λ found l, if id_is ts i l then Some l else found) o ls = Some k →
    has_id ts i k).
  { induction ls as [|k ls IH]; intros o Ho; simpl; [done|]. apply IH.
    destruct (id_is ts i k) eqn:E; [|done]. intros ? [= <-]. by apply id_is_true. }
  by apply Hacc.
Qed.

Lemma rings_find_has_id ts i rs l : rings_find ts i rs = Some l → has_id ts i l.
Proof.
  induction rs as [|r rs IH]; simpl; [done|].
  destruct (ring_find ts i r) eqn:E; [|done]. intros [= <-]. by eapply ring_find_has_id.
Qed.

Lemma find_has_id ts f ft i l : family_ok ts f ft → find ts ft i = Some l → has_id ts i l.
Proof.
  intros Hok. unfold find. destruct (active ft !! i) eqn:Ea.
  - intros [= ->]. destruct (fk_active _ _ _ Hok _ _ Ea) as (tr & ? & ? & _). by exists tr.
  - destruct (rings_find _ _ _) eqn:Er.
    + intros [= <-]. by eapply rings_find_has_id.
    + apply ring_find_has_id.
Qed.

Lemma find_family_has_id st i l : wf st → find_family st i = Some l → has_id (traces st) i l.
Proof.
  intros [_ Hf]. unfold find_family. destruct (families st !! _) as [ft|] eqn:E; [|done].
  simpl. by eapply find_has_id, Hf.
Qed.

Lemma find_ref_has_id ts i es l : find_ref ts i es = Some l → has_id ts i l.
Proof.
  induction es as [|e es IH]; simpl; [done|]. destruct (Ref e) as [k|]; [|done].
  destruct (id_is ts i k) eqn:E; [|done]. intros [= <-]. by apply id_is_true.
Qed.

(** What is found has the name that was asked for. *)
Lemma findInFamilies_ok st i ref :
  wf st → ∃ o, findInFamilies st i ref = Some o ∧ ∀ l, o = Some l → has_id (traces st) i l.
Proof.
  intros Hwf. unfold findInFamilies. destruct (find_family st i) as [l|] eqn:E.
  { eexists; split; [done|]. intros k [= <-]. by apply find_family_has_id. }
  case_bool_decide; [by eexists|].
  destruct (find_family st ref) as [r|] eqn:Er; [|by eexists].
  apply find_family_has_id in Er as (tr & Htr & _); [|done]. rewrite Htr. simpl.
  destruct (wf_Events st Hwf r tr Htr) as (es & He & _).
  assert (Hes : ∃ o, (es ← Events tr; Some (find_ref (traces st) i es)) = Some o ∧
    ∀ l, o = Some l → has_id (traces st) i l).
  { rewrite He. simpl. eexists; split; [done|]. apply find_ref_has_id. }
  destruct (Parent tr) as [p|]; [|done].
  destruct (id_is (traces st) i p) eqn:Ep; [|done].
  eexists; split; [done|]. intros k [= <-]. by apply id_is_true.
Qed.

(** ** The page *)

Lemma TracesFor_total `{SortSlice} ts f ft b allgt :
  family_ok ts f ft → (-2 ≤ b < Z.of_nat nBuckets)%Z → is_Some (TracesFor ts ft b allgt).
Proof.
  intros Hok Hb. unfold TracesFor. repeat case_bool_decide; try by eexists.
  rewrite (proj2 (Z.ltb_lt _ _)) by lia.
  destruct (index_Some (finished ft) b) as [r Er].
  { unfold len. rewrite (fk_length _ _ _ Hok). lia. }
  rewrite Er. by eexists.
Qed.

(** What the first part of the handler ends with. *)
Lemma render_family_total `{SortSlice} form st allgt :
  wf st → ∃ r, render_family form st (empty_page allgt) = Some r ∧
    match r with
    | inl p => pTrace p = None
    | inr p => (pFamily p = [] ∨ is_Some (families st !! pFamily p)) ∧ pTrace p = None
    end.
Proof.
  intros [_ Hf]. unfold render_family.
  case_bool_decide; [eexists; split; [done|]; split; [by left|done]|].
  destruct (families st !! form "fam") as [ft|] eqn:E; [|by eexists].
  case_bool_decide; [eexists; split; [done|]; split; [right; simpl; by rewrite E|done]|].
  destruct (Atoi (form "b")) as [i [err|]]; [by eexists|].
  destruct (_ || _) eqn:Eb; [by eexists|].
  apply orb_false_iff in Eb as [Hlo%Z.ltb_ge Hhi%Z.leb_gt].
  destruct (TracesFor_total (traces st) _ ft i allgt (Hf _ _ E)) as [trs Etrs]; [lia|].
  simpl. rewrite Etrs. simpl.
  assert (Hs : ∃ str, (if i == (-2)%Z then Some ("errors" : bytes)
             else if i == (-1)%Z then Some ("active" : bytes)
             else String <$> index buckets i) = Some str).
  { repeat case_bool_decide; try by eexists.
    destruct (index_Some buckets i) as [d Ed].
    { change (len buckets) with 8%Z. unfold nBuckets in Hhi. lia. }
    rewrite Ed. by eexists. }
  destruct Hs as [str ->]. simpl. eexists; split; [done|]. simpl. rewrite E. eauto.
Qed.

(** The page of traces can be rendered for every request, whatever its
    parameters are, in every state that the tracer can be in: looking traces up
    and walking their references never fails and always ends; a trace that is
    shown is the one that was asked for. *)
Theorem RenderTraces_total `{SortSlice} form st :
  reachable st →
  ∃ p, RenderTraces form st = Some p ∧
    ∀ l, pTrace p = Some l → has_id (traces st) (form "trace") l.
Proof.
  intros Hwf%reachable_wf. unfold RenderTraces.
  match goal with |- context [empty_page ?b] => generalize b end. intros allgt.
  destruct (render_family_total form st allgt Hwf) as ([p|p] & -> & Hp); simpl.
  { exists p. split; [done|]. by rewrite Hp. }
  destruct Hp as [Hfam Hnone].
  assert (Hlat : ∃ p', render_latencies form st p = Some p' ∧ pTrace p' = None).
  { unfold render_latencies. destruct (_ && _) eqn:Eb; [|by eexists].
    apply andb_true_iff in Eb as [Hne _]. rewrite negb_true_iff in Hne.
    apply bool_decide_eq_false in Hne. destruct Hfam as [?|[ft ->]]; [done|]. by eexists. }
  destruct Hlat as (p' & -> & Hn'). simpl. unfold render_trace.
  case_bool_decide; [exists p'; split; [done|by rewrite Hn']|].
  destruct (findInFamilies_ok st (form "trace") (form "ref") Hwf) as (o & -> & Ho). simpl.
  destruct o as [l|].
  - destruct (Ho l eq_refl) as (tr & Htr & Hid). rewrite Htr. simpl.
    destruct (allEvents_visit st l Hwf) as (acc & order & _ & ->); [by eapply lookup_lt_Some|].
    simpl. eexists; split; [done|]. intros k [= <-]. by exists tr.
  - eexists; split; [done|]. simpl. by rewrite Hn'.
Qed.

(** ** The active traces *)

(** Every trace is named after its family, and listed until it ends. *)
Definition complete (st : State) : Prop :=
  ∀ l tr, traces st !! l = Some tr →
    (∃ x, ID tr = Family tr ++ "!" ++ x) ∧
    (end_ tr = 0%Z → ∃ ft, families st !! Family tr = Some ft ∧ active ft !! ID tr = Some l).

Definition keeps_ids (st st' : State) : Prop :=
  ∀ l tr, traces st !! l = Some tr → ∃ tr', traces st' !! l = Some tr' ∧ ID tr' = ID tr.

Lemma unique_before st st' : keeps_ids st st' → unique (traces st') → unique (traces st).
Proof.
  intros Hk Hu l k tl tk Hl Hk' He.
  destruct (Hk _ _ Hl) as (tl' & Hl' & El). destruct (Hk _ _ Hk') as (tk' & Hk'' & Ek).
  apply (Hu l k tl' tk'); congruence.
Qed.

Lemma update_complete l f st st' :
  (∀ tr tr', f tr = Some tr' → same tr tr') → update l f st = Some st' →
  keeps_ids st st' ∧ (complete st → complete st').
Proof.
  intros Hf E. unfold update in E. destruct (traces st !! l) as [tr|] eqn:Htr; [|done].
  simpl in E. destruct (f tr) as [tr'|] eqn:Etr; [|done]. simpl in E. simplify_eq.
  pose proof (Hf _ _ Etr) as Hs. split.
  - intros k t Hk. destruct (grows_insert _ _ _ _ Htr Hs k t Hk) as (t' & Ht' & []).
    by exists t'.
  - intros Hc k t Hk. simpl in *.
    apply list_lookup_insert_Some in Hk as [(<- & <- & _)|[_ Hk]]; [|by apply Hc].
    destruct Hs as [Ei Efam Est Een _]. rewrite Ei, Efam, Een. by apply Hc.
Qed.

Lemma append_same e tr tr' : append tr e = Some tr' → same tr tr'.
Proof.
  unfold append. case_match; intros Ha; [by simplify_eq|].
  destruct (evtRing_Add _ _); simpl in Ha; by simplify_eq.
Qed.

Lemma newTrace_complete rnd now family title st c st' :
  newTrace rnd now family title st = (c, st') →
  keeps_ids st st' ∧ (unique (traces st') → complete st → complete st').
Proof.
  intros E. unfold newTrace in E. simplify_eq. split.
  - intros l tr Hl. exists tr. split; [by apply lookup_app_l_Some|done].
  - intros Hu Hc l tr Hl. simpl in *.
    pose proof Hl as Hin. apply lookup_app_Some in Hl as [Hl|[Hge Hl]].
    + destruct (Hc l tr Hl) as [Hn Ha]. split; [done|]. intros He.
      destruct (Ha He) as (ft & Hft & Hact).
      destruct (decide (Family tr = family)) as [<-|Hne].
      * rewrite lookup_insert_eq, Hft. eexists; split; [done|]. simpl.
        rewrite lookup_insert_ne; [done|]. intros Heq.
        pose proof (Hu l (length (traces st)) tr _ Hin
          (list_lookup_middle _ _ _ _ eq_refl) (eq_sym Heq)) as ->.
        apply lookup_lt_Some in Hl. lia.
      * rewrite lookup_insert_ne by done. eauto.
    + apply list_lookup_singleton_Some in Hl as [Hz <-].
      split; [by eexists|]. intros _. simpl. rewrite lookup_insert_eq.
      eexists; split; [done|]. simpl. rewrite lookup_insert_eq. f_equal. lia.
Qed.

Lemma Finish_complete now l st st' :
  (0 < now)%Z → Finish now l st = Some st' →
  keeps_ids st st' ∧ (unique (traces st') → complete st → complete st').
Proof.
  intros Hnow E. unfold Finish in E. destruct (traces st !! l) as [tr|] eqn:Htr; [|done].
  simpl in E. destruct (families st !! Family tr) as [ft|] eqn:Hft; [|done]. simpl in E.
  destruct (finalize _ _ _) as [ft'|] eqn:Hfin; [|done]. simpl in E. simplify_eq.
  assert (Hnew : <[l:=set_end tr now]> (traces st) !! l = Some (set_end tr now)).
  { apply list_lookup_insert_eq. by eapply lookup_lt_Some. }
  assert (Hact : active ft' = delete (ID tr) (active ft)).
  { unfold finalize in Hfin. do 4 apply bind_Some in Hfin as (? & _ & Hfin).
    by simplify_eq. }
  split.
  - intros k t Hk. simpl. destruct (decide (k = l)) as [->|Hne].
    + simplify_eq. eauto.
    + exists t. by rewrite list_lookup_insert_ne.
  - intros Hu Hc k t Hk. simpl in *. pose proof Hk as Hin.
    apply list_lookup_insert_Some in Hk as [(<- & <- & _)|[Hne Hk]].
    + split; [by apply (Hc l tr)|]. simpl. lia.
    + destruct (Hc k t Hk) as [Hn Ha]. split; [done|]. intros He.
      destruct (Ha He) as (ft0 & Hft0 & Hl0).
      destruct (decide (Family t = Family tr)) as [Efam|Hfam].
      * rewrite Efam in *. simplify_eq. rewrite lookup_insert_eq.
        eexists; split; [done|]. rewrite Hact, lookup_delete_ne; [done|].
        intros Heq. by pose proof (Hu k l t _ Hin Hnew (eq_sym Heq)).
      * rewrite lookup_insert_ne by done. eauto.
Qed.

Lemma run_op_complete o st st' :
  legal o st → run_op o st = Some st' →
  keeps_ids st st' ∧ (unique (traces st') → complete st → complete st').
Proof.
  intros Hl E. destruct o; simpl in E.
  - simplify_eq. by apply (newTrace_complete _ _ _ _ _ _ _ (surjective_pairing _)).
  - destruct (NewChild _ _ _ _ _ _ _) as [[c s1]|] eqn:En; [|done]. simpl in E. simplify_eq.
    unfold NewChild in En. destruct (newTrace _ _ _ _ _) as [c1 s1] eqn:Ent.
    destruct (newTrace_complete _ _ _ _ _ _ _ Ent) as [K1 C1].
    destruct (update c1 _ s1) as [s2|] eqn:E2; [|done]. simpl in En.
    apply update_complete in E2 as [K2 C2]; [|by intros ?? [= <-]; split].
    destruct (append_to l _ s2) as [s3|] eqn:E3; [|done]. simpl in En. simplify_eq.
    apply update_complete in E3 as [K3 C3]; [|intros ??; apply append_same].
    split.
    + intros k t Hk. destruct (K1 _ _ Hk) as (t1 & Hk1 & <-).
      destruct (K2 _ _ Hk1) as (t2 & Hk2 & <-). apply K3 in Hk2. done.
    + intros Hu Hc. apply C3, C2, C1; [|done].
      by eapply (unique_before _ s2), (unique_before _ _ K3).
  - apply update_complete in E as [? ?]; [|intros ??; apply append_same]. auto.
  - apply update_complete in E as [? ?]; [|by intros ?? [= <-]; split]. auto.
  - apply update_complete in E as [? ?]; [|by intros ?? [= <-]; split]. auto.
  - apply update_complete in E as [? ?]; [|intros ??; apply append_same]. auto.
  - unfold Errorf in E. destruct (SetError l st) as [s1|] eqn:E1; [|done]. simpl in E.
    apply update_complete in E1 as [K1 C1]; [|by intros ?? [= <-]; split].
    apply update_complete in E as [K2 C2]; [|intros ??; apply append_same].
    split; [|by auto]. intros k t Hk. destruct (K1 _ _ Hk) as (t1 & Hk1 & <-).
    by apply K2.
  - destruct Hl as (tr & _ & _ & _ & Hnow). by eapply Finish_complete.
Qed.

Lemma reachable_complete st : reachable st → unique (traces st) → complete st.
Proof.
  induction 1 as [|st o st' Hr IH Hl E]; intros Hu.
  - intros l tr Hl. by destruct l.
  - destruct (run_op_complete o st st' Hl E) as [Hk Hc]. apply Hc; [done|].
    by apply IH, (unique_before _ _ Hk).
Qed.

Lemma Family_of_id f x : "!"%char ∉ f → Family_of (f ++ "!" ++ x) = f.
Proof.
  intros Hf. unfold Family_of, SplitN2. simpl. by rewrite Cut_byte_app.
Qed.

(** With names that do not collide, the traces that are listed as active are
    exactly those that were created and not finished, and each can be looked up
    by its name, whatever reference comes with it. *)
Theorem active_exact st f ft i l :
  reachable st → unique (traces st) → families st !! f = Some ft →
  (active ft !! i = Some l ↔
   ∃ tr, traces st !! l = Some tr ∧ ID tr = i ∧ Family tr = f ∧ end_ tr = 0%Z) ∧
  (active ft !! i = Some l → "!"%char ∉ f →
   ∀ ref, findInFamilies st i ref = Some (Some l)).
Proof.
  intros Hr Hu Hf. pose proof (reachable_complete st Hr Hu) as Hc.
  apply reachable_wf in Hr as [_ Hfam]. pose proof (Hfam f ft Hf) as Hok. split; [split|].
  - apply (fk_active _ _ _ Hok).
  - intros (tr & Htr & <- & <- & He). destruct (Hc l tr Htr) as [_ Ha].
    destruct (Ha He) as (ft' & Hft' & Hl). by simplify_eq.
  - intros Ha Hn ref. unfold findInFamilies, find_family.
    destruct (fk_active _ _ _ Hok _ _ Ha) as (tr & Htr & Hid & Hfm & _).
    destruct (Hc l tr Htr) as [[x Hx] _].
    assert (Family_of i = f) as ->.
    { rewrite <- Hid, Hx, Hfm. by apply Family_of_id. }
    rewrite Hf. simpl. unfold find. by rewrite Ha.
Qed.

(** ** A run *)

Module Example.
#[local] Existing Instances MergeSort.sort MergeSort.sort_ok.

Lemma reachable_run o st :
  reachable st → legal o st → reachable (default st (run_op o st)).
Proof.
  intros Hr Hl. destruct (run_op_wf o st (reachable_wf _ Hr) Hl) as (st' & E & _).
  rewrite E. by eapply reachable_step.
Qed.

Lemma NoDup_unique ts : NoDup (ID <$> ts) → unique ts.
Proof.
  intros Hn l k tl tk Hl Hk He. eapply NoDup_lookup; [exact Hn| |].
  - rewrite list_lookup_fmap, Hl. simpl. done.
  - rewrite list_lookup_fmap, Hk. simpl. by rewrite He.
Qed.

(** A connection with a child that is linked back to it, and ends first. *)
Definition st1 : State := default init (run_op (OpNew 7 1000 "SMTP.Conn" "client") init).
Definition st2 : State := default st1 (run_op (OpNewChild 8 1001 1002 0 "Queue" "item") st1).
Definition st3 : State := default st2 (run_op (OpLink 1003 1 0 "back") st2).
Definition st4 : State := default st3 (run_op (OpErrorf 1004 1 "no route") st3).
Definition st5 : State := default st4 (run_op (OpFinish 7000000 1) st4).

#[local] Ltac below := apply Nat.ltb_lt; vm_compute; reflexivity.

Lemma reach4 : reachable st4.
Proof.
  apply reachable_run; [|below]. apply reachable_run; [|split; below].
  apply reachable_run; [|below]. apply reachable_run; [apply reachable_init|done].
Qed.

Definition no_trace : trace := new_trace 0 0 [] [].

Lemma legal5 : legal (OpFinish 7000000 1) st4.
Proof.
  exists (default no_trace (traces st4 !! 1)). split; [vm_compute; reflexivity|].
  split; [vm_compute; reflexivity|].
  split; [apply Z.leb_le; vm_compute; reflexivity|done].
Qed.

Lemma reach5 : reachable st5.
Proof. apply reachable_run; [apply reach4|apply legal5]. Qed.

Lemma unique5 : unique (traces st5).
Proof. apply NoDup_unique, (bool_decide_eq_true_1 _). vm_compute. reflexivity. Qed.


Lemma allEvents_correct_witness :
  ∃ es order, allEvents (traces st5) 1 = Some es ∧
    es ≡ₚ listed (traces st5) order ∧ NoDup order.*1 ∧
    (∀ k, k ∈ order.*1 ↔ rtc (refers (traces st5)) 1 k) ∧
    StronglySorted (λ a b, When (teEvent a) ≤ When (teEvent b))%Z es.
Proof. apply (allEvents_correct st5 1 reach5 unique5). below. Defined.

(** The loop is walked once: three events, of both traces. *)
Example allEvents_loop :
  (map (λ e, (teTrace e, When (teEvent e), teDepth e)) <$> allEvents (traces st5) 1)
  = Some [(0, 1002%Z, 1%N); (1, 1003%Z, 0%N); (1, 1004%Z, 0%N)].
Proof. vm_compute. reflexivity. Qed.

Definition ask (trace : bytes) (name : bytes) : bytes :=
  if name == "trace" then trace else [].

Lemma RenderTraces_total_witness :
  ∃ p, RenderTraces (ask (id_of (traces st5) 0)) st5 = Some p ∧
    ∀ l, pTrace p = Some l → has_id (traces st5) (ask (id_of (traces st5) 0) "trace") l.
Proof. apply (RenderTraces_total (ask (id_of (traces st5) 0)) st5 reach5). Defined.

Definition queue_family : familyTraces := default newFamilyTraces (families st4 !! ("Queue" : bytes)).

Lemma active_exact_witness :
  (active queue_family !! id_of (traces st4) 1 = Some 1 ↔
   ∃ tr, traces st4 !! 1 = Some tr ∧ ID tr = id_of (traces st4) 1 ∧
     Family tr = "Queue" ∧ end_ tr = 0%Z) ∧
  findInFamilies st4 (id_of (traces st4) 1) [] = Some (Some 1).
Proof.
  assert (Hu : unique (traces st4)).
  { apply NoDup_unique, (bool_decide_eq_true_1 _). vm_compute. reflexivity. }
  assert (Hf : families st4 !! ("Queue" : bytes) = Some queue_family).
  { unfold queue_family. destruct (families st4 !! _) as [ft|] eqn:E; [done|]. exfalso.
    assert (Hn : bool_decide (is_Some (families st4 !! ("Queue" : bytes))) = true)
      by (vm_compute; reflexivity).
    apply bool_decide_eq_true in Hn. rewrite E in Hn. by destruct Hn. }
  pose proof (active_exact st4 "Queue" queue_family (id_of (traces st4) 1) 1
    reach4 Hu Hf) as [H1 H2]. split; [exact H1|]. apply H2.
  - vm_compute. reflexivity.
  - apply (bool_decide_eq_true_1 (_ ∉ _)). vm_compute. reflexivity.
Defined.

(** After the end, the trace is found in its bucket, and among the errors. *)
Example finished_found :
  findInFamilies st5 (id_of (traces st5) 1) [] = Some (Some 1).
Proof. vm_compute. reflexivity. Qed.

Lemma Events_kept_witness :
  ∃ tr, append_all (set_maxEvents 3 (new_trace 7 1000 "SMTP.Conn" "client"))
      ((λ i, mkEvent (Z.of_nat (S i)) evtLOG None []) <$> seq 0 9) = Some tr ∧
    Events tr = Some (kept 6 ((λ i, mkEvent (Z.of_nat (S i)) evtLOG None []) <$> seq 0 9)) ∧
    length (kept 6 ((λ i, mkEvent (Z.of_nat (S i)) evtLOG None []) <$> seq 0 9)) ≤ 7.
Proof.
  apply (Events_kept 7 1000 "SMTP.Conn" "client" 3
           ((λ i, mkEvent (Z.of_nat (S i)) evtLOG None []) <$> seq 0 9)).
  simpl. repeat (constructor; [done|]). constructor.
Defined.

(** With room for six, events 3 to 5 of nine are dropped. *)
Example kept_nine :
  When <$> kept 6 ((λ i, mkEvent (Z.of_nat (S i)) evtLOG None []) <$> seq 0 9)
  = [1; 2; 3; 6; 7; 8; 9]%Z.
Proof. reflexivity. Qed.

End Example.

End NettraceInv.
