(* ===== verification/Logs.v ===== *)
(** Logs: packages [internal/trace], which adds logging to the traces of
    nettrace, and [internal/maillog].  The library that writes the lines,
    blitiri.com.ar/go/log, is outside of the program: a log is the list of the
    messages that it is given. *)

From S2P Require Import Prelude GoStrings GoSlices GoTime Envelope DotReader Store SmtpClient.
From S2P Require Import Nettrace.
#[local] Open Scope go_scope.

(** ** internal/trace *)
Module Trace.

Inductive level := Info | Debug.

Record Trace := mkTrace {
  family : bytes;
  title : bytes;
  t : Nettrace.loc;
}.

Record state := mkState {
  net : Nettrace.State;
  logged : list (level * bytes);
}.

Section Trace.
Context `{Unicode}.

(** [quote]: the quotes are taken away. *)
Definition quote (s : bytes) : bytes :=
  let qs := Quote s in take (length qs - 2) (drop 1 qs).

Definition log (lv : level) (tr : Trace) (msg : bytes) (st : state) : state :=
  mkState (net st) (logged st ++ [(lv, family tr ++ " " ++ title tr ++ ": " ++ msg)]).

Definition New (rnd : N) (now : Z) (fam ttl : bytes) (st : state) : option (Trace * state) :=
  let '(l, n) := Nettrace.New rnd now fam ttl (net st) in
  n ← Nettrace.SetMaxEvents l 100 n;
  Some (mkTrace fam ttl l, mkState n (logged st)).

Definition NewChild (rnd : N) (now now' : Z) (tr : Trace) (fam ttl : bytes) (st : state) :
    option (Trace * state) :=
  '(l, n) ← Nettrace.NewChild rnd now now' (t tr) fam ttl (net st);
  n ← Nettrace.SetMaxEvents l 100 n;
  Some (mkTrace fam ttl l, mkState n (logged st)).

(** [msg] is the formatted message. *)
Definition print (lv : level) (now : Z) (tr : Trace) (msg : bytes) (st : state) : option state :=
  n ← Nettrace.Printf now (t tr) msg (net st);
  Some (log lv tr (quote msg) (mkState n (logged st))).

Definition Printf := print Info.
Definition Debugf := print Debug.

Definition Error (now : Z) (tr : Trace) (err : bytes) (st : state) : option state :=
  n ← Nettrace.SetError (t tr) (net st);
  n ← Nettrace.Printf now (t tr) ("error: " ++ err) n;
  Some (log Info tr ("error: " ++ quote err) (mkState n (logged st))).

(** [Errorf] is [Error] on the error that it makes. *)
Definition Errorf := Error.

Definition Finish (now : Z) (tr : Trace) (st : state) : option state :=
  n ← Nettrace.Finish now (t tr) (net st);
  Some (mkState n (logged st)).

(** *** One line each *)

Lemma hex_digit_no_lf n : (n < 16)%N → hex_digit n ≠ LF.
Proof.
  intros Hn E. apply (f_equal Utf8.bval) in E. unfold hex_digit, Utf8.bval in E.
  rewrite N_ascii_embedding in E; [|destruct (N.ltb n 10); lia].
  change (N_of_ascii LF) with 10%N in E. destruct (N.ltb_spec n 10); lia.
Qed.

Lemma hex_digits_no_lf k n : LF ∉ hex_digits k n.
Proof.
  revert n. induction k as [|k IH]; intros n; [cbn; set_solver|]. cbn [hex_digits].
  rewrite not_elem_of_app. split; [done|]. intros Hin%list_elem_of_singleton. symmetry in Hin.
  revert Hin. apply hex_digit_no_lf. change 15%N with (N.ones 4). rewrite N.land_ones.
  change (2 ^ 4)%N with 16%N. apply N.mod_lt. done.
Qed.

(** A rune is printed as it is only if it is not a line break. *)
Lemma quote_rune_no_lf r b :
  (LF ∈ b → r = 10%N) → LF ∉ quote_rune (r, b).
Proof.
  intros Hlf. unfold quote_rune.
  assert (Hb : r ≠ 10%N → LF ∉ b) by tauto.
  repeat match goal with
  | |- context [if ?c then _ else _] => destruct c eqn:?
  end;
  rewrite ?not_elem_of_app, ?not_elem_of_cons;
  try (split_and!; try (apply (bool_decide_eq_true_1 _); reflexivity); try apply hex_digits_no_lf; done).
  - split; [done|]. apply Hb. intros ->. done.
  - apply Hb. intros ->. done.
Qed.

Lemma Quote_no_lf s : LF ∉ Quote s.
Proof.
  unfold Quote. rewrite !not_elem_of_app. split_and!; try (apply (bool_decide_eq_true_1 _); reflexivity).
  remember (length s) as n eqn:Hn. revert s Hn.
  induction (lt_wf n) as [n _ IH]. intros [|a s1] ->; [cbn; set_solver|].
  destruct (chunks_first a s1) as (r & b & s' & Hch & Hs & Hb & Hr). rewrite Hch.
  rewrite fmap_cons, concat_cons, not_elem_of_app. split.
  - destruct Hr as [Hall|[-> ->]].
    + assert (Hnb : LF ∉ b).
      { intros Hin. rewrite Forall_forall in Hall. by specialize (Hall _ Hin). }
      by apply quote_rune_no_lf.
    + apply quote_rune_no_lf. intros Hin%list_elem_of_singleton. by rewrite <- Hin.
  - eapply IH; [|reflexivity]. rewrite Hs, length_app. destruct b; [done|simpl; lia].
Qed.

Lemma quote_no_lf s : LF ∉ quote s.
Proof.
  unfold quote. intros Hin. apply (Quote_no_lf s).
  apply elem_of_take in Hin as (i & Hi & _). rewrite lookup_drop in Hi.
  by apply list_elem_of_lookup_2 in Hi.
Qed.

(** What is logged is one line, for a trace whose family and title are. *)
Definition one_line (tr : Trace) : Prop := (LF ∉ family tr) ∧ (LF ∉ title tr).

Lemma log_one_line lv tr msg st :
  one_line tr → LF ∉ msg → Forall (λ l, LF ∉ l.2) (logged st) →
  Forall (λ l, LF ∉ l.2) (logged (log lv tr msg st)).
Proof.
  intros [Hf Ht] Hm Hl. apply Forall_app. split; [done|].
  apply Forall_cons_2; [|constructor]. cbn [snd].
  rewrite !not_elem_of_app. split_and!; try done; apply (bool_decide_eq_true_1 _); reflexivity.
Qed.

Lemma print_one_line lv now tr msg st st' :
  one_line tr → print lv now tr msg st = Some st' →
  Forall (λ l, LF ∉ l.2) (logged st) → Forall (λ l, LF ∉ l.2) (logged st').
Proof.
  intros Ho E Hl. apply bind_Some in E as (n & _ & E). apply (inj Some) in E as <-.
  apply log_one_line; [done|apply quote_no_lf|done].
Qed.

Lemma Error_one_line now tr err st st' :
  one_line tr → Error now tr err st = Some st' →
  Forall (λ l, LF ∉ l.2) (logged st) → Forall (λ l, LF ∉ l.2) (logged st').
Proof.
  intros Ho E Hl. apply bind_Some in E as (n & _ & E). apply bind_Some in E as (n' & _ & E).
  apply (inj Some) in E as <-. apply log_one_line; [done| |done].
  rewrite not_elem_of_app. split; [apply (bool_decide_eq_true_1 _); reflexivity|apply quote_no_lf].
Qed.

End Trace.
End Trace.

(** ** internal/maillog *)
Module Maillog.

(** The messages that were written, whether [once] has run, and what was
    reported to the log of the program. *)
Record Logger := mkLogger {
  written : list bytes;
  once : bool;
  reports : list bytes;
  (** The [LogTime] of the inner logger. *)
  LogTime : bool;
}.

Definition New : Logger := mkLogger [] false [] true.

(** [opened] is the outcome of [log.NewFile] and of [log.NewSyslog]. *)
Definition NewFile (opened : option bytes) : res bytes Logger :=
  match opened with Some e => Err e | None => Ok New end.
Definition NewSyslog (opened : option bytes) : res bytes Logger :=
  match opened with Some e => Err e | None => Ok (mkLogger [] false [] false) end.

(** [err] is the error of writing. *)
Definition printf (err : option bytes) (line : bytes) (l : Logger) : Logger :=
  match err with
  | None => mkLogger (written l ++ [line]) (once l) (reports l) (LogTime l)
  | Some e =>
    if once l then l
    else mkLogger (written l) true
           (reports l ++ ["failed to write to maillog: " ++ e; "(will not report this again)"])
           (LogTime l)
  end.

(** The [%v] verb on a slice of strings. *)
Definition fmt_list (l : list bytes) : bytes := "[" ++ Join l " " ++ "]".

Definition listening_text (a : bytes) : bytes := "daemon listening on " ++ a.

Definition auth_text (netAddr user : bytes) (successful : bool) : bytes :=
  netAddr ++ " auth " ++ (if successful then "succeeded" else "failed") ++ " for " ++ user.

Definition rejected_text (netAddr from : bytes) (to : list bytes) (err : bytes) : bytes :=
  let from := if from == [] then [] else " from=" ++ from in
  let toStr := match to with [] => [] | _ => " to=" ++ fmt_list to end in
  netAddr ++ " rejected" ++ from ++ toStr ++ " - " ++ err.

Definition queued_text (netAddr from : bytes) (to : list bytes) (id : bytes) : bytes :=
  id ++ " from=" ++ from ++ " queued ip=" ++ netAddr ++ " to=" ++ fmt_list to.

Definition send_text (id from to : bytes) (err : option bytes) (permanent : bool) : bytes :=
  match err with
  | None => id ++ " from=" ++ from ++ " to=" ++ to ++ " sent"
  | Some e =>
    let t := if permanent then "(permanent)" else "(temporary)" in
    id ++ " from=" ++ from ++ " to=" ++ to ++ " failed " ++ t ++ ": " ++ e
  end.

Definition loop_text (id from : bytes) (nextDelay : Z) : bytes :=
  if (0 <? nextDelay)%Z
  then id ++ " from=" ++ from ++ " completed loop, next in " ++ Time.String nextDelay
  else id ++ " from=" ++ from ++ " all done".

(** The methods, in terms of the error of the write. *)
Definition Listening (err : option bytes) (a : bytes) := printf err (listening_text a).

(** [Auth] also adds to a trace. *)
Definition Auth `{Unicode} (err : option bytes) (now : Z) (authLog : Trace.Trace)
    (netAddr user : bytes) (successful : bool) (l : Logger) (st : Trace.state) :
    Logger * option Trace.state :=
  let msg := auth_text netAddr user successful in
  (printf err msg l, Trace.Debugf now authLog msg st).

Definition Rejected (err : option bytes) (netAddr from : bytes) (to : list bytes) (why : bytes) :=
  printf err (rejected_text netAddr from to why).
Definition Queued (err : option bytes) (netAddr from : bytes) (to : list bytes) (id : bytes) :=
  printf err (queued_text netAddr from to id).
Definition SendAttempt (err : option bytes) (id from to : bytes) (failure : option bytes)
    (permanent : bool) := printf err (send_text id from to failure permanent).
Definition QueueLoop (err : option bytes) (id from : bytes) (nextDelay : Z) :=
  printf err (loop_text id from nextDelay).

(** A sequence of messages, each with the error of its write. *)
Definition printf_all (calls : list (option bytes * bytes)) (l : Logger) : Logger :=
  foldl (λ l c, printf c.1 c.2 l) l calls.

(** The messages whose write worked are in the log, in order; a failure is
    reported the first time only. *)
Lemma printf_all_spec calls l :
  once l = false →
  written (printf_all calls l) =
    written l ++ omap (λ c, match c.1 with None => Some c.2 | Some _ => None end) calls ∧
  reports (printf_all calls l) =
    reports l ++ match omap fst calls with
                 | [] => []
                 | e :: _ => ["failed to write to maillog: " ++ e; "(will not report this again)"]
                 end.
Proof.
  assert (Hafter : ∀ calls l, once l = true →
    written (printf_all calls l) =
      written l ++ omap (λ c, match c.1 with None => Some c.2 | Some _ => None end) calls ∧
    reports (printf_all calls l) = reports l).
  { clear. induction calls as [|[[e|] m] calls IH]; intros l Ho; cbn.
    - by rewrite app_nil_r.
    - unfold printf_all in *. cbn. rewrite Ho. by apply IH.
    - destruct (IH (printf None m l) Ho) as [Hw Hr]. unfold printf_all in *. cbn in *.
      by rewrite Hw, Hr, <- (assoc_L (++)). }
  revert l. induction calls as [|[[e|] m] calls IH]; intros l Ho; cbn.
  - by rewrite !app_nil_r.
  - unfold printf_all in *. cbn. rewrite Ho.
    match goal with |- context [foldl _ ?x calls] => destruct (Hafter calls x eq_refl) as [Hw Hr] end.
    by rewrite Hw, Hr.
  - destruct (IH (printf None m l) Ho) as [Hw Hr]. unfold printf_all in *. cbn in *.
    by rewrite Hw, Hr, <- (assoc_L (++)).
Qed.

End Maillog.
