(* ===== verification/Dovecot.v ===== *)
(** The client of Dovecot's authentication service: package
    [internal/dovecot].  A connection is the stream of bytes that the service
    sends and the number of writes that get through to it; dialling is a
    function of the number of dials made before and of the path, so that a
    socket can come and go between two of them. *)

From S2P Require Import Prelude GoStrings DotReader SmtpClient Auth.
#[local] Open Scope go_scope.

Module Dovecot.
Import DotReader.

Inductive error :=
| errUsernameNotSafe
| errFailedToConnect
| errNoUserdbSocket
| errNoClientSocket
| DialError (msg : bytes)
| WriteError (msg : bytes)
| ErrVersion (e : SmtpClient.error + bytes)
| ErrSPID (e : SmtpClient.error + bytes)
| ErrHandshake (e : SmtpClient.error)
| ErrResponse (e : SmtpClient.error)
| InvalidResponse (resp : bytes).

#[local] Existing Instance SmtpClient.client_error_eq_dec.
#[export] Instance dovecot_error_eq_dec : EqDecision error.
Proof. solve_decision. Defined.

Definition defaultUserdbPaths : list bytes :=
  ["/var/run/dovecot/auth-chasquid-userdb" : bytes; "/var/run/dovecot/auth-userdb"].

Definition defaultClientPaths : list bytes :=
  ["/var/run/dovecot/auth-chasquid-client" : bytes; "/var/run/dovecot/auth-client"].

Record Auth := mkAuth {
  userdb : bytes;
  client : bytes;
}.

Definition NewAuth (userdb client : bytes) : Auth := mkAuth userdb client.

Definition Auth_String `{Unicode} (a : Auth) : bytes :=
  "DovecotAuth(" ++ Quote (userdb a) ++ ", " ++ Quote (client a) ++ ")".

(** ** Connections *)

(** How many writes get through, [None] for all. *)
Record link := mkLink {
  lk_in : reader;
  lk_alive : option nat;
}.

Abbreviation world := (nat → bytes → res bytes link).

Record conn := mkConn {
  rd : reader;
  alive : option nat;
  sent : list bytes;
}.

Definition dial (w : world) (n : nat) (addr : bytes) : nat * res error conn :=
  (S n, match w n addr with
        | Ok l => Ok (mkConn (lk_in l) (lk_alive l) [])
        | Err msg => Err (DialError msg)
        end).

Definition canDial (w : world) (n : nat) (path : bytes) : nat * bool :=
  let '(n, r) := dial w n path in (n, is_ok r).

Definition write (c : conn) (msg : bytes) : conn * option error :=
  match alive c with
  | None => (mkConn (rd c) None (sent c ++ [msg]), None)
  | Some (S k) => (mkConn (rd c) (Some k) (sent c ++ [msg]), None)
  | Some 0 => (c, Some (WriteError "write: broken pipe"))
  end.

Definition readLine (c : conn) : conn * res SmtpClient.error bytes :=
  let '(r, l) := SmtpClient.ReadLine (rd c) in (mkConn r (alive c) (sent c), l).

Definition expect (c : conn) (prefix : bytes) : conn * option (SmtpClient.error + bytes) :=
  let '(c, r) := readLine c in
  (c, match r with
      | Err e => Some (inl e)
      | Ok resp => if HasPrefix resp prefix then None else Some (inr resp)
      end).

Definition isUsernameSafe (user : bytes) : bool :=
  forallb (λ r, negb (IsSpace r)) (Utf8.runes user).

(** ** Addresses *)

(** The first path that can be dialled. *)
Fixpoint first_path (w : world) (n : nat) (paths : list bytes) : nat * bytes :=
  match paths with
  | [] => (n, [])
  | p :: paths =>
    let '(n, ok) := canDial w n p in
    if ok : bool then (n, p) else first_path w n paths
  end.

(** An address that is not set is looked for among the default paths. *)
Definition find_addr (w : world) (n : nat) (addr : bytes) (paths : list bytes) :
    nat * bytes :=
  if addr == [] then first_path w n paths else (n, addr).

Definition getAddrs (w : world) (n : nat) (a : Auth) :
    Auth * nat * res error (bytes * bytes) :=
  let '(n, u) := find_addr w n (userdb a) defaultUserdbPaths in
  let a := mkAuth u (client a) in
  if u == [] then (a, n, Err errNoUserdbSocket)
  else
    let '(n, c) := find_addr w n (client a) defaultClientPaths in
    let a := mkAuth u c in
    if c == [] then (a, n, Err errNoClientSocket)
    else (a, n, Ok (u, c)).

(** The second socket is not dialled when the first cannot be. *)
Definition Check (w : world) (n : nat) (a : Auth) : Auth * nat * option error :=
  let '(a, n, r) := getAddrs w n a in
  match r with
  | Err e => (a, n, Some e)
  | Ok (u, c) =>
    let '(n, ok) := canDial w n u in
    if ok : bool then
      let '(n, ok) := canDial w n c in
      (a, n, if ok : bool then None else Some errFailedToConnect)
    else (a, n, Some errFailedToConnect)
  end.

(** ** Requests *)

Definition user_request (user : bytes) : bytes :=
  "USER" ++ [TAB] ++ "1" ++ [TAB] ++ user ++ [TAB] ++ "service=smtp" ++ [LF].

Definition version_request : bytes := "VERSION" ++ [TAB] ++ "1" ++ [TAB] ++ "1" ++ [LF].

(** The conversation of [Exists] on the connection. *)
Definition exists_on (c : conn) (user : bytes) : conn * res error bool :=
  match expect c ("VERSION" ++ [TAB] ++ "1") with
  | (c, Some e) => (c, Err (ErrVersion e))
  | (c, None) =>
    match expect c ("SPID" ++ [TAB]) with
    | (c, Some e) => (c, Err (ErrSPID e))
    | (c, None) =>
      match write c version_request with
      | (c, Some e) => (c, Err e)
      | (c, None) =>
        match write c (user_request user) with
        | (c, Some e) => (c, Err e)
        | (c, None) =>
          match readLine c with
          | (c, Err e) => (c, Err (ErrResponse e))
          | (c, Ok resp) =>
            (c, if HasPrefix resp ("USER" ++ [TAB] ++ "1" ++ [TAB]) then Ok true
                else if HasPrefix resp ("NOTFOUND" ++ [TAB]) then Ok false
                else Err (InvalidResponse resp))
          end
        end
      end
    end
  end.

(** The connection is [None] when none was made. *)
Definition Exists (w : world) (n : nat) (a : Auth) (user : bytes) :
    Auth * nat * option conn * res error bool :=
  if negb (isUsernameSafe user) then (a, n, None, Err errUsernameNotSafe)
  else
    let '(a, n, r) := getAddrs w n a in
    match r with
    | Err e => (a, n, None, Err e)
    | Ok (userdbAddr, _) =>
      let '(n, r) := dial w n userdbAddr in
      match r with
      | Err e => (a, n, None, Err e)
      | Ok c => let '(c, r) := exists_on c user in (a, n, Some c, r)
      end
    end.

Definition hello (pid : Z) : bytes :=
  "VERSION" ++ [TAB] ++ "1" ++ [TAB] ++ "1" ++ [LF] ++
  "CPID" ++ [TAB] ++ Itoa pid ++ [LF].

Definition plain_auth (user passwd : bytes) : bytes :=
  Base64.EncodeToString (user ++ [NUL] ++ user ++ [NUL] ++ passwd).

Definition auth_request (user passwd : bytes) : bytes :=
  "AUTH" ++ [TAB] ++ "1" ++ [TAB] ++ "PLAIN" ++ [TAB] ++ "service=smtp" ++ [TAB] ++
  "secured" ++ [TAB] ++ "no-penalty" ++ [TAB] ++ "nologin" ++ [TAB] ++
  "resp=" ++ plain_auth user passwd ++ [LF].

(** Reads lines up to the one that says DONE.  Each takes at least a byte. *)
Fixpoint read_handshake (fuel : nat) (c : conn) : conn * option SmtpClient.error :=
  match fuel with
  | 0 => (c, Some (SmtpClient.IOError (ending (rd c))))
  | S fuel =>
    match readLine c with
    | (c, Err e) => (c, Some e)
    | (c, Ok resp) => if resp == "DONE" then (c, None) else read_handshake fuel c
    end
  end.

Definition authenticate_on (pid : Z) (c : conn) (user passwd : bytes) :
    conn * res error bool :=
  match write c (hello pid) with
  | (c, Some e) => (c, Err e)
  | (c, None) =>
    match read_handshake (S (length (pending (rd c)))) c with
    | (c, Some e) => (c, Err (ErrHandshake e))
    | (c, None) =>
      match write c (auth_request user passwd) with
      | (c, Some e) => (c, Err e)
      | (c, None) =>
        match readLine c with
        | (c, Err e) => (c, Err (ErrResponse e))
        | (c, Ok resp) =>
          (c, if HasPrefix resp ("OK" ++ [TAB] ++ "1") then Ok true
              else if HasPrefix resp ("FAIL" ++ [TAB] ++ "1") then Ok false
              else Err (InvalidResponse resp))
        end
      end
    end
  end.

Definition Authenticate (pid : Z) (w : world) (n : nat) (a : Auth) (user passwd : bytes) :
    Auth * nat * option conn * res error bool :=
  if negb (isUsernameSafe user) then (a, n, None, Err errUsernameNotSafe)
  else
    let '(a, n, r) := getAddrs w n a in
    match r with
    | Err e => (a, n, None, Err e)
    | Ok (_, clientAddr) =>
      let '(n, r) := dial w n clientAddr in
      match r with
      | Err e => (a, n, None, Err e)
      | Ok c => let '(c, r) := authenticate_on pid c user passwd in (a, n, Some c, r)
      end
    end.

Definition Reload (a : Auth) : Auth * option error := (a, None).

(** ** As a backend

    The texts of the errors. *)
Section Backend.
Context `{Unicode}.

(** The [%03d] verb. *)
Definition fmt_03d (z : Z) : bytes :=
  if Z.ltb z 10 then "00" ++ Itoa z
  else if Z.ltb z 100 then "0" ++ Itoa z else Itoa z.

Definition client_error_text (e : SmtpClient.error) : bytes :=
  match e with
  | SmtpClient.TextError code msg => fmt_03d code ++ " " ++ msg
  | SmtpClient.ProtocolError msg => msg
  | SmtpClient.IOError EndEOF => "EOF"
  | SmtpClient.IOError (EndError msg) => msg
  | SmtpClient.WriteError msg => msg
  end.

Definition expect_error_text (e : SmtpClient.error + bytes) : bytes :=
  match e with
  | inl e => client_error_text e
  | inr resp => "got " ++ Quote resp
  end.

Definition error_text (e : error) : bytes :=
  match e with
  | errUsernameNotSafe => "username not safe (contains spaces)"
  | errFailedToConnect => "failed to connect to dovecot"
  | errNoUserdbSocket => "unable to find userdb socket"
  | errNoClientSocket => "unable to find client socket"
  | DialError msg => msg
  | WriteError msg => msg
  | ErrVersion e => "error receiving version: " ++ expect_error_text e
  | ErrSPID e => "error receiving SPID: " ++ expect_error_text e
  | ErrHandshake e => "error receiving handshake: " ++ client_error_text e
  | ErrResponse e => "error receiving response: " ++ client_error_text e
  | InvalidResponse resp => "invalid response: " ++ Quote resp
  end.

(** The service with the world that it is asked in. *)
Record service := mkService {
  sv_auth : Auth;
  sv_world : world;
  sv_dials : nat;
  sv_pid : Z;
}.

Definition verdict (r : res error bool) : bool * option Auth.Auth.error :=
  match r with
  | Ok ok => (ok, None)
  | Err e => (false, Some (Auth.Auth.ErrBackend (error_text e)))
  end.

#[export] Instance dovecot_backend : Auth.Auth.Backend service :=
  {| Auth.Auth.be_Authenticate (s : service) (user passwd : bytes) :=
       Some (verdict (Authenticate (sv_pid s) (sv_world s) (sv_dials s) (sv_auth s)
                        user passwd).2);
     Auth.Auth.be_Exists (s : service) (user : bytes) :=
       verdict (Exists (sv_world s) (sv_dials s) (sv_auth s) user).2;
     Auth.Auth.be_Reload (_ : Auth.Auth.disk) (s : service) :=
       (mkService (Reload (sv_auth s)).1 (sv_world s) (sv_dials s) (sv_pid s), None) |}.

End Backend.

End Dovecot.
