(* ===== verification/DovecotProps.v ===== *)
(** What is proved of Dovecot.v: what is sent, what the answers mean, and the
    service as the fallback of the authenticator. *)

From S2P Require Import Prelude GoStrings Envelope Store DotReader SmtpClient Auth Dovecot.
#[local] Open Scope go_scope.

Module DovecotProps.
Import DotReader Dovecot.

(** ** Requests *)

Lemma safe_no_space user c :
  isUsernameSafe user = true → IsSpace (Utf8.bval c) = true → Utf8.is_ascii c = true →
  c ∉ user.
Proof.
  unfold isUsernameSafe. intros Hs Hc Ha Hin. apply Forall_In_bool in Hs.
  pose proof (runes_ascii user c Hin Ha) as Hr. rewrite Forall_forall in Hs.
  specialize (Hs _ Hr). by rewrite Hc in Hs.
Qed.

Lemma enc_digit_tab d : Base64.enc_digit d ≠ TAB.
Proof.
  destruct (decide (d < 64)%N) as [Hd|Hd].
  - pose proof (Base64.dec_enc_digit d Hd) as E. intros E'. by rewrite E' in E.
  - unfold Base64.enc_digit. repeat rewrite (proj2 (N.ltb_ge _ _)) by lia.
    by rewrite (proj2 (N.eqb_neq _ _)) by lia.
Qed.

Lemma EncodeToString_no_tab s : TAB ∉ Base64.EncodeToString s.
Proof.
  induction s as [s IH] using (induction_ltof1 _ (@length ascii)).
  unfold ltof in IH. destruct s as [|a [|b [|c s]]]; simpl;
    repeat first [apply not_elem_of_nil | apply not_elem_of_cons; split];
    try (apply not_eq_sym, enc_digit_tab); try done.
  apply IH. simpl. lia.
Qed.

Lemma EncodeToString_no_lf s : LF ∉ Base64.EncodeToString s.
Proof.
  intros Hin. pose proof (Base64.EncodeToString_no_break s) as Hf.
  rewrite Forall_forall in Hf. by destruct (Hf _ Hin).
Qed.

(** A request as the service reads it: one line, its fields between tabs. *)
Definition is_request (text : bytes) (fields : list bytes) : Prop :=
  ∃ line, Split text [LF] = [line; []] ∧ Split line [TAB] = fields.

Definition field_ok (f : bytes) : Prop := (TAB ∉ f) ∧ (LF ∉ f).

#[local] Instance field_ok_dec f : Decision (field_ok f).
Proof. unfold field_ok. apply _. Defined.

Lemma is_request_join fields :
  fields ≠ [] → Forall field_ok fields →
  is_request (Join fields [TAB] ++ [LF]) fields.
Proof.
  intros Hne Hf. exists (Join fields [TAB]). split.
  - assert (Hlf : LF ∉ Join fields [TAB]).
    { clear Hne. induction Hf as [|f fs [_ Hl] Hfs IH]; [set_solver|].
      destruct fs as [|f' fs]; [done|]. rewrite Join_cons by done.
      rewrite !not_elem_of_app. split_and!; [done|by set_solver|done]. }
    rewrite <- (right_id_L [] (++) (Join fields [TAB] ++ [LF])).
    apply (Split_terminated [Join fields [TAB]] LF). by constructor.
  - apply Split_Join_byte; [done|]. eapply Forall_impl; [exact Hf|]. by intros ? [].
Qed.

Lemma user_request_ok user :
  isUsernameSafe user = true →
  is_request (user_request user) ["USER" : bytes; "1"; user; "service=smtp"].
Proof.
  intros Hs.
  replace (user_request user)
    with (Join ["USER" : bytes; "1"; user; "service=smtp"] [TAB] ++ [LF])
    by (simpl; by rewrite <- !app_assoc).
  apply is_request_join; [done|].
  apply (Forall_app_2 _ ["USER" : bytes; "1"]);
    [apply (bool_decide_eq_true_1 _); vm_compute; reflexivity|].
  apply Forall_cons_2; [|apply (bool_decide_eq_true_1 _); vm_compute; reflexivity].
  split; by apply safe_no_space.
Qed.

Lemma auth_request_ok user passwd :
  is_request (auth_request user passwd)
    ["AUTH" : bytes; "1"; "PLAIN"; "service=smtp"; "secured"; "no-penalty"; "nologin";
     "resp=" ++ plain_auth user passwd].
Proof.
  replace (auth_request user passwd)
    with (Join ["AUTH" : bytes; "1"; "PLAIN"; "service=smtp"; "secured"; "no-penalty";
                "nologin"; "resp=" ++ plain_auth user passwd] [TAB] ++ [LF])
    by (simpl; by rewrite <- ?app_assoc).
  apply is_request_join; [done|].
  apply (Forall_app_2 _ ["AUTH" : bytes; "1"; "PLAIN"; "service=smtp"; "secured";
                         "no-penalty"; "nologin"]);
    [apply (bool_decide_eq_true_1 _); vm_compute; reflexivity|].
  apply Forall_cons_2; [|apply Forall_nil_2].
  assert (Hc : field_ok "resp=") by (apply (bool_decide_eq_true_1 _); vm_compute; reflexivity).
  destruct Hc as [Ht Hl]. split; rewrite not_elem_of_app; split; [done| |done|].
  - apply EncodeToString_no_tab.
  - apply EncodeToString_no_lf.
Qed.

(** ** What is sent *)

Lemma write_sent c msg c' err :
  write c msg = (c', err) →
  rd c' = rd c ∧ (sent c' = sent c ++ [msg] ∧ err = None ∨ sent c' = sent c ∧ err ≠ None).
Proof.
  unfold write. destruct (alive c) as [[|k]|]; intros; simplify_eq; simpl; auto.
Qed.

Lemma readLine_sent c : sent (readLine c).1 = sent c.
Proof. unfold readLine. by destruct (SmtpClient.ReadLine (rd c)). Qed.

Lemma expect_sent c p : sent (expect c p).1 = sent c.
Proof.
  unfold expect. pose proof (readLine_sent c). by destruct (readLine c).
Qed.

Lemma read_handshake_sent n c : sent (read_handshake n c).1 = sent c.
Proof.
  revert c. induction n as [|n IH]; intros c; simpl; [done|].
  pose proof (readLine_sent c) as Hr. destruct (readLine c) as [c1 [l|e]]; simpl in *; [|done].
  destruct (bool_decide _); [done|]. by rewrite IH.
Qed.

#[local] Arguments read_handshake : simpl never.

(** Rewrite with what the steps of a conversation do to [sent]. *)
#[local] Ltac conv :=
  repeat match goal with
  | |- context [expect ?c ?p] =>
      let H := fresh "Hs" in pose proof (expect_sent c p) as H;
      destruct (expect c p) as [? [?|]]; simpl in H |- *
  | |- context [readLine ?c] =>
      let H := fresh "Hs" in pose proof (readLine_sent c) as H;
      destruct (readLine c) as [? [?|?]]; simpl in H |- *
  | |- context [read_handshake ?n ?c] =>
      let H := fresh "Hs" in pose proof (read_handshake_sent n c) as H;
      destruct (read_handshake n c) as [? [?|]]; simpl in H |- *
  | |- context [write ?c ?m] =>
      let H := fresh "Hw" in
      destruct (write c m) as [? [?|]] eqn:H;
      apply write_sent in H as [_ [[H ?]|[H ?]]]; simplify_eq; simpl
  end.

Lemma exists_on_sent c user :
  sent c = [] → sent (exists_on c user).1 `prefix_of` [version_request; user_request user].
Proof.
  intros Hc. unfold exists_on. conv;
    repeat match goal with H : sent _ = _ |- _ => rewrite H; clear H end; simpl;
    rewrite ?Hc; simpl; first [apply prefix_nil | by eexists | by exists [user_request user]].
Qed.

Lemma authenticate_on_sent pid c user passwd :
  sent c = [] →
  sent (authenticate_on pid c user passwd).1 `prefix_of` [hello pid; auth_request user passwd].
Proof.
  intros Hc. unfold authenticate_on. conv;
    repeat match goal with H : sent _ = _ |- _ => rewrite H; clear H end; simpl;
    rewrite ?Hc; simpl;
    first [apply prefix_nil | by eexists | by exists [auth_request user passwd]].
Qed.

(** C14: Whatever the user and the password are, Dovecot is sent at most the
    greeting and one request, which it reads as a single line with just the
    fields that are meant: no user name or password can add a command or a
    field.  What it decodes from the response in the request is the user, NUL, the
    user, NUL and the password; so, when there is no NUL in either of them, the
    three fields of PLAIN are the user, the user and the password. *)
Theorem requests_exact pid w n a user passwd :
  (match (Exists w n a user).1.2 with
   | None => True
   | Some c =>
     sent c `prefix_of` [version_request; user_request user] ∧
     is_request (user_request user) ["USER" : bytes; "1"; user; "service=smtp"]
   end) ∧
  (match (Authenticate pid w n a user passwd).1.2 with
   | None => True
   | Some c =>
     sent c `prefix_of` [hello pid; auth_request user passwd] ∧
     is_request (auth_request user passwd)
       ["AUTH" : bytes; "1"; "PLAIN"; "service=smtp"; "secured"; "no-penalty"; "nologin";
        "resp=" ++ plain_auth user passwd] ∧
     ∃ plain, Base64.DecodeString (plain_auth user passwd) = Some plain ∧
       plain = user ++ [NUL] ++ user ++ [NUL] ++ passwd ∧
       ((NUL ∉ user) → (NUL ∉ passwd) → Split plain [NUL] = [user; user; passwd])
   end).
Proof.
  split; [unfold Exists|unfold Authenticate];
    destruct (isUsernameSafe user) eqn:Hs; simpl; try done;
    destruct (getAddrs w n a) as [[a1 n1] [[u c]|e]]; simpl; try done;
    (destruct (w n1 _) as [l|e]; simpl; [|done]).
  - match goal with |- context [exists_on ?c0 user] =>
      pose proof (exists_on_sent c0 user eq_refl); destruct (exists_on c0 user) end.
    simpl in *. split; [done|]. by apply user_request_ok.
  - match goal with |- context [authenticate_on pid ?c0 user passwd] =>
      pose proof (authenticate_on_sent pid c0 user passwd eq_refl);
      destruct (authenticate_on pid c0 user passwd) end.
    simpl in *. split; [done|]. split; [apply auth_request_ok|].
    eexists. split; [apply Base64.DecodeString_EncodeToString|]. split; [done|].
    intros Hu Hp. exact (Split_Join_byte [user; user; passwd] NUL ltac:(done) ltac:(by repeat constructor)).
Qed.

(** ** What the answers mean *)

(** The lines of a stream, as [ReadLine] gives them. *)
Fixpoint lines_fuel (n : nat) (s : bytes) : list bytes :=
  match n, s with
  | 0, _ | _, [] => []
  | S n, _ =>
    match Cut s [LF] with
    | Some (l, rest) => TrimSuffix l [CR] :: lines_fuel n rest
    | None => [s]
    end
  end.

Definition lines_of (s : bytes) : list bytes := lines_fuel (length s) s.

Lemma lines_fuel_enough n m s :
  length s ≤ n → length s ≤ m → lines_fuel n s = lines_fuel m s.
Proof.
  revert m s. induction n as [|n IH]; intros [|m] [|c s] Hn Hm; simpl in Hn, Hm; try lia;
    try done.
  cbn [lines_fuel]. destruct (Cut (c :: s) [LF]) as [[l rest]|] eqn:E; [|done].
  f_equal. apply Cut_length in E; [|done]. simpl in E. apply IH; lia.
Qed.

Lemma ReadLine_lines r :
  match lines_of (pending r) with
  | [] => SmtpClient.ReadLine r = (r, Err (SmtpClient.IOError (ending r)))
  | l :: ls => ∃ r', SmtpClient.ReadLine r = (r', Ok l) ∧ lines_of (pending r') = ls ∧
      ending r' = ending r ∧ length (pending r') < length (pending r)
  end.
Proof.
  unfold SmtpClient.ReadLine, lines_of. destruct r as [p e].
  cbn [pending ending]. destruct p as [|c p]; [done|].
  cbn [lines_fuel length]. destruct (Cut (c :: p) [LF]) as [[l rest]|] eqn:E.
  - eexists; split; [done|]. simpl. apply Cut_length in E; [|done]. simpl in E.
    split; [apply lines_fuel_enough; lia|]. split; [done|lia].
  - eexists; split; [done|]. simpl. split; [done|]. split; [done|lia].
Qed.

Lemma readLine_lines c :
  match lines_of (pending (rd c)) with
  | [] => ∃ e, readLine c = (c, Err e)
  | l :: ls => ∃ c', readLine c = (c', Ok l) ∧ lines_of (pending (rd c')) = ls ∧
      alive c' = alive c ∧ length (pending (rd c')) < length (pending (rd c))
  end.
Proof.
  unfold readLine. pose proof (ReadLine_lines (rd c)) as Hr.
  destruct (lines_of _) as [|l ls].
  - rewrite Hr. destruct c. eauto.
  - destruct Hr as (r' & -> & Hl & _ & Hlen). eexists; split; [done|]. done.
Qed.

(** The lines after the handshake. *)
Fixpoint after_done (ls : list bytes) : option (list bytes) :=
  match ls with
  | [] => None
  | l :: ls => if l == "DONE" then Some ls else after_done ls
  end.

Lemma read_handshake_S n c :
  read_handshake (S n) c =
    match readLine c with
    | (c, Err e) => (c, Some e)
    | (c, Ok resp) => if resp == "DONE" then (c, None) else read_handshake n c
    end.
Proof. done. Qed.

Lemma read_handshake_lines n c :
  length (pending (rd c)) < n →
  match after_done (lines_of (pending (rd c))) with
  | None => ∃ c' e, read_handshake n c = (c', Some e)
  | Some ls => ∃ c', read_handshake n c = (c', None) ∧ lines_of (pending (rd c')) = ls ∧
      alive c' = alive c
  end.
Proof.
  revert c. induction n as [|n IH]; intros c Hn; [lia|]. rewrite read_handshake_S.
  pose proof (readLine_lines c) as Hr. destruct (lines_of (pending (rd c))) as [|l ls];
    cbn [after_done].
  - destruct Hr as [e ->]. eauto.
  - destruct Hr as (c' & -> & Hl & Ha & Hlen). destruct (bool_decide (l = _)); [by eauto|].
    specialize (IH c' ltac:(lia)). rewrite Hl in IH.
    destruct (after_done ls) as [ls'|]; [|done].
    destruct IH as (c2 & ? & ? & ?). exists c2. split_and!; [done..|congruence].
Qed.

(** What a reply to AUTH means. *)
Definition reply_means (reply : bytes) : res error bool :=
  if HasPrefix reply ("OK" ++ [TAB] ++ "1") then Ok true
  else if HasPrefix reply ("FAIL" ++ [TAB] ++ "1") then Ok false
  else Err (InvalidResponse reply).

(** The part of [authenticate_on] after the handshake. *)
Definition ask (c : conn) (user passwd : bytes) : conn * res error bool :=
  match write c (auth_request user passwd) with
  | (c, Some e) => (c, Err e)
  | (c, None) =>
    match readLine c with
    | (c, Err e) => (c, Err (ErrResponse e))
    | (c, Ok resp) => (c, reply_means resp)
    end
  end.

Lemma authenticate_on_lines pid c user passwd :
  alive c = None →
  match after_done (lines_of (pending (rd c))) with
  | None => ∃ e, (authenticate_on pid c user passwd).2 = Err (ErrHandshake e)
  | Some [] => ∃ e, (authenticate_on pid c user passwd).2 = Err (ErrResponse e)
  | Some (reply :: _) => (authenticate_on pid c user passwd).2 = reply_means reply
  end.
Proof.
  intros Ha. set (r := (authenticate_on pid c user passwd).2).
  set (c1 := mkConn (rd c) None (sent c ++ [hello pid])).
  assert (Hr : r = match read_handshake (S (length (pending (rd c1)))) c1 with
                   | (c, Some e) => Err (ErrHandshake e)
                   | (c, None) => (ask c user passwd).2
                   end).
  { subst r. unfold authenticate_on. unfold write at 1. rewrite Ha.
    cbv beta iota. fold c1.
    destruct (read_handshake _ c1) as [? [?|]]; reflexivity. }
  clearbody r. subst r.
  pose proof (read_handshake_lines (S (length (pending (rd c1)))) c1 ltac:(lia)) as Hh.
  change (rd c1) with (rd c) in Hh at 1. destruct (after_done _) as [ls|].
  - destruct Hh as (c' & -> & Hl & Ha'). unfold ask, write. rewrite Ha'.
    change (alive c1) with (None : option nat). cbv iota beta.
    set (c2 := mkConn _ _ _). pose proof (readLine_lines c2) as Hr.
    change (rd c2) with (rd c') in Hr. rewrite Hl in Hr. destruct ls as [|reply ls].
    + destruct Hr as [e ->]. eauto.
    + destruct Hr as (c3 & -> & _). done.
  - destruct Hh as (c' & e & ->). eauto.
Qed.

(** On a connection that takes what is sent, [Authenticate] says yes exactly
    when the line that the service sends after the end of its handshake is an
    approval, and no exactly when it is a refusal; anything else, silence
    included, is an error and never a yes. *)
Theorem Authenticate_verdict pid w n a user passwd l ok :
  isUsernameSafe user = true → w n (client a) = Ok l → lk_alive l = None →
  userdb a ≠ [] → client a ≠ [] →
  (Authenticate pid w n a user passwd).2 = Ok ok ↔
  ∃ reply ls, after_done (lines_of (pending (lk_in l))) = Some (reply :: ls) ∧
    if (ok : bool) then HasPrefix reply ("OK" ++ [TAB] ++ "1") = true
    else HasPrefix reply ("FAIL" ++ [TAB] ++ "1") = true.
Proof.
  intros Hs Hw Hl Hu Hc. unfold Authenticate. rewrite Hs. simpl.
  unfold getAddrs, find_addr. rewrite (bool_decide_eq_false_2 _ Hu). simpl.
  rewrite (bool_decide_eq_false_2 _ Hu), (bool_decide_eq_false_2 _ Hc). simpl.
  rewrite (bool_decide_eq_false_2 _ Hc). simpl. rewrite Hw.
  set (c := mkConn _ _ _).
  pose proof (authenticate_on_lines pid c user passwd Hl) as Ha. simpl in Ha.
  destruct (authenticate_on pid c user passwd) as [c' r]. simpl in *.
  destruct (after_done _) as [[|reply ls]|].
  - destruct Ha as [e ->]. split; [done|]. by intros (? & ? & ? & _).
  - subst r. unfold reply_means. split.
    + intros Hr. exists reply, ls. split; [done|].
      destruct (HasPrefix reply _) eqn:E1; [by simplify_eq|].
      destruct (HasPrefix reply ("FAIL" ++ _)) eqn:E2; by simplify_eq.
    + intros (reply' & ls' & [= <- <-] & Hp). destruct ok; cbn [app] in Hp |- *; [by rewrite Hp|].
      rewrite Hp. apply HasPrefix_spec in Hp as [x ->]. done.
  - destruct Ha as [e ->]. split; [done|]. by intros (? & ? & ? & _).
Qed.

(** ** Soundness of a yes *)

(** The service approved on the connection. *)
Definition approves (l : link) : Prop :=
  ∃ reply ls, after_done (lines_of (pending (lk_in l))) = Some (reply :: ls) ∧
    HasPrefix reply ("OK" ++ [TAB] ++ "1") = true.

Lemma reply_means_yes reply :
  reply_means reply = Ok true → HasPrefix reply ("OK" ++ [TAB] ++ "1") = true.
Proof.
  unfold reply_means. destruct (HasPrefix reply _); [done|].
  by destruct (HasPrefix reply ("FAIL" ++ _)).
Qed.

Definition on_link (l : link) : conn := mkConn (lk_in l) (lk_alive l) [].

(** Dovecot was sent the greeting and the request of the user, and nothing else,
    and approved it. *)
Definition approved (pid : Z) (user passwd : bytes) (l : link) : Prop :=
  approves l ∧
  sent (authenticate_on pid (on_link l) user passwd).1 = [hello pid; auth_request user passwd].

Lemma authenticate_on_yes pid l user passwd :
  (authenticate_on pid (on_link l) user passwd).2 = Ok true → approved pid user passwd l.
Proof.
  unfold approved, authenticate_on. set (c := on_link l).
  destruct (write c (hello pid)) as [c1 [e|]] eqn:Hw; [done|].
  apply write_sent in Hw as [Hrd [[Hs1 _]|[_ Hn]]]; [|done].
  remember (S (length (pending (rd c1)))) as n eqn:Hn.
  pose proof (read_handshake_lines n c1 ltac:(lia)) as Hh.
  pose proof (read_handshake_sent n c1) as Hs2.
  rewrite Hrd in Hh. change (rd c) with (lk_in l) in Hh.
  unfold approves. destruct (after_done _) as [ls|];
    [|destruct Hh as (? & ? & Hh); rewrite Hh; done].
  destruct Hh as (c2 & Hh & Hl & _). rewrite Hh in Hs2 |- *. simpl in Hs2.
  destruct (write c2 _) as [c3 [e|]] eqn:Hw3; [done|].
  apply write_sent in Hw3 as [Hrd3 [[Hs3 _]|[_ Hn3]]]; [|done].
  pose proof (readLine_lines c3) as Hr. pose proof (readLine_sent c3) as Hs4.
  rewrite Hrd3, Hl in Hr. destruct ls as [|reply ls].
  - destruct Hr as [e Hr]. rewrite Hr. done.
  - destruct Hr as (c4 & Hr & _). rewrite Hr in Hs4 |- *. intros Hy. split.
    + exists reply, ls. split; [done|]. by apply reply_means_yes.
    + simpl in *. by rewrite Hs4, Hs3, Hs2, Hs1.
Qed.

Lemma Authenticate_yes pid w n a user passwd :
  (Authenticate pid w n a user passwd).2 = Ok true →
  isUsernameSafe user = true ∧ ∃ k path l, w k path = Ok l ∧ approved pid user passwd l.
Proof.
  unfold Authenticate. destruct (isUsernameSafe user); simpl; [|done].
  destruct (getAddrs w n a) as [[a1 n1] [[u c]|e]]; simpl; [|done].
  destruct (w n1 c) as [l|e] eqn:Hw; simpl; [|done]. intros Hy. split; [done|].
  exists n1, c, l. split; [done|]. apply authenticate_on_yes. unfold on_link.
  by destruct (authenticate_on _ _ _ _).
Qed.

(** ** Addresses *)

(** An address that was given or found is kept for good; one that was not is
    the first of the default paths that could be dialled. *)
Theorem getAddrs_stable w n a :
  let '(a', n', r) := getAddrs w n a in
  (userdb a ≠ [] → userdb a' = userdb a) ∧ (client a ≠ [] → client a' = client a) ∧
  match r with
  | Ok (u, c) =>
    u = userdb a' ∧ c = client a' ∧ u ≠ [] ∧ c ≠ [] ∧
    (userdb a = [] → u ∈ defaultUserdbPaths ∧ ∃ k, is_ok (w k u) = true) ∧
    (client a = [] → c ∈ defaultClientPaths ∧ ∃ k, is_ok (w k c) = true) ∧
    (∀ m w', getAddrs w' m a' = (a', m, Ok (u, c)))
  | Err e => (e = errNoUserdbSocket ∧ userdb a = []) ∨ (e = errNoClientSocket ∧ client a = [])
  end.
Proof.
  assert (Hfirst : ∀ paths n n' p, first_path w n paths = (n', p) → p ≠ [] →
            p ∈ paths ∧ ∃ k, is_ok (w k p) = true).
  { induction paths as [|p paths IH]; simpl; intros k k' q Hq Hne; [by simplify_eq|].
    unfold canDial, dial in Hq. destruct (w k p) as [l|e] eqn:Hw; simpl in Hq.
    - simplify_eq. split; [by left|]. exists k. by rewrite Hw.
    - destruct (IH _ _ _ Hq Hne) as [? ?]. split; [by right|done]. }
  assert (Hfind : ∀ paths n addr n' p, find_addr w n addr paths = (n', p) →
            (addr ≠ [] → p = addr) ∧
            (addr = [] → p ≠ [] → p ∈ paths ∧ ∃ k, is_ok (w k p) = true)).
  { intros paths k addr k' p Hp. unfold find_addr in Hp.
    destruct (bool_decide (addr = [])) eqn:Ea.
    - apply bool_decide_eq_true in Ea. split; [done|]. intros _. by eapply Hfirst.
    - apply bool_decide_eq_false in Ea. by simplify_eq. }
  unfold getAddrs. destruct (find_addr w n (userdb a) _) as [n1 u] eqn:Eu. simpl.
  destruct (Hfind _ _ _ _ _ Eu) as [Hu1 Hu2].
  destruct (bool_decide (u = [])) eqn:Hu; simpl.
  - apply bool_decide_eq_true in Hu as ->. split_and!; [by auto|done|]. left. split; [done|].
    destruct (decide (userdb a = [])); [done|]. by rewrite <- Hu1.
  - apply bool_decide_eq_false in Hu.
    destruct (find_addr w n1 (client a) _) as [n2 c] eqn:Ec.
    destruct (Hfind _ _ _ _ _ Ec) as [Hc1 Hc2].
    destruct (bool_decide (c = [])) eqn:Hc; simpl.
    + apply bool_decide_eq_true in Hc as ->. split_and!; [by auto|by auto|]. right.
      split; [done|]. destruct (decide (client a = [])); [done|]. by rewrite <- Hc1.
    + apply bool_decide_eq_false in Hc. split_and!; try by auto.
      intros m w'. unfold find_addr.
      rewrite !(bool_decide_eq_false_2 _ Hu), !(bool_decide_eq_false_2 _ Hc). done.
Qed.

(** ** Dovecot behind the authenticator

    The backends of the server: a user database for each domain, and Dovecot as
    the fallback if it is configured. *)

#[export] Instance sum_backend {A B} `{Auth.Auth.Backend A, Auth.Auth.Backend B} :
  Auth.Auth.Backend (A + B) :=
  {| Auth.Auth.be_Authenticate (b : A + B) (user passwd : bytes) :=
       match b with
       | inl b => Auth.Auth.be_Authenticate b user passwd
       | inr b => Auth.Auth.be_Authenticate b user passwd
       end;
     Auth.Auth.be_Exists (b : A + B) (user : bytes) :=
       match b with
       | inl b => Auth.Auth.be_Exists b user
       | inr b => Auth.Auth.be_Exists b user
       end;
     Auth.Auth.be_Reload (d : Auth.Auth.disk) (b : A + B) :=
       match b with
       | inl b => let '(b, e) := Auth.Auth.be_Reload d b in (inl b, e)
       | inr b => let '(b, e) := Auth.Auth.be_Reload d b in (inr b, e)
       end |}.

Abbreviation backend := (Auth.Auth.wrapNoErrorBackend UserDB.DB + service)%type.

Section Login.
Context `{Unicode, Precis, ScryptKDF, ProtoText UserDB.ProtoDB}.
#[local] Existing Instances Auth.Auth.wrap_backend UserDB.userdb_backend.

(** What loading the domains and the Dovecot configuration sets up. *)
Record configured (a : Auth.Auth.Authenticator backend) : Prop := {
  cf_domains : ∀ d b, Auth.Auth.backends a !! d = Some b →
    ∃ db, b = inl (Auth.Auth.WrapNoErrorBackend db);
  cf_fallback : ∀ b, Auth.Auth.Fallback a = Some b → ∃ s, b = inr s;
}.

(** The database of the domain, if there is one, has the password. *)
Definition in_userdb (a : Auth.Auth.Authenticator backend) (domain user passwd : bytes) : Prop :=
  ∃ db, Auth.Auth.backends a !! domain = Some (inl (Auth.Auth.WrapNoErrorBackend db)) ∧
    UserDB.Authenticate db user passwd = Some true.


End Login.

(** ** Examples *)

Module Example.
Import AsciiOnly.

(** A service that greets, and then gives one answer. *)
Definition greeting : bytes :=
  concat ((λ l, l ++ [LF]) <$>
    ["VERSION" ++ [TAB] ++ "1" ++ [TAB] ++ "2"; "MECH" ++ [TAB] ++ "PLAIN"; "DONE"]).

Definition says (answer : bytes) : link :=
  mkLink (mkReader (greeting ++ answer ++ [LF]) EndEOF) None.

Definition world_of (answer : bytes) : world :=
  λ _ path, if path == "/c" then Ok (says answer) else Err "no such file".

Definition approval : bytes := "OK" ++ [TAB] ++ "1" ++ [TAB] ++ "user=ana@dom".

Definition srv : Auth := NewAuth "/u" "/c".

Lemma Authenticate_verdict_witness :
  (Authenticate 42 (world_of approval) 0 srv "ana@dom" "secret").2 = Ok true.
Proof.
  apply (Authenticate_verdict 42 (world_of approval) 0 srv "ana@dom" "secret" (says approval));
    [reflexivity|reflexivity|reflexivity|discriminate|discriminate|].
  eexists _, _. split; vm_compute; reflexivity.
Defined.

(** An approval of another request, or silence, is not a yes. *)
Example refused :
  (Authenticate 42 (world_of ("FAIL" ++ [TAB] ++ "1")) 0 srv "ana@dom" "secret").2 = Ok false.
Proof. vm_compute. reflexivity. Qed.
Example other_request :
  is_ok (Authenticate 42 (world_of ("OK" ++ [TAB] ++ "2")) 0 srv "ana@dom" "secret").2 = false.
Proof. vm_compute. reflexivity. Qed.
Example spaces_rejected :
  (Exists (world_of []) 0 srv ("ana" ++ [TAB] ++ "service=imap")).2 = Err errUsernameNotSafe.
Proof. vm_compute. reflexivity. Qed.

#[local] Existing Instances UserDB.Example.kdf UserDB.Scheme_countable.
Import CountableText.
#[local] Existing Instances Auth.Auth.wrap_backend UserDB.userdb_backend.

(** A domain with a database in which the user is not, and Dovecot behind. *)
Definition authr : Auth.Auth.Authenticator backend :=
  Auth.Auth.mkAuthenticator
    {[ ("dom" : bytes) := inl (Auth.Auth.WrapNoErrorBackend (UserDB.New "/users")) ]}
    (Some (inr (mkService srv (world_of approval) 0 42))) 0.


End Example.

End DovecotProps.
