(* ===== verification/LocalRpc.v ===== *)
(** Local RPC: package [internal/localrpc], with the parts of [net/url] and
    [net/textproto] it is made of. *)

From stdpp Require Import sorting.
From S2P Require Import Prelude GoStrings GoSlices DotReader Store SmtpClient.
#[local] Open Scope go_scope.

(** ** net/url: values *)
Module Url.
Import Protoio.

(** [url.Values]; a nil map is the empty one. *)
Abbreviation Values := (gmap bytes (list bytes)).

Definition Get (v : Values) (k : bytes) : bytes :=
  match v !! k with Some (x :: _) => x | _ => [] end.
Definition Set_ (v : Values) (k x : bytes) : Values := <[k := [x]]> v.
Definition Add (v : Values) (k x : bytes) : Values := <[k := default [] (v !! k) ++ [x]]> v.

(** The keys of a map, sorted. *)
Definition sorted_keys {A} (m : gmap bytes A) : list bytes :=
  merge_sort (λ a b, bytes_le a b) (map_to_list m).*1.

(** All the pairs of key and value, in the order of [Encode]. *)
Definition pairs (v : Values) : list (bytes * bytes) :=
  concat ((λ k, (λ x, (k, x)) <$> default [] (v !! k)) <$> sorted_keys v).

Definition encode_pair (p : bytes * bytes) : bytes :=
  QueryEscape p.1 ++ "=" ++ QueryEscape p.2.

Definition Encode (v : Values) : bytes := Join (encode_pair <$> pairs v) "&".

Section Parse.
Context `{Unicode}.

(** The bytes that an [EscapeError] is about: the first bad escape. *)
Fixpoint bad_escape (s : bytes) : bytes :=
  match s with
  | [] => []
  | c :: s' =>
    if c == "%"%char then
      match s' with
      | h :: l :: s'' =>
        match unhex h, unhex l with
        | Some _, Some _ => bad_escape s''
        | _, _ => [c; h; l]
        end
      | _ => s
      end
    else bad_escape s'
  end.

Definition escape_error (s : bytes) : bytes :=
  "invalid URL escape " ++ Quote (bad_escape s).

(** One turn of the loop of [parseQuery], on what comes before the next [&]. *)
Definition parse_piece (acc : Values * option bytes) (piece : bytes) :
    Values * option bytes :=
  let '(m, err) := acc in
  if Contains piece ";" then (m, Some "invalid semicolon separator in query")
  else if piece == [] then (m, err)
  else
    let '(k, x) := default (piece, []) (Cut piece "=") in
    match QueryUnescape k with
    | None => (m, if err == None then Some (escape_error k) else err)
    | Some k =>
      match QueryUnescape x with
      | None => (m, if err == None then Some (escape_error x) else err)
      | Some x => (Add m k x, err)
      end
    end.

(** The loop ends when nothing is left, so that what follows a last [&] is not
    looked at; it is an empty piece, which is skipped anyway. *)
Definition ParseQuery (query : bytes) : Values * option bytes :=
  foldl parse_piece (∅, None) (Split query "&").

End Parse.

End Url.

(** ** internal/localrpc *)
Module LocalRpc.
Import DotReader Url.

Section Rpc.
Context `{Unicode}.

(** Handlers read and change the state [S] of the program, and fail with a
    text. *)
Context {S : Type}.

Abbreviation Handler := (S → Values → S * res bytes Values).

Record Server := mkServer { handlers : gmap bytes Handler }.

Definition NewServer : Server := mkServer ∅.

Definition Register (s : Server) (name : bytes) (h : Handler) : Server :=
  mkServer (<[name := h]> (handlers s)).

Definition readRequest (r : reader) : reader * res SmtpClient.error (bytes * bytes) :=
  let '(r, l) := SmtpClient.ReadLine r in
  (r, match l with
      | Err e => Err e
      | Ok line =>
        match SplitN2 line " " with
        | [name; args] => Ok (name, args)
        | _ => Ok (line, [])
        end
      end).

(** [PrintfLine] *)
Definition line (s : bytes) : bytes := s ++ CRLF.

Definition writeError (err : bytes) : bytes := line ("500 " ++ err).

(** The new state of the program, and what is written to the client. *)
Definition handleConn (s : Server) (st : S) (r : reader) : S * bytes :=
  match readRequest r with
  | (_, Err _) => (st, [])
  | (_, Ok (name, inS)) =>
    match handlers s !! name with
    | None => (st, writeError "unknown method")
    | Some handler =>
      match ParseQuery inS with
      | (_, Some err) => (st, writeError err)
      | (inV, None) =>
        match handler st inV with
        | (st, Err err) => (st, writeError err)
        | (st, Ok outV) => (st, line ("200 " ++ Encode outV))
        end
      end
    end
  end.

(** [ListenAndServe]: a socket that an earlier server may have left is removed,
    and then each connection is handled, until one cannot be accepted.  The
    result has what was written to each, and the error that it ends with. *)
Fixpoint serve_conns (s : Server) (st : S) (conns : list reader) : S * list bytes :=
  match conns with
  | [] => (st, [])
  | r :: conns =>
    let '(st, out) := handleConn s st r in
    let '(st, outs) := serve_conns s st conns in
    (st, out :: outs)
  end.

Definition ListenAndServe (listen_err : option bytes) (accepted : list reader)
    (accept_err : bytes) (s : Server) (st : S) : S * list bytes * bytes :=
  match listen_err with
  | Some err => (st, [], err)
  | None => (serve_conns s st accepted, accept_err)
  end.

(** ** Client *)

Inductive call_error :=
| DialError (msg : bytes)
| WriteError (msg : bytes)
| ReadError (e : SmtpClient.error)
| Remote (msg : bytes)
| BadReply (msg : bytes).

Definition request (name : bytes) (input : Values) : bytes :=
  line (name ++ " " ++ Encode input).

(** [ReadCodeLine(0)] *)
Definition ReadCodeLine (r : reader) : reader * (Z * bytes * option SmtpClient.error) :=
  let '(r, l) := SmtpClient.ReadLine r in
  match l with
  | Err e => (r, (0%Z, [], Some e))
  | Ok l =>
    let cl := SmtpClient.parseCodeLine l 0 in
    (r, (SmtpClient.cl_code cl, SmtpClient.cl_msg cl,
         match SmtpClient.cl_err cl with
         | Some e => Some e
         | None =>
           if SmtpClient.cl_continued cl
           then Some (SmtpClient.ProtocolError
                        ("unexpected multi-line response: " ++ SmtpClient.cl_msg cl))
           else None
         end))
  end.

(** What the client makes of the reply. *)
Definition read_reply (r : reader) : res call_error Values :=
  match ReadCodeLine r with
  | (_, (_, _, Some e)) => Err (ReadError e)
  | (_, (code, msg, None)) =>
    if (code != 200)%Z then Err (Remote msg)
    else
      match ParseQuery msg with
      | (v, None) => Ok v
      | (_, Some e) => Err (BadReply e)
      end
  end.

(** The outcome of the dial, and of the write, and what the server sends. *)
Record link := mkLink {
  lk_write : option bytes;
  lk_in : reader;
}.

Definition CallWithValues (dial : bytes → res bytes link) (path name : bytes)
    (input : Values) : res call_error Values :=
  match dial path with
  | Err msg => Err (DialError msg)
  | Ok l =>
    match lk_write l with
    | Some msg => Err (WriteError msg)
    | None => read_reply (lk_in l)
    end
  end.

(** The pairs of [Call]; an odd argument is a panic. *)
Fixpoint set_args (v : Values) (args : list bytes) : option Values :=
  match args with
  | [] => Some v
  | [_] => None
  | k :: x :: args => set_args (Set_ v k x) args
  end.

Definition Call (dial : bytes → res bytes link) (path name : bytes) (args : list bytes) :
    option (res call_error Values) :=
  v ← set_args ∅ args;
  Some (CallWithValues dial path name v).

(** The client and the server at the two ends of a socket. *)
Definition exchange (s : Server) (st : S) (name : bytes) (input : Values) :
    S * res call_error Values :=
  let '(st, reply) := handleConn s st (mkReader (request name input) EndEOF) in
  (st, read_reply (mkReader reply EndEOF)).

End Rpc.

Arguments Server S : clear implicits.

End LocalRpc.
