(* ===== verification/LocalRpcProps.v ===== *)
(** What is proved of LocalRpc.v: values survive their encoding, and a call is
    the call of the handler. *)

From stdpp Require Import sorting.
From S2P Require Import Prelude GoStrings GoSlices Envelope DotReader Store SmtpClient LocalRpc.
#[local] Open Scope go_scope.

Module LocalRpcProps.
Import DotReader Protoio Url LocalRpc.

(** ** Encoding of values *)

(** Nothing that separates fields or lines is left in an escaped string. *)
Lemma QueryEscape_plain s c :
  c ∈ ["&"%char; ";"%char; "="%char; SP; CR; LF] → c ∉ QueryEscape s.
Proof.
  intros Hc.
  assert (Hb : ∀ d, Forall (λ c, c ∉ escape_byte d)
                      ["&"%char; ";"%char; "="%char; SP; CR; LF]).
  { intros d. apply (bool_decide_eq_true_1 _).
    by destruct d as [[] [] [] [] [] [] [] []]. }
  unfold QueryEscape. induction s as [|d s IH]; simpl; [set_solver|].
  rewrite elem_of_app. intros [Hin|Hin]; [|done].
  specialize (Hb d). rewrite Forall_forall in Hb. by apply (Hb c Hc).
Qed.

Lemma encode_pair_plain p c :
  c ∈ ["&"%char; ";"%char; SP; CR; LF] → c ∉ encode_pair p.
Proof.
  intros Hc. unfold encode_pair.
  assert (Hin : c ∈ ["&"%char; ";"%char; "="%char; SP; CR; LF]) by set_solver.
  rewrite !not_elem_of_app. split_and!; try by apply QueryEscape_plain.
  intros ->%list_elem_of_singleton. set_solver.
Qed.

Lemma Encode_plain v c : c ∈ [";"%char; SP; CR; LF] → c ∉ Encode v.
Proof.
  intros Hc. unfold Encode. induction (pairs v) as [|p ps IH]; [set_solver|].
  assert (Hp : c ∉ encode_pair p) by (apply encode_pair_plain; set_solver).
  destruct ps as [|p' ps]; [done|].
  rewrite fmap_cons, Join_cons by done. rewrite !not_elem_of_app.
  split_and!; [done| |done]. set_solver.
Qed.

Section Parse.
Context `{Unicode}.

Lemma parse_piece_pair m p :
  parse_piece (m, None) (encode_pair p) = (Add m p.1 p.2, None).
Proof.
  unfold parse_piece.
  rewrite (Contains_byte _ ";"), bool_decide_eq_false_2
    by (apply encode_pair_plain; set_solver).
  rewrite bool_decide_eq_false_2.
  2: { unfold encode_pair. intros E%(f_equal length). rewrite !length_app in E.
       simpl in E. lia. }
  assert (Cut (encode_pair p) "=" = Some (QueryEscape p.1, QueryEscape p.2)) as ->.
  { apply (Cut_byte_app (QueryEscape p.1) (QueryEscape p.2) "="%char).
    apply QueryEscape_plain. set_solver. }
  simpl.
  by rewrite !QueryUnescape_QueryEscape.
Qed.

Lemma parse_pieces m ps :
  foldl parse_piece (m, None) (encode_pair <$> ps) = (foldl (λ m p, Add m p.1 p.2) m ps, None).
Proof.
  revert m. induction ps as [|p ps IH]; intros m; [done|].
  rewrite fmap_cons. cbn [foldl]. by rewrite parse_piece_pair, IH.
Qed.

Lemma ParseQuery_Encode_pairs v :
  ParseQuery (Encode v) = (foldl (λ m p, Add m p.1 p.2) ∅ (pairs v), None).
Proof.
  unfold ParseQuery, Encode. destruct (pairs v) as [|p ps] eqn:E.
  - reflexivity.
  - rewrite Split_Join_byte; [apply parse_pieces|done|].
    apply Forall_fmap, Forall_forall. intros q _. apply encode_pair_plain. set_solver.
Qed.

End Parse.

(** The values that pairs give to a key. *)
Definition values_for (k : bytes) (ps : list (bytes * bytes)) : list bytes :=
  (filter (λ p, p.1 = k) ps).*2.

Lemma values_for_cons k p ps :
  values_for k (p :: ps) = if p.1 == k then p.2 :: values_for k ps else values_for k ps.
Proof.
  unfold values_for. rewrite filter_cons.
  destruct (decide (p.1 = k)), (bool_decide_reflect (p.1 = k)); done.
Qed.

Lemma lookup_foldl_Add ps m k :
  foldl (λ m p, Add m p.1 p.2) m ps !! k =
    if values_for k ps == [] then m !! k
    else Some (default [] (m !! k) ++ values_for k ps).
Proof.
  revert m. induction ps as [|p ps IH]; intros m; [done|]. cbn [foldl]. rewrite IH.
  rewrite values_for_cons. unfold Add. destruct (decide (p.1 = k)) as [<-|Hne].
  - rewrite lookup_insert_eq, (bool_decide_eq_true_2 (p.1 = p.1)) by done.
    rewrite (bool_decide_eq_false_2 (_ :: _ = [])) by done. simpl.
    destruct (values_for p.1 ps) as [|x xs]; simpl; [done|]. by rewrite <- (assoc_L (++)).
  - by rewrite lookup_insert_ne, (bool_decide_eq_false_2 (p.1 = k)) by done.
Qed.

Lemma values_for_key k k' xs :
  values_for k ((λ x, (k', x)) <$> xs) = if k' == k then xs else [].
Proof.
  unfold values_for. case_bool_decide as E.
  - subst. induction xs as [|x xs IH]; [done|]. rewrite fmap_cons, filter_cons_True by done.
    by rewrite fmap_cons, IH.
  - induction xs as [|x xs IH]; [done|]. by rewrite fmap_cons, filter_cons_False.
Qed.

Lemma values_for_keys (v : Values) ks k :
  NoDup ks →
  values_for k (concat ((λ k, (λ x, (k, x)) <$> default [] (v !! k)) <$> ks)) =
    if bool_decide (k ∈ ks) then default [] (v !! k) else [].
Proof.
  induction 1 as [|k' ks Hk' _ IH]; [done|]. rewrite fmap_cons, concat_cons.
  unfold values_for in *. rewrite filter_app, fmap_app, IH.
  pose proof (values_for_key k k' (default [] (v !! k'))) as E. unfold values_for in E.
  rewrite E. repeat case_bool_decide; subst; try set_solver.
  by rewrite (right_id_L [] (++)).
Qed.

Lemma sorted_keys_spec {A} (m : gmap bytes A) k :
  k ∈ sorted_keys m ↔ is_Some (m !! k).
Proof.
  unfold sorted_keys. rewrite (merge_sort_Permutation _ _), list_elem_of_fmap. split.
  - intros ([k' a] & -> & Hin%elem_of_map_to_list). eauto.
  - intros [a Ha]. exists (k, a). split; [done|]. by apply elem_of_map_to_list.
Qed.

Lemma sorted_keys_NoDup {A} (m : gmap bytes A) : NoDup (sorted_keys m).
Proof.
  unfold sorted_keys. rewrite (merge_sort_Permutation _ _). apply NoDup_fst_map_to_list.
Qed.

(** The order of strings is total. *)
Lemma bval_inj a b : Utf8.bval a = Utf8.bval b → a = b.
Proof. intros E. rewrite <- (ascii_N_embedding a), <- (ascii_N_embedding b). by f_equal. Qed.

#[local] Instance bytes_le_total : Total (λ a b, bytes_le a b).
Proof.
  intros a. induction a as [|x a IH]; intros [|y b]; [by left|by left|by right|]. simpl.
  destruct (N.lt_trichotomy (Utf8.bval x) (Utf8.bval y)) as [Hl|[He|Hl]].
  - left. by rewrite (proj2 (N.ltb_lt _ _) Hl).
  - rewrite He, N.eqb_refl, N.ltb_irrefl. simpl. apply IH.
  - right. by rewrite (proj2 (N.ltb_lt _ _) Hl).
Qed.

#[local] Instance bytes_le_trans : Transitive (λ a b, bytes_le a b).
Proof.
  intros a. induction a as [|x a IH]; intros [|y b] [|z c]; try done. simpl.
  rewrite !Is_true_true, !orb_true_iff, !andb_true_iff, !N.ltb_lt, !N.eqb_eq.
  intros [H1|[H1 H1']] [H2|[H2 H2']]; [left; lia|left; lia|left; lia|]. right.
  split; [congruence|]. apply Is_true_true. by apply (IH b); apply Is_true_true.
Qed.

#[local] Instance bytes_le_antisymm : AntiSymm (=) (λ a b, bytes_le a b).
Proof.
  intros a. induction a as [|x a IH]; intros [|y b]; try done. simpl.
  rewrite !Is_true_true, !orb_true_iff, !andb_true_iff, !N.ltb_lt, !N.eqb_eq.
  intros [H1|[H1 H1']] [H2|[H2 H2']]; [lia|lia|lia|]. f_equal; [by apply bval_inj|].
  apply IH; by apply Is_true_true.
Qed.

Lemma StronglySorted_filter {A} (R : relation A) (P : A → Prop) `{∀ x, Decision (P x)} l :
  StronglySorted R l → StronglySorted R (filter P l).
Proof.
  induction 1 as [|x l _ IH Hx]; [constructor|]. rewrite filter_cons. case_decide; [|done].
  constructor; [done|]. rewrite Forall_forall in *. intros y [_ Hy]%list_elem_of_filter. auto.
Qed.

(** The keys of a map that has no keys but those of a sorted list. *)
Lemma sorted_keys_among {A} (m : gmap bytes A) ks :
  StronglySorted (λ a b, bytes_le a b) ks → NoDup ks →
  (∀ k, is_Some (m !! k) → k ∈ ks) →
  sorted_keys m = filter (λ k, is_Some (m !! k)) ks.
Proof.
  intros Hs Hn Hk. apply (StronglySorted_unique (λ a b, bytes_le a b)).
  - apply StronglySorted_merge_sort; apply _.
  - by apply StronglySorted_filter.
  - apply NoDup_Permutation; [apply sorted_keys_NoDup|by apply NoDup_filter|].
    intros k. rewrite sorted_keys_spec, list_elem_of_filter. naive_solver.
Qed.

Lemma values_for_pairs v k : values_for k (pairs v) = default [] (v !! k).
Proof.
  unfold pairs. rewrite values_for_keys by apply sorted_keys_NoDup.
  case_bool_decide as Hk; [done|]. rewrite sorted_keys_spec in Hk.
  by rewrite (proj2 (eq_None_not_Some _) Hk).
Qed.

(** The keys that have values. *)
Definition trim (v : Values) : Values := filter (λ kv, kv.2 ≠ []) v.

Lemma ParseQuery_Encode_trim `{Unicode} v : ParseQuery (Encode v) = (trim v, None).
Proof.
  rewrite ParseQuery_Encode_pairs. f_equal. apply map_eq. intros k.
  rewrite lookup_foldl_Add, values_for_pairs, lookup_empty. unfold trim.
  destruct (v !! k) as [xs|] eqn:E; simpl.
  - case_bool_decide as Hx; subst.
    + symmetry. apply map_lookup_filter_None. right. intros x E'. rewrite E in E'.
      injection E' as <-. simpl. tauto.
    + symmetry. by apply map_lookup_filter_Some.
  - symmetry. apply map_lookup_filter_None. by left.
Qed.

Lemma trim_id v : (∀ k xs, v !! k = Some xs → xs ≠ []) → trim v = v.
Proof. intros Hv. apply map_filter_id. intros k xs Hk. by eapply Hv. Qed.

(** ** Calls *)

(** The first line of a text. *)
Definition first_line (s : bytes) : bytes :=
  match Cut s [LF] with
  | Some (l, _) => TrimSuffix l [CR]
  | None => s
  end.

Lemma first_line_id s : LF ∉ s → first_line s = s.
Proof. intros Hs. unfold first_line. by rewrite (proj2 (Cut_byte_None s LF) Hs). Qed.

Lemma TrimSuffix_byte s x c : TrimSuffix (s ++ [x]) [c] = if x == c then s else s ++ [x].
Proof.
  unfold TrimSuffix. destruct (HasSuffix (s ++ [x]) [c]) eqn:E.
  - apply HasSuffix_spec in E as [r Hr]. apply app_inj_tail in Hr as [_ ->].
    rewrite bool_decide_eq_true_2 by done. rewrite length_app. simpl.
    by rewrite Nat.add_sub, take_app_length.
  - rewrite bool_decide_eq_false_2; [done|]. intros ->.
    assert (HasSuffix (s ++ [c]) [c] = true) by (apply HasSuffix_spec; by exists s).
    congruence.
Qed.

Lemma ReadLine_line p s e :
  (LF ∉ p) → p ≠ [] → last p ≠ Some CR →
  (SmtpClient.ReadLine (mkReader (line (p ++ s)) e)).2 = Ok (p ++ first_line s).
Proof.
  intros Hp Hne Hcr. unfold SmtpClient.ReadLine, line. simpl.
  destruct (((p ++ s) ++ CRLF)) as [|c0 t] eqn:E; [by destruct p|]. rewrite <- E. clear E.
  unfold first_line. destruct (Cut s [LF]) as [[l rest]|] eqn:Ec.
  - apply Cut_byte_Some in Ec as [-> Hl].
    replace ((p ++ l ++ LF :: rest) ++ CRLF) with ((p ++ l) ++ LF :: (rest ++ CRLF))
      by by rewrite <- !(assoc_L (++)).
    rewrite Cut_byte_app by (rewrite not_elem_of_app; done). simpl. f_equal.
    destruct l as [|x l _] using rev_ind.
    + rewrite (right_id_L [] (++)). destruct p as [|x p _] using rev_ind; [done|].
      rewrite last_snoc in Hcr. rewrite TrimSuffix_byte, bool_decide_eq_false_2 by congruence.
      symmetry. apply (right_id_L [] (++)).
    + rewrite (assoc_L (++)), !TrimSuffix_byte. case_bool_decide; [done|].
      by rewrite (assoc_L (++)).
  - apply Cut_byte_None in Ec. unfold CRLF.
    replace ((p ++ s) ++ [CR; LF]) with (((p ++ s) ++ [CR]) ++ LF :: [])
      by by rewrite <- !(assoc_L (++)).
    rewrite Cut_byte_app.
    + simpl. by rewrite TrimSuffix_byte, bool_decide_eq_true_2.
    + rewrite !not_elem_of_app. split_and!; [done|done|]. set_solver.
Qed.

Section Calls.
Context `{Unicode} {S : Type}.

Lemma read_reply_500 msg :
  read_reply (mkReader (writeError msg) EndEOF) = Err (Remote (first_line msg)).
Proof.
  unfold read_reply, ReadCodeLine, writeError.
  pose proof (ReadLine_line "500 " msg EndEOF ltac:(set_solver) ltac:(done) ltac:(done)) as Hr.
  destruct (SmtpClient.ReadLine _) as [r l]. simpl in Hr. subst l. reflexivity.
Qed.

Lemma read_reply_200 v :
  read_reply (mkReader (line ("200 " ++ Encode v)) EndEOF) = Ok (trim v).
Proof.
  unfold read_reply, ReadCodeLine.
  pose proof (ReadLine_line "200 " (Encode v) EndEOF ltac:(set_solver) ltac:(done)
    ltac:(done)) as Hr.
  rewrite first_line_id in Hr by (apply Encode_plain; set_solver).
  destruct (SmtpClient.ReadLine _) as [r l]. cbn [snd] in Hr. subst l.
  assert (SmtpClient.parseCodeLine ("200 " ++ Encode v) 0
    = SmtpClient.mkCodeline 200 false (Encode v) None) as -> by reflexivity.
  cbn -[ParseQuery Encode]. by rewrite ParseQuery_Encode_trim.
Qed.

Lemma readRequest_request name v :
  SP ∉ name → LF ∉ name →
  (readRequest (mkReader (request name v) EndEOF)).2 = Ok (name, Encode v).
Proof.
  intros Hsp Hlf. unfold readRequest, request. rewrite (assoc_L (++)).
  pose proof (ReadLine_line (name ++ " ") (Encode v) EndEOF) as Hr.
  rewrite first_line_id in Hr by (apply Encode_plain; set_solver).
  destruct (SmtpClient.ReadLine _) as [r l]. simpl in *. rewrite Hr.
  - unfold SplitN2. rewrite <- (assoc_L (++)).
    assert (Cut (name ++ " " ++ Encode v) " " = Some (name, Encode v)) as ->; [|done].
    by apply (Cut_byte_app name (Encode v) SP).
  - rewrite not_elem_of_app. set_solver.
  - by destruct name.
  - by rewrite last_snoc.
Qed.

(** What an exchange is, in terms of the handler. *)
Lemma exchange_handler (s : Server S) st name v :
  SP ∉ name → LF ∉ name →
  exchange s st name v =
    match handlers s !! name with
    | None => (st, Err (Remote "unknown method"))
    | Some h =>
      let '(st', r) := h st (trim v) in
      (st', match r with
            | Ok out => Ok (trim out)
            | Err msg => Err (Remote (first_line msg))
            end)
    end.
Proof.
  intros Hsp Hlf. unfold exchange, handleConn.
  pose proof (readRequest_request name v Hsp Hlf) as Hr.
  destruct (readRequest _) as [r l]. simpl in Hr. subst l.
  destruct (handlers s !! name) as [h|].
  - rewrite ParseQuery_Encode_trim. destruct (h st (trim v)) as [st' [out|msg]].
    + by rewrite read_reply_200.
    + by rewrite read_reply_500.
  - by rewrite read_reply_500, first_line_id by set_solver.
Qed.

(** C35: a call over the socket is a call of the handler: it gets the values that
    the client gave, and the client gets the values that it returned, or the
    first line of its error, or the error for a method that is not known; empty
    lists of values, which have no encoding, are the only loss. *)
Theorem call_is_handler (s : Server S) st name v :
  SP ∉ name → LF ∉ name →
  exchange s st name v =
    match handlers s !! name with
    | None => (st, Err (Remote "unknown method"))
    | Some h =>
      let '(st', r) := h st (trim v) in
      (st', match r with
            | Ok out => Ok (trim out)
            | Err msg => Err (Remote (first_line msg))
            end)
    end.
Proof. apply exchange_handler. Qed.

(** What the server does with requests that come one after the other. *)
Fixpoint perform (s : Server S) (st : S) (reqs : list (bytes * Values)) :
    S * list (res call_error Values) :=
  match reqs with
  | [] => (st, [])
  | (name, v) :: reqs =>
    let '(st, r) := match handlers s !! name with
                    | None => (st, Err (Remote "unknown method"))
                    | Some h =>
                      let '(st', r) := h st (trim v) in
                      (st', match r with
                            | Ok out => Ok (trim out)
                            | Err msg => Err (Remote (first_line msg))
                            end)
                    end in
    let '(st, rs) := perform s st reqs in
    (st, r :: rs)
  end.

(** A server that listens performs the calls of its clients in their order, each
    in the state that the one before left, and each client reads the result of
    its own call; and no client is served if it cannot listen. *)
Theorem ListenAndServe_performs (s : Server S) st reqs err listen_err :
  Forall (λ q, (SP ∉ q.1) ∧ (LF ∉ q.1)) reqs →
  let '(st', outs, e) :=
    ListenAndServe listen_err ((λ q, mkReader (request q.1 q.2) EndEOF) <$> reqs) err s st in
  match listen_err with
  | Some l => st' = st ∧ outs = [] ∧ e = l
  | None => (st', (λ out, read_reply (mkReader out EndEOF)) <$> outs) = perform s st reqs ∧ e = err
  end.
Proof.
  intros Hq. unfold ListenAndServe. destruct listen_err; [done|].
  destruct (serve_conns _ _ _) as [st' outs] eqn:E. split; [|done].
  revert st st' outs E. induction Hq as [|[name v] reqs [Hsp Hlf] Hq IH]; intros st st' outs E.
  { by injection E as <- <-. }
  cbn [perform]. rewrite <- exchange_handler by done. unfold exchange.
  rewrite fmap_cons in E. cbn [serve_conns fst snd] in E.
  destruct (handleConn s st _) as [st1 out]. destruct (serve_conns s st1 _) as [st2 outs2] eqn:E2.
  injection E as <- <-. rewrite <- (IH _ _ _ E2). done.
Qed.

End Calls.

Section Example.
#[local] Existing Instance AsciiOnly.unicode.

(** A server with one method, which returns what it is given and counts. *)
Lemma call_is_handler_witness :
  let s : Server nat := Register NewServer "Echo" (λ n v, (S n, Ok v)) in
  exchange s 0 "Echo" (Set_ ∅ "k" "a b") = (1, Ok (Set_ ∅ "k" "a b")).
Proof.
  intros s. rewrite (call_is_handler s 0 "Echo" (Set_ ∅ "k" "a b")).
  - vm_compute. reflexivity.
  - apply (bool_decide_eq_true_1 _). reflexivity.
  - apply (bool_decide_eq_true_1 _). reflexivity.
Defined.

End Example.

End LocalRpcProps.
