(* ===== verification/Config.v ===== *)
(** The configuration: package [internal/config].  The text form of the
    configuration is read through the interface [ProtoText]. *)

From S2P Require Import Prelude GoStrings GoTime Store.
#[local] Open Scope go_scope.

Module Config.
Import Safeio Protoio.

(** The message of config.proto.  An optional field is a pointer. *)
Record Config := mkConfig {
  Hostname : bytes;
  MaxDataSizeMb : Z;
  SmtpAddress : list bytes;
  SubmissionAddress : list bytes;
  SubmissionOverTlsAddress : list bytes;
  MonitoringAddress : bytes;
  MailDeliveryAgentBin : bytes;
  MailDeliveryAgentArgs : list bytes;
  DataDir : bytes;
  SuffixSeparators : option bytes;
  DropCharacters : option bytes;
  MailLogPath : bytes;
  DovecotAuth : bool;
  DovecotUserdbPath : bytes;
  DovecotClientPath : bytes;
  HaproxyIncoming : bool;
  MaxQueueItems : N;
  GiveUpSendAfter : bytes;
}.

#[export] Instance Config_eq_dec : EqDecision Config.
Proof. solve_decision. Defined.

Definition emptyConfig : Config :=
  mkConfig [] 0 [] [] [] [] [] [] [] None None [] false [] [] false 0 [].

Definition defaultConfig : Config :=
  {| Hostname := [];
     MaxDataSizeMb := 50;
     SmtpAddress := ["systemd" : bytes];
     SubmissionAddress := ["systemd" : bytes];
     SubmissionOverTlsAddress := ["systemd" : bytes];
     MonitoringAddress := [];
     MailDeliveryAgentBin := "maildrop";
     MailDeliveryAgentArgs := ["-f" : bytes; "%from%"; "-d"; "%to_user%"];
     DataDir := "/var/lib/chasquid";
     SuffixSeparators := Some ("+" : bytes);
     DropCharacters := Some ("." : bytes);
     MailLogPath := "<syslog>";
     DovecotAuth := false;
     DovecotUserdbPath := [];
     DovecotClientPath := [];
     HaproxyIncoming := false;
     MaxQueueItems := 200;
     GiveUpSendAfter := "20h" |}.

(** [if len(o) > 0 { c = o }], for strings and slices. *)
Definition set_nonempty {A} (c o : list A) : list A :=
  match o with [] => c | _ => o end.

Definition set_pointer {A} (c o : option A) : option A :=
  match o with None => c | Some _ => o end.

Definition override (c o : Config) : Config :=
  {| Hostname := set_nonempty (Hostname c) (Hostname o);
     MaxDataSizeMb := if Z.ltb 0 (MaxDataSizeMb o) then MaxDataSizeMb o else MaxDataSizeMb c;
     SmtpAddress := set_nonempty (SmtpAddress c) (SmtpAddress o);
     SubmissionAddress := set_nonempty (SubmissionAddress c) (SubmissionAddress o);
     SubmissionOverTlsAddress :=
       set_nonempty (SubmissionOverTlsAddress c) (SubmissionOverTlsAddress o);
     MonitoringAddress := set_nonempty (MonitoringAddress c) (MonitoringAddress o);
     MailDeliveryAgentBin := set_nonempty (MailDeliveryAgentBin c) (MailDeliveryAgentBin o);
     MailDeliveryAgentArgs := set_nonempty (MailDeliveryAgentArgs c) (MailDeliveryAgentArgs o);
     DataDir := set_nonempty (DataDir c) (DataDir o);
     SuffixSeparators := set_pointer (SuffixSeparators c) (SuffixSeparators o);
     DropCharacters := set_pointer (DropCharacters c) (DropCharacters o);
     MailLogPath := set_nonempty (MailLogPath c) (MailLogPath o);
     DovecotAuth := if DovecotAuth o then true else DovecotAuth c;
     DovecotUserdbPath := set_nonempty (DovecotUserdbPath c) (DovecotUserdbPath o);
     DovecotClientPath := set_nonempty (DovecotClientPath c) (DovecotClientPath o);
     HaproxyIncoming := if HaproxyIncoming o then true else HaproxyIncoming c;
     MaxQueueItems := if N.ltb 0 (MaxQueueItems o) then MaxQueueItems o else MaxQueueItems c;
     GiveUpSendAfter := set_nonempty (GiveUpSendAfter c) (GiveUpSendAfter o) |}.

Definition set_Hostname (c : Config) (h : bytes) : Config :=
  mkConfig h (MaxDataSizeMb c) (SmtpAddress c) (SubmissionAddress c)
    (SubmissionOverTlsAddress c) (MonitoringAddress c) (MailDeliveryAgentBin c)
    (MailDeliveryAgentArgs c) (DataDir c) (SuffixSeparators c) (DropCharacters c)
    (MailLogPath c) (DovecotAuth c) (DovecotUserdbPath c) (DovecotClientPath c)
    (HaproxyIncoming c) (MaxQueueItems c) (GiveUpSendAfter c).

Inductive error :=
| ErrRead (path : bytes) (e : read_error)
| ErrParsing (e : bytes)
| ErrParsingOverride (e : bytes)
| ErrHostname (e : bytes)
| ErrGiveUp (value : bytes) (e : Time.duration_error).

Section Load.
Context `{ProtoText Config}.

(** [hostname] is what [os.Hostname] answers. *)
Definition Load (fault : bytes → option bytes) (fs : FS) (hostname : res bytes bytes)
    (path overrides : bytes) : res error Config :=
  match ReadFile fault fs path with
  | Err e => Err (ErrRead path e)
  | Ok buf =>
    match text_Unmarshal buf with
    | Err e => Err (ErrParsing e)
    | Ok fromFile =>
      let c := override defaultConfig fromFile in
      match text_Unmarshal overrides with
      | Err e => Err (ErrParsingOverride e)
      | Ok fromOverrides =>
        let c := override c fromOverrides in
        let named :=
          if Hostname c == [] then
            match hostname with
            | Ok h => Ok (set_Hostname c h)
            | Err e => Err (ErrHostname e)
            end
          else Ok c in
        match named with
        | Err e => Err e
        | Ok c =>
          match Time.ParseDuration (GiveUpSendAfter c) with
          | Err e => Err (ErrGiveUp (GiveUpSendAfter c) e)
          | Ok _ => Ok c
          end
        end
      end
    end
  end.

End Load.

(** A value that does not parse gives 0, the [Duration] that comes with the
    error. *)
Definition GiveUpSendAfterDuration (c : Config) : Z :=
  match Time.ParseDuration (GiveUpSendAfter c) with
  | Ok d => d
  | Err _ => 0%Z
  end.

(** The lines that [LogConfig] logs. *)
Section Log.
Context `{Unicode}.

(** The [%q] verb on a slice of strings, and [%v] on a boolean. *)
Definition quote_list (l : list bytes) : bytes := "[" ++ Join (Quote <$> l) " " ++ "]".
Definition fmt_bool (b : bool) : bytes := if b then "true" else "false".
Definition quote_pointer (o : option bytes) : bytes :=
  match o with Some s => Quote s | None => "nil" end.

Definition LogConfig (c : Config) : list bytes :=
  ["Configuration:" : bytes;
   "  Hostname: " ++ Quote (Hostname c);
   "  Max data size (MB): " ++ Itoa (MaxDataSizeMb c);
   "  SMTP Addresses: " ++ quote_list (SmtpAddress c);
   "  Submission Addresses: " ++ quote_list (SubmissionAddress c);
   "  Submission+TLS Addresses: " ++ quote_list (SubmissionOverTlsAddress c);
   "  Monitoring address: " ++ Quote (MonitoringAddress c);
   "  MDA: " ++ Quote (MailDeliveryAgentBin c) ++ " " ++ quote_list (MailDeliveryAgentArgs c);
   "  Data directory: " ++ Quote (DataDir c);
   "  Suffix separators: " ++ quote_pointer (SuffixSeparators c);
   "  Drop characters: " ++ quote_pointer (DropCharacters c);
   "  Mail log: " ++ Quote (MailLogPath c);
   "  Dovecot auth: " ++ fmt_bool (DovecotAuth c) ++ " (" ++ Quote (DovecotUserdbPath c)
     ++ ", " ++ Quote (DovecotClientPath c) ++ ")";
   "  HAProxy incoming: " ++ fmt_bool (HaproxyIncoming c);
   "  Max queue items: " ++ Itoa (Z.of_N (MaxQueueItems c));
   "  Give up send after: " ++ Time.String (GiveUpSendAfterDuration c)].

End Log.

(** ** Overriding *)

Lemma set_nonempty_assoc {A} (a b c : list A) :
  set_nonempty (set_nonempty a b) c = set_nonempty a (set_nonempty b c).
Proof. by destruct c, b. Qed.

Lemma set_pointer_assoc {A} (a b c : option A) :
  set_pointer (set_pointer a b) c = set_pointer a (set_pointer b c).
Proof. by destruct c, b. Qed.

(** Overriding is associative, and overriding with nothing changes nothing. *)
Lemma override_empty a : override a emptyConfig = a.
Proof. by destruct a. Qed.

Lemma override_assoc (a b c : Config) :
  override (override a b) c = override a (override b c).
Proof.
  unfold override; simpl; f_equal; try apply set_nonempty_assoc; try apply set_pointer_assoc.
  - destruct (Z.ltb_spec 0 (MaxDataSizeMb c)) as [Hc|Hc].
    + by rewrite (proj2 (Z.ltb_lt _ _)).
    + done.
  - by destruct (DovecotAuth c).
  - by destruct (HaproxyIncoming c).
  - destruct (N.ltb_spec 0 (MaxQueueItems c)) as [Hc|Hc].
    + by rewrite (proj2 (N.ltb_lt _ _)).
    + done.
Qed.

(** ** Loading *)

(** What the server takes for granted of its configuration. *)
Record valid (c : Config) : Prop := {
  v_size : (0 < MaxDataSizeMb c)%Z;
  v_smtp : SmtpAddress c ≠ [];
  v_submission : SubmissionAddress c ≠ [];
  v_submission_tls : SubmissionOverTlsAddress c ≠ [];
  v_mda : MailDeliveryAgentBin c ≠ [];
  v_dir : DataDir c ≠ [];
  v_suffix : SuffixSeparators c ≠ None;
  v_drop : DropCharacters c ≠ None;
  v_log : MailLogPath c ≠ [];
  v_items : (0 < MaxQueueItems c)%N;
  v_giveup : is_ok (Time.ParseDuration (GiveUpSendAfter c)) = true;
}.

Lemma set_nonempty_not_nil {A} (c o : list A) : c ≠ [] → set_nonempty c o ≠ [].
Proof. by destruct o. Qed.

Lemma set_pointer_not_nil {A} (c o : option A) : c ≠ None → set_pointer c o ≠ None.
Proof. by destruct o. Qed.

Section LoadProps.
Context `{ProtoText Config}.

Lemma set_nonempty_nil {A} (o : list A) : set_nonempty [] o = o.
Proof. by destruct o. Qed.

(** What [Load] gives, when it does. *)
Lemma Load_inv fault fs hostname path overrides c :
  Load fault fs hostname path overrides = Ok c →
  ∃ buf file args h,
    ReadFile fault fs path = Ok buf ∧ text_Unmarshal buf = Ok file ∧
    text_Unmarshal overrides = Ok args ∧
    c = set_Hostname (override defaultConfig (override file args)) h ∧
    (h = Hostname (override file args) ∧ h ≠ [] ∨
     Hostname (override file args) = [] ∧ hostname = Ok h) ∧
    is_ok (Time.ParseDuration (GiveUpSendAfter c)) = true.
Proof.
  unfold Load. destruct (ReadFile _ _ _) as [buf|] eqn:Eb; [|done].
  destruct (text_Unmarshal buf) as [file|] eqn:Ef; [|done].
  destruct (text_Unmarshal overrides) as [args|] eqn:Ea; [|done].
  rewrite override_assoc.
  set (m := override file args). set (c0 := override defaultConfig m).
  assert (Hh : Hostname c0 = Hostname m) by apply set_nonempty_nil.
  assert (Hc0 : c0 = set_Hostname c0 (Hostname m)) by (rewrite <- Hh; clearbody c0; by destruct c0).
  rewrite Hh. destruct (bool_decide (Hostname m = [])) eqn:En; simpl.
  - apply bool_decide_eq_true in En. destruct hostname as [h|]; [|done].
    destruct (Time.ParseDuration _) eqn:Ed; [|done]. intros [= <-].
    exists buf, file, args, h. split_and!; try done; [by right|].
    unfold c0, m. simpl. simpl in Ed. by rewrite Ed.
  - apply bool_decide_eq_false in En.
    destruct (Time.ParseDuration _) eqn:Ed; [|done]. intros [= <-].
    exists buf, file, args, (Hostname m).
    split_and!; [done..|exact Hc0|by left|].
    unfold c0, m. simpl. simpl in Ed. by rewrite Ed.
Qed.

Lemma Load_ok fault fs hostname path overrides c :
  Load fault fs hostname path overrides = Ok c → valid c.
Proof.
  intros Hl. apply Load_inv in Hl as (buf & file & args & h & Eb & Ef & Ea & -> & Hh & Hd).
  split; simpl; try (by apply set_nonempty_not_nil); try (by apply set_pointer_not_nil);
    [| |exact Hd].
  - repeat match goal with |- context [Z.ltb 0 ?x] => destruct (Z.ltb_spec 0 x) end; lia.
  - repeat match goal with |- context [N.ltb 0 ?x] => destruct (N.ltb_spec 0 x) end; lia.
Qed.

(** The last of the values that is set, or else the default. *)
Definition last_set {A} (sets : A → bool) (l : list A) (d : A) : A :=
  default d (last (filter (λ x, sets x = true) l)).

Definition nonempty {A} (l : list A) : bool := match l with [] => false | _ => true end.
Definition is_set {A} (o : option A) : bool := match o with None => false | Some _ => true end.

(** Each option but the name of the host, with its default. *)
Record layered (file args c : Config) : Prop := {
  l_MaxDataSizeMb : MaxDataSizeMb c = last_set (Z.ltb 0) [MaxDataSizeMb file; MaxDataSizeMb args] 50%Z;
  l_SmtpAddress : SmtpAddress c = last_set nonempty [SmtpAddress file; SmtpAddress args] ["systemd" : bytes];
  l_SubmissionAddress : SubmissionAddress c = last_set nonempty [SubmissionAddress file; SubmissionAddress args] ["systemd" : bytes];
  l_SubmissionOverTlsAddress : SubmissionOverTlsAddress c =
    last_set nonempty [SubmissionOverTlsAddress file; SubmissionOverTlsAddress args] ["systemd" : bytes];
  l_MonitoringAddress : MonitoringAddress c = last_set nonempty [MonitoringAddress file; MonitoringAddress args] [];
  l_MailDeliveryAgentBin : MailDeliveryAgentBin c =
    last_set nonempty [MailDeliveryAgentBin file; MailDeliveryAgentBin args] "maildrop";
  l_MailDeliveryAgentArgs : MailDeliveryAgentArgs c =
    last_set nonempty [MailDeliveryAgentArgs file; MailDeliveryAgentArgs args] ["-f" : bytes; "%from%"; "-d"; "%to_user%"];
  l_DataDir : DataDir c = last_set nonempty [DataDir file; DataDir args] "/var/lib/chasquid";
  l_SuffixSeparators : SuffixSeparators c = last_set is_set [SuffixSeparators file; SuffixSeparators args] (Some ("+" : bytes));
  l_DropCharacters : DropCharacters c = last_set is_set [DropCharacters file; DropCharacters args] (Some ("." : bytes));
  l_MailLogPath : MailLogPath c = last_set nonempty [MailLogPath file; MailLogPath args] "<syslog>";
  l_DovecotAuth : DovecotAuth c = last_set id [DovecotAuth file; DovecotAuth args] false;
  l_DovecotUserdbPath : DovecotUserdbPath c = last_set nonempty [DovecotUserdbPath file; DovecotUserdbPath args] [];
  l_DovecotClientPath : DovecotClientPath c = last_set nonempty [DovecotClientPath file; DovecotClientPath args] [];
  l_HaproxyIncoming : HaproxyIncoming c = last_set id [HaproxyIncoming file; HaproxyIncoming args] false;
  l_MaxQueueItems : MaxQueueItems c = last_set (N.ltb 0) [MaxQueueItems file; MaxQueueItems args] 200%N;
  l_GiveUpSendAfter : GiveUpSendAfter c = last_set nonempty [GiveUpSendAfter file; GiveUpSendAfter args] "20h";
}.

Lemma last_set_nonempty {A} (d a b : list A) :
  set_nonempty d (set_nonempty a b) = last_set nonempty [a; b] d.
Proof. by destruct a, b. Qed.

Lemma last_set_pointer {A} (d a b : option A) :
  set_pointer d (set_pointer a b) = last_set is_set [a; b] d.
Proof. by destruct a, b. Qed.

Lemma last_set_bool (a b : bool) : (if (if b then true else a) then true else false)
  = last_set id [a; b] false.
Proof. by destruct a, b. Qed.

Lemma override_layered file args h :
  layered file args (set_Hostname (override defaultConfig (override file args)) h).
Proof.
  split; simpl; try apply last_set_nonempty; try apply last_set_pointer; try apply last_set_bool.
  - unfold last_set. rewrite !filter_cons, filter_nil.
    destruct (Z.ltb 0 (MaxDataSizeMb args)) eqn:E1, (Z.ltb 0 (MaxDataSizeMb file)) eqn:E2; simpl;
      by rewrite ?E1, ?E2.
  - unfold last_set. rewrite !filter_cons, filter_nil.
    destruct (N.ltb 0 (MaxQueueItems args)) eqn:E1, (N.ltb 0 (MaxQueueItems file)) eqn:E2; simpl;
      by rewrite ?E1, ?E2.
Qed.

(** C36: In a configuration that loads, each option has the value of the command
    line if it is set there, or else that of the file if it is set there, or else
    its default ([layered]); where a string or a list counts as set if it is not
    empty, a number if it is positive, a boolean if it is true, and the separators
    and drop characters if they are there.  So false, zero and an empty list do not
    override.  The name of the host is taken in the same way, and from the system
    if it is set in neither.  All that the server takes for granted holds of it:
    there are sizes, addresses, directories and separators, and the time to give up
    parses. *)
Theorem Load_valid fault fs hostname path overrides c :
  Load fault fs hostname path overrides = Ok c →
  valid c ∧
  ∃ buf file args,
    ReadFile fault fs path = Ok buf ∧ text_Unmarshal buf = Ok file ∧
    text_Unmarshal overrides = Ok args ∧ layered file args c ∧
    let name := last_set nonempty [Hostname file; Hostname args] [] in
    (name ≠ [] ∧ Hostname c = name ∨ name = [] ∧ hostname = Ok (Hostname c)).
Proof.
  intros Hl. split; [by eapply Load_ok|].
  apply Load_inv in Hl as (buf & file & args & h & Eb & Ef & Ea & -> & Hh & Hd).
  exists buf, file, args. split_and!; try done; [apply override_layered|].
  assert (Hn : Hostname (override file args) = last_set nonempty [Hostname file; Hostname args] []).
  { rewrite <- last_set_nonempty. symmetry. apply set_nonempty_nil. }
  cbv zeta. rewrite <- Hn. destruct Hh as [[-> Hne]|[Hn' ->]]; [by left|by right].
Qed.

End LoadProps.

(** ** An example *)

Module Example.

(** A text form for the example: the only option is the name of the host. *)
#[local] Instance host_text : ProtoText Config :=
  {| text_Marshal (c : Config) := Ok (Hostname c);
     text_Unmarshal (b : bytes) := Ok (set_Hostname emptyConfig b) |}.

Definition etc : FS := {[ ("/etc/chasquid.conf" : bytes) := ("mx.dom" : bytes) ]}.

Definition loaded : Config := set_Hostname defaultConfig "other.dom".

Lemma Load_valid_witness :
  Load (λ _, None) etc (Err "none") "/etc/chasquid.conf" "other.dom" = Ok loaded ∧
  valid loaded.
Proof.
  assert (E : Load (λ _, None) etc (Err "none") "/etc/chasquid.conf" "other.dom" = Ok loaded)
    by (vm_compute; reflexivity).
  split; [exact E|]. apply (Load_valid _ _ _ _ _ _ E).
Defined.

End Example.

End Config.
