(* ===== verification/Server.v ===== *)
(** The SMTP server as a whole: internal/smtpsrv/server.go.

    The server owns one resolver of aliases, one authenticator and one set of
    local domains; the connections and the queue hold pointers to them.  They
    are kept once here, in the record [Server], and [the_queue] and [conn_config]
    give them to the queue and to a connection as they are at the moment. *)

From S2P Require Import Prelude GoStrings GoSlices Envelope DotReader Aliases Store.
From S2P Require Import DomainInfo Auth Haproxy Conn Queue SmtpClient Courier Dkim.
From S2P Require Import Dovecot DovecotProps LocalRpc.
#[local] Open Scope go_scope.

(** ** path *)
Module Path.

(** The components of a path, without the empty ones and the dots, the last
    first; a [..] removes the component before it. *)
Definition clean_step (rooted : bool) (out : list bytes) (c : bytes) : list bytes :=
  if (c == []) || (c == ".") then out
  else if c == ".." then
    match out with
    | [] => if rooted then [] else [c]
    | o :: out' => if o == ".." then c :: out else out'
    end
  else c :: out.

Definition Clean (path : bytes) : bytes :=
  if path == [] then "."
  else
    let rooted := HasPrefix path "/" in
    let out := Join (reverse (foldl (clean_step rooted) [] (Split path "/"))) "/" in
    if rooted then "/" ++ out else if out == [] then "." else out.

(** [path.Join] and [filepath.Join], of two elements. *)
Definition Join2 (a b : bytes) : bytes :=
  match filter (λ e, e ≠ []) [a; b] with
  | [] => []
  | es => Clean (Join es "/")
  end.

(** [filepath.Base] and [filepath.Dir] *)
Definition last_component (path : bytes) : bytes :=
  List.last (Split path "/") [].

Definition Base (path : bytes) : bytes :=
  if path == [] then "."
  else
    let p := TrimRight path "/" in
    if p == [] then "/" else last_component p.

Definition Dir (path : bytes) : bytes :=
  Clean (take (length path - length (last_component path)) path).

Example clean_examples :
  map Clean ["" : bytes; "a/b"; "a//b/./c/.."; "/.."; "../a"; "hooks//alias-resolve"]
  = ["." : bytes; "a/b"; "a/b"; "/"; "../a"; "hooks/alias-resolve"].
Proof. reflexivity. Qed.

Example join_hook : Join2 "hooks/" "post-data" = "hooks/post-data".
Proof. reflexivity. Qed.

End Path.

#[export] Instance SocketMode_eq_dec : EqDecision Smtpsrv.SocketMode.
Proof. solve_decision. Defined.

#[export] Instance SocketMode_countable : Countable Smtpsrv.SocketMode.
Proof.
  refine (inj_countable' (λ m, (Smtpsrv.IsSubmission m, Smtpsrv.TLS m))
            (λ p, Smtpsrv.mkSocketMode p.1 p.2) _).
  by intros [].
Defined.

Module Server.
Import Safeio Protoio Smtpsrv Url.

(** The backends of the authenticator: user databases and Dovecot. *)
Abbreviation backend := (Auth.wrapNoErrorBackend UserDB.DB + Dovecot.service)%type.

(** A listener that came from systemd, by the text of its address. *)
Abbreviation listener := bytes.

(** What is used of encoding/pem and crypto/x509 to read private keys: the type
    and the bytes of the first block, and the key in PKCS #8 form. *)
Class KeyFiles (PrivateKey : Type) := {
  pem_Decode : bytes → option (bytes * bytes);
  ParsePKCS8PrivateKey : bytes → res bytes PrivateKey;
}.

Section Server.
Context `{Unicode, Precis, NetMail, NetIP, AliasWorld, ErrorText, ScryptKDF}.
Context `{ProtoText DomainInfo.Domain, ProtoText Queue.Message, ProtoText UserDB.ProtoDB}.
Context {RSAPublicKey PrivateKey : Type} `{Dkim.Crypto RSAPublicKey PrivateKey}.
Context `{!KeyFiles PrivateKey}.
#[local] Existing Instances Auth.wrap_backend UserDB.userdb_backend.
#[local] Existing Instances Dovecot.dovecot_backend DovecotProps.sum_backend.

(** [tls.Certificate], by where it was loaded from. *)
Record Server := mkServer {
  Hostname : bytes;
  MaxDataSize : Z;
  addrs : gmap SocketMode (list bytes);
  listeners : gmap SocketMode (list listener);
  certificates : list bytes;
  HAProxyEnabled : bool;
  localDomains : StringSet.String;
  authr : Auth.Authenticator backend;
  aliasesR : Aliases.Resolver;
  dinfo : option DomainInfo.DB;
  dkimSigners : gmap bytes (list (Dkim.Signer PrivateKey));
  connTimeout : Z;
  commandTimeout : Z;
  queue : option Queue.Queue;
  HookPath : bytes;
}.

(** The function of the resolver is a method of the authenticator, which changes;
    see [resolver]. *)
Definition NewServer : Server :=
  {| Hostname := []; MaxDataSize := 0; addrs := ∅; listeners := ∅; certificates := [];
     HAProxyEnabled := false; localDomains := StringSet.empty;
     authr := Auth.NewAuthenticator backend;
     aliasesR := Aliases.NewResolver (λ _ _, Ok false); dinfo := None; dkimSigners := ∅;
     connTimeout := 20 * 60 * 1000000000; commandTimeout := 60 * 1000000000;
     queue := None; HookPath := [] |}.

(** The fields that main assigns. *)
Definition set_main (s : Server) (hostname : bytes) (maxDataSize : Z) (hookPath : bytes)
    (haproxy : bool) : Server :=
  mkServer hostname maxDataSize (addrs s) (listeners s) (certificates s) haproxy
    (localDomains s) (authr s) (aliasesR s) (dinfo s) (dkimSigners s) (connTimeout s)
    (commandTimeout s) (queue s) hookPath.
Definition set_certificates (s : Server) (cs : list bytes) : Server :=
  mkServer (Hostname s) (MaxDataSize s) (addrs s) (listeners s) cs (HAProxyEnabled s)
    (localDomains s) (authr s) (aliasesR s) (dinfo s) (dkimSigners s) (connTimeout s)
    (commandTimeout s) (queue s) (HookPath s).
Definition set_sockets (s : Server) (a : gmap SocketMode (list bytes))
    (l : gmap SocketMode (list listener)) : Server :=
  mkServer (Hostname s) (MaxDataSize s) a l (certificates s) (HAProxyEnabled s)
    (localDomains s) (authr s) (aliasesR s) (dinfo s) (dkimSigners s) (connTimeout s)
    (commandTimeout s) (queue s) (HookPath s).
Definition set_domains (s : Server) (ds : StringSet.String) (r : Aliases.Resolver) : Server :=
  mkServer (Hostname s) (MaxDataSize s) (addrs s) (listeners s) (certificates s)
    (HAProxyEnabled s) ds (authr s) r (dinfo s) (dkimSigners s) (connTimeout s)
    (commandTimeout s) (queue s) (HookPath s).
Definition set_authr (s : Server) (a : Auth.Authenticator backend) : Server :=
  mkServer (Hostname s) (MaxDataSize s) (addrs s) (listeners s) (certificates s)
    (HAProxyEnabled s) (localDomains s) a (aliasesR s) (dinfo s) (dkimSigners s)
    (connTimeout s) (commandTimeout s) (queue s) (HookPath s).
Definition set_signers (s : Server) (m : gmap bytes (list (Dkim.Signer PrivateKey))) : Server :=
  mkServer (Hostname s) (MaxDataSize s) (addrs s) (listeners s) (certificates s)
    (HAProxyEnabled s) (localDomains s) (authr s) (aliasesR s) (dinfo s) m
    (connTimeout s) (commandTimeout s) (queue s) (HookPath s).
Definition set_dinfo (s : Server) (db : DomainInfo.DB) : Server :=
  mkServer (Hostname s) (MaxDataSize s) (addrs s) (listeners s) (certificates s)
    (HAProxyEnabled s) (localDomains s) (authr s) (aliasesR s) (Some db) (dkimSigners s)
    (connTimeout s) (commandTimeout s) (queue s) (HookPath s).
Definition set_queue (s : Server) (q : Queue.Queue) : Server :=
  mkServer (Hostname s) (MaxDataSize s) (addrs s) (listeners s) (certificates s)
    (HAProxyEnabled s) (localDomains s) (authr s) (aliasesR s) (dinfo s) (dkimSigners s)
    (connTimeout s) (commandTimeout s) (Some q) (HookPath s).

(** ** Shared objects *)

Definition user_exists (a : Auth.Authenticator backend) (user domain : bytes) :
    res Aliases.error bool :=
  match Auth.Exists a user domain with
  | (ok, None) => Ok ok
  | (_, Some (Auth.ErrBackend msg)) => Err (Aliases.ErrUserDB msg)
  | (_, Some (Auth.ErrRead _)) => Err (Aliases.ErrUserDB [])
  end.

(** The resolver calls [authr.Exists] on the authenticator as it is. *)
Definition resolver (s : Server) : Aliases.Resolver :=
  Aliases.mkResolver (Aliases.SuffixSep (aliasesR s)) (Aliases.DropChars (aliasesR s))
    (Aliases.ResolveHook (aliasesR s)) (user_exists (authr s)) (Aliases.files (aliasesR s))
    (Aliases.domains (aliasesR s)) (Aliases.aliases (aliasesR s)).

(** The queue, with its pointers followed. *)
Definition the_queue (s : Server) : option Queue.Queue :=
  (λ q, Queue.mkQueue (Some (localDomains s)) (Queue.path q) (resolver s)
          (Queue.MaxItems q) (Queue.GiveUpAfter q) (Queue.q q)) <$> queue s.

(** ** Setting up *)

(** [cert] is the outcome of [tls.LoadX509KeyPair]. *)
Definition AddCerts (cert : res bytes bytes) (s : Server) : res bytes Server :=
  match cert with
  | Ok c => Ok (set_certificates s (certificates s ++ [c]))
  | Err e => Err e
  end.

Definition AddAddr (a : bytes) (m : SocketMode) (s : Server) : Server :=
  set_sockets s (<[m := default [] (addrs s !! m) ++ [a]]> (addrs s)) (listeners s).

Definition AddListeners (ls : list listener) (m : SocketMode) (s : Server) : Server :=
  set_sockets s (addrs s) (<[m := default [] (listeners s !! m) ++ ls]> (listeners s)).

Definition AddDomain (d : bytes) (s : Server) : Server :=
  set_domains s (StringSet.Add (localDomains s) [d]) (Aliases.AddDomain (aliasesR s) d).

(** The database is registered even when it does not load. *)
Definition AddUserDB (disk : Auth.disk) (partial : UserDB.ProtoDB) (domain f : bytes)
    (s : Server) : Server * (nat * option Protoio.read_error) :=
  let '(udb, err) := UserDB.Load disk partial f in
  (set_authr s (Auth.Register (authr s) domain (inl (Auth.WrapNoErrorBackend udb))),
   (UserDB.Len udb, err)).

Definition AddAliasesFile (domain f : bytes) (s : Server) :
    Server * res Aliases.error nat :=
  let '(r, n) := Aliases.AddAliasesFile (aliasesR s) domain f in
  (set_domains s (localDomains s) r, n).

Inductive key_error :=
| ErrReadKey (e : Protoio.read_error)
| errDecodingPEMBlock
| errUnsupportedBlockType (t : bytes)
| ErrParseKey (e : bytes)
| errUnsupportedKeyType.

Definition AddDKIMSigner (disk : Auth.disk) (domain selector keyPath : bytes) (s : Server) :
    res key_error Server :=
  match ReadFile (Auth.disk_fault disk) (Auth.disk_files disk) keyPath with
  | Err e => Err (ErrReadKey e)
  | Ok key =>
    match pem_Decode key with
    | None => Err errDecodingPEMBlock
    | Some (t, block) =>
      if ToUpper t != "PRIVATE KEY" then Err (errUnsupportedBlockType t)
      else
        match ParsePKCS8PrivateKey block with
        | Err e => Err (ErrParseKey e)
        | Ok k =>
          if Dkim.private_kind k == None then Err errUnsupportedKeyType
          else
            Ok (set_signers s
                  (<[domain := default [] (dkimSigners s !! domain) ++
                               [Dkim.mkSigner domain selector k]]> (dkimSigners s)))
        end
    end
  end.

Definition SetAuthFallback (be : backend) (s : Server) : Server :=
  set_authr s (Auth.mkAuthenticator (Auth.backends (authr s)) (Some be)
                 (Auth.AuthDuration (authr s))).

Definition SetAliasesConfig (suffixSep dropChars : bytes) (s : Server) : Server :=
  let r := aliasesR s in
  set_domains s (localDomains s)
    (Aliases.mkResolver suffixSep dropChars (Path.Join2 (HookPath s) "alias-resolve")
       (Aliases.userExistsInDB r) (Aliases.files r) (Aliases.domains r) (Aliases.aliases r)).

Definition SetDomainInfo (db : DomainInfo.DB) (s : Server) : Server := set_dinfo s db.

(** The queue is made and loaded; the loops of the items that were found are
    started for the ids that are returned. *)
Definition InitQueue (fault : bytes → option bytes) (fs : FS) (mkdir_err : option bytes)
    (path : bytes) (s : Server) : res bytes (Server * list bytes) :=
  match Queue.New path (Some (localDomains s)) (resolver s) mkdir_err with
  | (_, Some e) => Err e
  | (q, None) =>
    let '(q, started) := Queue.Load fault fs q in
    Ok (set_queue s q, started)
  end.

(** The queue must have been made: a nil pointer is a panic. *)
Definition SetQueueLimits (maxItems giveUpAfter : Z) (s : Server) : option Server :=
  q ← queue s;
  Some (set_queue s (Queue.SetQueueLimits q maxItems giveUpAfter)).

(** ** RPC handlers *)

(** The wording of the errors of the resolver. *)
Variable alias_error_text : Aliases.error → bytes.

Definition RType_text (t : Aliases.RType) : bytes :=
  match t with
  | Aliases.EMAIL => "(email)"
  | Aliases.PIPE => "(pipe)"
  | Aliases.FORWARD => "(forward)"
  end.

Definition aliasResolveRPC (s : Server) (req : Values) : res bytes Values :=
  match Aliases.Resolve (resolver s) (Get req "Address") with
  | Err e => Err (alias_error_text e)
  | Ok rcpts =>
    Ok (foldl (λ v r, Add v (RType_text (Aliases.Type_ r)) (Aliases.Addr r)) ∅ rcpts)
  end.

(** The server, the disk of its domain information, and what the disk answers. *)
Record rpc_state := mkRpcState {
  rs_server : Server;
  rs_fs : FS;
  rs_calls : syscalls;
}.

Definition dinfoClearRPC (st : rpc_state) (req : Values) : option (rpc_state * res bytes Values) :=
  db ← dinfo (rs_server st);
  let '(exists_, db, (fs, _)) :=
    DomainInfo.Clear (rs_calls st) (rs_fs st) db (Get req "Domain") in
  Some (mkRpcState (set_dinfo (rs_server st) db) fs (rs_calls st),
        if exists_ : bool then Ok ∅ else Err "does not exist").

(** The methods that [ListenAndServe] registers.  The state is lost when the
    program ends in a panic. *)
Definition alias_method (st : option rpc_state) (req : Values) :
    option rpc_state * res bytes Values :=
  match st with
  | Some st => (Some st, aliasResolveRPC (rs_server st) req)
  | None => (None, Err [])
  end.

Definition dinfo_method (st : option rpc_state) (req : Values) :
    option rpc_state * res bytes Values :=
  match st ≫= λ st, dinfoClearRPC st req with
  | Some (st, r) => (Some st, r)
  | None => (None, Err [])
  end.

Definition rpc_methods : LocalRpc.Server (option rpc_state) :=
  LocalRpc.Register (LocalRpc.Register LocalRpc.NewServer "AliasResolve" alias_method)
    "DomaininfoClear" dinfo_method.

(** ** Reloading *)

Inductive reload_fatal :=
| FatalAliases (e : Aliases.error)
| FatalAuth (es : list (option bytes * Auth.error)).

Definition Reload (disk : Auth.disk) (order : list (bytes * list bytes)) (s : Server) :
    res reload_fatal Server :=
  match Aliases.Reload (resolver s) order with
  | (_, Some e) => Err (FatalAliases e)
  | (r, None) =>
    match Auth.Reload disk (authr s) with
    | (a, []) => Ok (set_authr (set_domains s (localDomains s) r) a)
    | (_, es) => Err (FatalAuth es)
    end
  end.

(** ** Serving *)

Inductive listen_fatal :=
| FatalNoCertificates
| FatalListen (e : bytes).

(** The addresses are listened on in the order in which Go goes through the map;
    [listen] is the outcome of [net.Listen].  The result is the sockets that are
    served, each in its mode. *)
Fixpoint listen_all (listen : bytes → option bytes) (l : list (SocketMode * bytes)) :
    res listen_fatal (list (SocketMode * bytes)) :=
  match l with
  | [] => Ok []
  | (m, a) :: l =>
    match listen a with
    | Some e => Err (FatalListen e)
    | None => rest ← listen_all listen l; Ok ((m, a) :: rest)
    end
  end.

Definition all_of (order : list (SocketMode * list bytes)) : list (SocketMode * bytes) :=
  concat ((λ p : SocketMode * list bytes, (λ a, (p.1, a)) <$> p.2) <$> order).

Definition ListenAndServe (listen : bytes → option bytes)
    (order lorder : list (SocketMode * list bytes)) (s : Server) :
    res listen_fatal (list (SocketMode * bytes)) :=
  if certificates s == [] then Err FatalNoCertificates
  else
    served ← listen_all listen (all_of order);
    Ok (served ++ all_of lorder).

(** What a connection gets from the server, at time [now]. *)
Definition conn_config (now : Z) (m : SocketMode) (s : Server) :
    Config (B := backend) (Signer := Dkim.Signer PrivateKey) :=
  {| maxDataSize := MaxDataSize s;
     postDataHook := Path.Join2 (HookPath s) "post-data";
     mode := m;
     Smtpsrv.authr := authr s;
     Smtpsrv.localDomains := Some (localDomains s);
     Smtpsrv.aliasesR := resolver s;
     Smtpsrv.dkimSigners := dkimSigners s;
     deadline := now + connTimeout s;
     haproxyEnabled := HAProxyEnabled s;
     maxReceivedHeaders := 50;
     disableSPFForTesting := false |}.

End Server.

End Server.
