(* ===== verification/Serving.v ===== *)
(** The server at work: [serve], [periodicallyReload] and the connections that
    run at the same time, in internal/smtpsrv/server.go and conn.go.

    [serve] starts a goroutine for every connection that it accepts.  They share
    the queue, the domain information, the authenticator and the resolver of
    aliases, which are behind pointers; each has a state of its own.  A step of
    the world is one turn of a connection's loop, a new connection, a reload, or
    something that the rest of the program or the outside does.

    A turn is one step although the others may run meanwhile: it puts at most
    one message in the queue, and asks the authenticator and the resolver about
    one address or one password, each under its lock. *)

From S2P Require Import Prelude GoStrings GoSlices Envelope DotReader Aliases Store.
From S2P Require Import DomainInfo Auth Haproxy Conn ConnProps Queue SmtpClient Courier Dkim.
From S2P Require Import Dovecot DovecotProps LocalRpc Server.
#[local] Open Scope go_scope.

Module Serving.
Import DotReader.

Section Serving.
Context `{Unicode, Precis, NetMail, NetIP, AliasWorld, Smtpsrv.ErrorText, ScryptKDF}.
Context `{ProtoText DomainInfo.Domain, ProtoText Queue.Message, ProtoText UserDB.ProtoDB}.
Context {RSAPublicKey PrivateKey : Type} `{Dkim.Crypto RSAPublicKey PrivateKey}.
Context {Q : Type} `{MailQueue Q}.
Context {VerifyResult : Type} `{Dkim (Dkim.Signer PrivateKey) VerifyResult}.
#[local] Existing Instances Auth.wrap_backend UserDB.userdb_backend.
#[local] Existing Instances Dovecot.dovecot_backend DovecotProps.sum_backend.

#[local] Abbreviation Conn := (Smtpsrv.Conn (B := Server.backend) (Q := Q)
  (Signer := Dkim.Signer PrivateKey) (VerifyResult := VerifyResult)).
#[local] Abbreviation Config := (Smtpsrv.Config (B := Server.backend)
  (Signer := Dkim.Signer PrivateKey)).
#[local] Abbreviation Server := (Server.Server (PrivateKey := PrivateKey)).

(** ** A connection *)

(** [Handle], before its loop: whether the loop is entered. *)
Definition opening (c : Conn) : Conn * option Smtpsrv.handled :=
  match Smtpsrv.tls_listener c with
  | Err err => (c, Some (Smtpsrv.HandshakeFailed err))
  | Ok c =>
    let '(r, err) :=
      if Smtpsrv.haproxyEnabled (Smtpsrv.cfg c) then
        match Haproxy.Handshake (Smtpsrv.rd c) with
        | (Err err, r) => (Smtpsrv.set_io c r (Smtpsrv.wr c), Some err)
        | (Ok (src, _), r) =>
          (Smtpsrv.set_remoteAddr (Smtpsrv.set_io c r (Smtpsrv.wr c)) src, None)
        end
      else (c, None) in
    match err with
    | Some err => (r, Some (Smtpsrv.HaproxyFailed err))
    | None =>
      (Smtpsrv.printfLine r ("220 " ++ Smtpsrv.hostname r ++ " ESMTP chasquid"), None)
    end
  end.

Lemma Handle_opening fuel envs (c : Conn) :
  Smtpsrv.Handle fuel envs c =
  match opening c with
  | (c, Some h) => (c, h)
  | (c, None) =>
    let '(c, x) := Smtpsrv.loop fuel envs 0 c 0 in (c, Smtpsrv.Handled x)
  end.
Proof.
  unfold Smtpsrv.Handle, opening. destruct (Smtpsrv.tls_listener c) as [c1|err]; [|done].
  destruct (if Smtpsrv.haproxyEnabled _ then _ else _) as [c2 [err|]]; done.
Qed.

(** What the connection reads through its pointers, as it is in server [s]. *)
Definition refresh (s : Server) (cf : Config) : Config :=
  Smtpsrv.mkConfig (Smtpsrv.maxDataSize cf) (Smtpsrv.postDataHook cf) (Smtpsrv.mode cf)
    (Server.authr s) (Some (Server.localDomains s)) (Server.resolver s)
    (Server.dkimSigners s) (Smtpsrv.deadline cf) (Smtpsrv.haproxyEnabled cf)
    (Smtpsrv.maxReceivedHeaders cf) (Smtpsrv.disableSPFForTesting cf).

Definition set_cfg (c : Conn) (cf : Config) : Conn :=
  Smtpsrv.mkConn
    cf (Smtpsrv.hostname c) (Smtpsrv.remoteAddr c) (Smtpsrv.tlsConnState c)
    (Smtpsrv.rd c) (Smtpsrv.wr c) (Smtpsrv.handshakes c) (Smtpsrv.ehloDomain c)
    (Smtpsrv.isESMTP c) (Smtpsrv.mailFrom c) (Smtpsrv.rcptTo c) (Smtpsrv.data c)
    (Smtpsrv.spfResult c) (Smtpsrv.spfError c) (Smtpsrv.dkimVerifyResult c)
    (Smtpsrv.onTLS c) (Smtpsrv.completedAuth c) (Smtpsrv.authUser c)
    (Smtpsrv.authDomain c) (Smtpsrv.dinfo c) (Smtpsrv.dinfoFS c) (Smtpsrv.queue c).

(** ** The world *)

(** A connection with its count of errors.  [during] is not in the program: the
    states of the server since the connection was accepted. *)
Record session := mkSession {
  s_conn : Conn;
  s_errs : nat;
  during : list Server;
}.

Record world := mkWorld {
  srv : Server;
  queue : Q;
  dinfo : DomainInfo.DB;
  fs : Safeio.FS;
  conns : gmap nat session;
}.

(** The connection with what it shares as it is now. *)
Definition shared (w : world) (c : Conn) : Conn :=
  Smtpsrv.set_queue
    (Smtpsrv.set_dinfo (set_cfg c (refresh (srv w) (Smtpsrv.cfg c))) (dinfo w) (fs w))
    (queue w).

(** [serve]: a connection from [addr] on a socket of mode [m]. *)
Definition accept (now : Z) (m : Smtpsrv.SocketMode) (addr : Addr) (r : reader)
    (wr : writer) (hs : list (res bytes (Smtpsrv.ConnectionState * reader)))
    (w : world) : Conn :=
  Smtpsrv.new_conn (Server.conn_config now m (srv w)) (Server.Hostname (srv w)) addr r wr hs
    (dinfo w) (fs w) (queue w).

Definition serve (k : nat) (now : Z) (m : Smtpsrv.SocketMode) (addr : Addr) (r : reader)
    (wr : writer) (hs : list (res bytes (Smtpsrv.ConnectionState * reader)))
    (w : world) : world :=
  match opening (accept now m addr r wr hs w) with
  | (_, Some _) => w
  | (c, None) =>
    mkWorld (srv w) (queue w) (dinfo w) (fs w) (<[k := mkSession c 0 [srv w]]> (conns w))
  end.

(** A turn of the loop of connection [k]; a panic ends the program. *)
Definition turn (e : Smtpsrv.env) (k : nat) (w : world) : option world :=
  s ← conns w !! k;
  let '(c, r) := Smtpsrv.iteration e (shared w (s_conn s)) (s_errs s) in
  let after := mkWorld (srv w) (Smtpsrv.queue c) (Smtpsrv.dinfo c) (Smtpsrv.dinfoFS c) in
  match r with
  | inl n => Some (after (<[k := mkSession c n (during s)]> (conns w)))
  | inr Smtpsrv.ExitPanic => None
  | inr _ => Some (after (delete k (conns w)))
  end.

(** The server becomes [s]. *)
Definition set_srv (w : world) (s : Server) : world :=
  mkWorld s (queue w) (dinfo w) (fs w)
    ((λ x, mkSession (s_conn x) (s_errs x) (s :: during x)) <$> conns w).

(** A tick of [periodicallyReload] calls [Reload], which changes what is shared
    in parts: first the aliases, all at once, and then each of the backends, by
    its domain or, for the fallback, [None]. *)
Definition reload_aliases (order : list (bytes * list bytes)) (s : Server) : option Server :=
  match Aliases.Reload (Server.resolver s) order with
  | (r, None) => Some (Server.set_domains s (Server.localDomains s) r)
  | (_, Some _) => None
  end.

Definition reload_at (disk : Auth.disk) (key : option bytes)
    (a : Auth.Authenticator Server.backend) : Auth.Authenticator Server.backend :=
  let reload be := (Auth.reload_one disk be).1 in
  match key with
  | Some d =>
    Auth.mkAuthenticator (alter reload d (Auth.backends a)) (Auth.Fallback a)
      (Auth.AuthDuration a)
  | None =>
    Auth.mkAuthenticator (Auth.backends a) (reload <$> Auth.Fallback a)
      (Auth.AuthDuration a)
  end.

Definition reload_backend (disk : Auth.disk) (key : option bytes) (s : Server) : Server :=
  Server.set_authr s (reload_at disk key (Server.authr s)).

Inductive step (w : world) : world → Prop :=
| step_serve k now m addr r wr hs :
    conns w !! k = None → step w (serve k now m addr r wr hs w)
| step_turn e k w' : turn e k w = Some w' → step w w'
| step_aliases order s : reload_aliases order (srv w) = Some s → step w (set_srv w s)
| step_backend disk key : step w (set_srv w (reload_backend disk key (srv w)))
(** Dovecot may give other answers than it did. *)
| step_dovecot sv sv' :
    Auth.Fallback (Server.authr (srv w)) = Some (inr sv) →
    Dovecot.sv_pid sv' = Dovecot.sv_pid sv →
    step w (set_srv w (Server.SetAuthFallback (inr sv') (srv w)))
(** The loops of the queue, the couriers and the RPCs. *)
| step_rest q db f : step w (mkWorld (srv w) q db f (conns w)).

(** A server that has been set up, and everything that may happen. *)
Inductive reachable : world → Prop :=
| reach_start s q db f : reachable (mkWorld s q db f ∅)
| reach_step w w' : reachable w → step w w' → reachable w'.

(** ** What is queued *)

(** A connection may have asked any of these servers. *)
Definition served (l : list Server) (cf : Config) : Prop :=
  ∃ s, s ∈ l ∧ Smtpsrv.authr cf = Server.authr s ∧
       Smtpsrv.localDomains cf = Some (Server.localDomains s) ∧
       Smtpsrv.aliasesR cf = Server.resolver s.

Definition session_ok (w : world) (x : session) : Prop :=
  srv w ∈ during x ∧ ConnProps.inv (served (during x)) (s_conn x).

Definition world_ok (w : world) : Prop := map_Forall (λ _, session_ok w) (conns w).

Lemma inv_more (P P' : Config → Prop) (c c' : Conn) :
  (∀ cf, P cf → P' cf) →
  Smtpsrv.IsSubmission (Smtpsrv.mode (Smtpsrv.cfg c'))
    = Smtpsrv.IsSubmission (Smtpsrv.mode (Smtpsrv.cfg c)) →
  Smtpsrv.onTLS c' = Smtpsrv.onTLS c →
  Smtpsrv.completedAuth c' = Smtpsrv.completedAuth c →
  Smtpsrv.mailFrom c' = Smtpsrv.mailFrom c → Smtpsrv.rcptTo c' = Smtpsrv.rcptTo c →
  ConnProps.inv P c → ConnProps.inv P' c'.
Proof.
  intros HP E1 E2 E3 E4 E5 [I1 I2 I3 I4 I5].
  split; rewrite ?E1, ?E2, ?E3, ?E4, ?E5; try done.
  - intros Ha. destruct (I2 Ha) as (cf & Hs & Hc). by exists cf; auto.
  - intros Ha. eapply Forall_impl; [exact (I4 Ha)|].
    intros r (cf & Hs & Hc). by exists cf; auto.
Qed.

Lemma served_cons s l cf : served l cf → served (s :: l) cf.
Proof. intros (s' & Hin & ?). exists s'. split; [by right|done]. Qed.

Lemma shared_served w l c : srv w ∈ l → served l (Smtpsrv.cfg (shared w c)).
Proof. intros Hin. by exists (srv w). Qed.

Lemma shared_inv w P c : ConnProps.inv P c → ConnProps.inv P (shared w c).
Proof. by apply inv_more. Qed.

(** [printfLine] and the handshakes leave what the policy is about. *)
Lemma opening_policy c c' o :
  opening c = (c', o) → ConnProps.same_policy c c'.
Proof.
  unfold opening, Smtpsrv.tls_listener, Smtpsrv.printfLine. intros E.
  repeat case_match; simplify_eq; done.
Qed.

Lemma opening_dinfo c c' o :
  opening c = (c', o) →
  Smtpsrv.dinfo c' = Smtpsrv.dinfo c ∧ Smtpsrv.dinfoFS c' = Smtpsrv.dinfoFS c.
Proof.
  unfold opening, Smtpsrv.tls_listener, Smtpsrv.printfLine. intros E.
  repeat case_match; simplify_eq; done.
Qed.

(** A turn queues mail that complies with the policy, and leaves the other
    connections alone. *)
Lemma turn_spec e k w w' x :
  conns w !! k = Some x → session_ok w x → turn e k w = Some w' →
  srv w' = srv w ∧
  (∀ j, j ≠ k → conns w' !! j = conns w !! j) ∧
  (∀ x', conns w' !! k = Some x' → during x' = during x ∧ session_ok w' x') ∧
  ∃ ms, queue w' = ConnProps.puts (queue w) ms ∧
    Forall (ConnProps.mail_ok (served (during x))
              (Smtpsrv.IsSubmission (Smtpsrv.mode (Smtpsrv.cfg (s_conn x))))) ms.
Proof.
  intros Hx [Hin Hinv]. unfold turn. rewrite Hx. simpl.
  destruct (Smtpsrv.iteration _ _ _) as [c r] eqn:E.
  apply (ConnProps.iteration_good (served (during x))) in E.
  destruct (E (shared_served _ _ _ Hin) (shared_inv w _ _ Hinv)) as (Hi & _ & Hms).
  destruct r as [n|ex]; [|destruct ex; try done]; intros [= <-]; simpl;
    (split; [done|]; split; [|split; [|exact Hms]]);
    try (intros j Hj; by rewrite ?lookup_insert_ne, ?lookup_delete_ne).
  2-8: intros x'; by rewrite lookup_delete_eq.
  intros x'. rewrite lookup_insert_eq. intros [= <-]. done.
Qed.

Lemma set_srv_ok w s : world_ok w → world_ok (set_srv w s).
Proof.
  intros Hw. apply map_Forall_fmap. eapply map_Forall_impl; [exact Hw|].
  intros j x [Hin Hi]. split; [by left|].
  eapply inv_more; [|done..|exact Hi]. apply served_cons.
Qed.

Lemma serve_ok k now m addr r wr hs w :
  world_ok w → world_ok (serve k now m addr r wr hs w).
Proof.
  intros Hw. unfold serve. destruct (opening _) as [c [h|]] eqn:E; [done|].
  apply map_Forall_insert_2; [|exact Hw]. split; [by left|].
  apply opening_policy in E as (E1 & E2 & E3 & E4 & E5 & _).
  eapply (inv_more (served [srv w]) _ (accept now m addr r wr hs w));
    [done|simpl; by rewrite E1|done..|]. apply ConnProps.new_conn_inv.
Qed.

Lemma turn_ok e k w w' : turn e k w = Some w' → world_ok w → world_ok w'.
Proof.
  intros E Hw. unfold turn in E. destruct (conns w !! k) as [x|] eqn:Hx; [|done].
  assert (E' : turn e k w = Some w') by (unfold turn; by rewrite Hx).
  destruct (turn_spec e k w w' x Hx (Hw k x Hx) E') as (Es & Ho & Hk & _).
  intros j x' Hj. destruct (decide (j = k)) as [->|Hne]; [by apply Hk|].
  rewrite Ho in Hj by done. unfold session_ok. rewrite Es. exact (Hw j x' Hj).
Qed.

Lemma step_ok w w' : step w w' → world_ok w → world_ok w'.
Proof.
  destruct 1; intros Hw; eauto using serve_ok, turn_ok, set_srv_ok.
Qed.

Lemma reachable_ok w : reachable w → world_ok w.
Proof. induction 1; eauto using step_ok. apply map_Forall_empty. Qed.

(** No open relay, of the server as a whole.  However the connections, the
    reloads of users and aliases and the rest of the program interleave, a turn
    of a connection changes the queue by [Put]s only, and each envelope that was
    put has a sender and between 1 and 101 recipients.  All of them are users of
    local domains that existed at some moment since the connection was accepted,
    unless the client authenticated on it, over TLS, with credentials that were
    valid at such a moment; on a submission port it always did.  The other
    connections are left as they are. *)
Theorem server_no_open_relay w e k x w' :
  reachable w → conns w !! k = Some x → turn e k w = Some w' →
  (Smtpsrv.completedAuth (s_conn x) = true → Smtpsrv.onTLS (s_conn x) = true) ∧
  (∀ j, j ≠ k → conns w' !! j = conns w !! j) ∧
  ∃ ms, queue w' = ConnProps.puts (queue w) ms ∧
    Forall (ConnProps.mail_ok (served (during x))
              (Smtpsrv.IsSubmission (Smtpsrv.mode (Smtpsrv.cfg (s_conn x))))) ms.
Proof.
  intros Hr Hx E. pose proof (reachable_ok w Hr k x Hx) as Hok.
  destruct (turn_spec e k w w' x Hx Hok E) as (_ & Ho & _ & Hms).
  split; [|done]. apply Hok.
Qed.

(** ** Reloading *)

Lemma lookup_foldl_alter {A} (f : A → A) (ks : list bytes) (m : gmap bytes A) i :
  NoDup ks →
  foldl (λ m k, alter f k m) m ks !! i = (if decide (i ∈ ks) then f else id) <$> m !! i.
Proof.
  intros Hnd. revert m. induction Hnd as [|k ks Hk _ IH]; intros m; cbn [foldl].
  { rewrite decide_False by (apply not_elem_of_nil). by rewrite option_fmap_id. }
  rewrite IH. destruct (decide (i = k)) as [->|Hne].
  - rewrite lookup_alter_eq, decide_False by done.
    rewrite decide_True by (by left). by rewrite option_fmap_id.
  - rewrite lookup_alter_ne by done.
    by rewrite (decide_ext (i ∈ k :: ks) (i ∈ ks)) by set_solver.
Qed.

(** [Reload] of the authenticator reloads the backends one after the other. *)
Lemma Reload_backends disk a :
  foldl (λ a k, reload_at disk k a) a 
    ((Some <$> (map_to_list (Auth.backends a)).*1) ++ [None])
  = (Auth.Reload disk a).1.
Proof.
  destruct a as [bs fb dur]. unfold Auth.Reload. simpl.
  set (f := λ be : Server.backend, (Auth.reload_one disk be).1).
  assert (HF : ∀ ks m,
    foldl (λ a k, reload_at disk k a) (Auth.mkAuthenticator m fb dur) (Some <$> ks)
    = Auth.mkAuthenticator (foldl (λ m k, alter f k m) m ks) fb dur).
  { induction ks as [|k ks IH]; intros m; [done|]. apply IH. }
  rewrite foldl_app, HF. simpl. unfold reload_at. simpl. f_equal.
  - apply map_eq. intros i. rewrite lookup_foldl_alter by apply NoDup_fst_map_to_list.
    rewrite <- map_fmap_compose, lookup_fmap.
    destruct (bs !! i) as [be|] eqn:E; [|done]. simpl.
    rewrite decide_True by (by apply list_elem_of_fmap; exists (i, be); rewrite elem_of_map_to_list). done.
  - by destruct fb.
Qed.

Lemma backend_steps disk keys w :
  ∃ w', rtc step w w' ∧
    srv w' = Server.set_authr (srv w)
               (foldl (λ a k, reload_at disk k a) (Server.authr (srv w)) keys) ∧
    queue w' = queue w ∧ dinfo w' = dinfo w ∧ fs w' = fs w ∧
    dom (conns w') = dom (conns w).
Proof.
  revert w. induction keys as [|key keys IH]; intros w.
  { exists w. split; [done|]. split; [by destruct (srv w)|done]. }
  destruct (IH (set_srv w (reload_backend disk key (srv w))))
    as (w' & Hs & Es & Eq & Ed & Ef & Ec).
  exists w'. split; [eapply rtc_l; [apply (step_backend w disk key)|exact Hs]|].
  split; [exact Es|]. repeat (split; [done|]). rewrite Ec. apply dom_fmap_L.
Qed.

(** A whole [Reload] is made of steps. *)
Lemma Reload_steps disk order w s :
  Server.Reload disk order (srv w) = Ok s →
  ∃ w', rtc step w w' ∧ srv w' = s ∧ queue w' = queue w ∧ dinfo w' = dinfo w ∧
        fs w' = fs w ∧ dom (conns w') = dom (conns w).
Proof.
  unfold Server.Reload. destruct (Aliases.Reload _ order) as [r [err|]] eqn:Er; [done|].
  destruct (Auth.Reload disk _) as [a es] eqn:Ea. destruct es; [|done]. intros [= <-].
  set (s1 := Server.set_domains (srv w) (Server.localDomains (srv w)) r).
  destruct (backend_steps disk
    ((Some <$> (map_to_list (Auth.backends (Server.authr (srv w)))).*1) ++ [None])
    (set_srv w s1)) as (w' & Hs & Es & Eq & Ed & Ef & Ec).
  exists w'. split; [|split].
  - eapply rtc_l; [|exact Hs]. apply (step_aliases _ order). unfold reload_aliases.
    by rewrite Er.
  - rewrite Es. change (Server.authr (srv (set_srv w s1))) with (Server.authr (srv w)).
    pose proof (Reload_backends disk (Server.authr (srv w))) as HR. rewrite Ea in HR.
    by rewrite HR.
  - repeat (split; [done|]). rewrite Ec. apply dom_fmap_L.
Qed.

(** ** One connection alone *)

(** A connection whose shared parts are those of the world. *)
Lemma shared_id w (c : Conn) :
  Smtpsrv.cfg c = refresh (srv w) (Smtpsrv.cfg c) → Smtpsrv.queue c = queue w →
  Smtpsrv.dinfo c = dinfo w → Smtpsrv.dinfoFS c = fs w → shared w c = c.
Proof.
  destruct c. unfold shared, set_cfg, Smtpsrv.set_queue, Smtpsrv.set_dinfo. simpl.
  by intros <- -> -> ->.
Qed.

(** While nothing else happens, the turns of a connection are the loop of
    [Handle]. *)
Lemma loop_alone fuel envs i k w x c' ex :
  conns w !! k = Some x → session_ok w x → shared w (s_conn x) = s_conn x →
  Smtpsrv.loop fuel envs i (s_conn x) (s_errs x) = (c', Some ex) →
  ex ≠ Smtpsrv.ExitPanic →
  ∃ w', rtc step w w' ∧ srv w' = srv w ∧ queue w' = Smtpsrv.queue c' ∧
        dinfo w' = Smtpsrv.dinfo c' ∧ fs w' = Smtpsrv.dinfoFS c' ∧
        conns w' = delete k (conns w).
Proof.
  revert i w x. induction fuel as [|fuel IH]; intros i w x Hx Hok Hsh; [done|].
  simpl. destruct (Smtpsrv.iteration _ _ _) as [c [n|ex']] eqn:E.
  - intros El Hex. set (x' := mkSession c n (during x)).
    set (w1 := mkWorld (srv w) (Smtpsrv.queue c) (Smtpsrv.dinfo c) (Smtpsrv.dinfoFS c)
                 (<[k := x']> (conns w))).
    assert (Et : turn (envs i) k w = Some w1).
    { unfold turn. rewrite Hx. simpl. by rewrite Hsh, E. }
    assert (Hx1 : conns w1 !! k = Some x') by apply lookup_insert_eq.
    destruct (turn_spec _ _ _ _ _ Hx Hok Et) as (_ & _ & Hk & _).
    destruct (Hk x' Hx1) as [_ Hok1].
    destruct (ConnProps.iteration_good (served (during x)) _ _ _ _ _ E) as (_ & Ec & _).
    { rewrite <- Hsh. apply shared_served, Hok. }
    { apply Hok. }
    destruct (IH (S i) w1 x') as (w' & Hs & Es & Eq & Ed & Ef & Ecs); try done.
    { apply shared_id; [|done..]. simpl. rewrite Ec. by rewrite <- Hsh at 1. }
    exists w'. split; [eapply rtc_l; [by eapply step_turn|exact Hs]|].
    repeat (split; [done|]). rewrite Ecs. simpl. by rewrite delete_insert_eq.
  - intros [= <- <-] Hex. eexists. split.
    + apply rtc_once, (step_turn _ (envs i) k). unfold turn. rewrite Hx. simpl.
      rewrite Hsh, E. by destruct ex'.
    + done.
Qed.

(** [Handle] of a new connection, when nothing else happens. *)
Lemma Handle_alone fuel envs k now m addr r wr hs w c' h :
  reachable w → conns w !! k = None →
  Smtpsrv.Handle fuel envs (accept now m addr r wr hs w) = (c', h) →
  h ≠ Smtpsrv.Handled None → h ≠ Smtpsrv.Handled (Some Smtpsrv.ExitPanic) →
  ∃ w', rtc step w w' ∧ srv w' = srv w ∧ queue w' = Smtpsrv.queue c' ∧
        dinfo w' = Smtpsrv.dinfo c' ∧ fs w' = Smtpsrv.dinfoFS c' ∧ conns w' = conns w.
Proof.
  intros Hr Hk. rewrite Handle_opening.
  pose proof (serve_ok k now m addr r wr hs w (reachable_ok w Hr)) as Hok.
  pose proof (step_serve w k now m addr r wr hs Hk) as Hst. unfold serve in *.
  destruct (opening _) as [c o] eqn:E. apply opening_policy in E as HP.
  destruct HP as (Ec & _ & _ & _ & _ & Eq). apply opening_dinfo in E as [Ed Ef].
  destruct o as [h'|]; [intros [= <- <-] _ _; by exists w|].
  destruct (Smtpsrv.loop _ _ _ _ _) as [c1 [ex|]] eqn:El; intros [= <- <-] Hh Hp; [|done].
  destruct (loop_alone fuel envs 0 k _ (mkSession c 0 [srv w]) c1 ex
    (lookup_insert_eq _ _ _) (Hok k _ (lookup_insert_eq _ _ _))) as (w' & Hs & W);
    [|done|congruence|].
  { apply shared_id; simpl; [by rewrite Ec|done..]. }
  exists w'. split; [by eapply rtc_l|]. simpl in W. by rewrite delete_insert_id in W.
Qed.

End Serving.
(** ** Example *)

Module Example.
Import AsciiOnly CountableText.
#[local] Existing Instances ConnProps.Example.net_mail ConnProps.Example.net_ip
  ConnProps.Example.alias_world ConnProps.Example.error_text ConnProps.Example.list_queue
  UserDB.Example.kdf UserDB.Scheme_eq_dec UserDB.Scheme_countable
  DomainInfo.Domain_eq_dec DomainInfo.Domain_countable.
#[local] Existing Instances Auth.wrap_backend UserDB.userdb_backend.
#[local] Existing Instances Dovecot.dovecot_backend DovecotProps.sum_backend.

#[local] Instance no_dkim : Dkim (Dkim.Signer unit) unit :=
  {| dkim_Sign _ _ _ := Ok "sig"; dkim_VerifyMessage _ _ := Some (Ok tt);
     dkim_AuthenticationResults _ := ";dkim=none" |}.

(** A server with one user, of the domain dom. *)
Definition server : Server.Server (PrivateKey := unit) :=
  let s := Server.AddDomain "dom" (Server.set_main Server.NewServer "mx.dom" 1000 "/h" false) in
  Server.set_authr s
    (Auth.Register (Server.authr s) "dom"
       (inl (Auth.WrapNoErrorBackend ConnProps.Example.user_db))).

#[local] Abbreviation world := (world (Q := ConnProps.Example.queue_t)
  (VerifyResult := unit) (PrivateKey := unit)).

Definition start : world :=
  mkWorld server [] (DomainInfo.mkDB (Protoio.mkStore "/d") ∅) ∅ ∅.

(** The client of connection 7. *)
Definition connected : world :=
  serve 7 0 Smtpsrv.ModeSMTP (TCPAddr "1.2.3.4" 99)
    (mkReader (ConnProps.Example.lines ConnProps.Example.session) EndEOF)
    (mkWriter [] None None) [] start.

Fixpoint turns (n : nat) (w : world) : option world :=
  match n with
  | 0 => Some w
  | S n => w ← turn ConnProps.Example.example_env 7 w; turns n w
  end.

Lemma turns_reachable n (w w' : world) :
  reachable w → turns n w = Some w' → reachable w'.
Proof.
  revert w. induction n as [|n IH]; intros w Hr; simpl; [by intros [= <-]|].
  destruct (turn _ 7 w) as [w1|] eqn:E; [|done]. simpl. apply IH.
  eapply reach_step; [exact Hr|by eapply step_turn].
Qed.

(** The user is gone. *)
Definition disk : Auth.disk :=
  Auth.mkDisk {[ ("/u" : bytes) := pos_text (encode (∅ : UserDB.ProtoDB)) ]} (λ _, None).

Definition no_users (w : world) : world :=
  set_srv w (reload_backend disk (Some ("dom" : bytes)) (srv w)).

Definition is_gone (w : world) : bool :=
  negb (Auth.Exists (Server.authr (srv w)) "ana" "dom").1.

(** The user is removed when the client has already named it as recipient: the
    message is queued, and the user did exist while the connection was open. *)
Lemma server_no_open_relay_witness :
  ∃ (w : world) x w', reachable w ∧ conns w !! 7 = Some x ∧
    turn ConnProps.Example.example_env 7 w = Some w' ∧ is_gone w = true ∧
    ∃ ms, ms ≠ [] ∧ queue w' = ConnProps.puts (queue w) ms ∧
      Forall (ConnProps.mail_ok (served (during x))
        (Smtpsrv.IsSubmission (Smtpsrv.mode (Smtpsrv.cfg (s_conn x))))) ms.
Proof.
  assert (Hc : match turns 4 connected with
    | Some w1 =>
      let w := no_users w1 in
      match conns w !! 7, turn ConnProps.Example.example_env 7 w with
      | Some _, Some w' => is_gone w && bool_decide (length (queue w') ≠ length (queue w))
      | _, _ => false
      end
    | None => false
    end = true) by (vm_compute; reflexivity).
  destruct (turns 4 connected) as [w1|] eqn:Et; [|done]. cbv zeta in Hc.
  assert (Hr : reachable (no_users w1)).
  { eapply reach_step; [|apply step_backend]. eapply turns_reachable; [|exact Et].
    eapply reach_step; [apply reach_start|by apply step_serve]. }
  destruct (conns (no_users w1) !! 7) as [x|] eqn:Hx; [|done].
  destruct (turn _ 7 (no_users w1)) as [w'|] eqn:Ew; [|done].
  apply andb_true_iff in Hc as [Hg Hq]. apply bool_decide_eq_true in Hq.
  exists (no_users w1), x, w'. do 4 (split; [done|]).
  destruct (server_no_open_relay _ _ _ _ _ Hr Hx Ew) as (_ & _ & ms & Hms & Hok).
  exists ms. split; [|split; [exact Hms|exact Hok]].
  intros ->. apply Hq. rewrite Hms. reflexivity.
Defined.

End Example.
End Serving.
