(* ===== verification/System.v ===== *)
(** The whole server: the connections of Serving.v over the queue of
    QueueConc.v, with everything that runs at the same time.

    A turn of a connection that puts a message in the queue is not one step: it
    calls [Put], which goes through the steps of QueueConc.v among those of all
    the other goroutines, and the connection waits until it returns.  ConnQueue.v
    shows that this is the only thing that a turn does with the queue. *)

From S2P Require Import Prelude GoStrings GoSlices Envelope DotReader Aliases Store.
From S2P Require Import DomainInfo Auth Haproxy Conn ConnProps ConnQueue Queue QueueProps.
From S2P Require Import QueueConc QueueConcProps QueueOrigin SmtpClient Courier Dkim.
From S2P Require Import Dovecot DovecotProps LocalRpc Server Serving.
#[local] Open Scope go_scope.

Module System.
Import DotReader.

(** What [Put] is called with: sender, recipients and contents. *)
Abbreviation put := (bytes * list bytes * bytes)%type.

(** What a connection sees of the queue while it takes a turn: the calls that it
    makes, and the answer that they get. *)
Record port := mkPort { p_calls : list put; p_answer : res bytes bytes }.

#[export] Instance port_queue : MailQueue port :=
  {| q_Put p from to data :=
       (mkPort (p_calls p ++ [(from, to, data)]) (p_answer p), p_answer p) |}.

Section System.
Context `{Unicode, Precis, NetMail, NetIP, AliasWorld, Smtpsrv.ErrorText, ScryptKDF}.
Context `{ProtoText DomainInfo.Domain, ProtoText Queue.Message, ProtoText UserDB.ProtoDB}.
Context {RSAPublicKey PrivateKey : Type} `{Dkim.Crypto RSAPublicKey PrivateKey}.
Context {VerifyResult : Type} `{Dkim (Dkim.Signer PrivateKey) VerifyResult}.
#[local] Existing Instances Auth.wrap_backend UserDB.userdb_backend.
#[local] Existing Instances Dovecot.dovecot_backend DovecotProps.sum_backend.

(** The order of the bytes of the machine, the limits of the queue, and the
    wording of its errors. *)
Context (big : bool) (qu : Queue.Queue) (put_error_text : Queue.put_error → bytes).

#[local] Abbreviation Conn := (Smtpsrv.Conn (B := Server.backend) (Q := port)
  (Signer := Dkim.Signer PrivateKey) (VerifyResult := VerifyResult)).
#[local] Abbreviation Config := (Smtpsrv.Config (B := Server.backend)
  (Signer := Dkim.Signer PrivateKey)).
#[local] Abbreviation Server := (Server.Server (PrivateKey := PrivateKey)).
#[local] Abbreviation session := (Serving.session (Q := port) (PrivateKey := PrivateKey)
  (VerifyResult := VerifyResult)).

(** ** The state *)

(** A call of [Put] that has not returned: the turn that made it, with the
    connection as it was, and the id of the item. *)
Record call := mkCall {
  c_env : Smtpsrv.env;
  c_conn : Conn;
  c_id : bytes;
  c_put : put;
}.

(** [past] is not in the program: the connection as it was when each of its turns
    began, the last one first. *)
Record client := mkClient { at_ : session; waiting : option call; past : list Conn }.

(** Not in the program: a call of [Put] that was made, the servers that its
    connection may have asked, whether it is on a submission port, and its turns
    up to the one that made the call. *)
Record deal := mkDeal {
  d_during : list Server;
  d_submission : bool;
  d_past : list Conn;
  d_put : put;
}.

(** [trace], [deals] and [acks] are not in the program either: what happened in
    the queue, the calls, and those that were answered with an id. *)
Record system := mkSystem {
  srv : Server;
  dinfo : DomainInfo.DB;
  fs : Safeio.FS;
  clients : gmap nat client;
  queue : QueueConc.State;
  trace : list QueueConc.event;
  deals : list deal;
  acks : list (bytes * put);
}.

(** ** Turns *)

Definition view (ans : res bytes bytes) (sy : system) : Serving.world :=
  Serving.mkWorld (srv sy) (mkPort [] ans) (dinfo sy) (fs sy) (∅ : gmap nat session).

(** What is asked before there is an answer. *)
Definition unanswered : res bytes bytes := Err [].

(** The connection of a session, when it begins a turn. *)
Definition begins (sy : system) (x : session) : Conn :=
  Serving.shared (view unanswered sy) (Serving.s_conn x).

Definition turn_of (e : Smtpsrv.env) (ans : res bytes bytes) (sy : system) (x : session) :
    Conn * (nat + Smtpsrv.exit) :=
  Smtpsrv.iteration e (Serving.shared (view ans sy) (Serving.s_conn x)) (Serving.s_errs x).

(** The turn of a call, once there is an answer. *)
Definition returned (ans : res bytes bytes) (c : call) (x : session) :
    Conn * (nat + Smtpsrv.exit) :=
  Smtpsrv.iteration (c_env c) (Smtpsrv.set_queue (c_conn c) (mkPort [] ans)) (Serving.s_errs x).

Definition calls (p : Conn * (nat + Smtpsrv.exit)) : list put := p_calls (Smtpsrv.queue p.1).

(** The clients after a turn that began with [c]; a panic ends the program. *)
Definition next (k : nat) (cl : client) (c : Conn) (p : Conn * (nat + Smtpsrv.exit))
    (cs : gmap nat client) : option (gmap nat client) :=
  match p.2 with
  | inl n =>
    Some (<[k := mkClient (Serving.mkSession p.1 n (Serving.during (at_ cl))) None
                   (c :: past cl)]> cs)
  | inr Smtpsrv.ExitPanic => None
  | inr _ => Some (delete k cs)
  end.

Definition set_clients (sy : system) (cs : gmap nat client) : system :=
  mkSystem (srv sy) (dinfo sy) (fs sy) cs (queue sy) (trace sy) (deals sy) (acks sy).

Definition set_queue (sy : system) (st : QueueConc.State) (ev : QueueConc.event) : system :=
  mkSystem (srv sy) (dinfo sy) (fs sy) (clients sy) st (ev :: trace sy) (deals sy) (acks sy).

Definition set_srv (sy : system) (s : Server) : system :=
  mkSystem s (dinfo sy) (fs sy)
    ((λ cl, mkClient (Serving.mkSession (Serving.s_conn (at_ cl)) (Serving.s_errs (at_ cl))
                        (s :: Serving.during (at_ cl))) (waiting cl) (past cl)) <$> clients sy)
    (queue sy) (trace sy) (deals sy) (acks sy).

(** [Put] is called: the item is made, and the connection waits. *)
Definition call_made (sy : system) (k : nat) (cl : client) (e : Smtpsrv.env) (p : put)
    (id : bytes) (rcpts : list Queue.Recipient) : system :=
  let x := at_ cl in
  let c := begins sy x in
  mkSystem (srv sy) (dinfo sy) (fs sy)
    (<[k := mkClient x (Some (mkCall e c id p)) (past cl)]> (clients sy))
    (QueueConc.put_started (queue sy) id None p.1.1 p.1.2 rcpts p.2)
    (QueueConc.Silent :: trace sy)
    (mkDeal (Serving.during x)
       (Smtpsrv.IsSubmission (Smtpsrv.mode (Smtpsrv.cfg (Serving.s_conn x))))
       (c :: past cl) p :: deals sy)
    (acks sy).

(** A step of the queue that no client asks for: neither a crash, nor the
    beginning of a client's [Put]. *)
Definition internal (st : QueueConc.State) (ev : QueueConc.event) (st' : QueueConc.State) : Prop :=
  ev ≠ QueueConc.Crashed ∧ (∀ err, ev = QueueConc.Refused err → st' ≠ st) ∧
  ∀ id t, QueueConc.threads st' !! id = Some t → QueueConc.phase_of t = QueueConc.Writing None →
    is_Some (QueueConc.threads st !! id).

Inductive step (sy : system) : system → Prop :=
| sys_serve k now m addr r w hs c :
    clients sy !! k = None →
    Serving.opening (Serving.accept now m addr r w hs (view unanswered sy)) = (c, None) →
    step sy (set_clients sy
      (<[k := mkClient (Serving.mkSession c 0 [srv sy]) None []]> (clients sy)))
(** A turn without [Put]. *)
| sys_turn e k cl cs :
    clients sy !! k = Some cl → waiting cl = None →
    let p := turn_of e unanswered sy (at_ cl) in
    calls p = [] → next k cl (begins sy (at_ cl)) p (clients sy) = Some cs →
    step sy (mkSystem (srv sy) (Smtpsrv.dinfo p.1) (Smtpsrv.dinfoFS p.1) cs (queue sy)
               (trace sy) (deals sy) (acks sy))
(** One with [Put], which the queue refuses at once, or takes on. *)
| sys_refused e k cl p err cs :
    clients sy !! k = Some cl → waiting cl = None →
    calls (turn_of e unanswered sy (at_ cl)) = [p] →
    QueueConc.refusal qu (queue sy) (Server.resolver (srv sy)) p.1.2 = Err err →
    next k cl (begins sy (at_ cl)) (turn_of e (Err (put_error_text err)) sy (at_ cl)) (clients sy)
      = Some cs →
    step sy (set_queue (set_clients sy cs) (queue sy) (QueueConc.Refused err))
| sys_call e k cl p rcpts id :
    clients sy !! k = Some cl → waiting cl = None →
    calls (turn_of e unanswered sy (at_ cl)) = [p] →
    QueueConc.refusal qu (queue sy) (Server.resolver (srv sy)) p.1.2 = Ok rcpts →
    QueueConc.fresh big (queue sy) id →
    step sy (call_made sy k cl e p id rcpts)
(** [Put] returns. *)
| sys_accepted k cl c it cs :
    clients sy !! k = Some cl → waiting cl = Some c →
    QueueConc.Accepted it ∈ trace sy → Queue.ID (Queue.msg it) = c_id c →
    next k cl (c_conn c) (returned (Ok (c_id c)) c (at_ cl)) (clients sy) = Some cs →
    step sy (mkSystem (srv sy) (dinfo sy) (fs sy) cs (queue sy) (trace sy) (deals sy)
               ((c_id c, c_put c) :: acks sy))
| sys_failed k cl c err cs :
    clients sy !! k = Some cl → waiting cl = Some c →
    QueueConc.threads (queue sy) !! c_id c = None →
    (∀ it, QueueConc.Accepted it ∈ trace sy → Queue.ID (Queue.msg it) ≠ c_id c) →
    next k cl (c_conn c) (returned (Err (put_error_text (Queue.ErrWrite err))) c (at_ cl))
      (clients sy) = Some cs →
    step sy (set_clients sy cs)
| sys_queue ev st' :
    QueueConc.step big qu (queue sy) ev st' → internal (queue sy) ev st' →
    step sy (set_queue sy st' ev)
(** The process stops and starts again, with whatever is configured then. *)
| sys_crash s db f st' :
    QueueConc.step big qu (queue sy) QueueConc.Crashed st' →
    step sy (mkSystem s db f ∅ st' (QueueConc.Crashed :: trace sy) (deals sy) (acks sy))
(** Reloads, Dovecot, and what else uses the domain information. *)
| sys_aliases order s :
    Serving.reload_aliases order (srv sy) = Some s → step sy (set_srv sy s)
| sys_backend disk key : step sy (set_srv sy (Serving.reload_backend disk key (srv sy)))
| sys_dovecot sv sv' :
    Auth.Fallback (Server.authr (srv sy)) = Some (inr sv) →
    Dovecot.sv_pid sv' = Dovecot.sv_pid sv →
    step sy (set_srv sy (Server.SetAuthFallback (inr sv') (srv sy)))
| sys_rest db f :
    step sy (mkSystem (srv sy) db f (clients sy) (queue sy) (trace sy) (deals sy) (acks sy)).

(** A server that starts for the first time, and everything that may happen. *)
Inductive reachable : system → Prop :=
| reach_start s db f qfs t :
    QueueConc.no_items qu qfs →
    reachable (mkSystem s db f ∅ (QueueConc.boot qfs t) [] [] [])
| reach_step sy sy' : reachable sy → step sy sy' → reachable sy'.

(** ** Calls *)

Lemma puts_port l ans ms :
  ConnProps.puts (mkPort l ans) ms =
    mkPort (l ++ ((λ m, (ConnProps.m_from m, ConnProps.m_to m, ConnProps.m_data m)) <$> ms)) ans.
Proof.
  revert l. induction ms as [|m ms IH]; intros l; cbn; [by rewrite app_nil_r|].
  unfold ConnProps.puts in IH. by rewrite IH, <- app_assoc.
Qed.

(** What a turn asks of the queue does not depend on the answer, and is one call
    at most, for the sender and recipients of the connection. *)
Lemma turn_calls e (c : Conn) n :
  (∀ ans, calls (Smtpsrv.iteration e (Smtpsrv.set_queue c (mkPort [] ans)) n) = []) ∨
  ∃ d c1 msg, ConnQueue.kept c c1 ∧
    let p := (Smtpsrv.mailFrom c, Smtpsrv.rcptTo c, d) in
    ∀ ans, calls (Smtpsrv.iteration e (Smtpsrv.set_queue c (mkPort [] ans)) n) = [p] ∧
      Smtpsrv.iteration e (Smtpsrv.set_queue c (mkPort [] ans)) n =
        ConnQueue.reply_turn n (ConnQueue.put_reply c1 msg (mkPort [p] ans, ans)).
Proof.
  destruct (ConnQueue.iteration_puts e c n) as [Hn|d c1 msg Hd Hp].
  - left. intros ans. by rewrite Hn.
  - right. exists d, c1, msg. split; [done|]. intros p ans. subst p.
    set (from := Smtpsrv.mailFrom c) in *. set (to := Smtpsrv.rcptTo c) in *.
    rewrite Hp. change (q_Put (mkPort [] ans) from to d) with (mkPort [(from, to, d)] ans, ans).
    split; [|done]. unfold calls.
    pose proof (ConnQueue.reply_turn_queue n
      (ConnQueue.put_reply c1 msg (mkPort [(from, to, d)] ans, ans)) (mkPort [(from, to, d)] ans)) as E.
    assert (Ew : ConnQueue.with_queue (mkPort [(from, to, d)] ans)
      (ConnQueue.put_reply c1 msg (mkPort [(from, to, d)] ans, ans))
      = ConnQueue.put_reply c1 msg (mkPort [(from, to, d)] ans, ans)) by (by destruct ans).
    rewrite Ew in E. by rewrite E.
Qed.

(** ** What is true in every state *)

Definition content (it : Queue.Item) : put :=
  (Queue.From (Queue.msg it), Queue.To (Queue.msg it), Queue.Data (Queue.msg it)).

(** The recipients of an item are those that some aliases give for [to]. *)
Definition resolved (al : Aliases.Resolver) (to : list bytes) (it : Queue.Item) : Prop :=
  ∃ rcpts, Queue.add_rcpts al to [] = Ok rcpts ∧
    QueueConcProps.rcpt_key <$> Queue.Rcpt (Queue.msg it) = QueueConcProps.rcpt_key <$> rcpts.

(** The call of a client, with the aliases of the server at that moment. *)
Definition from_deal (d : deal) (it : Queue.Item) : Prop :=
  content it = d_put d ∧
  ∃ s, s ∈ d_during d ∧ resolved (Server.resolver s) (Queue.To (Queue.msg it)) it.

(** An item of the queue is a message that a client gave it, or the notification
    of one to its sender. *)
Definition origin (ds : list deal) (it : Queue.Item) : Prop :=
  ∃ d, d ∈ ds ∧
    (from_deal d it ∨
     ∃ m al, from_deal d m ∧ Queue.From (Queue.msg m) ≠ "<>" ∧ QueueConcProps.is_dsn qu m it ∧
       resolved al [Queue.From (Queue.msg m)] it).

(** The client logged in on the connection: in one of its turns it sent, over TLS,
    an AUTH with a user and a password that the server of that moment accepted. *)
Definition logged_in (l : list Server) (turns : list Conn) : Prop :=
  ∃ c user domain passwd, c ∈ turns ∧ Serving.served l (Smtpsrv.cfg c) ∧
    ConnProps.logs_in c user domain passwd.

(** The call complied with the policy. *)
Record deal_ok (d : deal) : Prop := {
  deal_from : (d_put d).1.1 ≠ [];
  deal_to : 0 < length (d_put d).1.2 ≤ 101;
  deal_relay : Forall (ConnProps.local_once (Serving.served (d_during d))) (d_put d).1.2 ∨
    logged_in (d_during d) (d_past d);
  deal_submission : d_submission d = true → logged_in (d_during d) (d_past d);
}.

(** What is true of a connection, with its turns so far. *)
Record conn_ok (l : list Server) (turns : list Conn) (c : Conn) : Prop := {
  co_inv : ConnProps.inv (Serving.served l) c;
  co_turns : Forall (λ c, Serving.served l (Smtpsrv.cfg c)) turns;
  co_auth : Smtpsrv.completedAuth c = true → logged_in l turns;
}.

(** The item of a call has what was put. *)
Definition about (id : bytes) (p : put) (it : Queue.Item) : Prop :=
  Queue.ID (Queue.msg it) = id → content it = p.

#[local] Abbreviation everywhere := (QueueOrigin.everywhere qu).
#[local] Abbreviation run := (QueueConc.run big qu).

Definition call_ok (x : session) (turns : list Conn) (tr : list QueueConc.event) (st : QueueConc.State) (c : call) :
    Prop :=
  Serving.served (Serving.during x) (Smtpsrv.cfg (c_conn c)) ∧
  conn_ok (Serving.during x) turns (c_conn c) ∧
  c_id c ∈ QueueConc.drawn st ∧ everywhere (about (c_id c) (c_put c)) tr st ∧
  calls (returned unanswered c x) = [c_put c].

Definition client_ok (s : Server) (tr : list QueueConc.event) (st : QueueConc.State)
    (cl : client) : Prop :=
  s ∈ Serving.during (at_ cl) ∧
  conn_ok (Serving.during (at_ cl)) (past cl) (Serving.s_conn (at_ cl)) ∧
  ∀ c, waiting cl = Some c → call_ok (at_ cl) (past cl) tr st c.

Record ok (sy : system) : Prop := {
  o_run : run (trace sy) (queue sy);
  o_clients : map_Forall (λ _, client_ok (srv sy) (trace sy) (queue sy)) (clients sy);
  o_deals : Forall deal_ok (deals sy);
  o_origin : everywhere (origin (deals sy)) (trace sy) (queue sy);
  o_acks : ∀ id p, (id, p) ∈ acks sy →
    ∃ it, QueueConc.Accepted it ∈ trace sy ∧ Queue.ID (Queue.msg it) = id ∧ content it = p;
}.

(** *** Items *)

Lemma key_content it it' :
  QueueConcProps.mail_key it' = QueueConcProps.mail_key it → content it' = content it.
Proof. unfold QueueConcProps.mail_key, content. congruence. Qed.

#[local] Instance about_keyed id p : QueueOrigin.Keyed (about id p).
Proof.
  intros it it' Hk Ha Hid. rewrite (key_content _ _ Hk). apply Ha.
  unfold QueueConcProps.mail_key in Hk. congruence.
Qed.

Lemma resolved_keyed al to it it' :
  QueueConcProps.mail_key it' = QueueConcProps.mail_key it → resolved al to it → resolved al to it'.
Proof.
  intros Hk (rcpts & Ha & Hr). exists rcpts. split; [done|].
  unfold QueueConcProps.mail_key in Hk. congruence.
Qed.

Lemma from_deal_keyed d it it' :
  QueueConcProps.mail_key it' = QueueConcProps.mail_key it → from_deal d it → from_deal d it'.
Proof.
  intros Hk (Hc & s & Hs & Hr). pose proof (key_content _ _ Hk) as Ek.
  split; [congruence|]. exists s. split; [done|].
  assert (E : Queue.To (Queue.msg it') = Queue.To (Queue.msg it)) by (unfold content in Ek; congruence).
  rewrite E. by eapply resolved_keyed.
Qed.

#[local] Instance origin_keyed ds : QueueOrigin.Keyed (origin ds).
Proof.
  intros it it' Hk (d & Hd & Ho). exists d. split; [done|].
  destruct Ho as [Ho|(m & al & Hm & Hf & Hdsn & Hr)]; [left; by eapply from_deal_keyed|right].
  exists m, al. split_and!; [done..| |by eapply resolved_keyed].
  pose proof (key_content _ _ Hk) as Ek. unfold content in Ek.
  unfold QueueConcProps.is_dsn in *. injection Ek as -> -> ->. done.
Qed.

Lemma origin_more d ds it : origin ds it → origin (d :: ds) it.
Proof. intros (d' & Hd & Ho). exists d'. split; [by right|done]. Qed.

(** *** Steps of the queue *)

Context `{!ProtoTextOk Queue.Message}.

Lemma started_fresh st id t :
  QueueOrigin.started big qu st id t →
  Queue.ID (Queue.msg (QueueConc.item_of t)) = id ∧ id ∉ QueueConc.drawn st.
Proof. by destruct 1 as [? ? ? ? ? ? [_ ?]|? ? ? ? ? ? ? [_ ?] ? ?]. Qed.

Lemma about_step tr st ev st' id p :
  run tr st → QueueConc.step big qu st ev st' → id ∈ QueueConc.drawn st →
  everywhere (about id p) tr st → everywhere (about id p) (ev :: tr) st'.
Proof.
  intros R S Hid Ha.
  refine (QueueOrigin.everywhere_step big qu _ tr st ev st' (QueueOrigin.reached _ _ _ _ R) S Ha _).
  intros id' t _ Hs E. by destruct (started_fresh _ _ _ Hs) as [<- []]; rewrite E.
Qed.

(** A name that is new is not that of any item. *)
Lemma about_fresh tr st id p :
  run tr st → QueueConc.fresh big st id → everywhere (about id p) tr st.
Proof.
  intros R [_ Hf]. eapply QueueOrigin.everywhere_mono; [|exact (QueueOrigin.everywhere_drawn big qu _ _ R)].
  intros it Hit E. cbn in Hit. by rewrite E in Hit.
Qed.

Lemma clients_step s tr st ev st' (cs : gmap nat client) :
  run tr st → QueueConc.step big qu st ev st' →
  map_Forall (λ _, client_ok s tr st) cs → map_Forall (λ _, client_ok s (ev :: tr) st') cs.
Proof.
  intros R S Hcs k cl Hk. destruct (Hcs k cl Hk) as (Hs & Hi & Hw). split; [done|]. split; [done|].
  intros c Hc. destruct (Hw c Hc) as (Cs & Ci & Hd & Ha & Hp). split_and!; [done..| | |done].
  - by apply (QueueOrigin.drawn_step big qu _ _ _ S).
  - by eapply about_step.
Qed.

(** The notification of a message comes from the same call. *)
Lemma origin_dsn ds m al it :
  origin ds m → Queue.needs_dsn (Queue.msg m) = true → QueueConcProps.is_dsn qu m it →
  Queue.add_rcpts al [Queue.From (Queue.msg m)] [] = Ok (Queue.Rcpt (Queue.msg it)) → origin ds it.
Proof.
  intros (d & Hd & Ho) Hn Hdsn Ha. assert (Hf : Queue.From (Queue.msg m) ≠ "<>").
  { intros E. unfold Queue.needs_dsn in Hn. rewrite E in Hn. by rewrite andb_false_r in Hn. }
  exists d. split; [done|]. destruct Ho as [Ho|(m' & al' & _ & _ & [Hf' _] & _)]; [|done].
  right. exists m, al. split_and!; [done..|]. by exists (Queue.Rcpt (Queue.msg it)).
Qed.

Lemma origin_step ds tr st ev st' :
  run tr st → QueueConc.step big qu st ev st' → everywhere (origin ds) tr st →
  (∀ id t, QueueConc.threads st' !! id = Some t → QueueConc.phase_of t = QueueConc.Writing None →
     QueueOrigin.started big qu st id t → origin ds (QueueConc.item_of t)) →
  everywhere (origin ds) (ev :: tr) st'.
Proof.
  intros R S Ho Hnew.
  refine (QueueOrigin.everywhere_step big qu _ tr st ev st' (QueueOrigin.reached _ _ _ _ R) S Ho _).
  intros id t Ht Hs. destruct Hs as [al from to rcpts data Hr Hf|p tp al it Hp Hn Hr Hf Hi Hd].
  - by eapply Hnew; [..|eapply QueueOrigin.started_client].
  - eapply origin_dsn; [by eapply Ho|done..|]. by eapply QueueConcProps.refusal_rcpts.
Qed.

(** No client begins a [Put] in an internal step, nor when the process starts. *)
Lemma no_client tr st ev st' id t :
  run tr st → QueueConc.step big qu st ev st' → internal st ev st' ∨ ev = QueueConc.Crashed →
  QueueConc.threads st' !! id = Some t → QueueConc.phase_of t = QueueConc.Writing None →
  QueueOrigin.started big qu st id t → False.
Proof.
  intros R S [(_ & _ & Hi)| ->] Ht Hp Hs.
  - destruct (Hi id t Ht Hp) as [t0 Ht0]. destruct (started_fresh _ _ _ Hs) as [_ []].
    by destruct (QueueConcProps.i_threads _ _ _ (QueueOrigin.reached big qu _ _ R) _ _ Ht0).
  - inversion S as [| | |? ? par| | | | | | | | | | | | | | | |]; subst; [by destruct par|].
    cbn in Ht. rewrite lookup_fmap in Ht. destruct (_ !! id); [|done]. by injection Ht as <-.
Qed.

(** *** Steps of the connections *)

Lemma logs_in_queue (c : Conn) q user domain passwd :
  ConnProps.logs_in (Smtpsrv.set_queue c q) user domain passwd →
  ConnProps.logs_in c user domain passwd.
Proof.
  intros (c1 & params & c2 & resp & Ht & Hr & Ha & Hd & Hok).
  rewrite ConnQueue.readCommand_blind in Hr. destruct (Smtpsrv.readCommand c) as [c3 r] eqn:E.
  unfold ConnQueue.with_queue in Hr. injection Hr as <- ->. cbn [fst] in Ha.
  rewrite (ConnQueue.auth_response_blind params) in Ha.
  destruct (Smtpsrv.auth_response c3 params) as [c4 r] eqn:E'.
  unfold ConnQueue.with_queue in Ha. injection Ha as <- ->.
  exists c3, params, c4, resp. done.
Qed.

Lemma logged_in_more l c turns : logged_in l turns → logged_in l (c :: turns).
Proof. intros (c' & u & d & p & Hin & Hl). exists c', u, d, p. split; [by right|done]. Qed.

Lemma logged_in_served l s turns : logged_in l turns → logged_in (s :: l) turns.
Proof.
  intros (c' & u & d & p & Hin & Hs & Hl). exists c', u, d, p.
  split_and!; [done|by apply Serving.served_cons|done].
Qed.

Lemma conn_ok_served l s turns c : conn_ok l turns c → conn_ok (s :: l) turns c.
Proof.
  intros [Hi Ht Ha]. split.
  - eapply Serving.inv_more; [|done..|exact Hi]. apply Serving.served_cons.
  - eapply Forall_impl; [exact Ht|]. intros c'. apply Serving.served_cons.
  - intros Hc. by apply logged_in_served, Ha.
Qed.

(** The envelope of a connection complies with the policy. *)
Lemma conn_deal l turns c d :
  conn_ok l turns c → Smtpsrv.mailFrom c ≠ [] → 0 < length (Smtpsrv.rcptTo c) →
  deal_ok (mkDeal l (Smtpsrv.IsSubmission (Smtpsrv.mode (Smtpsrv.cfg c))) (c :: turns)
             (Smtpsrv.mailFrom c, Smtpsrv.rcptTo c, d)).
Proof.
  intros [Hi _ Ha] Hf Hl. split; cbn [d_put d_during d_past d_submission fst snd]; [done|..].
  - split; [done|]. apply Hi.
  - destruct (Smtpsrv.completedAuth c) eqn:Ec; [right; by apply logged_in_more, Ha|].
    left. by apply (ConnProps.inv_relay _ _ Hi).
  - intros Hs. by apply logged_in_more, Ha, (ConnProps.inv_submission _ _ Hi).
Qed.

(** A turn that starts well ends well, whatever the answer of the queue. *)
Lemma turn_good (l : list Server) turns e (c : Conn) ans n :
  Serving.served l (Smtpsrv.cfg c) → conn_ok l turns c →
  let p := Smtpsrv.iteration e (Smtpsrv.set_queue c (mkPort [] ans)) n in
  conn_ok l (c :: turns) p.1 ∧
  ∀ put, calls p = [put] →
    deal_ok (mkDeal l (Smtpsrv.IsSubmission (Smtpsrv.mode (Smtpsrv.cfg c))) (c :: turns) put).
Proof.
  intros Hs Hc p. pose proof Hc as [Hi Ht Ha].
  destruct (Smtpsrv.iteration e (Smtpsrv.set_queue c (mkPort [] ans)) n) as [c' r] eqn:E.
  pose proof (ConnProps.iteration_login e (Smtpsrv.set_queue c (mkPort [] ans)) n) as HL.
  rewrite E in HL. cbn [fst] in HL. subst p.
  apply (ConnProps.iteration_good (Serving.served l)) in E as HG.
  destruct HG as (Hi' & _ & ms & Hq & Hms); [done|by apply (Serving.inv_more (Serving.served l) _ c)|].
  split.
  - split; [done|by apply Forall_cons|]. intros Hc'. destruct (HL Hc') as [Hc0|(u & d & pw & Hl)].
    + by apply logged_in_more, Ha.
    + exists c, u, d, pw. split; [by left|]. split; [done|]. by eapply logs_in_queue.
  - intros put Hp. destruct (turn_calls e c n) as [Hn|(d & c1 & msg & _ & Hall)].
    { specialize (Hn ans). by rewrite E, Hp in Hn. }
    destruct (Hall ans) as [Hcalls _]. rewrite E, Hp in Hcalls. injection Hcalls as ->.
    unfold calls in Hp. cbn [fst] in Hp. rewrite Hq in Hp.
    cbn [Smtpsrv.queue Smtpsrv.set_queue] in Hp. rewrite puts_port in Hp.
    destruct ms as [|m [|m' ms]]; try done. destruct m as [from to d' auth]. injection Hp as -> -> ->.
    apply Forall_cons in Hms as [[Hf [Hn _] _ _ _] _]. by apply conn_deal.
Qed.

Lemma shared_ok sy (x : session) turns :
  srv sy ∈ Serving.during x → conn_ok (Serving.during x) turns (Serving.s_conn x) →
  Serving.served (Serving.during x) (Smtpsrv.cfg (begins sy x)) ∧
  conn_ok (Serving.during x) turns (begins sy x).
Proof.
  intros Hs [Hi Ht Ha]. split; [by apply Serving.shared_served|].
  split; [by apply Serving.shared_inv|done|done].
Qed.

(** The clients after a turn of one of them. *)
Lemma next_ok s tr st k cl c p (cs cs' : gmap nat client) :
  map_Forall (λ _, client_ok s tr st) cs → s ∈ Serving.during (at_ cl) →
  conn_ok (Serving.during (at_ cl)) (c :: past cl) p.1 →
  next k cl c p cs = Some cs' → map_Forall (λ _, client_ok s tr st) cs'.
Proof.
  intros Hcs Hs Hi. unfold next. destruct (p.2) as [n|ex].
  - intros [= <-]. by apply map_Forall_insert_2.
  - destruct ex; try done; intros [= <-]; by apply map_Forall_delete.
Qed.

Lemma ok_set_srv sy s : ok sy → ok (set_srv sy s).
Proof.
  intros [Hr Hc Hd Ho Ha]. split; cbn; try done.
  apply map_Forall_fmap. eapply map_Forall_impl; [exact Hc|].
  intros k cl (Hs & Hi & Hw). split; [by left|]. split; [by apply conn_ok_served|].
  intros c Hcc. destruct (Hw c Hcc) as (C1 & C2 & C3). split; [by apply Serving.served_cons|].
  split; [|done]. by apply conn_ok_served.
Qed.

Lemma ok_serve sy k now m addr r w hs c :
  ok sy → Serving.opening (Serving.accept now m addr r w hs (view unanswered sy)) = (c, None) →
  ok (set_clients sy (<[k := mkClient (Serving.mkSession c 0 [srv sy]) None []]> (clients sy))).
Proof.
  intros [Hr Hc Hd Ho Ha] E. split; cbn; try done. apply map_Forall_insert_2; [|done].
  split; [by left|]. split; [|done]. cbn.
  apply Serving.opening_policy in E as (E1 & E2 & E3 & E4 & E5 & _).
  split; [|by apply Forall_nil|by rewrite E3].
  eapply (Serving.inv_more (Serving.served [srv sy]) _ (Serving.accept now m addr r w hs (view unanswered sy)));
    [done|by rewrite E1|done..|]. apply ConnProps.new_conn_inv.
Qed.

Lemma call_ok_made sy k cl e p rcpts id :
  ok sy → clients sy !! k = Some cl → waiting cl = None →
  calls (turn_of e unanswered sy (at_ cl)) = [p] →
  QueueConc.refusal qu (queue sy) (Server.resolver (srv sy)) p.1.2 = Ok rcpts →
  QueueConc.fresh big (queue sy) id → ok (call_made sy k cl e p id rcpts).
Proof.
  intros [Hr Hc Hd Ho Ha] Hk Hw Hp Href Hf. destruct (Hc k cl Hk) as (Hs & Hi & _).
  destruct (shared_ok sy (at_ cl) _ Hs Hi) as [Hs' Hi'].
  set (d := mkDeal (Serving.during (at_ cl))
    (Smtpsrv.IsSubmission (Smtpsrv.mode (Smtpsrv.cfg (Serving.s_conn (at_ cl)))))
    (begins sy (at_ cl) :: past cl) p).
  assert (S : QueueConc.step big qu (queue sy) QueueConc.Silent
    (QueueConc.put_started (queue sy) id None p.1.1 p.1.2 rcpts p.2))
    by (by eapply QueueConc.put_starts).
  split; cbn [srv clients queue trace deals acks call_made].
  - by eapply QueueConc.run_step.
  - apply map_Forall_insert_2; [|by eapply clients_step].
    split; [done|]. split; [done|]. intros c [= <-]. split_and!; [done..| | |exact Hp]; cbn.
    + set_solver.
    + refine (QueueOrigin.everywhere_step big qu _ _ _ _ _ (QueueOrigin.reached _ _ _ _ Hr) S
        (about_fresh _ _ id p Hr Hf) _).
      intros id' t Ht Hst E. destruct (started_fresh _ _ _ Hst) as [E' Hn]. cbn in Ht.
      rewrite <- E', E, lookup_insert_eq in Ht. injection Ht as <-. by destruct p as [[]].
  - apply Forall_cons. split; [|done].
    exact (proj2 (turn_good _ _ e _ unanswered (Serving.s_errs (at_ cl)) Hs' Hi') p Hp).
  - eapply origin_step; [done|exact S| |].
    { eapply QueueOrigin.everywhere_mono; [|exact Ho]. apply origin_more. }
    intros id' t Ht _ Hst. destruct (started_fresh _ _ _ Hst) as [E' Hn]. cbn in Ht.
    destruct (decide (id' = id)) as [->|Hne].
    2: { rewrite lookup_insert_ne in Ht by done. exfalso. apply Hn.
         by destruct (QueueConcProps.i_threads _ _ _ (QueueOrigin.reached big qu _ _ Hr) _ _ Ht). }
    rewrite lookup_insert_eq in Ht. injection Ht as <-. exists d. split; [by left|]. left.
    split; [by destruct p as [[]]|]. exists (srv sy). split; [done|]. exists rcpts. split; [|done].
    by eapply QueueConcProps.refusal_rcpts.
  - intros i q Hiq. destruct (Ha i q Hiq) as (it & Hit & ?). exists it. split; [by right|done].
Qed.

(** A turn of a client that is not waiting. *)
Lemma turn_next sy e ans k cl cs :
  ok sy → clients sy !! k = Some cl →
  next k cl (begins sy (at_ cl)) (turn_of e ans sy (at_ cl)) (clients sy) = Some cs →
  map_Forall (λ _, client_ok (srv sy) (trace sy) (queue sy)) cs.
Proof.
  intros O Hk. destruct (o_clients _ O k cl Hk) as (Hs & Hi & _).
  destruct (shared_ok sy (at_ cl) _ Hs Hi) as [Hs' Hi'].
  apply next_ok; [apply O|done|].
  exact (proj1 (turn_good _ _ e _ ans (Serving.s_errs (at_ cl)) Hs' Hi')).
Qed.

(** One that was waiting. *)
Lemma returned_next sy ans k cl c cs :
  ok sy → clients sy !! k = Some cl → waiting cl = Some c →
  next k cl (c_conn c) (returned ans c (at_ cl)) (clients sy) = Some cs →
  map_Forall (λ _, client_ok (srv sy) (trace sy) (queue sy)) cs.
Proof.
  intros O Hk Hw. destruct (o_clients _ O k cl Hk) as (Hs & _ & Hc).
  destruct (Hc c Hw) as (C1 & C2 & _). apply next_ok; [apply O|done|].
  exact (proj1 (turn_good _ _ (c_env c) _ ans (Serving.s_errs (at_ cl)) C1 C2)).
Qed.

Lemma queue_ok sy ev st' cs s db f :
  ok sy → QueueConc.step big qu (queue sy) ev st' → internal (queue sy) ev st' ∨ ev = QueueConc.Crashed →
  map_Forall (λ _, client_ok s (ev :: trace sy) st') cs →
  ok (mkSystem s db f cs st' (ev :: trace sy) (deals sy) (acks sy)).
Proof.
  intros [Hr Hc Hd Ho Ha] S Hev Hcs. split; cbn; try done.
  - by eapply QueueConc.run_step.
  - eapply origin_step; [done..|]. intros id t Ht Hp Hst. exfalso. by eapply (no_client (trace sy)).
  - intros i q Hiq. destruct (Ha i q Hiq) as (it & Hit & ?). exists it. split; [by right|done].
Qed.

Lemma refused_ok sy cs err to :
  ok sy → QueueConc.refusal qu (queue sy) (Server.resolver (srv sy)) to = Err err →
  map_Forall (λ _, client_ok (srv sy) (trace sy) (queue sy)) cs →
  ok (set_queue (set_clients sy cs) (queue sy) (QueueConc.Refused err)).
Proof.
  intros [Hr Hc Hd Ho Ha] He Hcs.
  assert (S : QueueConc.step big qu (queue sy) (QueueConc.Refused err) (queue sy))
    by (by eapply QueueConc.put_refused).
  split; cbn; try done.
  - by eapply QueueConc.run_step.
  - by eapply clients_step.
  - eapply origin_step; [done..|]. intros id t Ht _ Hst. destruct (started_fresh _ _ _ Hst) as [_ []].
    by destruct (QueueConcProps.i_threads _ _ _ (QueueOrigin.reached big qu _ _ Hr) _ _ Ht).
  - intros i q Hiq. destruct (Ha i q Hiq) as (it & Hit & ?). exists it. split; [by right|done].
Qed.

Lemma ok_step sy sy' : step sy sy' → ok sy → ok sy'.
Proof.
  destruct 1 as [k now m addr r w hs c Hk E|e k cl cs Hk Hw p Hp Hn|e k cl p err cs Hk Hw Hp Hr Hn|
    e k cl p rcpts id Hk Hw Hp Hr Hf|k cl c it cs Hk Hw Hit Hid Hn|k cl c err cs Hk Hw Ht Hna Hn|
    ev st' S Hi|s db f st' S|order s Hs|disk key|sv sv' _ _|db f]; intros O.
  - by eapply ok_serve.
  - destruct O as [Hr' Hc Hd Ho Ha] eqn:EO. split; cbn; try done. by eapply turn_next.
  - eapply refused_ok; [done..|]. by eapply turn_next.
  - by eapply call_ok_made.
  - split; cbn; try apply O; [by eapply returned_next|].
    intros i q [[= -> ->]|Hiq]%elem_of_cons; [|by apply O]. exists it. split; [done|]. split; [done|].
    destruct (o_clients _ O k cl Hk) as (_ & _ & Hc). destruct (Hc c Hw) as (_ & _ & _ & Hab & _).
    by apply Hab.
  - split; cbn; try apply O. by eapply returned_next.
  - apply queue_ok; [done|done|by left|]. eapply clients_step; [apply O|done|apply O].
  - apply queue_ok; [done|done|by right|]. apply map_Forall_empty.
  - by apply ok_set_srv.
  - by apply ok_set_srv.
  - by apply ok_set_srv.
  - by destruct O.
Qed.

Lemma system_ok sy : reachable sy → ok sy.
Proof.
  induction 1 as [s db f qfs t Hn|sy sy' _ IH S]; [|by eapply ok_step].
  assert (R : run [] (QueueConc.boot qfs t)) by (by apply QueueConc.run_boot).
  split; cbn; [done|apply map_Forall_empty|done| |by intros ? ? ?%elem_of_nil].
  eapply QueueOrigin.everywhere_mono; [|exact (QueueOrigin.everywhere_drawn big qu _ _ R)].
  intros it Hit. cbn in Hit. set_solver.
Qed.

(** ** What it means *)

(** C1: Whatever the server tries to deliver, somebody was allowed to send.  In
    every state, whatever the clients, the couriers, the disks, reloads and
    crashes did, an attempt to deliver is made for a recipient of an item that
    either a client gave to the server, with the sender, recipients and contents
    of its envelope, the recipient being one that the aliases of the server gave
    for them, or that is the notification of such a message, to its sender.  And
    that envelope had complied with the policy: its recipients were users of
    local domains that existed at a moment of the connection, unless on that same
    connection, before or in the turn that queued it, the client had sent, over
    TLS, an AUTH with a user and a password that the server accepted; and on a
    submission port it always had. *)
Theorem deliveries_authorised sy id i r st' :
  reachable sy → QueueConc.step big qu (queue sy) (QueueConc.Attempt id i r) st' →
  ∃ t rcpt d,
    QueueConc.threads (queue sy) !! id = Some t ∧
    Queue.Rcpt (Queue.msg (QueueConc.item_of t)) !! i = Some rcpt ∧
    d ∈ deals sy ∧ deal_ok d ∧
    (from_deal d (QueueConc.item_of t) ∨
     ∃ m al, from_deal d m ∧ Queue.From (Queue.msg m) ≠ "<>" ∧
       QueueConcProps.is_dsn qu m (QueueConc.item_of t) ∧
       resolved al [Queue.From (Queue.msg m)] (QueueConc.item_of t)).
Proof.
  intros R S. apply system_ok in R as [Hr Hc Hd Ho Ha].
  inversion S as [| | |? ? par| | | |id' t before i' after w c rcpt Ht Hp Hrc r'| | | | | | | | | | | |];
    subst; [by destruct par|].
  destruct (QueueOrigin.e_threads _ _ _ _ Ho _ _ Ht) as (d & Hin & Hor).
  exists t, rcpt, d. split_and!; try done. rewrite Forall_forall in Hd. by apply Hd.
Qed.

(** C3: A message for which the connection was told that it is queued stays
    accounted for, in the server as a whole: however connections, reloads, send
    loops, failures of the disk and crashes of the process interleave, from then
    on it is on the disk with the sender, recipients and contents that were given,
    or else each of its recipients got it, or failed for good or was given up
    after [GiveUpAfter]; and for those that did not get it a notification to the
    sender, which names the recipient, was accepted by the queue as well, unless
    the message has the null sender or it was tried to queue the notification and
    that failed. *)
Theorem acknowledged_mail_accounted sy id p :
  reachable sy → (id, p) ∈ acks sy →
  ∃ it, Queue.ID (Queue.msg it) = id ∧ content it = p ∧
    ((∃ f, QueueConcProps.stored qu (QueueConc.disk (queue sy)) id f ∧
           QueueConcProps.mail_key f = QueueConcProps.mail_key it) ∨
     ∀ i r, Queue.Rcpt (Queue.msg it) !! i = Some r →
       QueueConcProps.settled qu (trace sy) (queue sy) it i r).
Proof.
  intros R Ha. apply system_ok in R as O. destruct (o_acks _ O id p Ha) as (it & Hit & Hid & Hc).
  exists it. split; [done|]. split; [done|]. rewrite <- Hid.
  by apply (QueueConcProps.mail_accounted big qu); [apply O|].
Qed.

(** What the client of such a call is told is decided by the answer of [Put]
    alone: 250 if it is an id, and 451, or 421 and the end, if it is an error. *)
Theorem returned_replies sy k cl c :
  reachable sy → clients sy !! k = Some cl → waiting cl = Some c →
  ∃ c1 msg, ∀ ans,
    returned ans c (at_ cl) =
      ConnQueue.reply_turn (Serving.s_errs (at_ cl))
        (ConnQueue.put_reply c1 msg (mkPort [c_put c] ans, ans)).
Proof.
  intros R Hk Hw. apply system_ok in R as O. destruct (o_clients _ O k cl Hk) as (_ & _ & Hc).
  destruct (Hc c Hw) as (_ & _ & _ & _ & Hp).
  destruct (turn_calls (c_env c) (c_conn c) (Serving.s_errs (at_ cl)))
    as [Hn|(d & c1 & msg & _ & Hall)].
  - unfold returned in Hp. by rewrite Hn in Hp.
  - exists c1, msg. intros ans. destruct (Hall unanswered) as [Hu _].
    unfold returned in Hp. rewrite Hu in Hp. injection Hp as <-. apply Hall.
Qed.

End System.
(** ** Example *)

Module Example.
Import AsciiOnly CountableText.
#[local] Existing Instances ConnProps.Example.net_mail ConnProps.Example.net_ip
  ConnProps.Example.alias_world ConnProps.Example.error_text
  UserDB.Example.kdf UserDB.Scheme_eq_dec UserDB.Scheme_countable
  DomainInfo.Domain_eq_dec DomainInfo.Domain_countable QueueProps.QueueProps.Message_countable.
#[local] Existing Instances Auth.wrap_backend UserDB.userdb_backend.
#[local] Existing Instances Dovecot.dovecot_backend DovecotProps.sum_backend.
#[local] Existing Instance Serving.Example.no_dkim.

#[local] Abbreviation qu := QueueProps.Example.queue.
#[local] Abbreviation e := ConnProps.Example.example_env.
#[local] Abbreviation system := (system (PrivateKey := unit) (VerifyResult := unit)).
#[local] Abbreviation step := (step false qu (λ _, [])).
#[local] Abbreviation reachable := (reachable false qu (λ _, [])).

Definition start : system :=
  mkSystem Serving.Example.server (DomainInfo.mkDB (Protoio.mkStore "/d") ∅) ∅ ∅
    (QueueConc.boot ∅ 0) [] [] [].

(** The steps of one client, 7, and of one item, as functions. *)
Definition connects (sy : system) : option system :=
  match Serving.opening (Serving.accept 0 Smtpsrv.ModeSMTP (TCPAddr "1.2.3.4" 99)
      (mkReader (ConnProps.Example.lines ConnProps.Example.session) EndEOF)
      (mkWriter [] None None) [] (view unanswered sy)), clients sy !! 7 with
  | (c, None), None =>
    Some (set_clients sy (<[7 := mkClient (Serving.mkSession c 0 [srv sy]) None []]> (clients sy)))
  | _, _ => None
  end.

Definition turns (sy : system) : option system :=
  match clients sy !! 7 with
  | Some (mkClient x None l) =>
    let p := turn_of e unanswered sy x in
    match calls p with
    | [] =>
      cs ← next 7 (mkClient x None l) (begins sy x) p (clients sy);
      Some (mkSystem (srv sy) (Smtpsrv.dinfo p.1) (Smtpsrv.dinfoFS p.1) cs (queue sy)
              (trace sy) (deals sy) (acks sy))
    | _ => None
    end
  | _ => None
  end.

Definition id1 : bytes := QueueConc.generateNewID false 1.

Definition puts (sy : system) : option system :=
  match clients sy !! 7 with
  | Some (mkClient x None l) =>
    match calls (turn_of e unanswered sy x) with
    | [p] =>
      match QueueConc.refusal qu (queue sy) (Server.resolver (srv sy)) p.1.2 with
      | Ok rcpts =>
        if decide (id1 ∈ QueueConc.drawn (queue sy)) then None
        else Some (call_made sy 7 (mkClient x None l) e p id1 rcpts)
      | Err _ => None
      end
    | _ => None
    end
  | _ => None
  end.

Definition tmp : bytes := "/q/.t".

Definition writes (sy : system) : option system :=
  match QueueConc.threads (queue sy) !! id1, QueueConc.disk (queue sy) !! tmp with
  | Some (QueueConc.mkThread it0 (QueueConc.Writing par)), None =>
    match Queue.WriteTo (Queue.good_disk tmp) (QueueConc.disk (queue sy)) it0 (Queue.path qu) with
    | (it, f, None) =>
      Some (set_queue sy (QueueConc.set_thread (QueueConc.set_disk (queue sy) f) id1
              (QueueConc.mkThread it (QueueConc.Inserting par))) QueueConc.Silent)
    | _ => None
    end
  | _, _ => None
  end.

Definition inserts (sy : system) : option system :=
  match QueueConc.threads (queue sy) !! id1 with
  | Some (QueueConc.mkThread it (QueueConc.Inserting None)) =>
    Some (set_queue sy (QueueConc.put_done (queue sy) id1 None it) (QueueConc.Accepted it))
  | _ => None
  end.

Definition returns (sy : system) : option system :=
  match clients sy !! 7, trace sy with
  | Some (mkClient x (Some c) l), QueueConc.Accepted it :: _ =>
    if decide (Queue.ID (Queue.msg it) = c_id c) then
      cs ← next 7 (mkClient x (Some c) l) (c_conn c) (returned (Ok (c_id c)) c x) (clients sy);
      Some (mkSystem (srv sy) (dinfo sy) (fs sy) cs (queue sy) (trace sy) (deals sy)
              ((c_id c, c_put c) :: acks sy))
    else None
  | _, _ => None
  end.

Definition sends (sy : system) : option system :=
  match QueueConc.threads (queue sy) !! id1 with
  | Some (QueueConc.mkThread it QueueConc.Looping) =>
    if decide (QueueConc.now (queue sy) - Queue.CreatedAt it < Queue.GiveUpAfter qu)%Z then
      Some (set_queue sy (QueueConc.set_thread (queue sy) id1
              (QueueConc.mkThread it (QueueConc.Sending (Queue.pending (Queue.msg it)) 0)))
              QueueConc.Silent)
    else None
  | _ => None
  end.

Definition moves : list (system → option system) :=
  [connects; turns; turns; turns; turns; puts; writes; inserts; returns; sends].

Definition runs : option system := foldl (λ o f, o ≫= f) (Some start) moves.

Definition shows (sy : system) : bool :=
  match acks sy, QueueConc.threads (queue sy) !! id1 with
  | [_], Some (QueueConc.mkThread it (QueueConc.Sending [0] 0)) =>
    bool_decide (is_Some (Queue.Rcpt (Queue.msg it) !! 0))
  | _, _ => false
  end.

Lemma connects_step sy sy' : connects sy = Some sy' → step sy sy'.
Proof.
  unfold connects. destruct (Serving.opening _) as [c [h|]] eqn:E; [done|].
  destruct (clients sy !! 7) eqn:Hk; [done|]. intros [= <-]. by eapply sys_serve.
Qed.

Lemma turns_step sy sy' : turns sy = Some sy' → step sy sy'.
Proof.
  unfold turns. destruct (clients sy !! 7) as [[x [c|] l]|] eqn:Hk; [done| |done].
  destruct (calls _) as [|] eqn:Hc; [|done].
  destruct (next _ _ _ _ _) as [cs|] eqn:Hn; [|done]. intros [= <-].
  exact (sys_turn false qu (λ _, []) sy e 7 _ cs Hk eq_refl Hc Hn).
Qed.

Lemma puts_step sy sy' : puts sy = Some sy' → step sy sy'.
Proof.
  unfold puts. destruct (clients sy !! 7) as [[x [c|] l]|] eqn:Hk; [done| |done].
  destruct (calls _) as [|p [|]] eqn:Hc; [done| |done].
  destruct (QueueConc.refusal _ _ _ _) as [rcpts|err] eqn:Hr; [|done].
  destruct (decide _) as [Hd|Hd]; [done|]. intros [= <-].
  apply (sys_call false qu (λ _, []) sy e 7 _ p rcpts id1 Hk eq_refl Hc Hr).
  split; [by eexists|exact Hd].
Qed.

(** The steps of the item are internal. *)
Lemma item_internal k st fs (t t' : QueueConc.thread) tb n dr ev :
  QueueConc.threads st !! k = Some t →
  ev = QueueConc.Silent ∨ (∃ it, ev = QueueConc.Accepted it) →
  internal st ev (QueueConc.mkState (<[k := t']> (QueueConc.threads st)) tb fs n dr).
Proof.
  intros Ht Hev. split; [naive_solver|]. split; [intros err ->; naive_solver|].
  intros id t0. cbn [QueueConc.threads]. destruct (decide (id = k)) as [->|Hne]; [by eauto|].
  rewrite lookup_insert_ne by done. eauto.
Qed.

Lemma writes_step sy sy' : writes sy = Some sy' → step sy sy'.
Proof.
  unfold writes. destruct (QueueConc.threads _ !! id1) as [[it0 p]|] eqn:Ht; [|done].
  destruct p as [par| | | | | | | |]; try done.
  destruct (QueueConc.disk _ !! tmp) eqn:Hd; [done|].
  destruct (Queue.WriteTo _ _ _ _) as [[it f] [err|]] eqn:E; [done|]. intros [= <-].
  apply sys_queue; [|exact (item_internal id1 (queue sy) f _ _ _ _ _ QueueConc.Silent Ht (or_introl eq_refl))].
  refine (QueueConc.put_writes false qu (queue sy) id1 _ par (Queue.good_disk tmp) it f Ht eq_refl _ E).
  by apply QueueConcProps.Example.temp_name.
Qed.

Lemma inserts_step sy sy' : inserts sy = Some sy' → step sy sy'.
Proof.
  unfold inserts. destruct (QueueConc.threads _ !! id1) as [[it p]|] eqn:Ht; [|done].
  destruct p as [|[par|]| | | | | | |]; try done. intros [= <-].
  apply sys_queue; [exact (QueueConc.put_inserts false qu (queue sy) id1 _ None Ht eq_refl)|].
  refine (item_internal id1 (queue sy) _ _ _ _ _ _ _ Ht _). right. by eexists.
Qed.

Lemma returns_step sy sy' : returns sy = Some sy' → step sy sy'.
Proof.
  unfold returns. destruct (clients sy !! 7) as [[x [c|] l]|] eqn:Hk; try done.
  destruct (trace sy) as [|[] tr] eqn:Htr; try done.
  destruct (decide _) as [Hid|]; [|done].
  destruct (next _ _ _ _ _) as [cs|] eqn:Hn; [|done]. intros [= <-]. rewrite <- Htr.
  eapply (sys_accepted false qu (λ _, []) sy 7 (mkClient x (Some c) l) c _ cs Hk eq_refl); [|exact Hid|exact Hn].
  rewrite Htr. by left.
Qed.

Lemma sends_step sy sy' : sends sy = Some sy' → step sy sy'.
Proof.
  unfold sends. destruct (QueueConc.threads _ !! id1) as [[it p]|] eqn:Ht; [|done].
  destruct p; try done. destruct (decide _) as [Hn|]; [|done]. intros [= <-].
  apply sys_queue; [exact (QueueConc.loop_sends false qu (queue sy) id1 _ Ht eq_refl Hn)|].
  exact (item_internal id1 (queue sy) _ _ _ _ _ _ QueueConc.Silent Ht (or_introl eq_refl)).
Qed.

Lemma moves_reachable fs sy sy' :
  Forall (λ f : system → option system, ∀ sy sy', f sy = Some sy' → step sy sy') fs →
  reachable sy → foldl (λ o f, o ≫= f) (Some sy) fs = Some sy' → reachable sy'.
Proof.
  intros Hf. revert sy. induction Hf as [|f fs Hf _ IH]; intros sy R; cbn; [by intros [= <-]|].
  destruct (f sy) as [sy1|] eqn:E; [|clear; induction fs; done].
  apply IH. eapply reach_step; [exact R|by apply Hf].
Qed.

Lemma runs_reachable sy : runs = Some sy → reachable sy.
Proof.
  apply moves_reachable; [|apply reach_start; intros id; apply lookup_empty].
  repeat (apply Forall_cons; split); eauto using Forall_nil_2, connects_step, turns_step,
    puts_step, writes_step, inserts_step, returns_step, sends_step.
Qed.

Lemma ran : ∃ sy, reachable sy ∧ shows sy = true.
Proof.
  assert (Hs : (shows <$> runs) = Some true) by (vm_compute; reflexivity).
  destruct runs as [sy|] eqn:E; [|discriminate]. exists sy. split; [by apply runs_reachable|].
  by injection Hs.
Qed.

(** After a message of the client was accepted and acknowledged, its delivery is
    about to be tried. *)
Lemma deliveries_authorised_witness :
  ∃ (sy : system) r st' (t : QueueConc.thread) d, reachable sy ∧
    QueueConc.step false qu (queue sy) (QueueConc.Attempt id1 0 r) st' ∧
    QueueConc.threads (queue sy) !! id1 = Some t ∧ d ∈ deals sy ∧ deal_ok d.
Proof.
  destruct ran as (sy & E & Hs). unfold shows in Hs. destruct (acks sy) as [|a [|]]; [discriminate| |discriminate].
  destruct (QueueConc.threads (queue sy) !! id1) as [[it p]|] eqn:Ht; [|discriminate].
  destruct p as [| | |[|[|n] [|m l]] [|w]| | | | |]; try discriminate.
  apply bool_decide_eq_true in Hs as [rcpt Hr].
  pose proof (QueueConc.rcpt_tried false qu (queue sy) id1 _ [] 0 [] 0 (λ _, (None, false)) rcpt
    Ht eq_refl Hr) as S. cbn zeta in S.
  destruct (deliveries_authorised false qu (λ _, []) sy id1 0 _ _ E S)
    as (t & rcpt' & d & Ht' & _ & Hd & Hok & _).
  eexists sy, _, _, t, d. split; [exact E|]. split; [exact S|]. split; [exact Ht'|].
  split; [exact Hd|exact Hok].
Defined.

Lemma acknowledged_mail_accounted_witness :
  ∃ (sy : system) id p it, reachable sy ∧ (id, p) ∈ acks sy ∧
    Queue.ID (Queue.msg it) = id ∧ content it = p ∧
    ((∃ f, QueueConcProps.stored qu (QueueConc.disk (queue sy)) id f ∧
           QueueConcProps.mail_key f = QueueConcProps.mail_key it) ∨
     ∀ i r, Queue.Rcpt (Queue.msg it) !! i = Some r →
       QueueConcProps.settled qu (trace sy) (queue sy) it i r).
Proof.
  destruct ran as (sy & E & Hs). unfold shows in Hs. destruct (acks sy) as [|[id p] l] eqn:Ea; [discriminate|].
  assert (Hin : (id, p) ∈ acks sy) by (rewrite Ea; left).
  destruct (acknowledged_mail_accounted false qu (λ _, []) sy id p E Hin) as (it & Hi & Hc & Hw).
  exists sy, id, p, it. split; [exact E|]. split; [exact Hin|]. split; [exact Hi|]. split; [exact Hc|exact Hw].
Defined.

End Example.
End System.
