(* ===== verification/Main.v ===== *)
(** Starting up: chasquid.go.  The operating system answers through the record
    [system]; [log.Fatalf], which ends the program, is an error.  The domain
    information, the queue and the key files are read from one disk. *)

From S2P Require Import Prelude GoStrings GoSlices GoTime Envelope DotReader Aliases Store.
From S2P Require Import DomainInfo Auth Haproxy Conn Queue Sts SmtpClient Courier Dkim.
From S2P Require Import Dovecot DovecotProps LocalRpc Server Config.
#[local] Open Scope go_scope.

Module Main.
Import Safeio Protoio Server.

Record system := mkSystem {
  sy_disk : Auth.disk;
  sy_hostname : res bytes bytes;
  (** [os.Chdir], and making the mail log: the error of each. *)
  sy_chdir : bytes → option bytes;
  sy_maillog : bytes → option bytes;
  (** [os.ReadDir]: the names, and whether each is a regular file. *)
  sy_dir : bytes → res bytes (list (bytes * bool));
  (** [os.Stat] finds the file. *)
  sy_stat : bytes → bool;
  (** [tls.LoadX509KeyPair] *)
  sy_keypair : bytes → bytes → res bytes bytes;
  sy_glob : bytes → res bytes (list bytes);
  (** What the parser leaves of a user database that does not parse. *)
  sy_partial : bytes → UserDB.ProtoDB;
  (** [os.MkdirAll], and reading the directory of the domain information. *)
  sy_mkdir : bytes → option bytes;
  sy_list : bytes → option bytes;
  sy_systemd : res bytes (gmap bytes (list bytes));
  sy_listen : bytes → option bytes;
  sy_dovecot : Dovecot.world;
  sy_pid : Z;
}.

Inductive fatal :=
| FatalConfig (e : Config.error)
| FatalChdir (e : bytes)
| FatalMailLog (e : bytes)
| FatalNilPointer
| FatalReadDir (path e : bytes)
| FatalNoEntries (path : bytes)
| FatalCert (e : bytes)
| FatalName (name : bytes)
| FatalUsers (domain : bytes) (e : read_error)
| FatalAliasesFile (domain : bytes) (e : Aliases.error)
| FatalDKIM (domain : bytes) (e : bytes + key_error)
| FatalDomainInfo (e : DomainInfo.error)
| FatalSTS (e : bytes)
| FatalQueue (e : bytes)
| FatalSystemd (e : bytes)
| FatalEmptyAddress (m : Smtpsrv.SocketMode)
| FatalNoAddress
| FatalServe (e : listen_fatal).

Inductive mail_log := LogSyslog | LogStdout | LogStderr | LogFile (path : bytes).

Definition initMailLog (sys : system) (path : bytes) : res fatal mail_log :=
  let check (l : mail_log) :=
    match sy_maillog sys path with
    | Some e => Err (FatalMailLog e)
    | None => Ok l
    end in
  if path == "<syslog>" then check LogSyslog
  else if path == "<stdout>" then Ok LogStdout
  else if path == "<stderr>" then Ok LogStderr
  else check (LogFile path).

Definition mustReadDir (sys : system) (path : bytes) : res fatal (list (bytes * bool)) :=
  match sy_dir sys path with
  | Err e => Err (FatalReadDir path e)
  | Ok [] => Err (FatalNoEntries path)
  | Ok dirs => Ok dirs
  end.

Section Main.
Context `{Unicode, Precis, NetMail, AliasWorld, ScryptKDF}.
Context `{ProtoText DomainInfo.Domain, ProtoText Queue.Message, ProtoText UserDB.ProtoDB}.
Context `{ProtoText Config.Config}.
Context {RSAPublicKey PrivateKey : Type} `{Dkim.Crypto RSAPublicKey PrivateKey}.
Context `{!KeyFiles PrivateKey}.

#[local] Abbreviation Server := (@Server.Server PrivateKey).

Definition loadCert (sys : system) (dir : bytes) (s : Server) : res fatal Server :=
  let certPath := Path.Join2 dir "fullchain.pem" in
  let keyPath := Path.Join2 dir "privkey.pem" in
  if negb (sy_stat sys certPath) || negb (sy_stat sys keyPath) then Ok s
  else
    match AddCerts (sy_keypair sys certPath keyPath) s with
    | Err e => Err (FatalCert e)
    | Ok s => Ok s
    end.

Fixpoint load_certs (sys : system) (entries : list (bytes * bool)) (s : Server) :
    res fatal Server :=
  match entries with
  | [] => Ok s
  | (name, regular) :: entries =>
    if regular : bool then load_certs sys entries s
    else s ← loadCert sys (Path.Join2 "certs/" name) s; load_certs sys entries s
  end.

(** The selector is taken from the name of the file of the key. *)
Definition selector_of (pem : bytes) : bytes :=
  TrimSuffix (TrimPrefix (Path.Base pem) "dkim:") ".pem".

Fixpoint add_signers (sys : system) (domain : bytes) (pems : list bytes) (s : Server) :
    res key_error Server :=
  match pems with
  | [] => Ok s
  | pem :: pems =>
    s ← AddDKIMSigner (sy_disk sys) domain (selector_of pem) pem s;
    add_signers sys domain pems s
  end.

Definition loadDKIM (sys : system) (domain dir : bytes) (s : Server) :
    res (bytes + key_error) (Server * nat) :=
  match sy_glob sys (Path.Clean (dir ++ "/dkim:*.pem")) with
  | Err e => Err (inl e)
  | Ok pems =>
    match add_signers sys domain pems s with
    | Err e => Err (inr e)
    | Ok s => Ok (s, length pems)
    end
  end.

Definition loadDomain (sys : system) (name dir : bytes) (s : Server) : res fatal Server :=
  let s := AddDomain name s in
  let f := dir ++ "/users" in
  let '(s, (nusers, err)) := AddUserDB (sy_disk sys) (sy_partial sys f) name f s in
  match err with
  | Some e => Err (FatalUsers name e)
  | None =>
    let '(s, r) := AddAliasesFile name (dir ++ "/aliases") s in
    match r with
    | Err e => Err (FatalAliasesFile name e)
    | Ok naliases =>
      match loadDKIM sys name dir s with
      | Err e => Err (FatalDKIM name e)
      | Ok (s, ndkim) => Ok s
      end
    end
  end.

Fixpoint load_domains (sys : system) (entries : list (bytes * bool)) (s : Server) :
    res fatal Server :=
  match entries with
  | [] => Ok s
  | (name, regular) :: entries =>
    match Normalize.Domain name with
    | (_, Some _) => Err (FatalName name)
    | (domain, None) =>
      if regular : bool then load_domains sys entries s
      else s ← loadDomain sys domain (Path.Join2 "domains" name) s;
           load_domains sys entries s
    end
  end.

(** The fallback is a pointer, and [Check] leaves in it the addresses that it
    found; its error is only logged. *)
Definition loadDovecot (sys : system) (userdb client : bytes) (s : Server) : Server :=
  let '(a, n, _) := Dovecot.Check (sy_dovecot sys) 0 (Dovecot.NewAuth userdb client) in
  SetAuthFallback (inr (Dovecot.mkService a (sy_dovecot sys) n (sy_pid sys))) s.

Fixpoint loadAddresses (addrs ls : list bytes) (m : Smtpsrv.SocketMode) (naddr : nat)
    (s : Server) : res fatal (Server * nat) :=
  match addrs with
  | [] => Ok (s, naddr)
  | addr :: addrs =>
    if addr == [] then Err (FatalEmptyAddress m)
    else if addr == "systemd" then
      loadAddresses addrs ls m (naddr + length ls) (AddListeners ls m s)
    else loadAddresses addrs ls m (S naddr) (AddAddr addr m s)
  end.

(** The program after it has started: the server, its couriers and its sockets,
    and the items of the queue whose loops run. *)
Record running := mkRunning {
  r_server : Server;
  r_maillog : mail_log;
  r_local : Courier.MDA;
  r_remote : Courier.SMTP;
  r_loops : list bytes;
  r_sockets : list (Smtpsrv.SocketMode * bytes);
}.

(** The options of the configuration, before anything is read. *)
Definition configure (sys : system) (conf : Config.Config) : option Server :=
  suffix ← Config.SuffixSeparators conf;
  drop ← Config.DropCharacters conf;
  let s := set_main NewServer (Config.Hostname conf)
             (wrap64 (wrap64 (Config.MaxDataSizeMb conf * 1024) * 1024)) "hooks/"
             (Config.HaproxyIncoming conf) in
  let s := SetAliasesConfig suffix drop s in
  Some (if Config.DovecotAuth conf
        then loadDovecot sys (Config.DovecotUserdbPath conf) (Config.DovecotClientPath conf) s
        else s).

(** Certificates and domains. *)
Definition load_all (sys : system) (s : Server) : res fatal Server :=
  certs ← mustReadDir sys "certs/";
  s ← load_certs sys certs s;
  domains ← mustReadDir sys "domains/";
  s ← load_domains sys domains s;
  Ok (AddDomain "localhost" s).

(** The databases and the queue. *)
Definition open_state (sys : system) (conf : Config.Config) (s : Server) :
    res fatal (Server * Sts.PolicyCache * list bytes) :=
  let dir := Config.DataDir conf in
  let d := sy_disk sys in
  match DomainInfo.New (Auth.disk_fault d) (sy_mkdir sys (dir ++ "/domaininfo"))
          (sy_list sys (dir ++ "/domaininfo")) (Auth.disk_files d) (dir ++ "/domaininfo") with
  | Err e => Err (FatalDomainInfo e)
  | Ok db =>
    let s := SetDomainInfo db s in
    match Sts.NewCache (dir ++ "/sts-cache") (sy_mkdir sys (dir ++ "/sts-cache")) with
    | (_, Some e) => Err (FatalSTS e)
    | (cache, None) =>
      match InitQueue (Auth.disk_fault d) (Auth.disk_files d) (sy_mkdir sys (dir ++ "/queue"))
              (dir ++ "/queue") s with
      | Err e => Err (FatalQueue e)
      | Ok (s, loops) =>
        match SetQueueLimits (Z.of_N (Config.MaxQueueItems conf))
                (Config.GiveUpSendAfterDuration conf) s with
        | None => Err FatalNilPointer
        | Some s => Ok (s, cache, loops)
        end
      end
    end
  end.

Definition load_addresses (sys : system) (conf : Config.Config) (s : Server) :
    res fatal Server :=
  match sy_systemd sys with
  | Err e => Err (FatalSystemd e)
  | Ok ls =>
    let named k := default [] (ls !! (k : bytes)) in
    '(s, n1) ← loadAddresses (Config.SmtpAddress conf) (named "smtp") Smtpsrv.ModeSMTP 0 s;
    '(s, n2) ← loadAddresses (Config.SubmissionAddress conf) (named "submission")
                 Smtpsrv.ModeSubmission 0 s;
    '(s, n3) ← loadAddresses (Config.SubmissionOverTlsAddress conf) (named "submission_tls")
                 Smtpsrv.ModeSubmissionTLS 0 s;
    if n1 + n2 + n3 == 0 then Err FatalNoAddress else Ok s
  end.

(** [main], up to where it serves for good.  [order] and [lorder] are the orders
    in which the maps of addresses and listeners are gone through. *)
Definition main (sys : system) (configDir overrides : bytes)
    (order lorder : gmap Smtpsrv.SocketMode (list bytes) → list (Smtpsrv.SocketMode * list bytes)) :
    res fatal running :=
  match Config.Load (Auth.disk_fault (sy_disk sys)) (Auth.disk_files (sy_disk sys))
          (sy_hostname sys) (configDir ++ "/chasquid.conf") overrides with
  | Err e => Err (FatalConfig e)
  | Ok conf =>
    match sy_chdir sys configDir with
    | Some e => Err (FatalChdir e)
    | None =>
      log ← initMailLog sys (Config.MailLogPath conf);
      match configure sys conf with
      | None => Err FatalNilPointer
      | Some s =>
        s ← load_all sys s;
        '(s, cache, loops) ← open_state sys conf s;
        s ← load_addresses sys conf s;
        match ListenAndServe (sy_listen sys) (order (addrs s)) (lorder (listeners s)) s with
        | Err e => Err (FatalServe e)
        | Ok sockets =>
          Ok (mkRunning s log
                (Courier.mkMDA (Config.MailDeliveryAgentBin conf) (Config.MailDeliveryAgentArgs conf)
                   (30 * Time.Second))
                (Courier.mkSMTP (Config.Hostname conf) "25" (Some cache)) loops sockets)
        end
      end
    end
  end.

(** ** Signals *)

Inductive signal_outcome :=
| Exit (code : Z)
| Continue (r : running)
| SignalFatal.

(** SIGHUP reopens the logs and reloads; any error is fatal. *)
Definition on_SIGHUP (reopen maillog_reopen : option bytes) (fault : bytes → option bytes)
    (dir_err : option bytes) (disk : Auth.disk) (order : list (bytes * list bytes))
    (r : running) : signal_outcome :=
  if negb (reopen == None) then SignalFatal
  else if negb (maillog_reopen == None) then SignalFatal
  else
    match dinfo (r_server r) with
    | None => SignalFatal
    | Some db =>
      match DomainInfo.Reload fault dir_err (Auth.disk_files disk) db with
      | (_, Some _) => SignalFatal
      | (db, None) =>
        match Reload disk order (set_dinfo (r_server r) db) with
        | Err _ => SignalFatal
        | Ok s => Continue (mkRunning s (r_maillog r) (r_local r) (r_remote r) (r_loops r)
                              (r_sockets r))
        end
      end
    end.

Inductive signal := SIGHUP | SIGTERM | SIGINT | OtherSignal.

(** What the system answers while a signal is handled. *)
Record signal_env := mkSignalEnv {
  se_reopen : option bytes;
  se_maillog : option bytes;
  se_fault : bytes → option bytes;
  se_dir : option bytes;
  se_disk : Auth.disk;
  se_order : list (bytes * list bytes);
}.

(** One turn of the loop of [signalHandler]. *)
Definition signalHandler (e : signal_env) (sig : signal) (r : running) : signal_outcome :=
  match sig with
  | SIGHUP =>
    on_SIGHUP (se_reopen e) (se_maillog e) (se_fault e) (se_dir e) (se_disk e) (se_order e) r
  | SIGTERM | SIGINT => Exit 0
  | OtherSignal => Continue r
  end.

End Main.

End Main.
