(* ===== verification/MainProps.v ===== *)
(** What is proved of Server.v and Main.v: the server that starts is the one
    that is configured, and what the local RPC does to it. *)

From S2P Require Import Prelude GoStrings GoSlices GoTime Envelope DotReader Aliases Store.
From S2P Require Import DomainInfo Auth Haproxy Conn Queue Sts SmtpClient Courier Dkim.
From S2P Require Import Dovecot DovecotProps LocalRpc LocalRpcProps Server Config Main.
#[local] Open Scope go_scope.

Module MainProps.
Import Safeio Protoio Server Main.

(** ** Sockets *)

Definition sockets_of (M : gmap Smtpsrv.SocketMode (list bytes)) :
    list (Smtpsrv.SocketMode * bytes) := all_of (map_to_list M).

Lemma all_of_perm l k : l ≡ₚ k → all_of l ≡ₚ all_of k.
Proof. intros Hp. unfold all_of. by rewrite Hp. Qed.

Lemma all_of_cons m ls l :
  all_of ((m, ls) :: l) = ((λ a, (m, a)) <$> ls) ++ all_of l.
Proof. done. Qed.

(** Adding to the list of a mode adds the sockets. *)
Lemma sockets_of_add M m ls :
  sockets_of (<[m := default [] (M !! m) ++ ls]> M) ≡ₚ
  sockets_of M ++ ((λ a, (m, a)) <$> ls).
Proof.
  unfold sockets_of. rewrite <- insert_delete_eq.
  rewrite (all_of_perm _ _ (map_to_list_insert _ m _ (lookup_delete_eq M m))), all_of_cons.
  rewrite fmap_app. destruct (M !! m) as [old|] eqn:E; simpl.
  - rewrite <- (insert_delete_id M m old E) at 2.
    rewrite (all_of_perm _ _ (map_to_list_insert _ m _ (lookup_delete_eq M m))), all_of_cons.
    rewrite <- !(assoc_L (++)). apply Permutation_app_head. apply Permutation_app_comm.
  - rewrite delete_id by done. apply Permutation_app_comm.
Qed.

(** The sockets that a list of addresses asks for. *)
Definition wanted (m : Smtpsrv.SocketMode) (addrs ls : list bytes) :
    list (Smtpsrv.SocketMode * bytes) :=
  concat ((λ a, (λ x, (m, x)) <$> (if a == "systemd" then ls else [a])) <$> addrs).

Section Main.
Context `{Unicode, Precis, NetMail, AliasWorld, ScryptKDF}.
Context `{ProtoText DomainInfo.Domain, ProtoText Queue.Message, ProtoText UserDB.ProtoDB}.
Context `{ProtoText Config.Config}.
Context {RSAPublicKey PrivateKey : Type} `{Dkim.Crypto RSAPublicKey PrivateKey}.
Context `{!KeyFiles PrivateKey}.

#[local] Abbreviation Server := (@Server.Server PrivateKey).

Definition sockets (s : Server) : list (Smtpsrv.SocketMode * bytes) :=
  sockets_of (addrs s) ++ sockets_of (listeners s).

(** The rest of the server, for operations that change sockets only. *)
Definition same_but_sockets (s s' : Server) : Prop :=
  s' = set_sockets s (addrs s') (listeners s').

Lemma same_but_sockets_refl (s : Server) : same_but_sockets s s.
Proof. by destruct s. Qed.

Lemma same_but_sockets_inv (s s' : Server) :
  same_but_sockets s s' → ∃ a l, s' = set_sockets s a l.
Proof. by do 2 eexists. Qed.

Lemma loadAddresses_ok al ls m n (s s' : Server) n' :
  loadAddresses al ls m n s = Ok (s', n') →
  sockets s' ≡ₚ sockets s ++ wanted m al ls ∧ same_but_sockets s s' ∧
  n' = n + length (wanted m al ls).
Proof.
  revert n s. induction al as [|a al IH]; intros n s E; simpl in E.
  - simplify_eq. unfold wanted. simpl. rewrite (right_id_L [] (++)).
    split_and!; [done|apply same_but_sockets_refl|lia].
  - destruct (bool_decide (a = [])); [done|].
    unfold wanted. rewrite fmap_cons, concat_cons, length_app, length_fmap. fold (wanted m al ls).
    destruct (bool_decide (a = "systemd")) eqn:Ea.
    + apply IH in E as (Hp & Hs & Hn). split_and!.
      * rewrite Hp, (assoc_L (++)). apply Permutation_app_tail. unfold sockets, AddListeners.
        simpl. rewrite sockets_of_add. by rewrite (assoc_L (++)).
      * unfold same_but_sockets in *. rewrite Hs. by destruct s.
      * fold (wanted m al ls) in *. lia.
    + apply IH in E as (Hp & Hs & Hn). split_and!.
      * rewrite Hp, (assoc_L (++)). apply Permutation_app_tail. unfold sockets, AddAddr.
        simpl. rewrite sockets_of_add. rewrite <- !(assoc_L (++)). apply Permutation_app_head.
        apply Permutation_app_comm.
      * unfold same_but_sockets in *. rewrite Hs. by destruct s.
      * simpl. fold (wanted m al ls) in *. lia.
Qed.

(** ** Domains *)

(** The part of a server that loading the domains does not touch. *)
Definition rest (s : Server) :=
  (Hostname s, MaxDataSize s, HookPath s, HAProxyEnabled s, certificates s,
   addrs s, listeners s, Auth.Fallback (authr s),
   (Aliases.SuffixSep (aliasesR s), Aliases.DropChars (aliasesR s),
    Aliases.ResolveHook (aliasesR s))).

Lemma rest_inv (s s' : Server) : rest s = rest s' →
  Hostname s = Hostname s' ∧ MaxDataSize s = MaxDataSize s' ∧
  HAProxyEnabled s = HAProxyEnabled s' ∧ addrs s = addrs s' ∧ listeners s = listeners s' ∧
  Auth.Fallback (authr s) = Auth.Fallback (authr s') ∧
  Aliases.SuffixSep (aliasesR s) = Aliases.SuffixSep (aliasesR s') ∧
  Aliases.DropChars (aliasesR s) = Aliases.DropChars (aliasesR s') ∧
  Aliases.ResolveHook (aliasesR s) = Aliases.ResolveHook (aliasesR s').
Proof. unfold rest. intros. by simplify_eq. Qed.

Definition local (s : Server) (d : bytes) : Prop :=
  StringSet.Has (Some (localDomains s)) d = true.

(** The domains with their directories are those in [P]. *)
Record loaded (P : bytes → bytes → Prop) (s : Server) : Prop := {
  l_local : ∀ d, local s d ↔ ∃ dir, P d dir;
  l_alias : ∀ d, d ∈ Aliases.domains (aliasesR s) ↔ ∃ dir, P d dir;
  l_backend : ∀ d b, Auth.backends (authr s) !! d = Some b →
    ∃ dir db, P d dir ∧ b = inl (Auth.WrapNoErrorBackend db) ∧
      UserDB.fname db = dir ++ "/users";
  l_all : ∀ d dir, P d dir → is_Some (Auth.backends (authr s) !! d);
}.

Lemma local_AddDomain d (s : Server) x : local (AddDomain d s) x ↔ x = d ∨ local s x.
Proof.
  unfold local, AddDomain. cbn [localDomains set_domains].
  rewrite StringSet.Has_Add, orb_true_iff, bool_decide_eq_true, list_elem_of_singleton. tauto.
Qed.

Lemma alias_AddDomain d (s : Server) x :
  x ∈ Aliases.domains (aliasesR (AddDomain d s)) ↔ x = d ∨ x ∈ Aliases.domains (aliasesR s).
Proof. simpl. set_solver. Qed.

(** [AddUserDB] registers a database of the file. *)
Lemma AddUserDB_spec disk partial domain f (s s' : Server) r :
  AddUserDB disk partial domain f s = (s', r) →
  rest s' = rest s ∧ localDomains s' = localDomains s ∧ aliasesR s' = aliasesR s ∧
  ∃ db, UserDB.fname db = f ∧
    Auth.backends (authr s') =
      <[domain := inl (Auth.WrapNoErrorBackend db)]> (Auth.backends (authr s)).
Proof.
  unfold AddUserDB. destruct (UserDB.Load disk partial f) as [db err] eqn:E.
  intros. simplify_eq. split_and!; try done. exists db. split; [|done].
  unfold UserDB.Load in E. destruct (ReadTextMessage _ _ _) as [m|[]]; by simplify_eq.
Qed.

Lemma AddAliasesFile_spec domain f (s s' : Server) r :
  AddAliasesFile domain f s = (s', r) →
  rest s' = rest s ∧ localDomains s' = localDomains s ∧ authr s' = authr s ∧
  Aliases.domains (aliasesR s') = {[domain]} ∪ Aliases.domains (aliasesR s).
Proof.
  unfold AddAliasesFile, Aliases.AddAliasesFile. simpl.
  destruct (Aliases.parseFile _ _ _) as [al|[]]; intros; by simplify_eq.
Qed.

Lemma add_signers_spec sys domain pems (s s' : Server) :
  add_signers sys domain pems s = Ok s' → ∃ m, s' = set_signers s m.
Proof.
  revert s. induction pems as [|pem pems IH]; intros s E; simpl in E.
  - simplify_eq. exists (dkimSigners s'). by destruct s'.
  - destruct (AddDKIMSigner _ _ _ _ _) as [s1|] eqn:E1; simpl in E; [|done].
    apply IH in E as [m ->]. exists m. unfold AddDKIMSigner in E1.
    repeat case_match; simplify_eq. by destruct s.
Qed.

Lemma loadDomain_ok P sys name dir (s s' : Server) :
  loaded P s → loadDomain sys name dir s = Ok s' →
  loaded (λ d x, d = name ∧ x = dir ∨ P d x) s' ∧ rest s' = rest s.
Proof.
  intros [Hl Ha Hb Hall] E. unfold loadDomain in E.
  destruct (AddUserDB _ _ _ _ _) as [s1 [n err]] eqn:E1.
  apply AddUserDB_spec in E1 as (R1 & L1 & A1 & db & Hdb & B1).
  destruct err; [done|]. destruct (AddAliasesFile _ _ _) as [s2 [n2|]] eqn:E2; [|done].
  apply AddAliasesFile_spec in E2 as (R2 & L2 & B2 & A2).
  unfold loadDKIM in E. destruct (sy_glob _ _) as [pems|]; [|done].
  destruct (add_signers _ _ _ _) as [s3|] eqn:E3; [|done]. injection E as <-.
  apply add_signers_spec in E3 as [m ->]. split.
  2: { transitivity (rest s2); [reflexivity|]. by rewrite R2, R1. }
  split.
  - intros d. transitivity (local (AddDomain name s) d).
    { unfold local. simpl. rewrite L2, L1. done. }
    rewrite local_AddDomain, Hl. split.
    + intros [->|[x Hx]]; eauto.
    + intros [x [[-> _]|Hx]]; eauto.
  - intros d. simpl. rewrite A2, A1. rewrite elem_of_union, elem_of_singleton.
    rewrite alias_AddDomain, Ha. split.
    + intros [->|[->|[x Hx]]]; eauto.
    + intros [x [[-> _]|Hx]]; eauto.
  - intros d b. simpl. rewrite B2, B1.
    intros [[<- <-]|[_ Hd]]%lookup_insert_Some; [by eauto 7|].
    destruct (Hb d b Hd) as (x & db' & ? & ? & ?). eauto 7.
  - intros d x Hd. simpl. rewrite B2, B1.
    destruct (decide (d = name)) as [->|Hne]; [rewrite lookup_insert_eq; eauto|].
    rewrite lookup_insert_ne by done. destruct Hd as [[-> _]|Hd]; [done|]. by eapply Hall.
Qed.

Lemma loaded_iff (P Q : bytes → bytes → Prop) (s : Server) : (∀ d dir, P d dir ↔ Q d dir) → loaded P s → loaded Q s.
Proof.
  intros HPQ [Hl Ha Hb Hall]. split.
  - intros d. rewrite Hl. by setoid_rewrite HPQ.
  - intros d. rewrite Ha. by setoid_rewrite HPQ.
  - intros d b Hd. destruct (Hb d b Hd) as (dir & db & Hp & ?). exists dir, db.
    by rewrite <- HPQ.
  - intros d dir Hd. apply (Hall d dir). by rewrite HPQ.
Qed.

(** The domain that an entry of domains/ stands for, and its directory. *)
Definition entry_is (entries : list (bytes * bool)) (d dir : bytes) : Prop :=
  ∃ name, (name, false) ∈ entries ∧ Normalize.Domain name = (d, None) ∧
    dir = Path.Join2 "domains" name.

Lemma load_domains_ok P sys entries (s s' : Server) :
  loaded P s → load_domains sys entries s = Ok s' →
  loaded (λ d dir, entry_is entries d dir ∨ P d dir) s' ∧ rest s' = rest s.
Proof.
  revert P s. induction entries as [|[name regular] entries IH]; intros P s HP E; simpl in E.
  - simplify_eq. split; [|done]. eapply loaded_iff; [|exact HP].
    intros d dir. split; [by right|]. intros [(name & []%elem_of_nil & _)|]; done.
  - destruct (Normalize.Domain name) as [domain [err|]] eqn:En; [done|].
    destruct regular.
    + destruct (IH P s HP E) as [HP' Hr]. split; [|done]. eapply loaded_iff; [|exact HP'].
      intros d dir. unfold entry_is. split; (intros [(n & Hin & ?)|?]; [|by right]); left;
        exists n; (split; [|done]).
      * by right.
      * apply elem_of_cons in Hin as [?|?]; [done|done].
    + destruct (loadDomain _ _ _ _) as [s1|] eqn:E1; [|done]. simpl in E.
      destruct (loadDomain_ok P _ _ _ _ _ HP E1) as [HP1 Hr1].
      destruct (IH _ _ HP1 E) as [HP' Hr]. split; [|congruence].
      eapply loaded_iff; [|exact HP']. intros d dir. unfold entry_is. split.
      * intros [(n & Hin & ?)|[[-> ->]|?]]; [| |by right]; left.
        -- exists n. split; [by right|done].
        -- exists name. split; [by left|done].
      * intros [(n & Hin & Hn & ->)|?]; [|by auto].
        apply elem_of_cons in Hin as [Hin|Hin]; [|left; by exists n].
        injection Hin as ->. right; left. split; [congruence|done].
Qed.

(** ** Certificates *)

Lemma load_certs_ok sys entries (s s' : Server) :
  load_certs sys entries s = Ok s' → ∃ cs, s' = set_certificates s (certificates s ++ cs).
Proof.
  revert s. induction entries as [|[name regular] entries IH]; intros s E; simpl in E.
  - simplify_eq. exists []. rewrite (right_id_L [] (++)). by destruct s'.
  - destruct regular; [by apply IH|].
    destruct (loadCert _ _ _) as [s1|] eqn:E1; [|done]. simpl in E.
    apply IH in E as [cs ->]. unfold loadCert in E1.
    destruct (_ || _) in E1; [injection E1 as <-; by exists cs|].
    unfold AddCerts in E1. destruct (sy_keypair _ _ _) as [c|]; [|done].
    injection E1 as <-. exists (c :: cs). simpl. by rewrite <- (assoc_L (++)).
Qed.

(** ** Listening *)

Lemma listen_all_ok listen l served : listen_all listen l = Ok served → served = l.
Proof.
  revert served. induction l as [|[m a] l IH]; intros served E; simpl in E; [by simplify_eq|].
  destruct (listen a); [done|]. destruct (listen_all listen l) as [rest|]; [|done].
  simpl in E. simplify_eq. by rewrite (IH rest).
Qed.

(** Go goes through a map in any order. *)
Definition iterates (order : gmap Smtpsrv.SocketMode (list bytes) →
    list (Smtpsrv.SocketMode * list bytes)) : Prop :=
  ∀ M, order M ≡ₚ map_to_list M.

Lemma ListenAndServe_ok listen order lorder (s : Server) served :
  iterates order → iterates lorder →
  ListenAndServe listen (order (addrs s)) (lorder (listeners s)) s = Ok served →
  certificates s ≠ [] ∧ served ≡ₚ sockets s.
Proof.
  intros Ho Hl E. unfold ListenAndServe in E.
  destruct (bool_decide (certificates s = [])) eqn:Ec; [done|].
  apply bool_decide_eq_false in Ec. split; [done|].
  destruct (listen_all _ _) as [l|] eqn:El; [|done]. simpl in E.
  apply listen_all_ok in El as ->. simplify_eq. unfold sockets, sockets_of.
  by rewrite (all_of_perm _ _ (Ho (addrs s))), (all_of_perm _ _ (Hl (listeners s))).
Qed.

(** ** The steps of main *)

Lemma configure_ok sys conf :
  Config.valid conf → ∃ suffix drop s,
    Config.SuffixSeparators conf = Some suffix ∧ Config.DropCharacters conf = Some drop ∧
    configure sys conf = Some s ∧
    Hostname s = Config.Hostname conf ∧ HAProxyEnabled s = Config.HaproxyIncoming conf ∧
    MaxDataSize s = wrap64 (wrap64 (Config.MaxDataSizeMb conf * 1024) * 1024) ∧
    HookPath s = "hooks/" ∧ sockets s = [] ∧ certificates s = [] ∧
    Aliases.SuffixSep (aliasesR s) = suffix ∧ Aliases.DropChars (aliasesR s) = drop ∧
    Aliases.ResolveHook (aliasesR s) = "hooks/alias-resolve" ∧
    loaded (λ _ _, False) s ∧
    (∀ b, Auth.Fallback (authr s) = Some b → ∃ sv, b = inr sv) ∧
    (is_Some (Auth.Fallback (authr s)) ↔ Config.DovecotAuth conf = true).
Proof.
  intros [_ _ _ _ _ _ Hs Hd _ _ _]. unfold configure.
  destruct (Config.SuffixSeparators conf) as [suffix|]; [|done].
  destruct (Config.DropCharacters conf) as [drop|]; [|done].
  eexists suffix, drop, _. do 2 (split; [done|]). split; [done|].
  assert (Hl : loaded (λ _ _ : bytes, False) (SetAliasesConfig suffix drop
    (set_main NewServer (Config.Hostname conf)
       (wrap64 (wrap64 (Config.MaxDataSizeMb conf * 1024) * 1024)) "hooks/"
       (Config.HaproxyIncoming conf)))).
  { split; simpl; intros; try done; [unfold local; simpl; split; [done|by intros []]|].
    split; [set_solver|by intros []]. }
  destruct (Config.DovecotAuth conf).
  - unfold loadDovecot. destruct (Dovecot.Check _ _ _) as [[a n] ?].
    split_and!; try done; [destruct Hl; by split|intros b [= <-]; eauto].
  - split_and!; try done. split; [by intros []|done].
Qed.

Lemma load_all_ok sys P (s s' : Server) :
  loaded P s → load_all sys s = Ok s' →
  ∃ entries cs, sy_dir sys "domains/" = Ok entries ∧
    rest s' = rest (set_certificates s cs) ∧
    (∀ d, local s' d ↔ d = "localhost" ∨ ∃ dir, entry_is entries d dir ∨ P d dir) ∧
    (∀ d, d ∈ Aliases.domains (aliasesR s') ↔
       d = "localhost" ∨ ∃ dir, entry_is entries d dir ∨ P d dir) ∧
    (∀ d b, Auth.backends (authr s') !! d = Some b →
       ∃ dir db, (entry_is entries d dir ∨ P d dir) ∧
         b = inl (Auth.WrapNoErrorBackend db) ∧ UserDB.fname db = dir ++ "/users") ∧
    (∀ d dir, entry_is entries d dir → is_Some (Auth.backends (authr s') !! d)).
Proof.
  intros HP E. unfold load_all in E.
  destruct (mustReadDir sys "certs/") as [certs|]; [|done]. simpl in E.
  destruct (load_certs _ _ _) as [s1|] eqn:E1; [|done]. simpl in E.
  apply load_certs_ok in E1 as [cs ->].
  destruct (mustReadDir sys "domains/") as [entries|] eqn:Ed; [|done]. simpl in E.
  destruct (load_domains _ _ _) as [s2|] eqn:E2; [|done]. simpl in E. injection E as <-.
  assert (Hd : sy_dir sys "domains/" = Ok entries).
  { unfold mustReadDir in Ed. destruct (sy_dir sys "domains/") as [[|e es]|]; by simplify_eq. }
  apply (load_domains_ok P) in E2 as [[Hl Ha Hb Hall] Hr]; [|by destruct HP].
  exists entries, (certificates s ++ cs). split_and!; [done|exact Hr|..].
  - intros d. by rewrite local_AddDomain, Hl.
  - intros d. by rewrite alias_AddDomain, Ha.
  - intros d b Hdb. by apply (Hb d b).
  - intros d dir Hdd. apply (Hall d dir). by left.
Qed.

Lemma open_state_ok sys conf (s s' : Server) cache loops :
  open_state sys conf s = Ok (s', cache, loops) →
  ∃ db q, s' = set_queue (set_dinfo s db) q ∧
    (0 < Config.MaxQueueItems conf → Queue.MaxItems q = Z.of_N (Config.MaxQueueItems conf))%N ∧
    Queue.GiveUpAfter q =
      (let d := Config.GiveUpSendAfterDuration conf in
       if (0 <? d)%Z then d else Queue.hours 20).
Proof.
  unfold open_state. destruct (DomainInfo.New _ _ _ _ _) as [db|]; [|done].
  destruct (Sts.NewCache _ _) as [c [|]]; [done|].
  unfold InitQueue, Queue.New, Queue.Load. destruct (sy_mkdir _ _); [done|].
  destruct (Queue.load_files _ _ _ _ _) as [m started]. simpl. intros [= <- <- <-].
  eexists db, _. split; [done|]. simpl. split; [|done].
  intros Hn. destruct (Z.ltb_spec 0 (Z.of_N (Config.MaxQueueItems conf))); [done|lia].
Qed.

Lemma load_addresses_ok sys conf (s s' : Server) :
  load_addresses sys conf s = Ok s' →
  ∃ ls, sy_systemd sys = Ok ls ∧ same_but_sockets s s' ∧
    let named k := default [] (ls !! (k : bytes)) in
    let asked :=
      wanted Smtpsrv.ModeSMTP (Config.SmtpAddress conf) (named "smtp") ++
      wanted Smtpsrv.ModeSubmission (Config.SubmissionAddress conf) (named "submission") ++
      wanted Smtpsrv.ModeSubmissionTLS (Config.SubmissionOverTlsAddress conf)
        (named "submission_tls") in
    asked ≠ [] ∧ sockets s' ≡ₚ sockets s ++ asked.
Proof.
  unfold load_addresses. destruct (sy_systemd sys) as [ls|]; [|done]. intros E.
  destruct (loadAddresses _ _ _ 0 s) as [[s1 n1]|] eqn:E1; [|done]. simpl in E.
  destruct (loadAddresses _ _ _ 0 s1) as [[s2 n2]|] eqn:E2; [|done]. simpl in E.
  destruct (loadAddresses _ _ _ 0 s2) as [[s3 n3]|] eqn:E3; [|done]. simpl in E.
  apply loadAddresses_ok in E1 as (P1 & S1 & N1), E2 as (P2 & S2 & N2), E3 as (P3 & S3 & N3).
  destruct (bool_decide (n1 + n2 + n3 = 0)) eqn:En; [done|].
  apply bool_decide_eq_false in En. injection E as <-. exists ls. split; [done|]. split.
  { unfold same_but_sockets in *. rewrite S3, S2, S1. done. }
  simpl. split.
  - intros Hnil%(f_equal length). rewrite !length_app in Hnil. simpl in Hnil. lia.
  - by rewrite P3, P2, P1, <- !(assoc_L (++)).
Qed.

(** ** What starts *)

(** The server that the configuration, the directories [entries] of domains/ and
    the listeners of systemd describe. *)
Record set_up (conf : Config.Config) (entries : list (bytes * bool))
    (ls : gmap bytes (list bytes)) (r : running (PrivateKey := PrivateKey)) : Prop := {
  su_name : Hostname (r_server r) = Config.Hostname conf;
  su_haproxy : HAProxyEnabled (r_server r) = Config.HaproxyIncoming conf;
  su_size : (Config.MaxDataSizeMb conf < 2 ^ 43)%Z →
    MaxDataSize (r_server r) = (Config.MaxDataSizeMb conf * 1024 * 1024)%Z;
  su_certs : certificates (r_server r) ≠ [];
  su_local d : local (r_server r) d ↔ d = "localhost" ∨ ∃ dir, entry_is entries d dir;
  su_alias d : d ∈ Aliases.domains (resolver (r_server r)) ↔
    d = "localhost" ∨ ∃ dir, entry_is entries d dir;
  su_aliases : Some (Aliases.SuffixSep (resolver (r_server r))) = Config.SuffixSeparators conf ∧
    Some (Aliases.DropChars (resolver (r_server r))) = Config.DropCharacters conf ∧
    Aliases.ResolveHook (resolver (r_server r)) = "hooks/alias-resolve";
  su_users d b : Auth.backends (authr (r_server r)) !! d = Some b →
    ∃ dir db, entry_is entries d dir ∧ b = inl (Auth.WrapNoErrorBackend db) ∧
      UserDB.fname db = dir ++ "/users";
  su_users_all d dir :
    entry_is entries d dir → is_Some (Auth.backends (authr (r_server r)) !! d);
  su_authr : DovecotProps.configured (authr (r_server r));
  su_fallback :
    is_Some (Auth.Fallback (authr (r_server r))) ↔ Config.DovecotAuth conf = true;
  su_queue : ∃ q, the_queue (r_server r) = Some q ∧
    Queue.MaxItems q = Z.of_N (Config.MaxQueueItems conf) ∧
    Queue.GiveUpAfter q =
      (let d := Config.GiveUpSendAfterDuration conf in
       if (0 <? d)%Z then d else Queue.hours 20);
  su_sockets :
    let named k := default [] (ls !! (k : bytes)) in
    r_sockets r ≠ [] ∧
    r_sockets r ≡ₚ
      wanted Smtpsrv.ModeSMTP (Config.SmtpAddress conf) (named "smtp") ++
      wanted Smtpsrv.ModeSubmission (Config.SubmissionAddress conf) (named "submission") ++
      wanted Smtpsrv.ModeSubmissionTLS (Config.SubmissionOverTlsAddress conf)
        (named "submission_tls");
}.

Lemma size_exact x : (0 < x < 2 ^ 43)%Z → wrap64 (wrap64 (x * 1024) * 1024) = (x * 1024 * 1024)%Z.
Proof. intros. rewrite (wrap64_id (x * 1024)), wrap64_id; lia. Qed.

(** What [main] leaves when it gets as far as serving. *)
Lemma main_ok sys configDir overrides order lorder
    (r : running (PrivateKey := PrivateKey)) :
  iterates order → iterates lorder →
  main sys configDir overrides order lorder = Ok r →
  ∃ conf entries ls,
    Config.Load (Auth.disk_fault (sy_disk sys)) (Auth.disk_files (sy_disk sys))
      (sy_hostname sys) (configDir ++ "/chasquid.conf") overrides = Ok conf ∧
    sy_dir sys "domains/" = Ok entries ∧ sy_systemd sys = Ok ls ∧
    set_up conf entries ls r.
Proof.
  intros Ho Hlo E. unfold main in E.
  destruct (Config.Load _ _ _ _ _) as [conf|] eqn:Ec; [|done].
  destruct (sy_chdir _ _); [done|]. destruct (initMailLog _ _) as [log|]; [|done]. simpl in E.
  pose proof (Config.Load_ok _ _ _ _ _ _ Ec) as Hv.
  destruct (configure_ok sys conf Hv) as (suffix & drop & s0 & Hsuf & Hdrop & Ecf & Hh & Hha
    & Hm & Hhp & Hs & Hcs & Hsx & Hdr & Hhook & Hl & Hf1 & Hf2).
  rewrite Ecf in E.
  destruct (load_all _ _) as [s1|] eqn:E1; [|done]. simpl in E.
  apply (load_all_ok _ _ _ _ Hl) in E1
    as (entries & cs & Hent & Hrest & Hlocal & Halias & Hback & Hall).
  destruct (open_state _ _ _) as [[[s2 cache] loops]|] eqn:E2; [|done]. simpl in E.
  apply open_state_ok in E2 as (db & q & -> & Hmax & Hgive).
  destruct (load_addresses _ _ _) as [s3|] eqn:E3; [|done]. simpl in E.
  apply load_addresses_ok in E3 as (ls & Els & Hsame & Hne & Hsock).
  destruct (ListenAndServe _ _ _ _) as [served|] eqn:E4; [|done]. injection E as <-.
  apply (ListenAndServe_ok _ _ _ _ _ Ho Hlo) in E4 as [Hcert Hserved].
  destruct (same_but_sockets_inv _ _ Hsame) as (a & l & ->). clear Hsame.
  apply rest_inv in Hrest as (R1 & R2 & R4 & R6 & R7 & R8 & R9 & R10 & R11).
  simpl in R1, R2, R4, R6, R7, R8, R9, R10, R11.
  assert (Hsock1 : sockets s1 = sockets s0) by (unfold sockets; by rewrite R6, R7).
  exists conf, entries, ls. split_and!; [done..|]. destruct Hv.
  split; simpl.
  - congruence.
  - congruence.
  - intros. rewrite R2, Hm. apply size_exact. lia.
  - done.
  - intros d. etransitivity; [apply (Hlocal d)|]. naive_solver.
  - intros d. etransitivity; [apply (Halias d)|]. naive_solver.
  - rewrite R9, R10, R11, Hsx, Hdr, Hhook, Hsuf, Hdrop. done.
  - intros d b Hb. destruct (Hback d b Hb) as (dir & db' & [|[]] & ?). eauto.
  - done.
  - split; [|by rewrite R8].
    intros d b Hb. destruct (Hback d b Hb) as (dir & db' & _ & -> & _). eauto.
  - by rewrite R8.
  - eexists. split; [done|]. simpl. auto.
  - rewrite Hsock in Hserved.
    change (sockets (set_queue (set_dinfo s1 db) q)) with (sockets s1) in Hserved.
    rewrite Hsock1, Hs in Hserved. split; [|exact Hserved].
    intros ->. by apply Permutation_nil_l in Hserved.
Qed.

(** ** Reloading *)

Lemma Aliases_Reload_same v order v' err :
  Aliases.Reload v order = (v', err) →
  Aliases.domains v' = Aliases.domains v ∧ Aliases.SuffixSep v' = Aliases.SuffixSep v ∧
  Aliases.DropChars v' = Aliases.DropChars v ∧ Aliases.ResolveHook v' = Aliases.ResolveHook v.
Proof.
  unfold Aliases.Reload. destruct (Aliases.reload_files _ _ _); intros; by simplify_eq.
Qed.

#[local] Existing Instances Auth.wrap_backend UserDB.userdb_backend.
#[local] Existing Instances Dovecot.dovecot_backend DovecotProps.sum_backend.

Lemma UserDB_Reload_fname d partial db : UserDB.fname (UserDB.Reload d partial db).1 = UserDB.fname db.
Proof. unfold UserDB.Reload. by destruct (UserDB.Load _ _ _) as [? [|]]. Qed.

(** A reload keeps the backends of the domains, each with its file, and the
    fallback. *)
Lemma Auth_Reload_same d (a a' : Auth.Authenticator backend) es :
  Auth.Reload d a = (a', es) →
  (∀ dom db', Auth.backends a' !! dom = Some (inl (Auth.WrapNoErrorBackend db')) ↔
     ∃ db, Auth.backends a !! dom = Some (inl (Auth.WrapNoErrorBackend db)) ∧
       db' = (UserDB.Reload d ∅ db).1) ∧
  (∀ dom sv', Auth.backends a' !! dom = Some (inr sv') →
     ∃ sv, Auth.backends a !! dom = Some (inr sv)) ∧
  (∀ b', Auth.Fallback a' = Some b' → ∃ b, Auth.Fallback a = Some b ∧
     b' = (Auth.reload_one d b).1) ∧
  (is_Some (Auth.Fallback a') ↔ is_Some (Auth.Fallback a)).
Proof.
  unfold Auth.Reload. intros [= <- _]. simpl. split_and!.
  - intros dom db'. rewrite !lookup_fmap.
    destruct (Auth.backends a !! dom) as [[[db]|sv]|]; simpl; [| |naive_solver].
    + unfold Auth.reload_one. simpl. destruct (UserDB.Reload d ∅ db) as [db1 e1] eqn:E1. simpl.
      split; [intros [= <-]; exists db; by rewrite E1|].
      intros (db2 & [= <-] & ->). by rewrite E1.
    + unfold Auth.reload_one. simpl. naive_solver.
  - intros dom sv'. rewrite !lookup_fmap.
    destruct (Auth.backends a !! dom) as [[[db]|sv]|]; simpl; [| |done]; [|eauto].
    unfold Auth.reload_one. simpl. by destruct (UserDB.Reload _ _ _).
  - intros b'. destruct (Auth.Fallback a); simpl; [|done]. intros [= <-]. eauto.
  - destruct (Auth.Fallback a); simpl; split; intros []; eauto; done.
Qed.

(** Changes that leave the set-up as it is: those of the contents of the
    databases. *)
Lemma set_up_dinfo conf entries ls (r : running (PrivateKey := PrivateKey)) db :
  set_up conf entries ls r →
  set_up conf entries ls (mkRunning (set_dinfo (r_server r) db) (r_maillog r) (r_local r)
                            (r_remote r) (r_loops r) (r_sockets r)).
Proof. by intros []. Qed.

Lemma set_up_reloaded conf entries ls (r r' : running (PrivateKey := PrivateKey)) d order s' :
  set_up conf entries ls r →
  Reload d order (r_server r) = Ok s' →
  r' = mkRunning s' (r_maillog r) (r_local r) (r_remote r) (r_loops r) (r_sockets r) →
  set_up conf entries ls r'.
Proof.
  intros [Hn Hh Hm Hc Hl Ha [Hs [Hd Hk]] Hu Hua [Hcd Hcf] Hf Hq Hso] E ->. unfold Reload in E.
  destruct (Aliases.Reload _ _) as [v [e|]] eqn:Ev; [done|].
  destruct (Auth.Reload _ _) as [a [|]] eqn:Ea; [|done]. injection E as <-.
  apply Aliases_Reload_same in Ev as (V1 & V2 & V3 & V4).
  apply Auth_Reload_same in Ea as (A1 & A2 & A3 & A4). simpl in *.
  assert (Hb : ∀ dom b, Auth.backends a !! dom = Some b → ∃ dir db db0,
    entry_is entries dom dir ∧ b = inl (Auth.WrapNoErrorBackend db) ∧
    Auth.backends (authr (r_server r)) !! dom = Some (inl (Auth.WrapNoErrorBackend db0)) ∧
    UserDB.fname db = dir ++ "/users").
  { intros dom [[db1]|sv] Hb.
    - apply A1 in Hb as Hb'. destruct Hb' as (db0 & Hb0 & ->).
      destruct (Hu _ _ Hb0) as (dir & db' & He & Hdb & Hfn).
      injection Hdb as ->. exists dir, (UserDB.Reload d ∅ db').1, db'. split_and!; try done.
      by rewrite UserDB_Reload_fname.
    - apply A2 in Hb as [sv0 Hb]. destruct (Hu _ _ Hb) as (? & ? & _ & ? & _). done. }
  split; simpl; try done.
  - intros dom. rewrite V1. apply Ha.
  - by rewrite V2, V3, V4.
  - intros dom b Hdb. destruct (Hb dom b Hdb) as (dir & db1 & db0 & ? & ? & _ & ?). eauto.
  - intros dom dir He. destruct (Hua dom dir He) as [b Hb0].
    destruct (Hu _ _ Hb0) as (? & db0 & _ & -> & _).
    eexists. apply A1. by exists db0.
  - split.
    + intros dom b Hdb. destruct (Hb dom b Hdb) as (_ & db1 & _ & _ & -> & _). eauto.
    + intros b' Hb'. destruct (A3 b' Hb') as (b & Hfb & ->).
      destruct (Hcf b Hfb) as [sv ->]. unfold Auth.reload_one. simpl. eauto.
  - by rewrite A4.
  - destruct Hq as (q & Hq1 & Hq2 & Hq3). unfold the_queue in *. simpl.
    destruct (queue (r_server r)) as [q0|]; [|done]. simpl in *. injection Hq1 as <-.
    eexists. split; [done|]. done.
Qed.

(** The program after some signals, and after some rounds of [periodicallyReload],
    in which an error is fatal. *)
Inductive runs (r0 : running (PrivateKey := PrivateKey)) :
    running (PrivateKey := PrivateKey) → Prop :=
| runs_start : runs r0 r0
| runs_signal r r' e sig :
    runs r0 r → signalHandler e sig r = Continue r' → runs r0 r'
| runs_reload r disk order s :
    runs r0 r → Reload disk order (r_server r) = Ok s →
    runs r0 (mkRunning s (r_maillog r) (r_local r) (r_remote r) (r_loops r) (r_sockets r)).

Lemma runs_set_up conf entries ls r0 r :
  set_up conf entries ls r0 → runs r0 r → set_up conf entries ls r.
Proof.
  intros Hset. induction 1 as [|r r' e sig _ IH Hs|r d order s _ IH Er];
    [done| |by eapply set_up_reloaded].
  destruct sig; simpl in Hs; [|done|done|by simplify_eq].
  unfold on_SIGHUP in Hs. destruct (negb _); [done|]. destruct (negb _); [done|].
  destruct (dinfo _); [|done]. destruct (DomainInfo.Reload _ _ _ _) as [db [|]]; [done|].
  destruct (Reload _ _ _) as [s'|] eqn:Er; [|done]. injection Hs as <-.
  by eapply set_up_reloaded; [apply set_up_dinfo; exact IH|exact Er|].
Qed.

(** C13: what runs is what was configured.  If [main] gets as far as serving, then
    from there on, whatever signals come, however often the server reloads by
    itself and however the files change, as long as the program goes on: the local domains and the domains of the aliases are
    those of the directories of domains/, and localhost; each has its own file
    of users; Dovecot is the fallback just if it is configured; there is a
    certificate; the limits of the queue and of the size of messages are the
    configured ones; and the sockets, of which there is at least one, are just
    those asked for, each in the mode of its option. *)
Theorem main_sets_up sys configDir overrides order lorder
    (r0 r : running (PrivateKey := PrivateKey)) :
  iterates order → iterates lorder →
  main sys configDir overrides order lorder = Ok r0 → runs r0 r →
  ∃ conf entries ls,
    Config.Load (Auth.disk_fault (sy_disk sys)) (Auth.disk_files (sy_disk sys))
      (sy_hostname sys) (configDir ++ "/chasquid.conf") overrides = Ok conf ∧
    sy_dir sys "domains/" = Ok entries ∧ sy_systemd sys = Ok ls ∧
    set_up conf entries ls r.
Proof.
  intros Ho Hl Em Hr.
  destruct (main_ok _ _ _ _ _ _ Ho Hl Em) as (conf & entries & ls & H1' & H2' & H3' & Hs).
  exists conf, entries, ls. split_and!; try done. by eapply runs_set_up.
Qed.

End Main.

(** ** An example *)

Module Example.
Import AsciiOnly.
#[local] Existing Instances UserDB.Example.kdf Aliases.Example.world.

(** Nothing is stored as text but the configuration, in which the only option
    is the name of the host. *)
#[local] Instance no_text M : ProtoText M :=
  {| text_Marshal (_ : M) := Err "unsupported";
     text_Unmarshal (_ : bytes) := Err "unsupported" |}.
#[export] Instance host_text : ProtoText Config.Config :=
  {| text_Marshal (c : Config.Config) := Ok (Config.Hostname c);
     text_Unmarshal (b : bytes) := Ok (Config.set_Hostname Config.emptyConfig b) |}.

#[export] Instance net_mail : NetMail :=
  {| mail_ParseAddress s := Some s; mail_ReadMessage _ := Ok ∅ |}.

#[export] Instance toy : Dkim.Crypto unit unit :=
  {| Dkim.sha256 (b : bytes) := b;
     Dkim.ParsePKIXPublicKey (_ : bytes) := Some (Some tt);
     Dkim.ParsePKCS1PublicKey (_ : bytes) := None;
     Dkim.rsa_Size (_ : unit) := 384%Z;
     Dkim.rsa_VerifyPKCS1v15 (_ : unit) (h s : bytes) := h == s;
     Dkim.ed25519_Verify (_ _ _ : bytes) := false;
     Dkim.private_kind (_ : unit) := Some Dkim.keyTypeRSA;
     Dkim.private_Sign (_ : unit) (h : bytes) := Ok h |}.
#[export] Instance keys : KeyFiles unit :=
  {| pem_Decode (b : bytes) := Some ("PRIVATE KEY" : bytes, b);
     ParsePKCS8PrivateKey (_ : bytes) := Ok tt |}.

(** One domain with a DKIM key, one certificate, and a listener for SMTP from
    systemd. *)
Definition sys : system :=
  {| sy_disk := Auth.mkDisk {[ ("/etc/chasquid.conf" : bytes) := ("mx.dom" : bytes);
                               ("domains/dom/dkim:s1.pem" : bytes) := ("key" : bytes) ]}
                  (λ _, None);
     sy_hostname := Err "none"; sy_chdir _ := None; sy_maillog _ := None;
     sy_dir path := Ok [(("dom" : bytes), false)];
     sy_stat _ := true; sy_keypair c _ := Ok c;
     sy_glob _ := Ok ["domains/dom/dkim:s1.pem" : bytes];
     sy_partial _ := ∅; sy_mkdir _ := None; sy_list _ := None;
     sy_systemd := Ok {[ ("smtp" : bytes) := ["fd3" : bytes] ]};
     sy_listen _ := None; sy_dovecot _ _ := Err "none"; sy_pid := 1 |}.

Lemma main_sets_up_witness :
  ∃ r, main sys "/etc" [] map_to_list map_to_list = Ok r ∧
    r_sockets r ≠ [] ∧ local (r_server r) "localhost".
Proof.
  destruct (main sys "/etc" [] map_to_list map_to_list) as [r|] eqn:E.
  2: { exfalso. apply (f_equal is_ok) in E. vm_compute in E. discriminate. }
  exists r. split; [reflexivity|].
  assert (Hi : iterates map_to_list) by (intros M; reflexivity).
  destruct (main_sets_up _ _ _ _ _ r r Hi Hi E (runs_start r)) as (c & es & ls & _ & _ & _ & Hr).
  split; [apply (su_sockets _ _ _ _ Hr)|]. apply (su_local _ _ _ _ Hr). by left.
Defined.

End Example.
End MainProps.
