(* ===== verification/Util.v ===== *)
(** The command-line utility: cmd/chasquid-util.

    A command runs in a process that prints and changes files; [Fatalf] ends it.
    The monad [M] has both; what the system answers is in the record [world]. *)

From S2P Require Import Prelude GoStrings GoSlices GoTime Envelope DotReader Aliases Store.
From S2P Require Import DomainInfo Auth Queue SmtpClient Courier Dkim.
From S2P Require Import Dovecot LocalRpc Server Config.
#[local] Open Scope go_scope.

Module Util.
Import Safeio Protoio Server.

(** What is used of crypto/x509, and encoding/pem besides what the server uses. *)
Class KeyTools (RSAPublicKey PrivateKey : Type) := {
  MarshalPKCS8PrivateKey : PrivateKey → res bytes bytes;
  MarshalPKIXPublicKey : RSAPublicKey → res bytes bytes;
  (** [Public], of each kind of key. *)
  rsa_Public : PrivateKey → RSAPublicKey;
  ed25519_Public : PrivateKey → bytes;
  (** The key is a [crypto.Signer]. *)
  can_sign : PrivateKey → bool;
  pem_Encode : bytes → bytes → bytes;
}.

Inductive fatal :=
| FatalUsage (cmd : bytes)
| FatalDomainMissing
| FatalCreateDir (e : bytes)
| FatalLoadDB (e : read_error)
| FatalNormalizeUser
| FatalNoFile (path : bytes)
| FatalBothOptions
| FatalAddUser (e : UserDB.error)
| FatalWriteDB (e : bytes)
| FatalAuth
| FatalPassword (e : bytes)
| FatalPasswordsDiffer
| FatalUnknownUser
| FatalLoadConfig (e : Config.error)
| FatalResolve (e : LocalRpc.call_error)
| FatalDomainInfo (e : LocalRpc.call_error)
| FatalStdin (e : bytes)
| FatalSign (e : Dkim.error)
| FatalVerify (e : Dkim.error)
| FatalNoDomain
| FatalMarshalPublic (e : bytes)
| FatalKeyExists (path : bytes)
| FatalAlgorithm (algo : bytes)
| FatalGenerate (e : bytes)
| FatalMarshalPrivate (e : bytes)
| FatalCreateKey (path e : bytes)
| FatalPEM (e : bytes)
| FatalParseMessage (e : bytes)
| FatalParseFrom
| FatalGlob (e : bytes)
| FatalNoKeys (glob : bytes)
| FatalReadKey (path : bytes) (e : read_error)
| FatalDecodePEM
| FatalParseKey (e : bytes)
| FatalKeyType (t : bytes)
(** A Go panic. *)
| Panic.

(** ** Processes *)

Record proc := mkProc {
  stdout : bytes;
  files : FS;
}.

Definition M (A : Type) : Type := proc → proc * res fatal A.

#[export] Instance M_ret : MRet M := λ A a p, (p, Ok a).
#[export] Instance M_bind : MBind M := λ A B f m p,
  match m p with
  | (p, Ok a) => f a p
  | (p, Err e) => (p, Err e)
  end.

Definition Fatalf {A} (e : fatal) : M A := λ p, (p, Err e).
Definition Print (s : bytes) : M () := λ p, (mkProc (stdout p ++ s) (files p), Ok ()).
Definition Println (s : bytes) : M () := Print (s ++ [LF]).
Definition get_files : M FS := λ p, (p, Ok (files p)).
Definition put_files (fs : FS) : M () := λ p, (mkProc (stdout p) fs, Ok ()).

(** The error of a call, if any, ends the program. *)
Definition must {A} (f : bytes → fatal) (r : res bytes A) : M A :=
  match r with Ok a => mret a | Err e => Fatalf (f e) end.

(** ** Arguments *)

Abbreviation Args := (gmap bytes bytes).

Definition parse_arg (acc : Args * Z) (a : bytes) : Args * Z :=
  let '(args, pos) := acc in
  if HasPrefix a "-" then
    match SplitN2 a "=" with
    | [k; v] => (<[k := v]> args, pos)
    | _ => (<[a := []]> args, pos)
    end
  else (<["$" ++ Itoa pos := a]> args, (pos + 1)%Z).

(** [argv] is [os.Args[1:]]. *)
Definition parseArgs (argv : list bytes) : Args := (foldl parse_arg (∅, 1%Z) argv).1.

(** [args[k]], and [_, ok := args[k]] *)
Definition arg (args : Args) (k : bytes) : bytes := default [] (args !! k).
Definition has (args : Args) (k : bytes) : bool := bool_decide (is_Some (args !! k)).

Section Util.
Context {RSAPublicKey PrivateKey : Type} `{Dkim.Crypto RSAPublicKey PrivateKey}.
Context `{!KeyFiles PrivateKey, !KeyTools RSAPublicKey PrivateKey}.

(** What the system answers. *)
Record world := mkWorld {
  w_fault : bytes → option bytes;
  w_calls : syscalls;
  (** What the parser leaves of a user database that does not parse. *)
  w_partial : UserDB.ProtoDB;
  (** [os.Stat] says that the directory does not exist; [os.MkdirAll]. *)
  w_missing : bytes → bool;
  w_mkdir : bytes → option bytes;
  (** The two passwords that are read from the terminal. *)
  w_password : res bytes bytes;
  w_confirm : res bytes bytes;
  w_salt : res bytes bytes;
  w_hostname : res bytes bytes;
  w_dial : bytes → res bytes LocalRpc.link;
  w_stdin : res bytes bytes;
  w_now : Z;
  (** [time.Now().UTC().Format("20060102")] *)
  w_date : bytes;
  w_lookupTXT : bytes → res Dkim.error (list bytes);
  w_glob : bytes → res bytes (list bytes);
  (** [rsa.GenerateKey], by the number of bits, and [ed25519.GenerateKey]. *)
  w_rsa : Z → res bytes PrivateKey;
  w_ed25519 : res bytes PrivateKey;
  (** Opening a new file, and writing to it: how much of the text was written
      before the error. *)
  w_create : bytes → option bytes;
  w_pem : option (nat * bytes);
}.

Context `{Unicode, Precis, NetMail, ScryptKDF, ProtoText UserDB.ProtoDB}.
Context `{ProtoText Config.Config, Dkim.DkimWords}.
Variable w : world.

(** The globals of the program. *)
Variable args : Args.
Variable configDir : bytes.

(** ** Users *)

Definition userDBForDomain (domain : bytes) : bytes :=
  let domain := if domain == [] then arg args "$2" else domain in
  configDir ++ "/domains/" ++ domain ++ "/users".

(** [userdb.Load] *)
Definition load_db (path : bytes) : M UserDB.DB :=
  fs ← get_files;
  match UserDB.Load (Auth.mkDisk fs (w_fault w)) (w_partial w) path with
  | (_, Some e) => Fatalf (FatalLoadDB e)
  | (db, None) => mret db
  end.

Definition create_dir (dir : bytes) : M () :=
  if w_missing w dir then
    _ ← Println "Creating database";
    match w_mkdir w dir with
    | Some e => Fatalf (FatalCreateDir e)
    | None => mret ()
    end
  else mret ().

Definition userDBFromArgs (create : bool) : M (bytes * bytes * UserDB.DB) :=
  let '(user, domain) := Envelope.Split (arg args "$2") in
  if domain == [] then Fatalf FatalDomainMissing
  else
    _ ← (if create then create_dir (Path.Dir (userDBForDomain domain)) else mret ());
    db ← load_db (userDBForDomain domain);
    match Normalize.User user with
    | (_, Some _) => Fatalf FatalNormalizeUser
    | (user, None) => mret (user, domain, db)
    end.

Definition checkUserDB : M () :=
  let path := userDBForDomain [] in
  fs ← get_files;
  if fs !! path == None then Fatalf (FatalNoFile path)
  else
    udb ← load_db path;
    Print ("Database loaded (" ++ Itoa (Z.of_nat (UserDB.Len udb)) ++ " users)" ++ [LF]).

(** The prompts are printed before each read. *)
Definition getPassword : M bytes :=
  match args !! ("--password" : bytes) with
  | Some password => mret password
  | None =>
    _ ← Print "Password: ";
    _ ← Print [LF];
    p1 ← must FatalPassword (w_password w);
    _ ← Print "Confirm password: ";
    _ ← Print [LF];
    p2 ← must FatalPassword (w_confirm w);
    if p1 == p2 then mret p1 else Fatalf FatalPasswordsDiffer
  end.

(** [db.Write] *)
Definition write_db (db : UserDB.DB) : M () :=
  fs ← get_files;
  let '(fs, err) := UserDB.Write (w_calls w) fs db in
  _ ← put_files fs;
  match err with
  | Some e => Fatalf (FatalWriteDB e)
  | None => mret ()
  end.

Definition userAdd : M () :=
  '(user, _, db) ← userDBFromArgs true;
  let recvOnly := has args "--receive_only" in
  let hasPassword := has args "--password" in
  if recvOnly && hasPassword then Fatalf FatalBothOptions
  else
    r ← (if recvOnly then mret (UserDB.AddDeniedUser db user)
         else password ← getPassword; mret (UserDB.AddUser (w_salt w) db user password));
    let '(db, err) := r in
    match err with
    | Some e => Fatalf (FatalAddUser e)
    | None => _ ← write_db db; Println "Added user"
    end.

Definition authenticate : M () :=
  '(user, _, db) ← userDBFromArgs false;
  password ← getPassword;
  match UserDB.Authenticate db user password with
  | None => Fatalf Panic
  | Some true => Println "Authentication succeeded"
  | Some false => Fatalf FatalAuth
  end.

Definition userRemove : M () :=
  '(user, _, db) ← userDBFromArgs false;
  let '(db, present) := UserDB.RemoveUser db user in
  if negb present then Fatalf FatalUnknownUser
  else _ ← write_db db; Println "Removed user".

(** ** Commands that talk to the server *)

Definition load_config : M Config.Config :=
  fs ← get_files;
  match Config.Load (w_fault w) fs (w_hostname w) (configDir ++ "/chasquid.conf") [] with
  | Err e => Fatalf (FatalLoadConfig e)
  | Ok conf => mret conf
  end.

Definition call (conf : Config.Config) (name : bytes) (vs : list bytes)
    (f : LocalRpc.call_error → fatal) : M Url.Values :=
  match LocalRpc.Call (w_dial w) (Config.DataDir conf ++ "/localrpc-v1") name vs with
  | None => Fatalf Panic
  | Some (Err e) => Fatalf (f e)
  | Some (Ok v) => mret v
  end.

(** The lines that [aliasesResolve] prints. *)
Definition resolve_lines (vs : Url.Values) : bytes :=
  concat ((λ t, concat ((λ a, t ++ "  " ++ a ++ [LF]) <$> default [] (vs !! t)))
            <$> Url.sorted_keys vs).

Definition aliasesResolve : M () :=
  conf ← load_config;
  vs ← call conf "AliasResolve" ["Address" : bytes; arg args "$2"] FatalResolve;
  Print (resolve_lines vs).

(** [format] is [prototext.Format]. *)
Definition printConfig (format : Config.Config → bytes) : M () :=
  conf ← load_config;
  Println (format conf).

Definition domaininfoRemove : M () :=
  conf ← load_config;
  _ ← call conf "DomaininfoClear" ["Domain" : bytes; arg args "$2"] FatalDomainInfo;
  mret ().

(** ** DKIM: dkim.go *)

Definition keyPathFor (domain selector : bytes) : bytes :=
  Path.Clean (configDir ++ "/domains/" ++ domain ++ "/dkim:" ++ selector ++ ".pem").

Definition getDomainFromMsg (msg : bytes) : M bytes :=
  match mail_ReadMessage msg with
  | Err e => Fatalf (FatalParseMessage e)
  | Ok hdr =>
    match mail_ParseAddress (Url.Get hdr "From") with
    | None => Fatalf FatalParseFrom
    | Some addr => mret (Envelope.DomainOf addr)
    end
  end.

Definition findSelectorForDomain (domain : bytes) : M bytes :=
  let glob := Path.Clean (configDir ++ "/domains/" ++ domain ++ "/dkim:*.pem") in
  match w_glob w glob with
  | Err e => Fatalf (FatalGlob e)
  | Ok (m :: _) => mret (TrimSuffix (TrimPrefix (Path.Base m) "dkim:") ".pem")
  | Ok [] => Fatalf (FatalNoKeys glob)
  end.

(** The conversion to [crypto.Signer] panics for a key that cannot sign. *)
Definition loadPrivateKey (path : bytes) : M PrivateKey :=
  fs ← get_files;
  match ReadFile (w_fault w) fs path with
  | Err e => Fatalf (FatalReadKey path e)
  | Ok key =>
    match pem_Decode key with
    | None => Fatalf FatalDecodePEM
    | Some (t, block) =>
      if ToUpper t == "PRIVATE KEY" then
        k ← must FatalParseKey (ParsePKCS8PrivateKey block);
        if can_sign k then mret k else Fatalf Panic
      else Fatalf (FatalKeyType t)
    end
  end.

Definition dnsRecordFor (domain selector : bytes) (private : PrivateKey) : M bytes :=
  '(algoStr, pubBytes) ←
    match Dkim.private_kind private with
    | Some Dkim.keyTypeRSA =>
      b ← must FatalMarshalPublic (MarshalPKIXPublicKey (rsa_Public private)); mret ("rsa" : bytes, b)
    | Some Dkim.keyTypeEd25519 => mret ("ed25519" : bytes, ed25519_Public private)
    | None => mret ([], [])
    end;
  mret (selector ++ "._domainkey." ++ domain ++ [TAB] ++ "TXT" ++ [TAB] ++ [DQUOTE]
        ++ "v=DKIM1; k=" ++ algoStr ++ "; p=" ++ Base64.EncodeToString pubBytes ++ [DQUOTE]).

Definition dkimDNS : M () :=
  let domain := arg args "$2" in
  if domain == [] then Fatalf FatalNoDomain
  else
    selector ← (if arg args "$3" == [] then findSelectorForDomain domain
                else mret (arg args "$3"));
    let keyPath := if arg args "$4" == [] then keyPathFor domain selector
                   else arg args "$4" in
    private ← loadPrivateKey keyPath;
    record ← dnsRecordFor domain selector private;
    Println record.

Definition generate (algo : bytes) : M PrivateKey :=
  if (algo == []) || (algo == "rsa3072") then must FatalGenerate (w_rsa w 3072)
  else if algo == "rsa4096" then must FatalGenerate (w_rsa w 4096)
  else if algo == "ed25519" then must FatalGenerate (w_ed25519 w)
  else Fatalf (FatalAlgorithm algo).

(** The file is created, which fails if it exists, and then written to. *)
Definition write_key (path text : bytes) : M () :=
  fs ← get_files;
  if negb (fs !! path == None) then Fatalf (FatalCreateKey path "file exists")
  else
    match w_create w path with
    | Some e => Fatalf (FatalCreateKey path e)
    | None =>
      match w_pem w with
      | Some (n, e) => _ ← put_files (<[path := take n text]> fs); Fatalf (FatalPEM e)
      | None => put_files (<[path := text]> fs)
      end
    end.

Definition dkimKeygen : M () :=
  let domain := arg args "$2" in
  if domain == [] then Fatalf FatalNoDomain
  else
    let selector := if arg args "$3" == [] then w_date w else arg args "$3" in
    let keyPath := if arg args "$4" == [] then keyPathFor domain selector
                   else arg args "$4" in
    fs ← get_files;
    if negb (fs !! keyPath == None) then Fatalf (FatalKeyExists keyPath)
    else
      private ← generate (arg args "--algo");
      privB ← must FatalMarshalPrivate (MarshalPKCS8PrivateKey private);
      _ ← write_key keyPath (pem_Encode "PRIVATE KEY" privB);
      _ ← Print ("Key written to " ++ Quote keyPath ++ [LF; LF]);
      record ← dnsRecordFor domain selector private;
      Println record.

Definition dkimSign : M () :=
  msg ← must FatalStdin (w_stdin w);
  let msg := Normalize.ToCRLF msg in
  domain ← (if arg args "$2" == [] then getDomainFromMsg msg else mret (arg args "$2"));
  selector ← (if arg args "$3" == [] then findSelectorForDomain domain
              else mret (arg args "$3"));
  let keyPath := if arg args "$4" == [] then keyPathFor domain selector
                 else arg args "$4" in
  private ← loadPrivateKey keyPath;
  match Dkim.Sign (Dkim.mkSigner domain selector private) (w_now w) msg with
  | Err e => Fatalf (FatalSign e)
  | Ok header =>
    Print ("DKIM-Signature: " ++ ReplaceAll header CRLF (CRLF ++ [TAB]) ++ CRLF)
  end.

(** The option [--txt] takes the place of the DNS. *)
Definition dkimVerify : M () :=
  msg ← must FatalStdin (w_stdin w);
  let msg := Normalize.ToCRLF msg in
  let lookup := match args !! ("--txt" : bytes) with
                | Some txt => λ _, Ok [txt]
                | None => w_lookupTXT w
                end in
  match Dkim.VerifyMessage 5 lookup msg with
  | None => Fatalf Panic
  | Some (Err e) => Fatalf (FatalVerify e)
  | Some (Ok results) =>
    let hostname := match w_hostname w with Ok h => h | Err _ => [] end in
    Println ("Authentication-Results: " ++ hostname ++ CRLF ++ [TAB]
             ++ ReplaceAll (Dkim.AuthenticationResults results) CRLF (CRLF ++ [TAB]))
  end.

End Util.

(** ** The program *)

Section Program.
Context {RSAPublicKey PrivateKey : Type} `{Dkim.Crypto RSAPublicKey PrivateKey}.
Context `{!KeyFiles PrivateKey, !KeyTools RSAPublicKey PrivateKey}.
Context `{Unicode, Precis, NetMail, ScryptKDF, ProtoText UserDB.ProtoDB}.
Context `{ProtoText Config.Config, Dkim.DkimWords}.

(** Where the configuration is: the options, the last of the three first. *)
Definition config_dir (args : Args) : bytes :=
  match args !! ("--configdir" : bytes), args !! ("-C" : bytes),
        args !! ("--config_dir" : bytes) with
  | Some d, _, _ => d
  | None, Some d, _ => d
  | None, None, Some d => d
  | None, None, None => "/etc/chasquid"
  end.

Definition main (usage : bytes) (format : Config.Config → bytes)
    (w : world (PrivateKey := PrivateKey)) (argv : list bytes) : M () :=
  let args := parseArgs argv in
  if has args "--help" then Print usage
  else
    let dir := config_dir args in
    let cmd := arg args "$1" in
    if cmd == "user-add" then userAdd w args dir
    else if cmd == "user-remove" then userRemove w args dir
    else if cmd == "authenticate" then authenticate w args dir
    else if cmd == "check-userdb" then checkUserDB w args dir
    else if cmd == "aliases-resolve" then aliasesResolve w args dir
    else if cmd == "print-config" then printConfig w dir format
    else if cmd == "domaininfo-remove" then domaininfoRemove w args dir
    else if cmd == "dkim-keygen" then dkimKeygen w args dir
    else if cmd == "dkim-dns" then dkimDNS w args dir
    else if cmd == "dkim-verify" then dkimVerify w args
    else if cmd == "dkim-sign" then dkimSign w args dir
    else _ ← Print ("Unknown argument " ++ Quote cmd ++ [LF]); Fatalf (FatalUsage cmd).

End Program.

(** The example of the comment of [parseArgs]. *)
Example parseArgs_example :
  let args := parseArgs ["--abc=def" : bytes; "x"; "y"; "-p=q"; "-r"] in
  (λ k, args !! k) <$> ["--abc" : bytes; "$1"; "$2"; "-p"; "-r"; "$3"]
  = [Some "def"; Some "x"; Some "y"; Some "q"; Some []; None].
Proof. vm_compute. reflexivity. Qed.

End Util.
