(* ===== verification/UtilProps.v ===== *)
(** What is proved of Util.v: what the commands do to the server that runs. *)

From S2P Require Import Prelude GoStrings GoSlices GoTime Envelope DotReader Aliases Store.
From S2P Require Import DomainInfo Auth Haproxy Conn Queue SmtpClient Courier Dkim.
From S2P Require Import Dovecot DovecotProps LocalRpc LocalRpcProps Server Config Main MainProps Util.
#[local] Open Scope go_scope.

Module UtilProps.
Import Safeio Protoio Server Util.

(** ** The monad *)

Lemma bind_ok {A B} (m : M A) (f : A → M B) p p' b :
  (m ≫= f) p = (p', Ok b) → ∃ p1 a, m p = (p1, Ok a) ∧ f a p1 = (p', Ok b).
Proof.
  unfold mbind, M_bind. destruct (m p) as [p1 [a|e]] eqn:E; [|done].
  intros Hf. by exists p1, a.
Qed.

Lemma bind_run {A B} (m : M A) (f : A → M B) p p1 a :
  m p = (p1, Ok a) → (m ≫= f) p = f a p1.
Proof. unfold mbind, M_bind. by intros ->. Qed.

(** Take apart a command that succeeded. *)
Ltac step_ok H :=
  let p1 := fresh "p" in let a := fresh "a" in let E := fresh "E" in
  apply bind_ok in H as (p1 & a & E & H).

#[local] Instance RType_eq_dec : EqDecision Aliases.RType.
Proof. solve_decision. Defined.

Section Util.
Context {RSAPublicKey PrivateKey : Type} `{Dkim.Crypto RSAPublicKey PrivateKey}.
Context `{!KeyFiles PrivateKey, !KeyTools RSAPublicKey PrivateKey}.
Context `{Unicode, Precis, NetMail, ScryptKDF, ProtoText UserDB.ProtoDB}.
Context `{ProtoText Config.Config, Dkim.DkimWords}.

#[local] Abbreviation world := (world (PrivateKey := PrivateKey)).

(** ** Users *)

(** The user and the domain that a command is about. *)
Definition who (args : Args) : bytes * bytes :=
  let '(u, d) := Envelope.Split (arg args "$2") in ((Normalize.User u).1, d).

Lemma load_db_ok (w : world) path p p' db :
  load_db w path p = (p', Ok db) →
  p' = p ∧ UserDB.Load (Auth.mkDisk (files p) (w_fault w)) (w_partial w) path = (db, None).
Proof.
  unfold load_db. intros E. step_ok E. unfold get_files in E0. simplify_eq.
  destruct (UserDB.Load _ _ _) as [db' [e|]]; unfold Fatalf, mret, M_ret in E; by simplify_eq.
Qed.

Lemma create_dir_ok (w : world) dir p p' u :
  create_dir w dir p = (p', Ok u) → files p' = files p.
Proof.
  unfold create_dir. destruct (w_missing w dir); [|unfold mret, M_ret; intros; by simplify_eq].
  intros E. step_ok E. unfold Println, Print in E0. simplify_eq.
  destruct (w_mkdir w dir); unfold Fatalf, mret, M_ret in E; by simplify_eq.
Qed.

Lemma userDBFromArgs_ok (w : world) args dir create p p' user domain db :
  userDBFromArgs w args dir create p = (p', Ok (user, domain, db)) →
  files p' = files p ∧ domain ≠ [] ∧ who args = (user, domain) ∧
  (Normalize.User (Envelope.Split (arg args "$2")).1).2 = None ∧
  (Envelope.Split (arg args "$2")).2 = domain ∧
  UserDB.Load (Auth.mkDisk (files p) (w_fault w)) (w_partial w)
    (userDBForDomain args dir domain) = (db, None).
Proof.
  unfold userDBFromArgs, who. destruct (Envelope.Split _) as [u d]. cbn [fst snd].
  destruct (bool_decide (d = [])) eqn:Ed; [done|]. apply bool_decide_eq_false in Ed.
  intros E. step_ok E. step_ok E. apply load_db_ok in E1 as [-> El].
  assert (Hf : files p0 = files p).
  { destruct create; [by eapply create_dir_ok|]. unfold mret, M_ret in E0. by simplify_eq. }
  destruct (Normalize.User u) as [n [e|]]; unfold Fatalf, mret, M_ret in E; simplify_eq.
  rewrite Hf in El. by split_and!.
Qed.

(** With the same arguments, any later command finds the same user. *)
Lemma userDBFromArgs_run (w : world) args dir p domain db :
  domain ≠ [] → (Envelope.Split (arg args "$2")).2 = domain →
  (Normalize.User (Envelope.Split (arg args "$2")).1).2 = None →
  UserDB.Load (Auth.mkDisk (files p) (w_fault w)) (w_partial w)
    (userDBForDomain args dir domain) = (db, None) →
  userDBFromArgs w args dir false p = (p, Ok (who args, db)).
Proof.
  unfold userDBFromArgs, who. destruct (Envelope.Split _) as [u d]. simpl.
  intros Hne -> Hn El. rewrite bool_decide_eq_false_2 by done.
  rewrite (bind_run _ _ p p ()) by done.
  rewrite (bind_run _ _ p p db).
  - destruct (Normalize.User u) as [n [e|]]; simpl in Hn; [done|]. done.
  - unfold load_db. rewrite (bind_run _ _ p p (files p)) by done. by rewrite El.
Qed.

Lemma write_db_ok (w : world) db p p' u :
  write_db w db p = (p', Ok u) →
  stdout p' = stdout p ∧ UserDB.Write (w_calls w) (files p) db = (files p', None).
Proof.
  unfold write_db. intros E. step_ok E. unfold get_files in E0. simplify_eq.
  destruct (UserDB.Write _ _ _) as [fs err] eqn:Ew. step_ok E.
  unfold put_files in E0. simplify_eq.
  destruct err; unfold Fatalf, mret, M_ret in E; simplify_eq. done.
Qed.

Lemma getPassword_given (w : world) args pw p :
  args !! ("--password" : bytes) = Some pw → getPassword w args p = (p, Ok pw).
Proof. unfold getPassword. by intros ->. Qed.

(** What [userAdd] with a password leaves: the file is the old database with the
    user in it. *)
Lemma userAdd_ok (w : world) args dir p p' pw :
  args !! ("--password" : bytes) = Some pw →
  userAdd w args dir p = (p', Ok ()) →
  ∃ user domain db db',
    who args = (user, domain) ∧ domain ≠ [] ∧
    (Envelope.Split (arg args "$2")).2 = domain ∧
    (Normalize.User (Envelope.Split (arg args "$2")).1).2 = None ∧
    UserDB.Load (Auth.mkDisk (files p) (w_fault w)) (w_partial w)
      (userDBForDomain args dir domain) = (db, None) ∧
    UserDB.AddUser (w_salt w) db user pw = (db', None) ∧
    UserDB.Write (w_calls w) (files p) db' = (files p', None).
Proof.
  unfold userAdd. intros Hpw E. step_ok E. destruct a as [[user domain] db].
  apply userDBFromArgs_ok in E0 as (Hf & Hd & Hw & Hn & Hs & El).
  assert (has args "--password" = true) as Hhas by (unfold has; rewrite Hpw; done).
  rewrite Hhas, andb_true_r in E. destruct (has args "--receive_only"); [done|].
  step_ok E. step_ok E0. rewrite (getPassword_given _ _ _ _ Hpw) in E1. simplify_eq.
  unfold mret, M_ret in E0. simplify_eq.
  destruct (UserDB.AddUser _ _ _ _) as [db' [e|]] eqn:Ea; [done|].
  step_ok E. apply write_db_ok in E0 as [_ Ew]. rewrite Hf in Ew.
  unfold Println, Print in E. simplify_eq. eexists _, _, db, db'. split_and!; eauto.
Qed.

Lemma AddUser_fname salt db name pw db' e :
  UserDB.AddUser salt db name pw = (db', e) → UserDB.fname db' = UserDB.fname db.
Proof. unfold UserDB.AddUser. intros. repeat case_match; by simplify_eq. Qed.

Lemma Load_fname d partial f db e :
  UserDB.Load d partial f = (db, e) → UserDB.fname db = f.
Proof. unfold UserDB.Load. intros. repeat case_match; by simplify_eq. Qed.

(** Loading looks at one file only. *)
Lemma Load_other_name d d' partial f f' db :
  Auth.disk_files d !! f = Auth.disk_files d' !! f' →
  Auth.disk_fault d f = None → Auth.disk_fault d' f' = None →
  UserDB.Load d partial f = (db, None) →
  UserDB.Load d' partial f' = (UserDB.mkDB f' (UserDB.users db), None).
Proof.
  unfold UserDB.Load, ReadTextMessage, ReadFile. intros <- -> ->.
  destruct (Auth.disk_files d !! f) as [b|]; simpl; [|intros; by simplify_eq].
  destruct (text_Unmarshal b); simpl; intros; by simplify_eq.
Qed.

#[local] Existing Instances Auth.wrap_backend UserDB.userdb_backend.
#[local] Existing Instances Dovecot.dovecot_backend DovecotProps.sum_backend.

(** After a reload without errors, the backend of a domain has been reloaded. *)
Lemma Reload_backend d (a a' : Auth.Authenticator backend) dom db :
  Auth.Reload d a = (a', []) →
  Auth.backends a !! dom = Some (inl (Auth.WrapNoErrorBackend db)) →
  ∃ db', Auth.backends a' !! dom = Some (inl (Auth.WrapNoErrorBackend db')) ∧
    UserDB.Reload d ∅ db = (db', None).
Proof.
  unfold Auth.Reload. intros [= <- Hm] Hb. apply app_eq_nil in Hm as [Hm _]. simpl.
  rewrite !lookup_fmap, Hb. simpl. unfold Auth.reload_one. simpl.
  destruct (UserDB.Reload d ∅ db) as [db' [e|]] eqn:Er; [|by exists db'].
  exfalso.
  assert (Hin : (dom, Auth.reload_one d (inl (Auth.WrapNoErrorBackend db)))
    ∈ map_to_list (Auth.reload_one d <$> Auth.backends a)).
  { apply elem_of_map_to_list. by rewrite lookup_fmap, Hb. }
  apply not_elem_of_nil with (x := (Some dom, Auth.ErrRead e)). rewrite <- Hm.
  apply list_elem_of_omap. eexists. split; [exact Hin|].
  unfold Auth.reload_one. simpl. by rewrite Er.
Qed.

(** The disk as the server sees it from the configuration directory. *)
Definition seen_from (dir : bytes) (fs : FS) (d : Auth.disk) : Prop :=
  ∀ f, Auth.disk_files d !! f = fs !! (dir ++ "/" ++ f).

Lemma Load_written `{!ProtoTextOk UserDB.ProtoDB} sc fs db fs' d partial f :
  temp_ok sc fs (UserDB.fname db) → UserDB.Write sc fs db = (fs', None) →
  Auth.disk_files d !! f = fs' !! UserDB.fname db → Auth.disk_fault d f = None →
  UserDB.Load d partial f = (UserDB.mkDB f (UserDB.users db), None).
Proof.
  intros Ht Ew Hf Hd.
  destruct (UserDB.Write_Load sc fs db fs' (λ _, None) partial Ht Ew) as [El _]; [done|].
  by eapply Load_other_name; [..|exact El].
Qed.

Context {s_alias : AliasWorld}.
#[local] Abbreviation Server := (@Server.Server PrivateKey).

(** C37: a user that the utility added with a password can log in with it: the
    utility itself says so at once, and so does the server, once it has reloaded,
    if it has the domain's file; and nothing changes for the other users. *)
Theorem user_add_login `{!ProtoTextOk UserDB.ProtoDB} (w : world) args dir p p' pw :
  args !! ("--password" : bytes) = Some pw →
  temp_ok (w_calls w) (files p) (userDBForDomain args dir (who args).2) →
  userAdd w args dir p = (p', Ok ()) →
  let '(user, domain) := who args in
  (∀ w' : world, w_fault w' (userDBForDomain args dir domain) = None →
     authenticate w' args dir p' =
       (mkProc (stdout p' ++ "Authentication succeeded" ++ [LF]) (files p'), Ok ())) ∧
  (∀ d order (s s' : Server) dom db,
     seen_from dir (files p') d →
     Auth.backends (authr s) !! dom = Some (inl (Auth.WrapNoErrorBackend db)) →
     UserDB.fname db = "domains/" ++ domain ++ "/users" →
     Auth.disk_fault d (UserDB.fname db) = None →
     Reload d order s = Ok s' →
     Auth.Authenticate (authr s') user dom pw = Some (true, None)) ∧
  (∀ w' : world, w_fault w' (userDBForDomain args dir domain) = None →
     ∃ old new,
       UserDB.Load (Auth.mkDisk (files p) (w_fault w)) (w_partial w)
         (userDBForDomain args dir domain) = (old, None) ∧
       UserDB.Load (Auth.mkDisk (files p') (w_fault w')) (w_partial w')
         (userDBForDomain args dir domain) = (new, None) ∧
       ∀ name pw', name ≠ user →
         UserDB.Authenticate new name pw' = UserDB.Authenticate old name pw').
Proof.
  intros Hpw Ht E. apply (userAdd_ok _ _ _ _ _ _ Hpw) in E
    as (user & domain & db & db' & Hw & Hd & Hs & Hn & El & Ea & Ew).
  rewrite Hw in *. simpl in Ht.
  pose proof (Load_fname _ _ _ _ _ El) as Hf. pose proof (AddUser_fname _ _ _ _ _ _ Ea) as Hf'.
  rewrite <- Hf, <- Hf' in Ht.
  apply UserDB.AddUser_Authenticate in Ea as (Hyes & _ & Hothers).
  assert (Hafter : ∀ w' : world, w_fault w' (userDBForDomain args dir domain) = None →
    UserDB.Load (Auth.mkDisk (files p') (w_fault w')) (w_partial w')
      (userDBForDomain args dir domain) =
    (UserDB.mkDB (userDBForDomain args dir domain) (UserDB.users db'), None)).
  { intros w' Hw'. eapply Load_written; [exact Ht|exact Ew| |done].
    by rewrite Hf', Hf. }
  split_and!.
  - intros w' Hw'. unfold authenticate.
    erewrite bind_run by (eapply userDBFromArgs_run; eauto). rewrite Hw. cbv beta iota zeta.
    rewrite (bind_run _ _ _ _ _ (getPassword_given _ _ _ _ Hpw)).
    unfold UserDB.Authenticate in *. simpl. by rewrite Hyes.
  - intros d order s s' dom db0 Hsee Hb Hf0 Hd0 Er.
    unfold Server.Reload in Er. destruct (Aliases.Reload _ _) as [r [e|]]; [done|].
    destruct (Auth.Reload d (authr s)) as [a [|]] eqn:Era; [|done]. injection Er as <-.
    apply (Reload_backend _ _ _ _ _ Era) in Hb as (db1 & Hb1 & Hr1).
    unfold Auth.Authenticate. simpl. rewrite Hb1. simpl.
    unfold UserDB.Reload in Hr1.
    rewrite (Load_written _ _ _ _ _ _ _ Ht Ew) in Hr1; [| |done].
    2: { rewrite Hsee, Hf', Hf, Hf0. f_equal. unfold userDBForDomain.
         by rewrite bool_decide_eq_false_2. }
    injection Hr1 as <-. unfold UserDB.Authenticate in *. simpl. by rewrite Hyes.
  - intros w' Hw'. exists db. eexists. split_and!; [exact El|by apply Hafter|].
    intros name pw' Hne. rewrite <- (Hothers name pw' Hne). done.
Qed.

(** ** Commands that talk to the server *)

Import Url LocalRpc.
Context `{ProtoText DomainInfo.Domain, ProtoText Queue.Message}.
Variable error_words : Aliases.error → bytes.

#[local] Abbreviation methods := (rpc_methods (PrivateKey := PrivateKey) error_words).

(** The socket of the utility leads to a server in state [st], which gets the
    request that the utility sends and is in state [st'] after it. *)
Definition connected (w : world) (conf : Config.Config) (name : bytes) (vs : Values)
    (st st' : option (rpc_state (PrivateKey := PrivateKey))) : Prop :=
  ∃ reply, handleConn methods st (DotReader.mkReader (request name vs) DotReader.EndEOF)
             = (st', reply) ∧
    w_dial w (Config.DataDir conf ++ "/localrpc-v1") =
      Ok (mkLink None (DotReader.mkReader reply DotReader.EndEOF)).

Lemma call_connected (w : world) conf name k x f st st' p :
  connected w conf name (Set_ ∅ k x) st st' →
  st' = (exchange methods st name (Set_ ∅ k x)).1 ∧
  call w conf name [k; x] f p =
    match (exchange methods st name (Set_ ∅ k x)).2 with
    | Ok v => (p, Ok v)
    | Err e => (p, Err (f e))
    end.
Proof.
  intros (reply & Hh & Hd). unfold exchange. rewrite Hh. split; [done|].
  unfold call, Call, set_args, CallWithValues. simpl. rewrite Hd. simpl.
  by destruct (read_reply _).
Qed.

Lemma trim_one k x : LocalRpcProps.trim (Set_ ∅ k x) = Set_ ∅ k x.
Proof. apply LocalRpcProps.trim_id. unfold Set_. intros k' xs [[_ <-]|[_ ?]]%lookup_insert_Some; done. Qed.

Lemma Get_one k x : Get (Set_ ∅ k x) k = x.
Proof. unfold Get, Set_. by rewrite lookup_insert_eq. Qed.

(** The values that the recipients of an address are sent as. *)
Definition by_type (rcpts : list Aliases.Recipient) : Values :=
  foldl (λ v r, Add v (RType_text (Aliases.Type_ r)) (Aliases.Addr r)) ∅ rcpts.

Definition of_type (t : Aliases.RType) (rcpts : list Aliases.Recipient) : list Aliases.Recipient :=
  filter (λ r, Aliases.Type_ r = t) rcpts.

Lemma RType_text_inj t u : RType_text t = RType_text u → t = u.
Proof. by destruct t, u. Qed.

Lemma by_type_pairs rcpts m :
  foldl (λ v r, Add v (RType_text (Aliases.Type_ r)) (Aliases.Addr r)) m rcpts =
  foldl (λ m p, Add m p.1 p.2) m
    ((λ r, (RType_text (Aliases.Type_ r), Aliases.Addr r)) <$> rcpts).
Proof. revert m. induction rcpts as [|r rcpts IH]; intros m; [done|]. simpl. apply IH. Qed.

Lemma values_for_type t rcpts :
  LocalRpcProps.values_for (RType_text t)
    ((λ r, (RType_text (Aliases.Type_ r), Aliases.Addr r)) <$> rcpts) =
  Aliases.Addr <$> of_type t rcpts.
Proof.
  induction rcpts as [|r rcpts IH]; [done|].
  rewrite fmap_cons, LocalRpcProps.values_for_cons, IH. unfold of_type. rewrite filter_cons. simpl.
  destruct (decide (Aliases.Type_ r = t)) as [->|Hne].
  - by rewrite bool_decide_eq_true_2.
  - rewrite bool_decide_eq_false_2; [done|]. by intros ?%RType_text_inj.
Qed.

Lemma by_type_lookup rcpts t :
  default [] (by_type rcpts !! RType_text t) = Aliases.Addr <$> of_type t rcpts.
Proof.
  unfold by_type. rewrite by_type_pairs, LocalRpcProps.lookup_foldl_Add, values_for_type, lookup_empty.
  simpl. case_bool_decide as E; simpl; [by rewrite E|done].
Qed.

Lemma by_type_key rcpts k :
  is_Some (by_type rcpts !! k) → k ∈ ["(email)" : bytes; "(forward)"; "(pipe)"].
Proof.
  unfold by_type. rewrite by_type_pairs, LocalRpcProps.lookup_foldl_Add, lookup_empty.
  case_bool_decide as E; [by intros []|]. intros _.
  unfold LocalRpcProps.values_for in E.
  destruct (filter _ _) as [|q qs] eqn:Eq; [done|].
  assert (Hq : q ∈ q :: qs) by left. rewrite <- Eq in Hq.
  apply list_elem_of_filter in Hq as [<- (r & -> & _)%list_elem_of_fmap]. simpl.
  destruct (Aliases.Type_ r); set_solver.
Qed.

Lemma by_type_trim rcpts : LocalRpcProps.trim (by_type rcpts) = by_type rcpts.
Proof.
  apply LocalRpcProps.trim_id. intros k xs. unfold by_type.
  rewrite by_type_pairs, LocalRpcProps.lookup_foldl_Add, lookup_empty.
  case_bool_decide; [done|]. intros [= <-]. done.
Qed.

(** What is printed of a resolution: the recipients by type, each type in the
    order in which they were found. *)
Definition report (rcpts : list Aliases.Recipient) : bytes :=
  concat ((λ t, concat ((λ a, RType_text t ++ "  " ++ a ++ [LF])
                          <$> (Aliases.Addr <$> of_type t rcpts)))
            <$> [Aliases.EMAIL; Aliases.FORWARD; Aliases.PIPE]).

Lemma concat_fmap_filter {A B} (f : A → list B) (P : A → Prop) `{∀ x, Decision (P x)} l :
  (∀ x, ¬ P x → f x = []) → concat (f <$> filter P l) = concat (f <$> l).
Proof.
  intros Hf. induction l as [|x l IH]; [done|]. rewrite filter_cons, fmap_cons, concat_cons.
  case_decide as Hx; [by rewrite fmap_cons, concat_cons, IH|]. by rewrite (Hf x Hx).
Qed.

Lemma resolve_lines_by_type rcpts : resolve_lines (by_type rcpts) = report rcpts.
Proof.
  unfold resolve_lines, report.
  rewrite (LocalRpcProps.sorted_keys_among _ ["(email)" : bytes; "(forward)"; "(pipe)"]);
    [|repeat constructor|apply (bool_decide_eq_true_1 _); reflexivity|apply by_type_key].
  rewrite concat_fmap_filter.
  - cbn [fmap list_fmap concat]. by rewrite <- !by_type_lookup.
  - intros k Hk. by rewrite (proj2 (eq_None_not_Some _) Hk).
Qed.

(** The two methods, called over the socket with one value. *)
Lemma exchange_AliasResolve st x :
  exchange methods (Some st) "AliasResolve" (Set_ ∅ "Address" x) =
    (Some st,
     match Aliases.Resolve (resolver (rs_server st)) x with
     | Ok rcpts => Ok (by_type rcpts)
     | Err e => Err (Remote (LocalRpcProps.first_line (error_words e)))
     end).
Proof.
  rewrite LocalRpcProps.exchange_handler;
    [|apply (bool_decide_eq_true_1 _); reflexivity|apply (bool_decide_eq_true_1 _); reflexivity].
  rewrite trim_one. unfold rpc_methods, Register. cbn [handlers].
  rewrite lookup_insert_ne, lookup_insert_eq by done. unfold alias_method, aliasResolveRPC.
  rewrite Get_one.
  destruct (Aliases.Resolve _ _) as [rcpts|e]; [|done]. by rewrite by_type_trim.
Qed.

Lemma exchange_DomaininfoClear st x :
  exchange methods (Some st) "DomaininfoClear" (Set_ ∅ "Domain" x) =
    match dinfo (rs_server st) with
    | None => (None, Err (Remote []))
    | Some db =>
      let '(exists_, db, (fs, _)) := DomainInfo.Clear (rs_calls st) (rs_fs st) db x in
      (Some (mkRpcState (set_dinfo (rs_server st) db) fs (rs_calls st)),
       if exists_ : bool then Ok ∅ else Err (Remote "does not exist"))
    end.
Proof.
  rewrite LocalRpcProps.exchange_handler;
    [|apply (bool_decide_eq_true_1 _); reflexivity|apply (bool_decide_eq_true_1 _); reflexivity].
  rewrite trim_one. unfold rpc_methods, Register. cbn [handlers].
  rewrite lookup_insert_eq. unfold dinfo_method, dinfoClearRPC. cbn [mbind option_bind].
  destruct (dinfo (rs_server st)) as [db|]; [|done]. cbn [mbind option_bind]. rewrite Get_one.
  destruct (DomainInfo.Clear _ _ _ _) as [[[] db'] [fs e]]; [|done].
  by rewrite LocalRpcProps.trim_id.
Qed.

(** [chasquid-util aliases-resolve] prints what the running server resolves
    the address to, all of it and in order, grouped by type; if the server
    cannot resolve it, the utility fails with the first line of the error.  The
    server is as before. *)
Theorem aliases_resolve_prints (w : world) args dir conf st st' p :
  load_config w dir p = (p, Ok conf) →
  connected w conf "AliasResolve" (Set_ ∅ "Address" (arg args "$2")) (Some st) st' →
  st' = Some st ∧
  aliasesResolve w args dir p =
    match Aliases.Resolve (resolver (rs_server st)) (arg args "$2") with
    | Ok rcpts => (mkProc (stdout p ++ report rcpts) (files p), Ok ())
    | Err e => (p, Err (FatalResolve (Remote (LocalRpcProps.first_line (error_words e)))))
    end.
Proof.
  intros Hc Hconn.
  destruct (call_connected _ _ _ _ _ FatalResolve _ _ p Hconn) as [-> Hcall].
  unfold aliasesResolve. rewrite (bind_run _ _ _ _ _ Hc).
  unfold mbind, M_bind. rewrite Hcall, exchange_AliasResolve. split; [done|].
  cbn [snd]. destruct (Aliases.Resolve _ _) as [rcpts|e]; [|done].
  by rewrite resolve_lines_by_type.
Qed.

(** [chasquid-util domaininfo-remove] succeeds just if the running server
    knows the domain, and then the server forgets its security levels, both of
    them, and of no other domain; if it fails, nothing is forgotten. *)
Theorem domaininfo_remove_clears (w : world) args dir conf st st' db p :
  load_config w dir p = (p, Ok conf) →
  connected w conf "DomaininfoClear" (Set_ ∅ "Domain" (arg args "$2")) (Some st) st' →
  dinfo (rs_server st) = Some db →
  ∃ st1 db', st' = Some st1 ∧ dinfo (rs_server st1) = Some db' ∧
    match DomainInfo.info db !! arg args "$2" with
    | Some d =>
      domaininfoRemove w args dir p = (p, Ok ()) ∧
      DomainInfo.info db' =
        <[arg args "$2" := DomainInfo.mkDomain (DomainInfo.Name d) DomainInfo.PLAIN
                             DomainInfo.PLAIN]> (DomainInfo.info db)
    | None =>
      domaininfoRemove w args dir p =
        (p, Err (FatalDomainInfo (Remote "does not exist"))) ∧
      db' = db ∧ rs_fs st1 = rs_fs st
    end.
Proof.
  intros Hc Hconn Hdb.
  destruct (call_connected _ _ _ _ _ FatalDomainInfo _ _ p Hconn) as [-> Hcall].
  unfold domaininfoRemove. rewrite (bind_run _ _ _ _ _ Hc).
  unfold mbind, M_bind. rewrite Hcall, exchange_DomaininfoClear, Hdb.
  unfold DomainInfo.Clear. destruct (DomainInfo.info db !! arg args "$2") as [d|].
  - destruct (DomainInfo.write _ _ _ _) as [fs e]. eexists _, _.
    split; [reflexivity|]. split; [reflexivity|]. split; reflexivity.
  - eexists _, _. split; [reflexivity|]. split; [reflexivity|]. split; [reflexivity|].
    split; reflexivity.
Qed.

End Util.

(** ** Examples *)

Module Example.
Import AsciiOnly MainProps.MainProps.Example CountableText Url LocalRpc.
#[local] Existing Instances UserDB.Example.kdf UserDB.Scheme_countable Aliases.Example.world.
#[local] Existing Instances host_text net_mail toy keys.

#[export] Instance tools : KeyTools unit unit :=
  {| MarshalPKCS8PrivateKey (_ : unit) := Ok ("private" : bytes);
     MarshalPKIXPublicKey (_ : unit) := Ok ("public" : bytes);
     rsa_Public (k : unit) := k;
     ed25519_Public (_ : unit) := [];
     can_sign (_ : unit) := true;
     pem_Encode (_ b : bytes) := b |}.

#[export] Instance words : Dkim.DkimWords := {| Dkim.error_text _ := "error" |}.

(** A system in which all goes well; [dial] is the socket of the server. *)
Definition works (dial : bytes → res bytes link) : world :=
  {| w_fault _ := None; w_calls := working_calls "/tmp"; w_partial := ∅;
     w_missing _ := false; w_mkdir _ := None;
     w_password := Err "no terminal"; w_confirm := Err "no terminal";
     w_salt := Ok UserDB.Example.salt; w_hostname := Ok ("host" : bytes); w_dial := dial;
     w_stdin := Ok []; w_now := 0; w_date := "20200102"; w_lookupTXT _ := Ok [];
     w_glob _ := Ok [];
     w_rsa n := if (n == 3072)%Z then Ok tt else Err "unsupported";
     w_ed25519 := Err "unsupported"; w_create _ := None; w_pem := None |}.

Definition no_server (_ : bytes) : res bytes link := Err "no server".

Definition add_args : Args :=
  parseArgs ["user-add" : bytes; "ana@dom"; "--password=secret"].

Definition start : proc := mkProc [] ∅.

Lemma user_add_login_witness :
  ∃ p', userAdd (works no_server) add_args "/etc" start = (p', Ok ()) ∧
    authenticate (works no_server) add_args "/etc" p' =
      (mkProc (stdout p' ++ "Authentication succeeded" ++ [LF]) (files p'), Ok ()).
Proof.
  destruct (userAdd (works no_server) add_args "/etc" start) as [p' r] eqn:E.
  assert (Hr : r = Ok ()).
  { assert (E' : (userAdd (works no_server) add_args "/etc" start).2 = Ok ())
      by (vm_compute; reflexivity). by rewrite E in E'. }
  subst r. exists p'. split; [reflexivity|].
  pose proof (user_add_login (works no_server) add_args "/etc" start p' "secret") as Hl.
  assert (Hw : who add_args = ("ana" : bytes, "dom" : bytes)) by (vm_compute; reflexivity).
  rewrite Hw in Hl.
  destruct Hl as [Hl _]; [vm_compute; reflexivity|vm_compute; done|exact E|].
  by apply Hl.
Defined.

(** A server with one domain with an alias, and the levels of another domain. *)
#[local] Existing Instances no_text host_text.
Definition server : Server.Server (PrivateKey := unit) :=
  let s := (AddAliasesFile "dom" "users" (AddDomain "dom" Server.Server.NewServer)).1 in
  SetDomainInfo (DomainInfo.mkDB (NewStore "/di" None).1
    {[ ("far" : bytes) := DomainInfo.mkDomain "far" DomainInfo.TLS_CLIENT DomainInfo.TLS_SECURE ]})
    s.

Definition state : rpc_state := mkRpcState server ∅ (working_calls "/tmp").

Definition say (e : Aliases.error) : bytes := "error".

(** The socket: what the server answers to one request. *)
Definition socket (name : bytes) (vs : Values) (_ : bytes) : res bytes link :=
  Ok (mkLink None (DotReader.mkReader
    (handleConn (rpc_methods say) (Some state)
       (DotReader.mkReader (request name vs) DotReader.EndEOF)).2 DotReader.EndEOF)).

Definition conf_files : proc := mkProc [] {[ ("/etc/chasquid.conf" : bytes) := [] ]}.

Definition loaded_conf : Config.Config := Config.set_Hostname Config.defaultConfig "host".

Lemma load_config_works dial :
  load_config (works dial) "/etc" conf_files = (conf_files, Ok loaded_conf).
Proof. vm_compute. reflexivity. Qed.

Definition resolve_args : Args := parseArgs ["aliases-resolve" : bytes; "a@dom"].

Lemma aliases_resolve_prints_witness :
  aliasesResolve (works (socket "AliasResolve" (Set_ ∅ "Address" "a@dom"))) resolve_args "/etc"
    conf_files = (mkProc ("(pipe)  cmd" ++ [LF]) (files conf_files), Ok ()).
Proof.
  assert (Ha : arg resolve_args "$2" = "a@dom") by (vm_compute; reflexivity).
  destruct (aliases_resolve_prints say
    (works (socket "AliasResolve" (Set_ ∅ "Address" "a@dom"))) resolve_args "/etc" loaded_conf
    state (Some state) conf_files) as [_ Hr].
  - apply load_config_works.
  - rewrite Ha. eexists. split; [|reflexivity]. apply injective_projections; [|reflexivity].
    vm_compute. reflexivity.
  - rewrite Hr, Ha. vm_compute. reflexivity.
Defined.

Definition remove_args : Args := parseArgs ["domaininfo-remove" : bytes; "far"].

Lemma domaininfo_remove_clears_witness :
  (domaininfoRemove (works (socket "DomaininfoClear" (Set_ ∅ "Domain" "far"))) remove_args "/etc"
    conf_files).2 = Ok ().
Proof.
  assert (Ha : arg remove_args "$2" = "far") by (vm_compute; reflexivity).
  destruct (domaininfo_remove_clears say
    (works (socket "DomaininfoClear" (Set_ ∅ "Domain" "far"))) remove_args "/etc" loaded_conf
    state (handleConn (rpc_methods say) (Some state)
      (DotReader.mkReader (request "DomaininfoClear" (Set_ ∅ "Domain" "far"))
         DotReader.EndEOF)).1 (default (DomainInfo.mkDB (NewStore "/di" None).1 ∅) (dinfo server))
    conf_files) as (st1 & db' & _ & _ & Hr).
  - apply load_config_works.
  - rewrite Ha. eexists. split; [|reflexivity]. by apply injective_projections.
  - reflexivity.
  - rewrite Ha in Hr. destruct Hr as [-> _]. reflexivity.
Defined.

End Example.
End UtilProps.
