(* ===== verification/UtilDkim.v ===== *)
(** The DKIM keys of chasquid-util: a key that it makes is one that the server
    signs with, and the record that it prints is the one of that key. *)

From S2P Require Import Prelude GoStrings GoSlices GoTime Envelope DotReader Aliases Store.
From S2P Require Import DomainInfo Auth Haproxy Conn Queue SmtpClient Courier Dkim DkimSign.
From S2P Require Import Dovecot DovecotProps LocalRpc LocalRpcProps Server Config Main MainProps Util UtilProps.
#[local] Open Scope go_scope.

Module UtilDkim.
Import Safeio Protoio Server Util UtilProps.
Import DkimSign(plain, plain_spec, EncodeToString_plain, space, TrimSpace_word, plain_ascii,
  plain_last, plain_no_semicolon, plain_eat, parse_tag, Join_snoc).

(** ** The record *)

Definition record_text (k e : bytes) : bytes := "v=DKIM1; k=" ++ k ++ "; p=" ++ e.

Lemma record_text_join k e :
  record_text k e = Join ["v" ++ "=" ++ "DKIM1" : bytes; " k" ++ "=" ++ k; " p" ++ "=" ++ e] ";".
Proof. unfold record_text. simpl. by rewrite <- ?(assoc_L (++)). Qed.

Lemma record_tags k e :
  k ∈ ["rsa" : bytes; "ed25519"] → forallb plain e = true →
  Dkim.parseTags (record_text k e) =
    Ok (<["p" : bytes := e]> (<["k" : bytes := k]> {["v" : bytes := "DKIM1" : bytes]})).
Proof.
  intros Hk He. unfold Dkim.parseTags.
  assert (Hkp : forallb plain k = true) by
    (repeat (apply elem_of_cons in Hk as [->|Hk]; [reflexivity|]); by apply elem_of_nil in Hk).
  assert (Hpe : forallb plain ("p=" ++ e) = true) by (cbn; exact He).
  assert (Hrec : record_text k e = ("v=DKIM1; k=" ++ k ++ "; ") ++ "p=" ++ e).
  { unfold record_text. by rewrite <- !(assoc_L (++)). }
  assert (Ha : forallb Utf8.is_ascii (record_text k e) = true).
  { unfold record_text. by rewrite !forallb_app, !(plain_ascii _ Hkp), (plain_ascii _ He). }
  assert (Hl : last (record_text k e) = last ("p=" ++ e)).
  { rewrite Hrec, last_app. by destruct (last ("p=" ++ e)) eqn:E; [|apply last_None in E]. }
  assert (TrimSpace (record_text k e) = record_text k e) as ->.
  { apply (TrimSpace_word []); [done|done|done|]. rewrite Hl. by apply plain_last. }
  assert (TrimSuffix (record_text k e) ";" = record_text k e) as ->.
  { destruct (record_text k e) as [|x r _] using rev_ind; [done|].
    rewrite (LocalRpcProps.TrimSuffix_byte r x ";"%char), bool_decide_eq_false_2; [done|].
    intros ->. rewrite last_snoc in Hl. symmetry in Hl. apply last_Some_elem_of in Hl.
    by apply (plain_no_semicolon _ Hpe). }
  rewrite record_text_join, (Split_Join_byte _ ";"%char); [|done|].
  2: { repeat constructor; [apply (bool_decide_eq_true_1 _); reflexivity| |];
       rewrite not_elem_of_app; (split; [apply (bool_decide_eq_true_1 _); reflexivity|]);
       by apply plain_no_semicolon. }
  assert (Te : TrimSpace e = e).
  { apply (TrimSpace_word []); [done|by apply plain_ascii| |by apply plain_last].
    destruct e as [|c e]; [done|]. cbn in He. apply andb_true_iff in He as [Hc _].
    by apply plain_spec in Hc as (_ & ? & _). }
  repeat (apply elem_of_cons in Hk as [->|Hk]); [..|by apply elem_of_nil in Hk];
    (rewrite (parse_tag "v" "DKIM1" "v" "DKIM1") by (vm_compute; reflexivity));
    [rewrite (parse_tag " k" "rsa" "k" "rsa") by (vm_compute; reflexivity)
    |rewrite (parse_tag " k" "ed25519" "k" "ed25519") by (vm_compute; reflexivity)];
    (rewrite (parse_tag " p" e "p" e) by (first [exact Te|vm_compute; reflexivity])); reflexivity.
Qed.

(** ** Paths *)

Lemma Split_snoc y f c : c ∉ f → Split (y ++ c :: f) [c] = Split y [c] ++ [f].
Proof.
  intros Hf. rewrite <- (Join_Split y [c]) at 1 by done.
  assert (Hn : Split y [c] ≠ []) by (by apply Split_not_nil).
  change (c :: f) with ([c] ++ f). rewrite <- Join_snoc by done.
  apply Split_Join_byte; [by destruct (Split y [c])|].
  apply Forall_app. split; [apply Split_byte_Forall|by repeat constructor].
Qed.

(** A name for a file: not a special component, and not more than one. *)
Definition file_name (f : bytes) : Prop :=
  ("/"%char ∉ f) ∧ f ≠ [] ∧ f ≠ "." ∧ f ≠ "..".

Lemma last_component_file y f : "/"%char ∉ f → Path.last_component (y ++ "/" ++ f) = f.
Proof.
  intros Hf. unfold Path.last_component.
  rewrite (Split_snoc y f "/"%char Hf : Split (y ++ "/" ++ f) "/" = _). apply List.last_last.
Qed.

Lemma TrimRight_slash y f : file_name f → TrimRight (y ++ f) "/" = y ++ f.
Proof.
  intros (Hf & Hne & _). destruct f as [|f c _] using rev_ind; [done|].
  rewrite (assoc_L (++)). apply TrimRight_snoc_id. set_solver.
Qed.

Lemma clean_step_file rooted out f : file_name f → Path.clean_step rooted out f = f :: out.
Proof.
  intros (_ & H1 & H2 & H3). unfold Path.clean_step.
  by rewrite !bool_decide_eq_false_2.
Qed.

(** The last component stays in place. *)
Lemma Base_Clean x f : file_name f → Path.Base (Path.Clean (x ++ "/" ++ f)) = f.
Proof.
  intros Hf. pose proof Hf as (Hs & Hne & _).
  assert (Hc : ∃ y, Path.Clean (x ++ "/" ++ f) = y ++ "/" ++ f ∨ Path.Clean (x ++ "/" ++ f) = f).
  { unfold Path.Clean. rewrite bool_decide_eq_false_2 by (by destruct x).
    rewrite (Split_snoc x f "/"%char Hs : Split (x ++ "/" ++ f) "/" = _), foldl_app.
    cbn [foldl]. rewrite clean_step_file by done. set (out := foldl _ _ _). rewrite reverse_cons.
    destruct (decide (reverse out = [])) as [Ho|Ho].
    - rewrite Ho. simpl. destruct (HasPrefix _ _); [by exists []; left|].
      exists []. right. by rewrite bool_decide_eq_false_2.
    - rewrite Join_snoc by done. destruct (HasPrefix _ _).
      + exists ("/" ++ Join (reverse out) "/"). left. by rewrite <- (assoc_L (++)).
      + exists (Join (reverse out) "/"). left.
        rewrite bool_decide_eq_false_2; [done|]. by destruct (Join (reverse out) "/"). }
  destruct Hc as (y & [->| ->]); unfold Path.Base.
  - rewrite bool_decide_eq_false_2 by (by destruct y).
    rewrite (assoc_L (++)), TrimRight_slash, <- (assoc_L (++)) by done.
    rewrite bool_decide_eq_false_2 by (by destruct y). by apply last_component_file.
  - rewrite bool_decide_eq_false_2 by done.
    rewrite (TrimRight_slash [] f Hf : TrimRight f "/" = f), bool_decide_eq_false_2 by done.
    unfold Path.last_component.
    pose proof (Split_Join_byte [f] "/"%char ltac:(done) ltac:(by repeat constructor)) as Hsp.
    simpl Join in Hsp. by rewrite Hsp.
Qed.

Lemma selector_of_keyPath configDir domain selector :
  "/"%char ∉ selector → Main.selector_of (keyPathFor configDir domain selector) = selector.
Proof.
  intros Hs. unfold Main.selector_of, keyPathFor.
  assert (Hf : file_name ("dkim:" ++ selector ++ ".pem")).
  { split_and!; [|by destruct selector..].
    rewrite !not_elem_of_app. split_and!; [apply (bool_decide_eq_true_1 _); reflexivity|done|].
    apply (bool_decide_eq_true_1 _); reflexivity. }
  pose proof (Base_Clean (configDir ++ "/domains/" ++ domain) _ Hf) as E.
  rewrite <- !(assoc_L (++)) in E.
  change ("/" ++ "dkim:" ++ selector ++ ".pem") with ("/dkim:" ++ selector ++ ".pem") in E.
  rewrite E.
  assert (TrimPrefix ("dkim:" ++ selector ++ ".pem") "dkim:" = selector ++ ".pem") as -> by done.
  unfold TrimSuffix. assert (HasSuffix (selector ++ ".pem") ".pem" = true) as ->.
  { apply HasSuffix_spec. by exists selector. }
  rewrite length_app. simpl. rewrite Nat.add_sub. apply take_app_length.
Qed.

Section Keys.
Context {RSAPublicKey PrivateKey : Type} `{Dkim.Crypto RSAPublicKey PrivateKey}.
Context `{!KeyFiles PrivateKey, !KeyTools RSAPublicKey PrivateKey}.

(** The documented behaviour of the packages: what is encoded is decoded, and
    the keys are of the kind and of the size that were asked for. *)
Class KeyToolsOk : Prop := {
  pem_roundtrip b : pem_Decode (pem_Encode "PRIVATE KEY" b) = Some ("PRIVATE KEY" : bytes, b);
  pkcs8_roundtrip k b : MarshalPKCS8PrivateKey k = Ok b → ParsePKCS8PrivateKey b = Ok k;
  pkix_roundtrip k b : MarshalPKIXPublicKey k = Ok b → Dkim.ParsePKIXPublicKey b = Some (Some k);
  ed25519_length k : Dkim.private_kind k = Some Dkim.keyTypeEd25519 →
    length (ed25519_Public k) = 32;
}.

Definition generators_ok (w : world (PrivateKey := PrivateKey)) : Prop :=
  (∀ n k, w_rsa w n = Ok k → Dkim.private_kind k = Some Dkim.keyTypeRSA ∧
     (Dkim.rsa_Size (rsa_Public k) * 8 = n)%Z) ∧
  (∀ k, w_ed25519 w = Ok k → Dkim.private_kind k = Some Dkim.keyTypeEd25519).

Context `{!KeyToolsOk}.
Context `{Unicode, Precis, NetMail, ScryptKDF, ProtoText UserDB.ProtoDB}.
Context `{ProtoText Config.Config, Dkim.DkimWords}.

#[local] Abbreviation world := (world (PrivateKey := PrivateKey)).

(** The public key of a private one, as a verifier. *)
Definition verifier_of (k : PrivateKey) : option (Dkim.keyType * Dkim.verifier) :=
  match Dkim.private_kind k with
  | Some Dkim.keyTypeRSA => Some (Dkim.keyTypeRSA, Dkim.VerifyRSA (rsa_Public k))
  | Some Dkim.keyTypeEd25519 =>
    Some (Dkim.keyTypeEd25519, Dkim.VerifyEd25519 (ed25519_Public k))
  | None => None
  end.

Definition big_enough (k : PrivateKey) : Prop :=
  Dkim.private_kind k = Some Dkim.keyTypeRSA → (1024 <= Dkim.rsa_Size (rsa_Public k) * 8)%Z.

Lemma parse_record kS k b f :
  (kS = ("rsa" : bytes) ∧ k = Dkim.keyTypeRSA ∧ Dkim.parseRSAPublicKey b = Ok f) ∨
  (kS = ("ed25519" : bytes) ∧ k = Dkim.keyTypeEd25519 ∧ Dkim.parseEd25519PublicKey b = Ok f) →
  Dkim.parsePublicKey (record_text kS (Base64.EncodeToString b)) =
    Ok (Dkim.mkPublicKey [] k b [] f).
Proof.
  intros Hk. unfold Dkim.parsePublicKey.
  rewrite record_tags; [|set_solver|apply EncodeToString_plain].
  set (tags := insert _ _ _). cbn [mbind res_bind].
  assert (Tv : tags !! ("v" : bytes) = Some ("DKIM1" : bytes)) by done.
  assert (Tk : Dkim.tag tags "k" = kS) by done.
  assert (Tp : Dkim.tag tags "p" = Base64.EncodeToString b) by done.
  assert (Th : Dkim.tag tags "h" = []) by done.
  assert (Tt : Dkim.tag tags "t" = []) by done.
  assert (Hv : Dkim.tag tags "v" = "DKIM1") by done.
  clearbody tags. rewrite Hv, Tk, Tp, Th, Tt, plain_eat by apply EncodeToString_plain.
  rewrite Base64.DecodeString_EncodeToString, andb_false_r.
  destruct Hk as [(-> & -> & Hf)|(-> & -> & Hf)]; cbn [Dkim.opt_tag]; simpl; rewrite Hf; reflexivity.
Qed.

(** The record that is printed is that of the public key. *)
Lemma dnsRecordFor_ok domain selector k p p' r vf :
  verifier_of k = Some vf → big_enough k →
  dnsRecordFor domain selector k p = (p', Ok r) →
  p' = p ∧ ∃ txt pk,
    r = selector ++ "._domainkey." ++ domain ++ [TAB] ++ "TXT" ++ [TAB] ++ [DQUOTE]
          ++ txt ++ [DQUOTE] ∧
    Dkim.parsePublicKey txt = Ok pk ∧
    Dkim.pk_K pk = vf.1 ∧ Dkim.pk_verify pk = vf.2 ∧
    Dkim.Matches pk vf.1 Dkim.SHA256 = true.
Proof.
  unfold dnsRecordFor, verifier_of. intros Hv Hbig E.
  destruct (Dkim.private_kind k) as [[]|] eqn:Ek; [| |done]; simplify_eq.
  - step_ok E. destruct a as [a b]. step_ok E0. unfold must in E1.
    destruct (MarshalPKIXPublicKey _) as [pub|] eqn:Em; [|done].
    unfold mret, M_ret in *. simplify_eq. split; [done|].
    eexists (record_text "rsa" (Base64.EncodeToString b)), _.
    split; [unfold record_text; by rewrite <- !(assoc_L (++))|].
    split; [apply parse_record; left; split_and!; [done|done|]|done].
    unfold Dkim.parseRSAPublicKey. rewrite (pkix_roundtrip _ _ Em).
    specialize (Hbig Ek). rewrite (proj2 (Z.ltb_ge _ _)) by lia. done.
  - step_ok E. destruct a as [a b]. unfold mret, M_ret in *. simplify_eq. split; [done|].
    eexists (record_text "ed25519" (Base64.EncodeToString _)), _.
    split; [unfold record_text; by rewrite <- !(assoc_L (++))|].
    split; [apply parse_record; right; split_and!; [done|done|]|done].
    unfold Dkim.parseEd25519PublicKey. rewrite (ed25519_length _ Ek). done.
Qed.

(** ** Making a key *)

Definition key_selector (w : world) (args : Args) : bytes :=
  if arg args "$3" == [] then w_date w else arg args "$3".

Definition key_path (w : world) (args : Args) (dir : bytes) : bytes :=
  if arg args "$4" == [] then keyPathFor dir (arg args "$2") (key_selector w args)
  else arg args "$4".

Lemma generate_ok (w : world) algo p p' k :
  generators_ok w → generate w algo p = (p', Ok k) →
  p' = p ∧ big_enough k ∧ ∃ vf, verifier_of k = Some vf.
Proof.
  intros [Hr He] E. unfold generate, must in E. unfold big_enough, verifier_of.
  destruct (_ || _); [|destruct (bool_decide _); [|destruct (bool_decide _); [|done]]];
    [destruct (w_rsa w 3072) as [k'|] eqn:Eg|destruct (w_rsa w 4096) as [k'|] eqn:Eg
    |destruct (w_ed25519 w) as [k'|] eqn:Eg]; try done;
    unfold mret, M_ret in E; simplify_eq.
  - apply Hr in Eg as [-> Hs]. split_and!; [done|lia|eauto].
  - apply Hr in Eg as [-> Hs]. split_and!; [done|lia|eauto].
  - rewrite (He _ eq_refl). split_and!; [done|done|eauto].
Qed.

Lemma write_key_ok (w : world) path text p p' u :
  write_key w path text p = (p', Ok u) →
  files p !! path = None ∧ p' = mkProc (stdout p) (<[path := text]> (files p)).
Proof.
  unfold write_key. intros E. step_ok E. injection E0 as <- <-.
  destruct (bool_decide (files p !! path = None)) eqn:Ef; [|done].
  apply bool_decide_eq_true in Ef. simpl in E.
  destruct (w_create w path); [done|]. destruct (w_pem w) as [[]|]; [done|].
  unfold put_files in E. by simplify_eq.
Qed.

Lemma dkimKeygen_ok (w : world) args dir p p' :
  generators_ok w → dkimKeygen w args dir p = (p', Ok ()) →
  ∃ k vf b r p1,
    files p !! key_path w args dir = None ∧
    big_enough k ∧ verifier_of k = Some vf ∧ MarshalPKCS8PrivateKey k = Ok b ∧
    dnsRecordFor (arg args "$2") (key_selector w args) k p1 = (p1, Ok r) ∧
    p' = mkProc (stdout p ++ ("Key written to " ++ Quote (key_path w args dir) ++ [LF; LF])
                  ++ r ++ [LF])
           (<[key_path w args dir := pem_Encode "PRIVATE KEY" b]> (files p)).
Proof.
  intros Hg E. unfold dkimKeygen in E. fold (key_selector w args) (key_path w args dir) in E.
  destruct (bool_decide (arg args "$2" = [])); [done|].
  step_ok E. injection E0 as <- <-.
  destruct (bool_decide (files p !! key_path w args dir = None)) eqn:Ef; [|done].
  apply bool_decide_eq_true in Ef. simpl in E.
  step_ok E. apply (generate_ok _ _ _ _ _ Hg) in E0 as (-> & Hbig & vf & Hvf).
  step_ok E. unfold must in E0. destruct (MarshalPKCS8PrivateKey a) as [b|] eqn:Em; [|done].
  injection E0 as <- <-.
  step_ok E. apply write_key_ok in E0 as [_ ->]. step_ok E. injection E0 as <- <-.
  step_ok E. pose proof E0 as Er. eapply dnsRecordFor_ok in E0 as [-> _]; [|done..].
  injection E as <-. eexists a, vf, b, _, _. do 4 (split; [done|]). split; [exact Er|].
  cbn [stdout files]. by rewrite (assoc_L (++) (stdout p)).
Qed.


End Keys.

(** ** An example *)

Module Example.
Import AsciiOnly MainProps.MainProps.Example UtilProps.Example.
#[local] Existing Instances UserDB.Example.kdf no_text host_text net_mail toy keys tools words.

#[local] Instance tools_ok : KeyToolsOk (RSAPublicKey := unit) (PrivateKey := unit).
Proof. split; [done|by intros [] ?|by intros [] ?|done]. Qed.

Definition keygen_args : Args := parseArgs ["dkim-keygen" : bytes; "dom"].


End Example.

End UtilDkim.
