(* ===== verification/Lmtp.v ===== *)
(** An MDA that delivers over LMTP: cmd/mda-lmtp.  The connection is the one of
    SmtpClient.v, of which only the part of [net/textproto] is used. *)

From S2P Require Import Prelude GoStrings Envelope DotReader SmtpClient Courier.
#[local] Open Scope go_scope.

Module Lmtp.
Import SmtpClient.

(** The command-line flags. *)
Record flags := mkFlags {
  fromwhom : bytes;
  recipient : bytes;
  addrNetwork : bytes;
  addr : bytes;
  toPuny : bool;
}.

(** How the program ends: [tempExit] is status 75, [permExit] is status 2. *)
Inductive exit :=
| ExitOk
| ExitTemp (why : option error)
| ExitPerm.

Definition status (e : exit) : Z :=
  match e with ExitOk => 0 | ExitTemp _ => 75 | ExitPerm => 2 end.

Abbreviation Conn := (Client unit).

(** [textproto.NewConn] *)
Definition NewConn (i : io) : Conn := mkClient [] Plain i (Err []) [] false None None [].

(** A step of the conversation, after which the program may have ended. *)
Abbreviation step := (Conn → Conn * option exit).

Definition ok (r : Conn * res error (Z * bytes)) : Conn * option exit :=
  match r with
  | (c, Err e) => (c, Some (ExitTemp (Some e)))
  | (c, Ok _) => (c, None)
  end.

Definition expect (code : Z) : step := λ c, ok (ReadResponse code c).

Definition cmd (expectCode : Z) (line : bytes) : step :=
  λ c, ok (SmtpClient.cmd expectCode line c).

Definition andThen (a b : step) : step := λ c,
  match a c with
  | (c, None) => b c
  | r => r
  end.

(** The message: [io.Copy] of what can be read to the dot writer, which is
    closed in any case; its errors are not looked at. *)
Definition send_data (data : bytes) (read_err : option bytes) : step := λ c,
  let '(c, (werr, rest)) := Write data c in
  let '(c, _) := write rest c in
  match werr, read_err with
  | Some e, _ => (c, Some (ExitTemp (Some e)))
  | None, Some e => (c, Some (ExitTemp None))
  | None, None => (c, None)
  end.

Section Lmtp.
Context `{Precis}.

(** The addresses, in the form that is sent. *)
Definition puny (f : flags) : option (bytes * bytes) :=
  if toPuny f then
    match idna_ToASCII (fromwhom f), idna_ToASCII (recipient f) with
    | (from, false), (to, false) => Some (from, to)
    | _, _ => None
    end
  else Some (fromwhom f, recipient f).

Definition unbracket (a : bytes) : bytes := if a == "<>" then [] else a.

Definition network (f : flags) : bytes :=
  if addrNetwork f == [] then (if HasPrefix (addr f) "/" then "unix" else "tcp")
  else addrNetwork f.

(** All that is said on the connection. *)
Definition converse (hostname from to data : bytes) (read_err : option bytes) : step :=
  andThen (cmd 250 ("LHLO " ++ hostname))
  (andThen (cmd 250 ("MAIL FROM:<" ++ from ++ ">"))
  (andThen (cmd 250 ("RCPT TO:<" ++ to ++ ">"))
  (andThen (cmd 354 "DATA")
  (andThen (send_data data read_err)
  (andThen (expect 250)
  (cmd 221 "QUIT")))))).

(** [stdin] is what can be read of the message, and the error after it. *)
Definition main (f : flags) (dial : bytes → bytes → res bytes io) (hostname : res bytes bytes)
    (stdin : bytes * option bytes) : option Conn * exit :=
  if addr f == [] then (None, ExitPerm)
  else
    match puny f with
    | None => (None, ExitPerm)
    | Some (from, to) =>
      match dial (network f) (addr f) with
      | Err _ => (None, ExitTemp None)
      | Ok i =>
        match expect 220 (NewConn i) with
        | (c, Some e) => (Some c, e)
        | (c, None) =>
          match hostname with
          | Err _ => (Some c, ExitTemp None)
          | Ok h =>
            let '(c, e) := converse h (unbracket from) (unbracket to) stdin.1 stdin.2 c in
            (Some c, default ExitOk e)
          end
        end
      end
    end.

End Lmtp.

(** ** What is sent *)

Definition texts (c : Conn) : bytes := concat (p_text <$> sent c).

Definition broken (c : Conn) : Prop := alive (cio c) = Some 0.

Lemma texts_snoc (c : Conn) l p : sent c = l ++ [p] → texts c = concat (p_text <$> l) ++ p_text p.
Proof. unfold texts. intros ->. rewrite fmap_app, concat_app. simpl. by rewrite app_nil_r. Qed.

(** A write gets all through, or breaks the connection. *)
Lemma write_cases t (c c' : Conn) err :
  write t c = (c', err) →
  (err = None ∧ ¬ broken c ∧ texts c' = texts c ++ t) ∨
  (err ≠ None ∧ broken c').
Proof.
  unfold write, broken. destruct (alive (cio c)) as [[|n]|]; intros; simplify_eq.
  - right. done.
  - left. split_and!; [done|done|]. by erewrite texts_snoc by reflexivity.
  - left. split_and!; [done|done|]. by erewrite texts_snoc by reflexivity.
Qed.

Lemma write_broken t (c c' : Conn) err : broken c → write t c = (c', err) → broken c' ∧ err ≠ None.
Proof.
  intros Hb E. destruct (write_cases _ _ _ _ E) as [(_ & ? & _)|[? ?]]; done.
Qed.

Lemma expect_ok code (c c' : Conn) r :
  expect code c = (c', r) → sent c' = sent c ∧ alive (cio c') = alive (cio c).
Proof.
  unfold expect, ok, ReadResponse. destruct (read_response _ _) as [rd' [x|e]];
    intros; by simplify_eq.
Qed.

Lemma cmd_ok code l (c c' : Conn) :
  cmd code l c = (c', None) → ¬ broken c ∧ texts c' = texts c ++ l ++ CRLF.
Proof.
  unfold cmd, SmtpClient.cmd. destruct (write _ c) as [c1 [e|]] eqn:Ew; [done|]. intros E.
  apply write_cases in Ew as [(_ & Hb & Ht)|[? _]]; [|done].
  apply expect_ok in E as [Hs _]. unfold texts in *. by rewrite Hs.
Qed.

Lemma andThen_ok (a b : step) c c' :
  andThen a b c = (c', None) → ∃ c1, a c = (c1, None) ∧ b c1 = (c', None).
Proof. unfold andThen. destruct (a c) as [c1 [e|]]; [done|]. eauto. Qed.

Lemma Write_rest data :
  let '(out, st) := dot_bytes wstateBegin data in
  let k := (length out - 1) / bufSize * bufSize in
  take k out ++ drop k out ++ dot_close st = dot_wire data.
Proof.
  unfold dot_wire. destruct (dot_bytes _ data) as [out st]. simpl.
  by rewrite (assoc_L (++)), take_drop.
Qed.

(** The message is all sent, or the connection is broken. *)
Lemma send_data_ok data rerr (c c' : Conn) :
  send_data data rerr c = (c', None) →
  rerr = None ∧ (broken c' ∨ texts c' = texts c ++ dot_wire data).
Proof.
  unfold send_data, Write. pose proof (Write_rest data) as Hw.
  destruct (dot_bytes wstateBegin data) as [out st]. cbv zeta in Hw.
  set (k := (length out - 1) / bufSize * bufSize) in *.
  destruct (bool_decide (k = 0)) eqn:Ek.
  - destruct (write _ c) as [c1 e1] eqn:E1. destruct rerr; [done|]. intros [= <-].
    split; [done|]. apply bool_decide_eq_true in Ek. rewrite Ek in *. simpl in Hw. rewrite <- Hw.
    apply write_cases in E1 as [(_ & _ & ->)|[_ Hb]]; [by right|by left].
  - destruct (write (take k out) c) as [c1 [e1|]] eqn:E1; destruct (write _ c1) as [c2 e2] eqn:E2;
      [done|]. destruct rerr; [done|]. intros [= <-]. split; [done|].
    apply write_cases in E1 as [(_ & _ & H1)|[? _]]; [|done].
    apply write_cases in E2 as [(_ & _ & H2)|[_ Hb]]; [|by left].
    right. by rewrite H2, H1, <- Hw, <- (assoc_L (++)).
Qed.

Definition lines (ls : list bytes) : bytes := concat ((λ l, l ++ CRLF) <$> ls).

Lemma converse_ok h from to data rerr (c c' : Conn) :
  converse h from to data rerr c = (c', None) →
  rerr = None ∧
  texts c' = texts c
    ++ lines ["LHLO " ++ h; "MAIL FROM:<" ++ from ++ ">"; "RCPT TO:<" ++ to ++ ">"; "DATA"]
    ++ dot_wire data ++ lines ["QUIT"].
Proof.
  unfold converse. intros E.
  apply andThen_ok in E as (c1 & E1 & E). apply andThen_ok in E as (c2 & E2 & E).
  apply andThen_ok in E as (c3 & E3 & E). apply andThen_ok in E as (c4 & E4 & E).
  apply andThen_ok in E as (c5 & E5 & E). apply andThen_ok in E as (c6 & E6 & E).
  apply cmd_ok in E1 as [_ T1], E2 as [_ T2], E3 as [_ T3], E4 as [_ T4], E as [Hb T].
  apply send_data_ok in E5 as [-> H5]. apply expect_ok in E6 as [S6 A6]. split; [done|].
  destruct H5 as [Hbr|T5]; [exfalso; apply Hb; unfold broken in *; congruence|].
  assert (T6 : texts c6 = texts c5) by (unfold texts; by rewrite S6).
  rewrite T, T6, T5, T4, T3, T2, T1. unfold lines. cbn [fmap list_fmap concat].
  rewrite !app_nil_r. by rewrite <- !(assoc_L (++)).
Qed.

(** What is read: a reply with the code, and the replies that follow. *)
Definition replied (code : Z) (r r' : DotReader.reader) : Prop :=
  ∃ x, read_response code r = (r', Ok x).

Fixpoint replies_are (codes : list Z) (r : DotReader.reader) : Prop :=
  match codes with
  | [] => True
  | code :: codes => ∃ r', replied code r r' ∧ replies_are codes r'
  end.

Lemma expect_reads code (c c' : Conn) :
  expect code c = (c', None) → replied code (rd (cio c)) (rd (cio c')).
Proof.
  unfold expect, ok, ReadResponse. destruct (read_response _ _) as [r [x|e]] eqn:E; [|done].
  intros [= <-]. by exists x.
Qed.

Lemma write_reads t (c : Conn) : rd (cio (write t c).1) = rd (cio c).
Proof. unfold write. by destruct (alive (cio c)) as [[|n]|]. Qed.

Lemma cmd_reads code l (c c' : Conn) :
  cmd code l c = (c', None) → replied code (rd (cio c)) (rd (cio c')).
Proof.
  unfold cmd, SmtpClient.cmd. pose proof (write_reads (l ++ CRLF) c) as Hw.
  destruct (write _ c) as [c1 [e|]]; [done|]. intros E. apply expect_reads in E.
  cbn [fst] in Hw. by rewrite Hw in E.
Qed.

Lemma send_data_reads data rerr (c : Conn) :
  rd (cio (send_data data rerr c).1) = rd (cio c).
Proof.
  unfold send_data, Write. destruct (dot_bytes _ data) as [out st]. cbv zeta.
  set (k := (length out - 1) / bufSize * bufSize).
  assert (HR : ∀ (c0 : Conn) e0 rest, rd (cio c0) = rd (cio c) →
    rd (cio (let '(c, _) := write rest c0 in match (e0 : option error), rerr with
      | Some e, _ => (c, Some (ExitTemp (Some e)))
      | None, Some e => (c, Some (ExitTemp None))
      | None, None => (c, None)
      end).1) = rd (cio c)).
  { intros c0 e0 rest Hc. pose proof (write_reads rest c0). destruct (write rest c0).
    cbn [fst] in *. destruct e0, rerr; cbn [fst]; congruence. }
  destruct (bool_decide (k = 0)); [exact (HR c None _ eq_refl)|].
  pose proof (write_reads (take k out) c) as Hw.
  destruct (write (take k out) c) as [c1 e1]. exact (HR c1 e1 _ Hw).
Qed.

Lemma converse_reads h from to data rerr (c c' : Conn) :
  converse h from to data rerr c = (c', None) →
  replies_are [250; 250; 250; 354; 250; 221]%Z (rd (cio c)).
Proof.
  unfold converse. intros E.
  apply andThen_ok in E as (c1 & E1 & E). apply andThen_ok in E as (c2 & E2 & E).
  apply andThen_ok in E as (c3 & E3 & E). apply andThen_ok in E as (c4 & E4 & E).
  apply andThen_ok in E as (c5 & E5 & E). apply andThen_ok in E as (c6 & E6 & E).
  pose proof (send_data_reads data rerr c4) as S5. rewrite E5 in S5. cbn [fst] in S5.
  apply cmd_reads in E1, E2, E3, E4, E. apply expect_reads in E6. rewrite S5 in E6.
  repeat (eexists; split; [eassumption|]). done.
Qed.

Lemma ok_fails r c e : ok r = (c, Some e) → ∃ why, e = ExitTemp why.
Proof. unfold ok. destruct r as [? [|]]; intros; simplify_eq. eauto. Qed.

Lemma send_data_fails data rerr (c c' : Conn) e :
  send_data data rerr c = (c', Some e) → ∃ why, e = ExitTemp why.
Proof.
  unfold send_data. destruct (Write data c) as [c1 [werr rest]].
  destruct (write rest c1). destruct werr, rerr; intros; simplify_eq; eauto.
Qed.

Lemma andThen_fails (a b : step) (P : exit → Prop) :
  (∀ c c' e, a c = (c', Some e) → P e) → (∀ c c' e, b c = (c', Some e) → P e) →
  ∀ c c' e, andThen a b c = (c', Some e) → P e.
Proof.
  unfold andThen. intros Ha Hb c c' e. destruct (a c) as [c1 [e1|]] eqn:Ea; [|apply Hb].
  intros [= <- <-]. by eapply Ha.
Qed.

Lemma converse_fails h from to data rerr (c c' : Conn) e :
  converse h from to data rerr c = (c', Some e) → ∃ why, e = ExitTemp why.
Proof.
  revert c c' e. unfold converse.
  repeat (apply andThen_fails; [intros ???; first [apply ok_fails|apply send_data_fails]|]).
  intros ???. apply ok_fails.
Qed.

(** How the courier sees the end of the program. *)
Definition outcome (e : exit) : Courier.exec_result :=
  match e with ExitOk => Courier.ExecOk | _ => Courier.ExecExit (status e) [] end.

Section Props.
Context `{Unicode, Precis}.

(** C39: The MDA reports success only if the whole message was sent, with the
    sender and the recipient that it was given, and the server accepted it: what the
    server sent is a greeting with 220, a 250 each for LHLO, MAIL and RCPT, a 354 for DATA,
    a 250 after the message and a 221 for QUIT.  It reports a permanent failure
    exactly if it was given no address of a server, or was asked to convert the
    addresses and they cannot be; so the local courier takes every failure of the
    LMTP server for a temporary one, and the message stays in the queue. *)
Theorem lmtp_exit f dial hostname stdin c e :
  main f dial hostname stdin = (c, e) →
  match e with
  | ExitOk =>
    ∃ h from to conn i, c = Some conn ∧ hostname = Ok h ∧ puny f = Some (from, to) ∧
      stdin.2 = None ∧ dial (network f) (addr f) = Ok i ∧
      replies_are [220; 250; 250; 250; 354; 250; 221]%Z (rd i) ∧
      texts conn =
        lines ["LHLO " ++ h; "MAIL FROM:<" ++ unbracket from ++ ">";
               "RCPT TO:<" ++ unbracket to ++ ">"; "DATA"]
        ++ dot_wire stdin.1 ++ lines ["QUIT"]
  | ExitTemp _ => addr f ≠ [] ∧ is_Some (puny f)
  | ExitPerm => addr f = [] ∨ puny f = None
  end ∧
  (∀ exec p from to data,
     (∀ args stdin, exec (Courier.Binary p) args (Courier.Timeout p) stdin = outcome e) →
     let '(err, permanent) := Courier.MDA_Deliver exec p from to data in
     (err = None ↔ e = ExitOk) ∧ (permanent = true ↔ e = ExitPerm)).
Proof.
  intros Hm. split.
  2: { intros exec p from to data Hx. unfold Courier.MDA_Deliver. rewrite Hx.
       destruct e; simpl; split; done. }
  unfold main in Hm. destruct (bool_decide (addr f = [])) eqn:Ea.
  { simplify_eq. left. by apply bool_decide_eq_true in Ea. }
  apply bool_decide_eq_false in Ea. destruct (puny f) as [[from to]|]; [|simplify_eq; by right].
  destruct (dial _ _) as [i|] eqn:Ed; [|simplify_eq; split; eauto].
  destruct (expect 220 (NewConn i)) as [c0 [e0|]] eqn:E0.
  { simplify_eq. unfold expect, ok in E0.
    destruct (ReadResponse _ _) as [? [|]]; simplify_eq. split; eauto. }
  destruct hostname as [h|]; [|simplify_eq; split; eauto].
  destruct (converse _ _ _ _ _ c0) as [c1 [e1|]] eqn:E1; simplify_eq; simpl.
  - apply converse_fails in E1 as [why ->]. split; eauto.
  - pose proof (converse_reads _ _ _ _ _ _ _ E1) as Hc. pose proof (expect_reads _ _ _ E0) as H0'.
    apply converse_ok in E1 as [Hr Ht]. exists h, from, to, c1, i. split_and!; try done; [by eexists|].
    apply expect_ok in E0 as [S0 _]. rewrite Ht. unfold texts at 1. by rewrite S0.
Qed.

End Props.

(** ** An example *)

Module Example.
Import AsciiOnly.

Definition replies (ls : list bytes) : io :=
  mkIo (DotReader.mkReader (lines ls) DotReader.EndEOF) None 0.

Definition good : io :=
  replies ["220 hi"; "250-one"; "250 two"; "250 ok"; "250 ok"; "354 go"; "250 done"; "221 bye"].

Definition fl : flags := mkFlags "<>" "jose" [] "localhost:1234" false.

#[local] Abbreviation run :=
  (main fl (λ _ _, Ok good) (Ok ("me" : bytes)) (".a" ++ [LF], None)).

Lemma lmtp_exit_witness :
  ∃ conn, run.1 = Some conn ∧
    texts conn = lines ["LHLO me"; "MAIL FROM:<>"; "RCPT TO:<jose>"; "DATA"; "..a"; "."; "QUIT"].
Proof.
  assert (E : run.2 = ExitOk) by (vm_compute; reflexivity).
  destruct run as [c e] eqn:Em. cbn [snd] in E. subst e.
  destruct (lmtp_exit _ _ _ _ _ _ Em) as [(h & from & to & conn & i & -> & Hh & Hp & _ & _ & _ & Ht) _].
  exists conn. split; [reflexivity|]. injection Hh as <-. injection Hp as <- <-.
  rewrite Ht. vm_compute. reflexivity.
Defined.

(** A message that cannot be read to its end is sent as if it had ended there:
    the dot writer is closed, and the server may deliver what it got. *)
Example truncated_message :
  match main fl (λ _ _, Ok good) (Ok ("me" : bytes)) ("a" ++ [LF], Some ("read error" : bytes)) with
  | (Some conn, e) =>
    e = ExitTemp None ∧
    texts conn = lines ["LHLO me"; "MAIL FROM:<>"; "RCPT TO:<jose>"; "DATA"; "a"; "."]
  | _ => False
  end.
Proof. vm_compute. split; reflexivity. Qed.

End Example.

End Lmtp.
