(* ===== verification/Expvarom.v ===== *)
(** The exporter of metrics: package [internal/expvarom]. *)

From stdpp Require Import sorting.
From S2P Require Import Prelude GoStrings GoSlices Envelope DotReader Store LocalRpc LocalRpcProps.
#[local] Open Scope go_scope.

Module Expvarom.

(** ** Variables: package [expvar] *)

(** [F] is the type of 64-bit floating point numbers.  Of the values in a map,
    only the numbers matter. *)
Inductive Elem (F : Type) :=
| EInt (i : Z)
| EFloat (f : F)
| EOther.
Arguments EInt {F} i. Arguments EFloat {F} f. Arguments EOther {F}.

Inductive Var (F : Type) :=
| VInt (i : Z)
| VFloat (f : F)
| VMap (m : gmap bytes (Elem F))
| VOther.
Arguments VInt {F} i. Arguments VFloat {F} f. Arguments VMap {F} m. Arguments VOther {F}.

Section Export.
Context `{Unicode, SortSlice}.
Context {F : Type}.

(** The [%g] verb, and [strconv.FormatFloat] with 'g' and the smallest
    precision, which agree. *)
Variable format_float : F → bytes.

(** The published variables, and what is known of them: the globals of the
    packages. *)
Record registry := mkRegistry {
  vars : gmap bytes (Var F);
  descriptions : gmap bytes bytes;
  mapLabelNames : gmap bytes bytes;
}.

Inductive value := I (i : Z) | Fl (f : F) | Mp (m : gmap bytes (Elem F)).

Record exportedVar := mkExported {
  Name : bytes;
  Desc : bytes;
  LabelName : bytes;
  Value : value;
}.

(** Publishing a name twice ends the program ([log.Panicln]). *)
Definition Publish (r : registry) (name : bytes) (v : Var F) : option registry :=
  match vars r !! name with
  | Some _ => None
  | None => Some (mkRegistry (<[name := v]> (vars r)) (descriptions r) (mapLabelNames r))
  end.

Definition describe (r : registry) (name desc : bytes) : registry :=
  mkRegistry (vars r) (<[name := desc]> (descriptions r)) (mapLabelNames r).

Definition NewInt (r : registry) (name desc : bytes) : option registry :=
  Publish (describe r name desc) name (VInt 0).

(** [zero] is the number 0. *)
Definition NewFloat (zero : F) (r : registry) (name desc : bytes) : option registry :=
  Publish (describe r name desc) name (VFloat zero).

(** A label with spaces is a panic. *)
Definition NewMap (r : registry) (name labelName desc : bytes) : option registry :=
  if Contains labelName " " then None
  else
    let r := describe r name desc in
    Publish (mkRegistry (vars r) (descriptions r) (<[name := labelName]> (mapLabelNames r)))
      name (VMap ∅).

(** ** Text *)

Definition name_rune (c : N) : bool :=
  in_range 97 122 c || in_range 65 90 c || in_range 48 57 c || N.eqb c 95.

Definition metricNameToOM (name : bytes) : bytes :=
  let n := concat ((λ c, if name_rune c then Utf8.encode c else "_") <$> Utf8.runes name) in
  match n with
  | c :: _ => if in_range 48 57 (Utf8.bval c) then "i" ++ n else n
  | [] => n
  end.

(** [utf8.ValidString] *)
Definition ValidString (s : bytes) : bool :=
  forallb (λ c, negb (N.eqb c.1 Utf8.RuneError && (length c.2 == 1))) (Utf8.chunks s).

(** [strconv.QuoteToASCII], without the quotes around it: like [Quote], but
    nothing above U+007F is printed as it is. *)
Definition quote_ascii (s : bytes) : bytes :=
  concat ((λ c, @quote_rune (Build_Unicode uni_lower uni_upper uni_fold (λ _, false)) c)
            <$> Utf8.chunks s).

(** [labelValueReplacer.Replace] *)
Definition label_byte (c : ascii) : bytes :=
  if c == "\"%char then "\\"
  else if c == DQUOTE then ["\"%char; DQUOTE]
  else if c == LF then "\n"
  else [c].

Definition label_text (v : bytes) : bytes := if ValidString v then v else quote_ascii v.

Definition quoteLabelValue (v : bytes) : bytes :=
  [DQUOTE] ++ concat (label_byte <$> label_text v) ++ [DQUOTE].

(** ** The page *)

Definition map_line (v : exportedVar) (key : bytes) (x : Elem F) : bytes :=
  let line vs :=
    Name v ++ "{" ++ LabelName v ++ "=" ++ quoteLabelValue key ++ "} " ++ vs ++ [LF] in
  match x with
  | EInt i => line (Itoa i)
  | EFloat f => line (format_float f)
  | EOther => []
  end.

Definition writeVar (v : exportedVar) : bytes :=
  (if Desc v == [] then [] else "# HELP " ++ Name v ++ " " ++ Desc v ++ [LF])
  ++ match Value v with
     | I i => Name v ++ " " ++ Itoa i ++ [LF]
     | Fl f => Name v ++ " " ++ format_float f ++ [LF]
     | Mp m =>
       concat ((λ k, match m !! k with Some x => map_line v k x | None => [] end)
                 <$> Url.sorted_keys m)
     end.

(** One variable: exported, or its name among the ignored ones. *)
Definition export (r : registry) (key : bytes) (x : Var F) : exportedVar + bytes :=
  let name := metricNameToOM key in
  let label := default [] (mapLabelNames r !! key) in
  let make v := inl (mkExported name (default [] (descriptions r !! key))
                       (if label == [] then "key" else label) v) in
  match x with
  | VInt i => make (I i)
  | VFloat f => make (Fl f)
  | VMap m => make (Mp m)
  | VOther => inr name
  end.

(** [expvar.Do] goes through the variables in the order of their names. *)
Definition all_exports (r : registry) : list (exportedVar + bytes) :=
  omap (λ k, export r k <$> vars r !! k) (Url.sorted_keys (vars r)).

Definition exported (r : registry) : list exportedVar :=
  omap (λ e, match e with inl v => Some v | inr _ => None end) (all_exports r).

Definition ignored (r : registry) : list bytes :=
  omap (λ e, match e with inl _ => None | inr n => Some n end) (all_exports r).

(** The strings come in the order of [<] on strings. *)
Definition string_lt (a b : bytes) : bool := Protoio.bytes_le a b && (a != b).

Definition MetricsHandler (r : registry) : bytes :=
  concat (writeVar <$> sort_slice (λ a b, string_lt (Name a) (Name b)) (exported r))
  ++ "# HELP generated_by expvarom" ++ [LF]
  ++ "# HELP ignored_variables [" ++ Join (Quote <$> ignored r) " " ++ "]" ++ [LF]
  ++ "# EOF" ++ [LF].

(** ** What a reader makes of it *)

(** A metric name of the format, for a direct exporter. *)
Definition name_char (c : ascii) : bool := name_rune (Utf8.bval c).

Definition om_name (n : bytes) : bool :=
  match n with
  | c :: _ => forallb name_char n && negb (in_range 48 57 (Utf8.bval c))
  | [] => false
  end.

(** Reading a label value, after its opening quote. *)
Fixpoint read_label (s : bytes) : option (bytes * bytes) :=
  match s with
  | [] => None
  | c :: s =>
    if c == DQUOTE then Some ([], s)
    else if c == "\"%char then
      match s with
      | [] => None
      | d :: s =>
        let x := if d == "n"%char then LF else d in
        '(v, rest) ← read_label s; Some (x :: v, rest)
      end
    else '(v, rest) ← read_label s; Some (c :: v, rest)
  end.

Lemma read_label_byte c s :
  read_label (label_byte c ++ s) = '(v, rest) ← read_label s; Some (c :: v, rest).
Proof.
  unfold label_byte. destruct (bool_decide (c = "\"%char)) eqn:E1.
  { apply bool_decide_eq_true in E1 as ->. done. }
  destruct (bool_decide (c = DQUOTE)) eqn:E2.
  { apply bool_decide_eq_true in E2 as ->. done. }
  destruct (bool_decide (c = LF)) eqn:E3.
  { apply bool_decide_eq_true in E3 as ->. done. }
  cbn [app read_label]. by rewrite E2, E1.
Qed.

Lemma read_label_bytes v s :
  read_label (concat (label_byte <$> v) ++ [DQUOTE] ++ s) = Some (v, s).
Proof.
  induction v as [|c v IH]; [done|].
  rewrite fmap_cons, concat_cons, <- (assoc_L (++)), read_label_byte, IH. done.
Qed.

Lemma label_byte_no_lf c : LF ∉ label_byte c.
Proof.
  unfold label_byte. repeat case_bool_decide; try (apply (bool_decide_eq_true_1 _); reflexivity).
  intros Hin%list_elem_of_singleton. congruence.
Qed.

Lemma quoteLabelValue_no_lf v : LF ∉ quoteLabelValue v.
Proof.
  unfold quoteLabelValue. rewrite !not_elem_of_app. split_and!; try set_solver.
  induction (label_text v) as [|c l IH]; [set_solver|].
  rewrite fmap_cons, concat_cons, not_elem_of_app. split; [apply label_byte_no_lf|done].
Qed.

(** *** Names *)

Lemma name_rune_encode c : name_rune c = true → ∃ a, Utf8.encode c = [a] ∧ Utf8.bval a = c.
Proof.
  intros Hc. assert (Hlt : (c < 128)%N).
  { unfold name_rune, in_range in Hc.
    rewrite !orb_true_iff, !andb_true_iff, !N.leb_le, N.eqb_eq in Hc. lia. }
  exists (ascii_of_N c). unfold Utf8.encode. rewrite (proj2 (N.ltb_lt _ _) Hlt).
  split; [done|]. unfold Utf8.bval. apply N_ascii_embedding. lia.
Qed.

Lemma metricNameToOM_chars name : forallb name_char (metricNameToOM name) = true.
Proof.
  unfold metricNameToOM. set (n := concat _).
  assert (Hn : forallb name_char n = true).
  { unfold n. induction (Utf8.runes name) as [|c l IH]; [done|].
    rewrite fmap_cons, concat_cons, forallb_app, IH, andb_true_r.
    destruct (name_rune c) eqn:Ec; [|done].
    destruct (name_rune_encode c Ec) as (a & -> & Ha). cbn. unfold name_char. by rewrite Ha, Ec. }
  clearbody n. destruct n as [|c n]; [done|].
  destruct (in_range 48 57 (Utf8.bval c)); [|done].
  cbn [app forallb]. exact Hn.
Qed.

(** The names are those of the format. *)
Lemma metricNameToOM_valid name : name ≠ [] → om_name (metricNameToOM name) = true.
Proof.
  intros Hne. pose proof (metricNameToOM_chars name) as Hc. unfold metricNameToOM in *.
  set (n := concat _) in *. assert (Hn : n ≠ []).
  { destruct name as [|a name]; [done|]. unfold n, Utf8.runes.
    destruct (chunks_first a name) as (r & b & s' & -> & _). cbn.
    destruct (name_rune r) eqn:Er; [|done]. by destruct (name_rune_encode r Er) as (x & -> & _). }
  clearbody n. destruct n as [|c n]; [done|].
  destruct (in_range 48 57 (Utf8.bval c)) eqn:Ed; cbn [app om_name] in *;
    rewrite Hc; [done|]. by rewrite Ed.
Qed.

Lemma name_char_not c d : name_char c = true → name_char d = false → c ≠ d.
Proof. congruence. Qed.

Lemma names_no n d : forallb name_char n = true → name_char d = false → d ∉ n.
Proof.
  induction n as [|c n IH]; [set_solver|]. cbn [forallb]. intros [Hc Hn]%andb_true_iff Hd.
  rewrite not_elem_of_cons. split; [congruence|auto].
Qed.

Lemma quote_name_char c : name_char c = true → Utf8.is_ascii c = true ∧
  quote_rune (Utf8.bval c, [c]) = [c].
Proof. by destruct c as [[] [] [] [] [] [] [] []]. Qed.

Lemma Quote_name n : forallb name_char n = true → Quote n = [DQUOTE] ++ n ++ [DQUOTE].
Proof.
  intros Hn. unfold Quote. do 2 f_equal. induction n as [|c n IH]; [done|].
  cbn [forallb] in Hn. apply andb_true_iff in Hn as [Hc Hn].
  destruct (quote_name_char c Hc) as [Ha Hq].
  rewrite chunks_ascii_cons, fmap_cons, concat_cons, Hq, IH by done. done.
Qed.

(** *** Label values are valid UTF-8 *)

Lemma lor_ge_l x y : (x <= N.lor x y)%N.
Proof.
  assert (E : N.land x (N.lor x y) = x).
  { apply N.bits_inj. intros i. rewrite N.land_spec, N.lor_spec. by destruct (N.testbit x i). }
  rewrite <- E at 1. apply N.land_le_r.
Qed.

Lemma lor_ge n x y : (n <= x ∨ n <= y)%N → (n <= N.lor x y)%N.
Proof.
  intros [Hx|Hy]; [|rewrite N.lor_comm]; (etrans; [eassumption|apply lor_ge_l]).
Qed.

(** What is decoded from several bytes is beyond ASCII. *)
Lemma rune2_high a b : Utf8.seq_len (Utf8.bval a) = 2 → (128 <= Utf8.rune2 a b)%N.
Proof.
  intros Ha. apply lor_ge. left. by destruct a as [[] [] [] [] [] [] [] []].
Qed.

Lemma rune3_high a b c :
  Utf8.seq_len (Utf8.bval a) = 3 → Utf8.is_second (Utf8.bval a) b = true →
  (128 <= Utf8.rune3 a b c)%N.
Proof.
  intros Ha Hb. apply lor_ge. destruct (N.eqb (Utf8.bval a) 224) eqn:E.
  - right. apply lor_ge. left. unfold Utf8.is_second in Hb. rewrite E in Hb.
    by destruct b as [[] [] [] [] [] [] [] []].
  - left. clear Hb. by destruct a as [[] [] [] [] [] [] [] []].
Qed.

Lemma rune4_high a b c d :
  Utf8.seq_len (Utf8.bval a) = 4 → Utf8.is_second (Utf8.bval a) b = true →
  (128 <= Utf8.rune4 a b c d)%N.
Proof.
  intros Ha Hb. apply lor_ge. destruct (N.eqb (Utf8.bval a) 240) eqn:E.
  - right. apply lor_ge. left. unfold Utf8.is_second in Hb.
    apply N.eqb_eq in E. rewrite E in Hb. by destruct b as [[] [] [] [] [] [] [] []].
  - left. clear Hb. by destruct a as [[] [] [] [] [] [] [] []].
Qed.

Definition low_chunk (c : N * bytes) : Prop :=
  (∃ a, c.2 = [a] ∧ Utf8.is_ascii a = true ∧ c.1 = Utf8.bval a) ∨ (128 <= c.1)%N.

Lemma chunks_low s : Forall low_chunk (Utf8.chunks s).
Proof.
  remember (length s) as n eqn:Hn. revert s Hn. induction (lt_wf n) as [n _ IH]. intros [|a s] ->; [done|].
  assert (IH' : ∀ k, length k ≤ length s → Forall low_chunk (Utf8.chunks k))
    by (intros k Hk; eapply IH; [|done]; simpl; lia).
  assert (Hbad : Forall low_chunk ((Utf8.RuneError, [a]) :: Utf8.chunks s))
    by (constructor; [by right|by apply IH']).
  cbn [Utf8.chunks]. destruct (Utf8.seq_len (Utf8.bval a)) as [|[|[|[|[|m]]]]] eqn:El; try done.
  - constructor; [|by apply IH']. left. exists a. split_and!; try done.
    unfold Utf8.seq_len in El. unfold Utf8.is_ascii. by destruct (N.ltb (Utf8.bval a) 128); [|repeat case_match].
  - destruct s as [|b s2]; [done|]. destruct (Utf8.is_second _ b) eqn:E2; [|done].
    constructor; [right; by apply rune2_high|apply IH'; simpl; lia].
  - destruct s as [|b [|c s2]]; [done..|]. destruct (_ && _) eqn:E2; [|done].
    apply andb_true_iff in E2 as [? _]. constructor; [right; by apply rune3_high|apply IH'; simpl; lia].
  - destruct s as [|b [|c [|d s2]]]; [done..|]. destruct (_ && _) eqn:E2; [|done].
    apply andb_true_iff in E2 as [E2 _]. apply andb_true_iff in E2 as [? _].
    constructor; [right; by apply rune4_high|apply IH'; simpl; lia].
Qed.

Lemma hex_digits_ascii k n : forallb Utf8.is_ascii (hex_digits k n) = true.
Proof.
  revert n. induction k as [|k IH]; intros n; [done|]. cbn [hex_digits].
  rewrite forallb_app, IH. cbn [forallb andb]. rewrite andb_true_r.
  assert (Hlt : (N.land n 15 < 16)%N) by (pose proof (N.land_le_r n 15); lia).
  revert Hlt. generalize (N.land n 15). intros d Hd.
  assert (Hin : (d = 0 ∨ d = 1 ∨ d = 2 ∨ d = 3 ∨ d = 4 ∨ d = 5 ∨ d = 6 ∨ d = 7 ∨
    d = 8 ∨ d = 9 ∨ d = 10 ∨ d = 11 ∨ d = 12 ∨ d = 13 ∨ d = 14 ∨ d = 15)%N) by lia.
  by repeat destruct Hin as [->|Hin]; [..|subst d].
Qed.

Lemma quote_ascii_ascii v : forallb Utf8.is_ascii (quote_ascii v) = true.
Proof.
  unfold quote_ascii. pose proof (chunks_low v) as Hc. induction Hc as [|[x b] cs Hx _ IH]; [done|].
  rewrite fmap_cons, concat_cons, forallb_app, IH, andb_true_r. unfold quote_rune, is_print.
  destruct Hx as [(a & Hb & Ha & Hr)|Hx]; cbn [fst snd] in *.
  - subst b x. unfold Utf8.is_ascii in Ha.
    by destruct a as [[] [] [] [] [] [] [] []].
  - rewrite (proj2 (N.ltb_ge x 128) Hx).
    repeat match goal with
    | |- context [N.eqb x ?k] => rewrite (proj2 (N.eqb_neq x k)) by lia
    | |- context [N.ltb x 32] => rewrite (proj2 (N.ltb_ge x 32)) by lia
    end; cbn [orb].
    repeat case_match; rewrite ?forallb_app, ?hex_digits_ascii; done.
Qed.

Lemma ascii_valid v : forallb Utf8.is_ascii v = true → ValidString v = true.
Proof.
  intros Hv. unfold ValidString. rewrite chunks_ascii by done. induction v as [|c v IH]; [done|].
  cbn [forallb] in Hv. apply andb_true_iff in Hv as [Hc Hv]. rewrite fmap_cons. cbn [forallb fst snd].
  rewrite IH, andb_true_r by done. unfold Utf8.is_ascii in Hc. apply N.ltb_lt in Hc.
  by rewrite (proj2 (N.eqb_neq (Utf8.bval c) Utf8.RuneError)) by (unfold Utf8.RuneError; lia).
Qed.

Lemma label_text_valid v : ValidString (label_text v) = true.
Proof.
  unfold label_text. destruct (ValidString v) eqn:E; [done|].
  apply ascii_valid, quote_ascii_ascii.
Qed.

(** *** Lines *)

(** A sample: the name, the label and its value, and the value. *)
Definition sample : Type := bytes * option (bytes * bytes) * bytes.

Fixpoint span_name (l : bytes) : bytes * bytes :=
  match l with
  | c :: l' => if name_char c then let '(n, r) := span_name l' in (c :: n, r) else ([], l)
  | [] => ([], [])
  end.

Inductive om_line := Comment | Sample (s : sample).

Definition read_line (l : bytes) : option om_line :=
  if HasPrefix l "#" then Some Comment
  else
    match span_name l with
    | (n, c :: r) =>
      if c == SP then Some (Sample (n, None, r))
      else if c == "{"%char then
        '(label, r) ← Cut r "=";
        r ← strip_prefix [DQUOTE] r;
        '(v, r) ← read_label r;
        x ← strip_prefix "} " r;
        Some (Sample (n, Some (label, v), x))
      else None
    | _ => None
    end.

Lemma span_name_app n c r :
  forallb name_char n = true → name_char c = false → span_name (n ++ c :: r) = (n, c :: r).
Proof.
  intros Hn Hc. induction n as [|a n IH]; cbn [app span_name]; [by rewrite Hc|].
  cbn [forallb] in Hn. apply andb_true_iff in Hn as [Ha Hn]. by rewrite Ha, IH.
Qed.

Lemma no_comment n c r :
  forallb name_char n = true → c ≠ "#"%char → HasPrefix (n ++ c :: r) "#" = false.
Proof.
  intros Hn Hc. unfold HasPrefix. destruct n as [|a n].
  - simpl. by rewrite bool_decide_eq_false_2.
  - cbn [forallb] in Hn. apply andb_true_iff in Hn as [Ha _]. simpl.
    rewrite bool_decide_eq_false_2; [done|]. intros <-. discriminate.
Qed.

Lemma read_plain n x :
  forallb name_char n = true → read_line (n ++ " " ++ x) = Some (Sample (n, None, x)).
Proof.
  intros Hn. unfold read_line.
  rewrite (no_comment n SP x Hn ltac:(done) : HasPrefix (n ++ " " ++ x) "#" = false).
  by rewrite (span_name_app n SP x Hn eq_refl : span_name (n ++ " " ++ x) = _).
Qed.

Lemma read_labelled n label v x :
  forallb name_char n = true → "="%char ∉ label →
  read_line (n ++ "{" ++ label ++ "=" ++ quoteLabelValue v ++ "} " ++ x)
    = Some (Sample (n, Some (label, label_text v), x)).
Proof.
  intros Hn Hl. set (r := label ++ "=" ++ quoteLabelValue v ++ "} " ++ x). unfold read_line.
  rewrite (no_comment n "{"%char r Hn ltac:(done) : HasPrefix (n ++ "{" ++ r) "#" = false).
  rewrite (span_name_app n "{"%char r Hn eq_refl : span_name (n ++ "{" ++ r) = _).
  cbn [bool_decide]. rewrite bool_decide_eq_false_2, bool_decide_eq_true_2 by done. unfold r.
  rewrite (Cut_byte_app label (quoteLabelValue v ++ "} " ++ x) "="%char Hl :
    Cut (label ++ "=" ++ _) "=" = _). cbn [mbind option_bind].
  assert (Hs : strip_prefix [DQUOTE] (quoteLabelValue v ++ "} " ++ x) =
    Some (concat (label_byte <$> label_text v) ++ [DQUOTE] ++ "} " ++ x)).
  { apply strip_prefix_Some. unfold quoteLabelValue. by rewrite <- !(assoc_L (++)). }
  rewrite Hs. cbn [mbind option_bind]. rewrite read_label_bytes. done.
Qed.

(** *** The page *)

Lemma Itoa_no_lf z : LF ∉ Itoa z.
Proof. intros Hin%Itoa_chars. revert Hin. apply (bool_decide_eq_true_1 _). reflexivity. Qed.

Definition elem_text (x : Elem F) : option bytes :=
  match x with
  | EInt i => Some (Itoa i)
  | EFloat f => Some (format_float f)
  | EOther => None
  end.

(** The samples that a variable stands for. *)
Definition samples (v : exportedVar) : list sample :=
  match Value v with
  | I i => [(Name v, None, Itoa i)]
  | Fl f => [(Name v, None, format_float f)]
  | Mp m =>
    omap (λ k, t ← m !! k ≫= elem_text; Some (Name v, Some (LabelName v, label_text k), t))
      (Url.sorted_keys m)
  end.

(** The line of a sample; the value of a label is quoted from the key. *)
Definition elem_line (v : exportedVar) (m : gmap bytes (Elem F)) (k : bytes) : option bytes :=
  t ← m !! k ≫= elem_text;
  Some (Name v ++ "{" ++ LabelName v ++ "=" ++ quoteLabelValue k ++ "} " ++ t).

Definition help_lines (v : exportedVar) : list bytes :=
  if Desc v == [] then [] else ["# HELP " ++ Name v ++ " " ++ Desc v].

Definition sample_lines (v : exportedVar) : list bytes :=
  match Value v with
  | I i => [Name v ++ " " ++ Itoa i]
  | Fl f => [Name v ++ " " ++ format_float f]
  | Mp m => omap (elem_line v m) (Url.sorted_keys m)
  end.

Definition text (ls : list bytes) : bytes := concat ((λ l, l ++ [LF]) <$> ls).

Lemma text_app a b : text (a ++ b) = text a ++ text b.
Proof. unfold text. by rewrite fmap_app, concat_app. Qed.

Lemma text_concat (lss : list (list bytes)) : text (concat lss) = concat (text <$> lss).
Proof. induction lss as [|l lss IH]; [done|]. by rewrite concat_cons, text_app, IH. Qed.

Lemma writeVar_text v : writeVar v = text (help_lines v ++ sample_lines v).
Proof.
  rewrite text_app. unfold writeVar, help_lines, sample_lines. f_equal.
  - destruct (bool_decide (Desc v = [])); [done|]. unfold text. cbn.
    by rewrite app_nil_r, <- !(assoc_L (++)).
  - destruct (Value v) as [i|f|m]; unfold text.
    + cbn. by rewrite app_nil_r, <- !(assoc_L (++)).
    + cbn. by rewrite app_nil_r, <- !(assoc_L (++)).
    + induction (Url.sorted_keys m) as [|k ks IH]; [done|].
      rewrite fmap_cons, concat_cons, IH. cbn [omap list_omap]. unfold elem_line at 2.
      destruct (m !! k) as [[i|f|]|]; cbn [mbind option_bind elem_text map_line]; try done;
        rewrite fmap_cons, concat_cons; by rewrite <- !(assoc_L (++)).
Qed.

Record ok_var (v : exportedVar) : Prop := {
  ok_name : forallb name_char (Name v) = true;
  ok_desc : LF ∉ Desc v;
  ok_label : (LF ∉ LabelName v) ∧ ("="%char ∉ LabelName v);
}.

Context (float_line : ∀ f, LF ∉ format_float f).

Lemma elem_text_no_lf x t : elem_text x = Some t → LF ∉ t.
Proof. destruct x; intros; simplify_eq/=; [apply Itoa_no_lf|apply float_line]. Qed.

Lemma name_no_lf n : forallb name_char n = true → LF ∉ n.
Proof. intros Hn. by apply names_no. Qed.

Lemma var_lines_no_lf v : ok_var v → Forall (λ l, LF ∉ l) (help_lines v ++ sample_lines v).
Proof.
  intros [Hn Hd [Hl _]]. pose proof (name_no_lf _ Hn) as Hn'. apply Forall_app. split.
  - unfold help_lines. destruct (bool_decide (Desc v = [])); constructor; [|constructor].
    rewrite !not_elem_of_app. split_and!; try done; apply (bool_decide_eq_true_1 _); reflexivity.
  - unfold sample_lines. destruct (Value v) as [i|f|m].
    + repeat constructor. rewrite !not_elem_of_app.
      split_and!; [done|apply (bool_decide_eq_true_1 _); reflexivity|apply Itoa_no_lf].
    + repeat constructor. rewrite !not_elem_of_app.
      split_and!; [done|apply (bool_decide_eq_true_1 _); reflexivity|apply float_line].
    + apply Forall_forall. intros l (k & _ & Hk)%list_elem_of_omap. unfold elem_line in Hk.
      destruct (m !! k ≫= elem_text) as [t|] eqn:Et; [|done]. cbn [mbind option_bind] in Hk.
      apply (inj Some) in Hk as <-.
      apply bind_Some in Et as (x & _ & Hx). apply elem_text_no_lf in Hx.
      rewrite !not_elem_of_app. split_and!;
        first [done|apply quoteLabelValue_no_lf|apply (bool_decide_eq_true_1 _); reflexivity].
Qed.

(** The samples among lines. *)
Definition samples_in (ls : list bytes) : list sample :=
  omap (λ l, match read_line l with Some (Sample s) => Some s | _ => None end) ls.

Definition readable (l : bytes) : Prop := is_Some (read_line l).

Lemma var_lines_read v : ok_var v →
  Forall readable (help_lines v ++ sample_lines v) ∧
  samples_in (help_lines v ++ sample_lines v) = samples v.
Proof.
  intros [Hn _ [_ Hl]]. unfold samples_in. rewrite Forall_app, omap_app.
  assert (Hh : Forall readable (help_lines v) ∧
    omap (λ l, match read_line l with Some (Sample s) => Some s | _ => None end) (help_lines v) = []).
  { unfold help_lines. destruct (bool_decide (Desc v = [])); [done|].
    split; [repeat constructor; by eexists|done]. }
  destruct Hh as [Hh ->]. rewrite app_nil_l. unfold sample_lines, samples, readable.
  destruct (Value v) as [i|f|m].
  - cbn [omap list_omap]. rewrite read_plain by done.
    split; [split; [done|]|done]. repeat constructor. rewrite read_plain by done. eauto.
  - cbn [omap list_omap]. rewrite read_plain by done.
    split; [split; [done|]|done]. repeat constructor. rewrite read_plain by done. eauto.
  - split; [split; [done|]|].
    + apply Forall_forall. intros l (k & _ & Hk)%list_elem_of_omap. unfold elem_line in Hk.
      destruct (m !! k ≫= elem_text) as [t|]; [|done]. cbn [mbind option_bind] in Hk.
      apply (inj Some) in Hk as <-.
      rewrite read_labelled by done. eauto.
    + induction (Url.sorted_keys m) as [|k ks IH]; [done|]. cbn [omap list_omap].
      unfold elem_line at 1. destruct (m !! k ≫= elem_text) as [t|]; cbn [mbind option_bind].
      * cbn [omap list_omap]. rewrite read_labelled by done. by rewrite <- IH.
      * by rewrite <- IH.
Qed.

(** What is asked of the registry: text of one line, and labels that are names. *)
Record ok_registry (r : registry) : Prop := {
  or_desc k d : descriptions r !! k = Some d → LF ∉ d;
  or_label k l : mapLabelNames r !! k = Some l → (LF ∉ l) ∧ ("="%char ∉ l);
}.

Lemma exported_ok r v : ok_registry r → v ∈ exported r → ok_var v.
Proof.
  intros [Hd Hl] (e & He & Hv)%list_elem_of_omap. destruct e as [v'|]; [|done].
  injection Hv as <-. apply list_elem_of_omap in He as (k & _ & Hk).
  destruct (vars r !! k) as [x|]; [|done]. cbn [fmap option_fmap option_map] in Hk.
  unfold export in Hk. assert (Hdesc : LF ∉ default [] (descriptions r !! k)).
  { destruct (descriptions r !! k) as [d|] eqn:E; [by eapply Hd|]. cbn. set_solver. }
  assert (Hlabel : let l := default [] (mapLabelNames r !! k) in
    (LF ∉ (if l == [] then "key" else l)) ∧ ("="%char ∉ (if l == [] then "key" else l))).
  { cbv zeta. case_bool_decide as El; [split; apply (bool_decide_eq_true_1 _); reflexivity|].
    destruct (mapLabelNames r !! k) as [l|] eqn:E; [by eapply Hl|done]. }
  destruct x; simplify_eq; split; cbn; auto using metricNameToOM_chars.
Qed.

Lemma ignored_names r n : n ∈ ignored r → forallb name_char n = true.
Proof.
  intros (e & He & Hv)%list_elem_of_omap. destruct e as [|n']; [done|]. injection Hv as <-.
  apply list_elem_of_omap in He as (k & _ & Hk).
  destruct (vars r !! k) as [[]|]; try done. cbn in Hk. injection Hk as <-.
  apply metricNameToOM_chars.
Qed.

Lemma ignored_line_no_lf (ns : list bytes) :
  Forall (λ n, forallb name_char n = true) ns → LF ∉ Join (Quote <$> ns) " ".
Proof.
  induction 1 as [|n ns Hn _ IH]; [cbn; set_solver|].
  assert (Hq : LF ∉ Quote n).
  { rewrite Quote_name, !not_elem_of_app by done.
    split_and!; [|by apply name_no_lf|]; apply (bool_decide_eq_true_1 _); reflexivity. }
  destruct ns as [|n' ns]; [done|]. rewrite fmap_cons, Join_cons by done.
  rewrite !not_elem_of_app. split_and!; [done| |done]. apply (bool_decide_eq_true_1 _). reflexivity.
Qed.

Definition footer (r : registry) : list bytes :=
  ["# HELP generated_by expvarom" : bytes;
   "# HELP ignored_variables [" ++ Join (Quote <$> ignored r) " " ++ "]"; "# EOF"].

Definition var_lines (v : exportedVar) : list bytes := help_lines v ++ sample_lines v.

(** The variables in the order of the page. *)
Definition in_order (r : registry) : list exportedVar :=
  sort_slice (λ a b, string_lt (Name a) (Name b)) (exported r).

Lemma page_text r : MetricsHandler r = text (concat (var_lines <$> in_order r) ++ footer r).
Proof.
  rewrite text_app, text_concat. unfold MetricsHandler. f_equal.
  - rewrite <- list_fmap_compose. f_equal. apply list_fmap_ext. intros _ v _. apply writeVar_text.
  - unfold text, footer. cbn [fmap list_fmap concat]. by rewrite app_nil_r, <- !(assoc_L (++)).
Qed.

Lemma samples_in_concat (vs : list exportedVar) :
  Forall ok_var vs →
  Forall readable (concat (var_lines <$> vs)) ∧
  samples_in (concat (var_lines <$> vs)) = concat (samples <$> vs) ∧
  Forall (λ l, LF ∉ l) (concat (var_lines <$> vs)).
Proof.
  induction 1 as [|v vs Hv _ (IHr & IHs & IHl)]; [done|].
  destruct (var_lines_read v Hv) as [Hr Hs]. rewrite !fmap_cons, !concat_cons, !Forall_app.
  unfold samples_in in *. rewrite omap_app, IHs. split_and!; try done; [|by apply var_lines_no_lf].
  f_equal. exact Hs.
Qed.

Context `{!SortSliceOk}.

(** *** The samples of a registry *)

(** The label of a map: the one that it was registered with, or ["key"]. *)
Definition label_of (r : registry) (key : bytes) : bytes :=
  match mapLabelNames r !! key with
  | Some (c :: l) => c :: l
  | _ => "key"
  end.

(** What the page has to tell: the value of each variable, and of each number in a
    map with its key, in the form that [shown] gives it. *)
Definition told (shown : bytes → bytes) (r : registry) : list sample :=
  '(key, x) ← map_to_list (vars r);
  match x with
  | VInt i => [(metricNameToOM key, None, Itoa i)]
  | VFloat f => [(metricNameToOM key, None, format_float f)]
  | VMap m =>
    '(k, e) ← map_to_list m;
    match e with
    | EInt i => [(metricNameToOM key, Some (label_of r key, shown k), Itoa i)]
    | EFloat f => [(metricNameToOM key, Some (label_of r key, shown k), format_float f)]
    | EOther => []
    end
  | VOther => []
  end.

(** Going through a map by its sorted keys, or as it comes. *)
Lemma sorted_bind {A B : Type} (m : gmap bytes A) (f : bytes → A → list B) :
  (k ← Url.sorted_keys m; match m !! k with Some x => f k x | None => [] end)
  ≡ₚ ('(k, x) ← map_to_list m; f k x).
Proof.
  assert (HP : Url.sorted_keys m ≡ₚ (map_to_list m).*1)
    by (unfold Url.sorted_keys; apply merge_sort_Permutation).
  rewrite HP, list_fmap_bind. match goal with |- ?a ≡ₚ ?b => assert (E : a = b); [|by rewrite E] end. apply Forall_bind_ext, Forall_forall.
  intros [k x] Hk. cbn. apply elem_of_map_to_list in Hk. by rewrite Hk.
Qed.

Lemma omap_bind {A B : Type} (f : A → option B) l : omap f l = x ← l; option_list (f x).
Proof.
  induction l as [|x l IH]; [done|]. cbn [omap list_omap mbind list_bind].
  destruct (f x); cbn [option_list app]; by rewrite IH.
Qed.

Lemma concat_bind {A B : Type} (f : A → list B) l : concat (f <$> l) = l ≫= f.
Proof. induction l as [|x l IH]; [done|]. by rewrite fmap_cons, concat_cons, IH. Qed.

Lemma label_export r key x v : export r key x = inl v →
  Name v = metricNameToOM key ∧ LabelName v = label_of r key.
Proof.
  unfold export, label_of. destruct x; intros; simplify_eq; (split; [done|]); cbn;
    by destruct (mapLabelNames r !! key) as [[|c l]|].
Qed.

Lemma samples_export r key x :
  match export r key x with inl v => samples v | inr _ => [] end ≡ₚ
  match x with
  | VInt i => [(metricNameToOM key, None, Itoa i)]
  | VFloat f => [(metricNameToOM key, None, format_float f)]
  | VMap m =>
    '(k, e) ← map_to_list m;
    match e with
    | EInt i => [(metricNameToOM key, Some (label_of r key, label_text k), Itoa i)]
    | EFloat f => [(metricNameToOM key, Some (label_of r key, label_text k), format_float f)]
    | EOther => []
    end
  | VOther => []
  end.
Proof.
  destruct x as [i|f|m|]; try done. destruct (export r key (VMap m)) as [v|] eqn:E; [|done].
  destruct (label_export _ _ _ _ E) as [Hn Hl]. unfold samples.
  assert (Hv : Value v = Mp m) by (unfold export in E; by simplify_eq). rewrite Hv, Hn, Hl, omap_bind.
  rewrite <- sorted_bind. match goal with |- ?a ≡ₚ ?b => assert (E' : a = b); [|by rewrite E'] end.
  apply list_bind_ext; [|done]. intros k.
  by destruct (m !! k) as [[]|].
Qed.

Lemma samples_told r : concat (samples <$> exported r) ≡ₚ told label_text r.
Proof.
  unfold told. rewrite <- sorted_bind. unfold exported, all_exports.
  induction (Url.sorted_keys (vars r)) as [|k ks IH]; [done|]. cbn [omap list_omap mbind list_bind].
  destruct (vars r !! k) as [x|]; cbn [fmap option_fmap option_map]; [|exact IH].
  rewrite <- IH, <- samples_export. cbn [omap list_omap].
  destruct (export r k x) as [v|]; [|done]. by rewrite fmap_cons, concat_cons.
Qed.

Lemma told_names shown r :
  vars r !! ([] : bytes) = None → Forall (λ s, om_name s.1.1 = true) (told shown r).
Proof.
  intros Hnil. apply Forall_bind, Forall_forall. intros [key x] Hin%elem_of_map_to_list.
  assert (Hn : om_name (metricNameToOM key) = true) by (apply metricNameToOM_valid; congruence).
  assert (Hone : ∀ (l : option (bytes * bytes)) (t : bytes),
    Forall (λ s : sample, om_name s.1.1 = true) [(metricNameToOM key, l, t)])
    by (intros l t; apply Forall_cons_2; [exact Hn|apply Forall_nil_2]).
  destruct x as [i|f|m|]; [apply Hone|apply Hone| |apply Forall_nil_2].
  apply Forall_bind, Forall_forall. intros [k e] _.
  destruct e; [apply Hone|apply Hone|apply Forall_nil_2].
Qed.

(** C40: The page of metrics is one that its readers understand, when descriptions
    are of one line, labels have neither line breaks nor equal signs
    ([ok_registry]), and numbers are written without line breaks.  It is made of
    whole lines, the last of which is the mark of the end; every line is a comment
    or a sample.  The samples, as they are read, are exactly those of the
    registered numbers, each with the name of its variable and its value; those in
    a map have the label that the map was registered with, or ["key"] without one,
    with the key as its value: the key itself, whatever quotes, backslashes or line
    breaks it has, if it is valid UTF-8, and otherwise an ASCII form of it
    ([strconv.QuoteToASCII]), so that the value is always valid UTF-8.  The names
    are well-formed, unless a variable without a name is registered. *)
Theorem metrics_read r :
  ok_registry r →
  ∃ ls shown, Split (MetricsHandler r) [LF] = ls ++ [[]] ∧ last ls = Some ("# EOF" : bytes) ∧
    Forall readable ls ∧ samples_in ls ≡ₚ told shown r ∧
    (∀ k, ValidString k = true → shown k = k) ∧
    (∀ k, ValidString k = false → shown k = quote_ascii k) ∧
    (∀ k, ValidString (shown k) = true) ∧
    (vars r !! ([] : bytes) = None → Forall (λ s, om_name s.1.1 = true) (samples_in ls)).
Proof.
  intros Hr. set (ls := concat (var_lines <$> in_order r) ++ footer r).
  assert (Hp : in_order r ≡ₚ exported r) by apply sort_slice_perm.
  assert (Hok : Forall ok_var (in_order r)).
  { rewrite Hp. apply Forall_forall. intros v. by apply exported_ok. }
  destruct (samples_in_concat _ Hok) as (Hread & Hsamples & Hlf).
  assert (Htold : samples_in ls ≡ₚ told label_text r).
  { unfold ls, samples_in. rewrite omap_app. fold (samples_in (concat (var_lines <$> in_order r))).
    rewrite Hsamples, app_nil_r, <- samples_told.
    by rewrite !concat_bind, Hp. }
  exists ls, label_text. split_and!; [| | |exact Htold|..].
  - rewrite page_text. apply Split_terminated, Forall_app. split; [done|].
    repeat constructor; try (apply (bool_decide_eq_true_1 _); reflexivity).
    rewrite !not_elem_of_app. split_and!; try (apply (bool_decide_eq_true_1 _); reflexivity).
    apply ignored_line_no_lf, Forall_forall. intros n. apply ignored_names.
  - unfold ls, footer. by rewrite last_app.
  - apply Forall_app. split; [done|]. repeat constructor; by eexists.
  - intros k Hk. unfold label_text. by rewrite Hk.
  - intros k Hk. unfold label_text. by rewrite Hk.
  - apply label_text_valid.
  - intros Hnil. rewrite Htold. by apply told_names.
Qed.

End Export.

(** ** An example *)

Module Example.
Import AsciiOnly MergeSort.

(** Keys with quotes, backslashes and line breaks; no floating point. *)
Definition registry : registry (F := Empty_set) :=
  {| vars := {[ ("chasquid/x" : bytes) :=
                 VMap {[ ("a" ++ [DQUOTE; LF] ++ ["\"%char] : bytes) := EInt 3 ]};
                ("9" : bytes) := VInt (-1) ]};
     descriptions := ∅; mapLabelNames := {[ ("chasquid/x" : bytes) := "what" : bytes ]} |}.

Definition no_float (f : Empty_set) : bytes := match f with end.

Lemma metrics_read_witness :
  ∃ ls, Split (MetricsHandler no_float registry) [LF] = ls ++ [[]] ∧
    last ls = Some ("# EOF" : bytes) ∧
    MetricsHandler no_float registry =
      text ["chasquid_x{what=" ++ [DQUOTE] ++ "a\" ++ [DQUOTE] ++ "\n\\" ++ [DQUOTE] ++ "} 3";
            "i9 -1"; "# HELP generated_by expvarom"; "# HELP ignored_variables []"; "# EOF"].
Proof.
  destruct (metrics_read no_float ltac:(by intros []) registry) as (ls & shown & H1 & H2 & _).
  - split; [by intros k d|]. cbn [mapLabelNames registry].
    intros k l [<- <-]%lookup_singleton_Some.
    split; apply (bool_decide_eq_true_1 _); reflexivity.
  - exists ls. split; [exact H1|]. split; [exact H2|]. vm_compute. reflexivity.
Defined.

(** The key of the tests that is not valid UTF-8. *)
Example invalid_key :
  quoteLabelValue ("key2.7-" ++ [ascii_of_N 195; ascii_of_N 177] ++ "aca-A" ++ [TAB]
                   ++ [ascii_of_N 255; ascii_of_N 254; ascii_of_N 253] ++ "B")
  = [DQUOTE] ++ "key2.7-\\u00f1aca-A\\t\\xff\\xfe\\xfdB" ++ [DQUOTE].
Proof. vm_compute. reflexivity. Qed.

End Example.
End Expvarom.
