(* ===== verification/Tools.v ===== *)
(** The smaller programs: cmd/smtp-check and cmd/dovecot-auth-cli, and the
    handlers of the monitoring server, monitoring.go. *)

From S2P Require Import Prelude GoStrings GoSlices GoTime Envelope DotReader Auth Store.
From S2P Require Import SmtpClient Sts Conn Dovecot DovecotProps.
#[local] Open Scope go_scope.

(** ** cmd/smtp-check *)
Module SmtpCheck.

(** The command-line flags, but for [localname], which is only sent. *)
Record flags := mkFlags {
  port : bytes;
  skipTLSCheck : bool;
}.

(** What the network answers.  A connection is, in the order of the calls, the
    error of dialing, that of the greeting, and the outcome of [StartTLS]: the
    version and the cipher suite. *)
Record world := mkWorld {
  w_sts : Sts.net;
  w_lookupMX : bytes → res bytes (list (Z * bytes));
  w_lookupIP : bytes → res bytes (list bytes);
  w_spf : bytes → bytes → bytes → bytes * option bytes;
  w_dial : bytes → option bytes;
  w_hello : bytes → option bytes;
  w_startTLS : bytes → res bytes (N * N);
}.

Inductive failure :=
| SPFFailed (host ip : bytes)
| TLSFailed (host : bytes)
| STSFailed (host : bytes).

(** The lines of the log, by what they say. *)
Inductive line :=
| LNotAvailable (e : Sts.error)
| LPolicy (p : Sts.Policy)
| LPolicyOK
| LMX (pref : Z) (host : bytes)
| LSPF (result ip : bytes) (e : option bytes)
| LTLSSkipped
| LTLSError (e : bytes)
| LTLSOK (version cipher : N)
| LNotAllowed
| LAllowed.

(** [log.Fatal], before the end. *)
Inductive fatal :=
| FatalUse
| FatalIDNA
| FatalPolicy (e : Sts.error)
| FatalMX (e : bytes)
| FatalNoMX
| FatalIP (e : bytes)
| FatalDial (e : bytes)
| FatalHello (e : bytes).

(** What was logged and the errors so far. *)
Abbreviation M A := (res fatal (A * list line * list failure)).

Section Check.
Context `{Unicode, Precis}.
Variable f : flags.
Variable w : world.

Fixpoint check_ips (domain host : bytes) (ips : list bytes) : list line * list failure :=
  match ips with
  | [] => ([], [])
  | ip :: ips =>
    let '(result, err) := w_spf w ip domain ("test@" ++ domain) in
    let '(ls, errs) := check_ips domain host ips in
    (LSPF result ip err :: ls,
     if result != Smtpsrv.spf_Pass then SPFFailed host ip :: errs else errs)
  end.

Definition check_tls (host : bytes) : res fatal (list line * list failure) :=
  if skipTLSCheck f then Ok ([LTLSSkipped], [])
  else
    match w_dial w (host ++ ":" ++ port f) with
    | Some e => Err (FatalDial e)
    | None =>
      match w_hello w host with
      | Some e => Err (FatalHello e)
      | None =>
        match w_startTLS w host with
        | Err e => Ok ([LTLSError e], [TLSFailed host])
        | Ok (version, cipher) => Ok ([LTLSOK version cipher], [])
        end
      end
    end.

(** The line that says that the server is allowed comes in any case. *)
Definition check_policy (policy : option Sts.Policy) (host : bytes) :
    list line * list failure :=
  match policy with
  | None => ([], [])
  | Some p =>
    if Sts.MXIsAllowed p host then ([LAllowed], [])
    else ([LNotAllowed; LAllowed], [STSFailed host])
  end.

Definition check_mx (domain : bytes) (policy : option Sts.Policy) (mx : Z * bytes) :
    res fatal (list line * list failure) :=
  match w_lookupIP w mx.2 with
  | Err e => Err (FatalIP e)
  | Ok ips =>
    let '(l1, e1) := check_ips domain mx.2 ips in
    '(l2, e2) ← check_tls mx.2;
    let '(l3, e3) := check_policy policy mx.2 in
    Ok (LMX mx.1 mx.2 :: l1 ++ l2 ++ l3, e1 ++ e2 ++ e3)
  end.

Fixpoint check_mxs (domain : bytes) (policy : option Sts.Policy) (mxs : list (Z * bytes)) :
    res fatal (list line * list failure) :=
  match mxs with
  | [] => Ok ([], [])
  | mx :: mxs =>
    '(l1, e1) ← check_mx domain policy mx;
    '(l2, e2) ← check_mxs domain policy mxs;
    Ok (l1 ++ l2, e1 ++ e2)
  end.

(** [main]: the lines and the errors; with no errors it is a success, otherwise
    they are listed and the program fails. *)
Definition main (fake arg0 : bytes) : res fatal (list line * list failure) :=
  if arg0 == [] then Err FatalUse
  else
    match idna_ToASCII arg0 with
    | (_, true) => Err FatalIDNA
    | (domain, false) =>
      '(policy, l0) ← match Sts.UncheckedFetch fake (w_sts w) domain with
                      | Err e => Ok (None, [LNotAvailable e])
                      | Ok p =>
                        match Sts.Check p with
                        | Some e => Err (FatalPolicy e)
                        | None => Ok (Some p, [LPolicy p; LPolicyOK])
                        end
                      end;
      match w_lookupMX w domain with
      | Err e => Err (FatalMX e)
      | Ok [] => Err FatalNoMX
      | Ok mxs =>
        '(ls, errs) ← check_mxs domain policy mxs;
        Ok (l0 ++ ls, errs)
      end
    end.

(** *** What success means *)

(** What is checked of a server. *)
Definition good_mx (domain : bytes) (policy : option Sts.Policy) (host : bytes) : Prop :=
  (∃ ips, w_lookupIP w host = Ok ips ∧
     Forall (λ ip, (w_spf w ip domain ("test@" ++ domain)).1 = Smtpsrv.spf_Pass) ips) ∧
  (skipTLSCheck f = false → is_ok (w_startTLS w host) = true) ∧
  (∀ p, policy = Some p → Sts.MXIsAllowed p host = true).

Lemma check_ips_ok domain host ips :
  (check_ips domain host ips).2 = [] ↔
  Forall (λ ip, (w_spf w ip domain ("test@" ++ domain)).1 = Smtpsrv.spf_Pass) ips.
Proof.
  induction ips as [|ip ips IH]; [done|]. cbn [check_ips]. rewrite Forall_cons, <- IH.
  destruct (w_spf _ _ _ _) as [result err]. destruct (check_ips domain host ips) as [ls errs].
  cbn [fst snd]. case_bool_decide; naive_solver.
Qed.

Lemma check_mx_ok domain policy mx ls :
  check_mx domain policy mx = Ok (ls, []) → good_mx domain policy mx.2.
Proof.
  unfold check_mx. destruct (w_lookupIP w mx.2) as [ips|] eqn:Ei; [|done].
  pose proof (check_ips_ok domain mx.2 ips) as Hi.
  destruct (check_ips _ _ _) as [l1 e1]. destruct (check_tls mx.2) as [[l2 e2]|] eqn:Et; [|done].
  cbn [mbind res_bind]. destruct (check_policy policy mx.2) as [l3 e3] eqn:Ep.
  intros [= _ He]. apply app_eq_nil in He as [-> [-> ->]%app_eq_nil]. split_and!.
  - exists ips. split; [done|]. by apply Hi.
  - intros Hs. unfold check_tls in Et. rewrite Hs in Et.
    destruct (w_dial _ _); [done|]. destruct (w_hello _ _); [done|].
    by destruct (w_startTLS w mx.2) as [[]|].
  - intros p ->. unfold check_policy in Ep. by destruct (Sts.MXIsAllowed p mx.2).
Qed.

Lemma check_mxs_ok domain policy mxs ls :
  check_mxs domain policy mxs = Ok (ls, []) →
  Forall (λ mx, good_mx domain policy mx.2) mxs.
Proof.
  revert ls. induction mxs as [|mx mxs IH]; intros ls; [constructor|]. cbn [check_mxs].
  destruct (check_mx _ _ _) as [[l1 e1]|] eqn:E1; [|done]. cbn [mbind res_bind].
  destruct (check_mxs _ _ mxs) as [[l2 e2]|] eqn:E2; [|done]. cbn [mbind res_bind].
  intros [= _ He]. apply app_eq_nil in He as [-> ->].
  constructor; [by eapply check_mx_ok|by eapply IH].
Qed.

(** The program reports success only if there is a server, the policy of the
    domain, if it can be had, is a valid one, and every server has addresses
    that pass SPF, has a valid certificate, and is allowed by the policy. *)
Lemma main_success fake arg0 ls :
  main fake arg0 = Ok (ls, []) →
  ∃ domain policy mxs,
    idna_ToASCII arg0 = (domain, false) ∧ w_lookupMX w domain = Ok mxs ∧ mxs ≠ [] ∧
    (∀ p, policy = Some p → Sts.Check p = None) ∧
    (policy = None → is_ok (Sts.UncheckedFetch fake (w_sts w) domain) = false) ∧
    Forall (λ mx, good_mx domain policy mx.2) mxs.
Proof.
  unfold main. destruct (bool_decide _); [done|].
  destruct (idna_ToASCII arg0) as [domain []]; [done|].
  set (pol := match Sts.UncheckedFetch fake (w_sts w) domain with Err e => _ | Ok p => _ end).
  destruct pol as [[policy l0]|] eqn:Ep; [|done]. cbn [mbind res_bind].
  destruct (w_lookupMX w domain) as [mxs|] eqn:Em; [|done].
  destruct mxs as [|mx mxs]; [done|].
  destruct (check_mxs _ _ _) as [[l e]|] eqn:Ec; [|done]. cbn [mbind res_bind].
  intros [= _ ->]. exists domain, policy, (mx :: mxs). split_and!; try done.
  - intros p ->. unfold pol in Ep.
    destruct (Sts.UncheckedFetch _ _ _) as [p'|]; [|done].
    destruct (Sts.Check p') eqn:Ek; [done|]. injection Ep as -> _. done.
  - intros ->. unfold pol in Ep.
    destruct (Sts.UncheckedFetch _ _ _) as [p'|]; [|done]. by destruct (Sts.Check p').
  - by eapply check_mxs_ok.
Qed.

End Check.

(** A server that the policy forbids is also said to be allowed. *)
Example forbidden_and_allowed `{Unicode, Precis} p host :
  Sts.MXIsAllowed p host = false →
  (check_policy (Some p) host).1 = [LNotAllowed; LAllowed].
Proof. unfold check_policy. by intros ->. Qed.

End SmtpCheck.

(** ** cmd/dovecot-auth-cli *)
Module DovecotCli.

Inductive verdict :=
| Yes
| No (err : option Dovecot.error)
| NoUnknownCommand (cmd : bytes)
| NoArguments.

(** [args] are the arguments that are not flags; one that is missing is empty. *)
Definition main (pid : Z) (w : Dovecot.world) (args : list bytes) : verdict :=
  let arg i := default [] (args !! i) in
  if length args <? 3 then NoArguments
  else
    let a := Dovecot.NewAuth (arg 0 ++ "-userdb") (arg 0 ++ "-client") in
    let answer (r : res Dovecot.error bool) :=
      match r with
      | Ok true => Yes
      | Ok false => No None
      | Err e => No (Some e)
      end in
    if arg 1 == "exists" then answer (Dovecot.Exists w 0 a (arg 2)).2
    else if arg 1 == "auth" then answer (Dovecot.Authenticate pid w 0 a (arg 2) (arg 3)).2
    else NoUnknownCommand (arg 1).

(** A yes for a password is an approval of the service. *)
Lemma main_auth_yes pid w prefix user passwd :
  main pid w [prefix; "auth"; user; passwd] = Yes →
  Dovecot.isUsernameSafe user = true ∧
  ∃ k path l, w k path = Ok l ∧ DovecotProps.approved pid user passwd l.
Proof.
  unfold main. cbn [length list_lookup lookup default]. simpl.
  destruct (Dovecot.Authenticate _ _ _ _ _ _).2 as [[]|] eqn:E; try done. intros _.
  by apply DovecotProps.Authenticate_yes in E.
Qed.

End DovecotCli.

(** ** monitoring.go *)
Module Monitoring.

Definition roundDuration (d : Z) : Z := Time.Round d Time.Second.

(** The settings of the build that are looked at. *)
Record build := mkBuild {
  dirty : bool;
  gitRev : bytes;
  gitTime : bytes;
}.

Fixpoint build_settings (settings : list (bytes * bytes)) (b : build) : build :=
  match settings with
  | [] => b
  | (k, v) :: settings =>
    build_settings settings
      (if k == "vcs.modified" then
         if v == "true" then mkBuild true (gitRev b) (gitTime b) else b
       else if k == "vcs.time" then mkBuild (dirty b) (gitRev b) v
       else if k == "vcs.revision" then mkBuild (dirty b) v (gitTime b)
       else b)
  end.

(** The dates of package [time] that are used: [Time.Format] with two layouts,
    the parser of RFC 3339, whose error is not looked at, and [Time.Unix]. *)
Record dates := mkDates {
  format_long : Z → bytes;
  format_day : Z → bytes;
  parse_rfc3339 : bytes → Z;
  from_unix : Z → Z;
  to_unix : Z → Z;
}.

Record version_info := mkInfo {
  vi_version : bytes;
  vi_sourceDate : Z;
  vi_dateVar : bytes;
  vi_timestampVar : Z;
}.

(** [parseVersionInfo], with the two variables that the linker sets; a panic is
    no result. *)
Definition parseVersionInfo (d : dates) (bi : option (list (bytes * bytes)))
    (version sourceDateTs : bytes) : option version_info :=
  settings ← bi;
  let b := build_settings settings (mkBuild false [] []) in
  date ← (if sourceDateTs != [] then
            match ParseInt sourceDateTs with
            | (_, Some _) => None
            | (n, None) => Some (from_unix d n)
            end
          else Some (parse_rfc3339 d (gitTime b)));
  let version :=
    if version == [] then
      format_day d date
      ++ (if gitRev b != [] then "-" ++ take 9 (gitRev b) else [])
      ++ (if dirty b then "-dirty" else [])
    else version in
  Some (mkInfo version date (format_long d date) (to_unix d date)).

(** The answers of the handlers: a status and a text. *)
Record response := mkResponse { code : Z; page : bytes }.

(** What the handler of the index makes of a path; the page is a template. *)
Definition index_handler (index : bytes) (path : bytes) : response :=
  if path != "/" then mkResponse 404 ("404 page not found" ++ [LF]) else mkResponse 200 index.

(** The boolean tells whether the program is on its way to exit. *)
Definition exitHandler (method : bytes) : response * bool :=
  if method != "POST" then (mkResponse 405 ("Use POST method for exiting" ++ [LF]), false)
  else (mkResponse 200 ("OK exiting" ++ [LF]), true).

(** [set_flags] and [all_flags] are the flags that [flag.Visit] and
    [flag.VisitAll] go through, with their values. *)
Definition flag_line (f : bytes * bytes) : bytes := "-" ++ f.1 ++ "=" ++ f.2 ++ [LF].

Definition debugFlagsHandler (set_flags all_flags : list (bytes * bytes)) : bytes :=
  concat (flag_line <$> set_flags) ++ [LF]
  ++ concat (flag_line <$> filter (λ f, f.1 ∉ set_flags.*1) all_flags).

(** [format] is [prototext.Format]. *)
Definition debugConfigHandler {C} (format : C → bytes) (conf : C) : response :=
  mkResponse 200 (format conf).

(** The patterns that [launchMonitoringServer] registers; [http.HandleFunc] panics
    on one that is registered twice, and these are different. *)
Inductive handler := HIndex | HExit | HMetrics | HFlags | HConfig | HTraces.

#[export] Instance handler_eq_dec : EqDecision handler.
Proof. solve_decision. Defined.

Definition routes : list (bytes * handler) :=
  [ ("/" : bytes, HIndex); ("/exit" : bytes, HExit); ("/metrics" : bytes, HMetrics);
    ("/debug/flags" : bytes, HFlags); ("/debug/config" : bytes, HConfig);
    ("/debug/traces" : bytes, HTraces) ].

(** [http.ServeMux] for these patterns: a pattern matches its own path only,
    except ["/"], which takes the paths that nothing else matches.  Other
    patterns are registered elsewhere: /debug/queue by [InitQueue] of the server,
    and /debug/vars and /debug/pprof/ by packages of the standard library. *)
Definition route (path : bytes) : handler :=
  match list_find (λ r, r.1 = path) routes with
  | Some (_, (_, h)) => h
  | None => HIndex
  end.

(** What the pages are made of: the template of the index with its data, the page
    of metrics, the flags, the configuration, the page of traces, and the pages
    that are registered elsewhere. *)
Record site := mkSite {
  index_page : bytes;
  metrics_page : bytes;
  flags_set : list (bytes * bytes);
  flags_all : list (bytes * bytes);
  config_text : bytes;
  traces_page : response;
  other_page : bytes → option response;
}.

(** One request to the server of [launchMonitoringServer]. *)
Definition serve_request (s : site) (method path : bytes) : response * bool :=
  match route path with
  | HIndex =>
    match other_page s path with
    | Some r => (r, false)
    | None => (index_handler (index_page s) path, false)
    end
  | HExit => exitHandler method
  | HMetrics => (mkResponse 200 (metrics_page s), false)
  | HFlags => (mkResponse 200 (debugFlagsHandler (flags_set s) (flags_all s)), false)
  | HConfig => (debugConfigHandler id (config_text s), false)
  | HTraces => (traces_page s, false)
  end.

Inductive ending := Exits (code : Z) | Fatal (msg : bytes) | Serving.

(** [launchMonitoringServer]: [listen] is the error that [ListenAndServe] gives
    without serving, if any.  A request to exit shuts the server down once its
    answer, and those of the requests that were accepted before, are sent. *)
Fixpoint serve_requests (s : site) (requests : list (bytes * bytes)) : list response * ending :=
  match requests with
  | [] => ([], Serving)
  | (method, path) :: requests =>
    let '(r, exits) := serve_request s method path in
    if exits : bool then ([r], Exits 0)
    else let '(rs, e) := serve_requests s requests in (r :: rs, e)
  end.

Definition launchMonitoringServer (s : site) (listen : option bytes)
    (requests : list (bytes * bytes)) : list response * ending :=
  match listen with
  | Some err => ([], Fatal ("Monitoring server failed: " ++ err))
  | None => serve_requests s requests
  end.

Lemma route_exit path : route path = HExit ↔ path = "/exit".
Proof.
  split; [|by intros ->]. unfold route.
  destruct (list_find _ routes) as [[i [p h]]|] eqn:E; [|done].
  apply list_find_Some in E as (Hi & Hp & _). simpl in Hp. subst p. intros ->.
  apply list_elem_of_lookup_2 in Hi. unfold routes in Hi.
  rewrite !elem_of_cons, elem_of_nil in Hi. naive_solver.
Qed.

(** The pages can be looked at by anyone without stopping the server: only a POST
    to /exit does, and it does. *)
Theorem monitoring_exits s listen requests :
  (launchMonitoringServer s listen requests).2 = Exits 0 ↔
  listen = None ∧ ("POST" : bytes, "/exit" : bytes) ∈ requests.
Proof.
  unfold launchMonitoringServer. destruct listen; [by split; [|intros []]|].
  induction requests as [|[m p] requests IH].
  { simpl. rewrite elem_of_nil. naive_solver. }
  rewrite elem_of_cons. cbn [serve_requests].
  assert (HS : (serve_request s m p).2 = true ↔ m = "POST" ∧ p = "/exit").
  { unfold serve_request. destruct (route p) eqn:Er.
    2: { apply route_exit in Er as ->. unfold exitHandler.
         case_bool_decide as Em; cbn [negb snd]; naive_solver. }
    1: destruct (other_page s p).
    all: cbn [snd]; split; [done|intros [_ ->]; discriminate Er]. }
  destruct (serve_request s m p) as [r [|]]; cbn [snd] in HS.
  - cbn [snd]. destruct (proj1 HS eq_refl) as [-> ->]. naive_solver.
  - destruct (serve_requests s requests) as [rs e]. cbn [snd] in IH |- *. rewrite IH.
    split; [naive_solver|]. intros [_ [[= <- <-]|]]; [|done].
    discriminate (proj2 HS (conj eq_refl eq_refl)).
Qed.

End Monitoring.
